(* ===== verification/_CoqProject ===== *)
-Q . S2P
Prelude.v
REfi.v
Mem.v
Layout.v
Structs.v
FwStructs.v
PeLoader.v
PeReloc.v
PeProps.v
Variables.v
HandleDb.v
Console.v
DevicePath.v
Events.v
Part.v
VirtioBlk.v
VirtioProps.v
VirtioInit.v
VirtioPci.v
EfiStr.v
Fat.v
FatDemo.v
FatTable.v
FatFile.v
FatInit.v
FatDir.v
FileRead.v
BzImage.v
BzProps.v
Loader.v
PeFile.v
PeFileProps.v
LoaderProps.v
Alloc.v
MemMap.v
MapSafety.v
AllocRepr.v
AllocRefine.v
AllocSafety.v
AllocRoom.v
EfiFile.v
FileProps.v
FileSafety.v
FileInfo.v
Hob.v
HobProps.v
FvProps.v
Services.v
ServicesProps.v
ServiceTable.v
OsFmt.v
Entry.v
UnitTests.v
EfiBlock.v
BlockProps.v
Image.v
ImageProps.v
LocateProps.v
Boot.v
BootProps.v
BootMount.v
BootRoom.v
BootLoad.v
BootFile.v
BootEnd.v
LayoutProps.v
Dump.v
