(* ===== verification/Prelude.v ===== *)
(** * Verification of rust-hypervisor-firmware

    The program is a UEFI firmware for cloud hypervisors, written in Rust: it
    finds the EFI system partition of a virtio disk, loads an EFI application
    from its FAT file system and runs it, and offers that application the UEFI
    boot and runtime services.  This development models the firmware's own logic
    as Rocq functions translated from the sources and proves what makes them
    correct.

    ** The parts and the files that model them

    - [Prelude]: outcomes of Rust code ([res]: a result, a panic, or exhausted
      fuel), [Result], machine integers with their wrap-around, indexing that
      panics out of range, and the tactics of the development.
    - [REfi] (r-efi/src/base.rs, r-efi/src/system.rs): statuses, booleans, GUIDs,
      memory types and the constants of the UEFI interface.
    - [Mem] (src/mem.rs): byte-addressed memory with little-endian accesses, and
      module [MemoryRegion], the bounds-checked window on it.
    - [Layout]: [repr(C)] and packed declarations with the offsets and sizes the
      target gives them.  [Structs] has the declarations of the r-efi crate
      (base.rs, system.rs, protocols), [FwStructs] those of the firmware, a module
      per source file.  [LayoutProps] shows that the offsets written in the models
      below are those of the declarations.
    - [Variables] (src/efi/variable.rs): module [VariableStore], the 64-slot
      variable store.  [HandleDb] (src/efi/handle_database.rs): module
      [HandleDatabase], handles and the protocols installed on them.  [Events]
      (src/efi/event.rs): module [EventInfo].  [DevicePath]
      (src/efi/device_path.rs): walks of binary device paths.
    - [Console] (src/efi/conout.rs, src/efi/conin.rs, src/logger.rs and the text
      protocols of src/efi/mod.rs): modules [ConOut], [ConIn], [Logger]; a port
      is the list of the bytes written to it.
    - [Part] (src/part.rs, the trait of src/block.rs): class [SectorRead], what
      the file system and the partition code need of a disk, and module [Part],
      GPT partitions.
    - [VirtioBlk] (src/block.rs, src/virtio.rs): class [VirtioTransport], and module
      [VirtioBlock], the virtio block driver over any transport; the device is a
      parameter of the completion loop.  [VirtioProps] has what a device promises
      and the theorem on requests, [VirtioInit] the initialisation protocol as a
      step relation.  [VirtioPci] (src/mmio.rs, src/pci.rs): the two transports,
      instances of the class over any [Bus], and PCI configuration.
    - [PeLoader] (src/efi/peloader.rs): module [PeLoader], loading and relocating a
      PE32+ image in memory; [PeReloc] relates the relocation table to a list of
      fixups, [PeProps] has the theorems.
    - [EfiStr] (efi-str/src, src/common.rs): UCS-2 and UTF-8 conversions.  [OsFmt]
      (efi-str/src/os_str.rs, os_string.rs, macros.rs, the text of a GUID and the
      printing functions of src/efi/mod.rs): formatting over any [Write], comparison
      without case.
    - [Fat] (src/fat.rs): module [Fat], the FAT12/16/32 file system as a client
      of [SectorRead] and itself an instance of it.  [FatTable], [FatFile],
      [FatDir], [FatInit] hold its theorems, [FatDemo] two concrete volumes.
    - [Alloc] (src/efi/alloc.rs): module [Alloc], the page allocator: a linked
      list threaded through an array of 32768 slots.  [MemMap] is its abstract
      specification, a list of regions; [MapSafety] proves the abstract
      operations safe; [AllocRepr] and [AllocRefine] relate the array to the list
      of regions and prove each operation a refinement; [AllocSafety] states the
      results about the code; [AllocRoom] says when allocations succeed.
    - [EfiFile] (src/efi/file.rs, src/calloc.rs): modules [Calloc] and [EfiFile], the
      EFI file protocol: open files and mounted volumes are objects at allocated
      addresses, each over a [Fat] node.  [FileProps] has the specifications of its
      parts, [FileSafety] and [FileInfo] its theorems; [FileRead] states what the
      loaders below rely on in an open file.
    - [EfiBlock] (src/efi/block.rs): module [EfiBlock], the block-I/O protocol, a
      wrapper in memory for the disk and for each partition; [BlockProps] has its
      theorems.
    - [Hob] (src/pi, src/efi/init.rs): modules [Hob] and [Fv], the walks over the
      hand-off blocks and firmware volumes the boot loader left in memory, and the
      initialisation of the allocator from them; [HobProps], [FvProps] have the
      theorems.
    - [BzImage] (src/bzimage.rs) and [Loader] (src/loader.rs): booting a Linux kernel
      without UEFI, with [BzProps] and [LoaderProps].
    - [PeFile] (src/pe.rs): the older PE loader, which reads a file sector by sector,
      in a monad whose memory survives a panic; [PeFileProps].
    - [Services] (src/efi/mod.rs): module [Services], the boot and runtime
      services: a record [Firmware] of memory, allocator, handle database,
      variable store and events, and one function per entry point, which reads
      and writes the caller's pointers in memory.  [ServicesProps] has the theorems
      on single services; [ServiceTable] is the two tables of services as one
      function on calls.
    - [Image] (src/efi/image.rs and [locate_device_path], [start_image] of
      src/efi/mod.rs): loaded images as structures in memory with their handles;
      [ImageProps], [LocateProps].  [Boot] ([load_image] and [enter_uefi] of
      src/efi/mod.rs) composes all of them: tables, memory, disk, file system,
      loader application; [BootProps] has the theorem on its first part, [BootMount]
      that on mounting the disk's EFI partition, [BootRoom] the same with memory to
      spare, [BootLoad] and [BootFile] those on loading and starting an application,
      from memory and from a file; [BootEnd] composes the parts of [enter_uefi].
    - [Dump] (the dumpers of src/pi/hob_lib.rs, src/efi/device_path.rs,
      src/efi/peloader.rs, src/pci.rs): what the firmware prints of the structures it
      works on, as texts sent to the [Logger].
    - [Entry] (src/main.rs, [reset_system]): the reset through the keyboard
      controller, the controller being a parameter, and the control registers.
    - [UnitTests]: the repository's unit tests that need no disk image, as functions
      whose assertions panic.

    ** How code becomes definitions

    A method of a Rust type is a function on the record that models the type; a
    method that changes [self] returns the new state beside its result.  A
    buffer the code fills is returned.  Raw pointers are addresses in [memory]
    (the firmware is identity mapped); a handle, which the code represents as
    the address of a table entry, is the entry's index.  The crate's release
    profile has overflow checks off, so integer arithmetic wraps at its width;
    [usize] is 64 bits.  [assert!], [unwrap] of nothing, division by zero and
    indexing or slicing out of range give [Panic].  Log output is left out but in
    [Dump] and the printing functions of [OsFmt].

    Loops over a bounded range are structural recursions.  Loops bounded by the
    data (list walks, strings, directories, cluster chains, seeks) take fuel, and
    the theorems say how much is enough: one more than the number of slots for
    the allocator's list ([Alloc.walk_fuel], fixed), the number of nodes of a
    device path, of characters of a string, of sectors and records of a
    directory, of relocation blocks; [SEEK_FUEL], 2^23 + 1, covers every 32-bit
    file position; the virtio completion loop takes the device's latency; the BAR
    loop runs at most five times and has fuel 6; a list of PCI capabilities has at
    most 256 offsets ([CAPABILITY_FUEL], 257).  The walk of a HOB list takes one step
    more than it has blocks, that of a firmware volume a quarter of its length
    and one, a read of a file one step more than its sectors, the configuration
    files of the Linux loader nine sectors ([CONF_FUEL]).  The reset loop, which has
    no end, is modelled as its first rounds.  Code outside the sources
    (the virtio device, the disk behind [SectorRead], the application an image
    contains) is a parameter.

    ** What the theorems show

    - Allocator ([AllocSafety]): whatever is called with any arguments, every method
      returns and the list of slots stays sound, and calls in range keep the map well
      formed ([allocator_invariant]); the code refines the abstract map
      ([allocator_refines_map]); allocation hands out only free pages and honours
      the request, failure changes nothing, freeing and merging are exact,
      allocate-free is a round trip, the map is reported faithfully; and one
      overflow the code does not check ([allocate_address_overflow]).
    - FAT file system: the allocation table is followed as its bits say
      ([next_cluster_follows_fat]); every file handle reads and seeks its file's
      bytes ([file_handle_correct], [read_to_end_correct]); directories list what
      their records mean, byte by byte ([directory_listing_correct]); paths resolve component by
      component ([open_path_correct]); mounting gives the geometry the boot sector's
      bytes describe ([init_geometry]); and the rewinding of FAT12/16 root directories, which is
      wrong ([fat16_root_rewound]).  Partitions: [find_efi_partition_correct],
      [get_partitions_correct].
    - File protocol: along every run of its operations the objects lie in allocated
      memory and apart from each other ([file_protocol_invariant]); what open,
      read, get_info and directory reads do ([open_correct], [read_correct],
      [get_info_correct], [directory_read_correct]).  Block protocol:
      [read_blocks_correct], [populate_correct].
    - Drivers: requests move exactly a sector's bytes whatever state earlier
      requests left ([virtio_read_write_correct]); initialisation follows the virtio
      protocol, the device's answers deciding ([blk_init_follows_protocol]); PCI BARs, and where their numbering
      goes wrong ([pci_init_packs_bars]).
    - Images: a well-formed PE image is loaded and relocated
      ([PeProps.load_image_correct]), its headers are checked inside the buffer
      ([image_info_inside]), the wrong bytes are zeroed ([section_zeroes_past_end]);
      loading an image and starting its handle calls the relocated entry point
      ([load_image_then_start]); the file loader of pe.rs, however it
      ends, writes only the bytes its file's header declares ([load_stays_inside]).
    - The whole boot ([boot_runs_application]): with a sound HOB list, room in its
      memory map, a loadable image in a firmware volume and a FAT file system in the
      EFI partition, [enter_uefi] fails at no step and calls the image once; what the
      image then finds in memory, handles and variables is what each step promises.
    - Start of the firmware: tables, memory, HOB list, consoles and variable are set
      up ([initialize_correct]); the EFI partition is mounted and its protocol
      installed with the partition's device path ([mount_correct]); the application
      of the firmware volume is called at its relocated entry point, or nothing
      changes when memory has run out ([start_loader_runs_application]); an image
      named by a device path is read from the file system and loaded when there is
      memory for it ([load_image_by_path], which joins the theorems on the allocator,
      the FAT file system, the file protocol and the image loader); the memory map is
      the one the HOB list describes ([initialize_memory_correct]); the search of firmware volumes below 4 GiB
      ends on any contents and finds the first application ([find_image_ends],
      [find_image_correct]).  Linux: [load_kernel_correct], [load_initrd_correct],
      [parse_entry_correct].
    - Services: calls with sane arguments return and keep every component's
      invariant ([services_type_safe]); variables ([set_variable_keeps_store],
      [set_then_get_variable], [set_get_variable_service]); the memory map
      ([get_memory_map_correct]); handles and protocols ([install_protocol_correct],
      [handle_lookups_correct], [install_multiple_all_or_nothing]); the search by
      device path ([locate_device_path_correct]).  Further: memory regions
      ([memory_region_window]), strings ([ucs2_utf8_roundtrip]), device paths
      ([device_path_walks]), console ([output_string_correct]), events
      ([create_event_correct]), formatting ([format_fn_correct], [string_fmt_padded],
      [guid_text_roundtrip]), comparison without case ([eq_ignore_ascii_case_correct]),
      the reset command ([reset_is_sent]).  The repository's own unit tests pass in the
      model ([allocator_tests_pass], [other_tests_pass]).

    - Layouts ([LayoutProps]): a written field of a declared structure is read back,
      the others untouched ([field_write_read]); the accessors of the HOB, volume and PE code, the records
      read from sectors, and the structures stored for callers are the declared ones
      ([hob_fv_accessors], [pe_accessors], [sector_records], [structure_stores],
      [table_offsets]); the firmware's copies of r-efi's declarations agree with them
      ([firmware_copies_agree]); a block wrapper's device path continues from one
      member into the next ([device_path_flows]).
    - Dumps: printing a HOB list, a device path and the PCI bus ends, with one entry
      per record, node and device ([dump_hob_correct], [print_device_path_correct],
      [print_bus_correct]).

    ** What is not modelled

    [restore_tpl], which has an empty body; the [Display] of the file system's
    structures; the borrowing and pointer traits of efi-str, which do nothing; the
    constants of r-efi the firmware does not use; the [eficall] macros of r-efi's
    lib.rs, which choose a calling convention; of
    src/main.rs the interrupt table and its handlers, which log and loop, and
    [_start], which calls [enable_sse2] and [enter_uefi]; page tables and assembly;
    the endless loop at the end of [enter_uefi]; the unit tests that read disk
    images the repository does not contain. *)

From Stdlib Require Export ZArith Lia.
From stdpp Require Export base numbers gmap list.

#[global] Open Scope Z_scope.

(** ** Outcomes of Rust code

    [Done v] is a normal return, [Panic] a Rust panic (failed [assert!],
    slice index out of range, [unwrap] of [None], explicit [panic!]) and
    [OutOfFuel] the exhaustion of the fuel a Rocq loop is given.  The crate is
    built with [panic = "abort"], so a panic ends the run and there is no
    handler to model. *)
Inductive res (A : Type) : Type :=
| Done (a : A)
| Panic
| OutOfFuel.
Arguments Done {A} a.
Arguments Panic {A}.
Arguments OutOfFuel {A}.

#[export] Instance res_ret : MRet res := fun _ a => Done a.
#[export] Instance res_bind : MBind res := fun _ _ f m =>
  match m with Done a => f a | Panic => Panic | OutOfFuel => OutOfFuel end.
#[export] Instance res_fmap : FMap res := fun _ _ f m =>
  match m with Done a => Done (f a) | Panic => Panic | OutOfFuel => OutOfFuel end.

(** [assert!] *)
Definition assert_ (b : bool) : res unit := if b then Done tt else Panic.

(** [Option::unwrap] *)
Definition unwrap {A} (o : option A) : res A :=
  match o with Some a => Done a | None => Panic end.

(** [slice\[i\]] as a read, and [slice\[i\] = x] as a write: both panic out of
    range, unlike stdpp's total [insert]. *)
Definition index {A} (l : list A) (i : nat) : res A := unwrap (l !! i).
Definition update {A} (l : list A) (i : nat) (x : A) : res (list A) :=
  if decide (i < length l)%nat then Done (<[i := x]> l) else Panic.

(** Rust's [Result]. *)
Inductive result (A E : Type) : Type :=
| Ok (a : A)
| Err (e : E).
Arguments Ok {A E} a.
Arguments Err {A E} e.

(** ** Machine integers

    A w-bit unsigned integer is a [Z] in [0, 2^w); the release profile of the
    crate has overflow checks off, so [+], [-] and [*] wrap.  The casts [as u8]
    and so on are the same truncations. *)
Definition wrap (w : Z) (x : Z) : Z := x mod 2 ^ w.
#[global] Arguments wrap : simpl never.
Abbreviation u8 := (wrap 8).
Abbreviation u16 := (wrap 16).
Abbreviation u32 := (wrap 32).
Abbreviation u64 := (wrap 64).
(** [usize] is 64 bits wide on the x86_64 target (target.json). *)
Abbreviation usize := (wrap 64).

(** [x as i32] for [x : usize]: the low 32 bits read as two's complement. *)
Definition i32 (x : Z) : Z :=
  let v := u32 x in if v <? 2 ^ 31 then v else v - 2 ^ 32.

Definition in_range (w : Z) (x : Z) : Prop := 0 <= x < 2 ^ w.

Lemma wrap_small w x : 0 <= x < 2 ^ w -> wrap w x = x.
Proof. intros H. unfold wrap. by apply Z.mod_small. Qed.

Lemma wrap_range w x : 0 <= w -> 0 <= wrap w x < 2 ^ w.
Proof. intros H. unfold wrap. apply Z.mod_pos_bound. lia. Qed.

Lemma wrap_wrap w x : wrap w (wrap w x) = wrap w x.
Proof. unfold wrap. apply Zmod_mod. Qed.

(** Subtraction of one page count or address from a larger one never wraps. *)
Lemma wrap_sub_le w x y : 0 <= y <= x -> x < 2 ^ w -> wrap w (x - y) = x - y.
Proof. intros. apply wrap_small. lia. Qed.

(** ** Tactics *)
Create HintDb firmware.
Create Rewrite HintDb firmware.

Lemma bind_Done {A B} (m : res A) (f : A -> res B) b :
  m ≫= f = Done b <-> exists a, m = Done a /\ f a = Done b.
Proof.
  destruct m as [a| |]; cbn; split; intros H; try (by destruct H as (?&?&?)); try done.
  - eauto.
  - destruct H as (?&[= ->]&?). done.
Qed.

Lemma index_Done {A} (l : list A) i x : index l i = Done x <-> l !! i = Some x.
Proof. unfold index. destruct (l !! i); cbn; split; congruence. Qed.

Lemma update_lt {A} (l : list A) i x :
  (i < length l)%nat -> update l i x = Done (<[i := x]> l).
Proof. intros. unfold update. by rewrite decide_True. Qed.

Lemma update_Done {A} (l : list A) i x l' :
  update l i x = Done l' <-> (i < length l)%nat /\ l' = <[i := x]> l.
Proof. unfold update. case_decide; split; intros; naive_solver. Qed.

#[export] Hint Rewrite @update_lt using (rewrite ?length_insert; first [done | lia]) : firmware.
#[export] Hint Rewrite @length_insert : firmware.
#[export] Hint Resolve wrap_small wrap_range : firmware.

(** Run the monad without unfolding the code it sequences. *)
Ltac rstep := cbn [mbind res_bind mret res_ret].

(** Undo one bind of an operation that returned. *)
Tactic Notation "unbind" hyp(E) "as" simple_intropattern(p) "eqn" ident(H) :=
  apply bind_Done in E as (p & H & E).

(** Turn every "this computation returned [Done]" hypothesis into the
    returns of its parts. *)
Ltac res_inv :=
  repeat match goal with
  | H : _ ≫= _ = Done _ |- _ => apply bind_Done in H as (? & ? & H)
  | H : Done _ = Done _ |- _ => injection H as H; subst
  | H : index _ _ = Done _ |- _ => apply index_Done in H
  | H : update _ _ _ = Done _ |- _ => apply update_Done in H as (? & ->)
  | H : mret _ = Done _ |- _ => injection H as H; subst
  | H : Panic = Done _ |- _ => discriminate H
  | H : OutOfFuel = Done _ |- _ => discriminate H
  | x : (_ * _)%type |- _ => destruct x
  end; simplify_eq/=.

(** Linear arithmetic with division and modulo by numerals and closed powers
    of two. *)
Ltac norm_pow :=
  repeat match goal with
  | |- context [2 ^ ?n] =>
      is_ground n; let v := eval vm_compute in (2 ^ n) in change (2 ^ n) with v
  | H : context [2 ^ ?n] |- _ =>
      is_ground n; let v := eval vm_compute in (2 ^ n) in change (2 ^ n) with v in H
  end.
Ltac mlia := norm_pow; Z.div_mod_to_equations; lia.

(** Boolean comparisons to propositions. *)
Ltac bool_to_prop :=
  repeat match goal with
  | H : andb _ _ = true |- _ => apply andb_true_iff in H as [? ?]
  | H : (_ =? _) = true |- _ => apply Z.eqb_eq in H
  | H : (_ =? _) = false |- _ => apply Z.eqb_neq in H
  | H : (_ <=? _) = true |- _ => apply Z.leb_le in H
  | H : (_ <=? _) = false |- _ => apply Z.leb_gt in H
  | H : (_ <? _) = true |- _ => apply Z.ltb_lt in H
  | H : (_ <? _) = false |- _ => apply Z.ltb_ge in H
  end.
