(* ===== verification/REfi.v ===== *)
(** * The r-efi types the firmware uses

    Models the parts of [r-efi/src/base.rs] and [r-efi/src/system.rs] the core
    relies on: [Status] with its error masks, [Boolean], [Guid] with its
    little-endian field encoding, [AllocateType], [MemoryType], and the memory
    attribute and variable attribute constants. *)

From S2P Require Import Prelude.

(** ** Status *)
Module Status.
(** [pub struct Status(usize)] *)
Record t := from_usize { value : Z }.

#[global] Instance eq_dec : EqDecision t.
Proof. solve_decision. Defined.

Definition WIDTH : Z := 8 * 8.
Definition MASK : Z := usize (Z.shiftl 0xc0 (WIDTH - 8)).
Definition ERROR_MASK : Z := usize (Z.shiftl 0x80 (WIDTH - 8)).
Definition WARNING_MASK : Z := usize (Z.shiftl 0x00 (WIDTH - 8)).

Definition SUCCESS : t := from_usize 0.

Definition error_code (n : Z) : t := from_usize (Z.lor n ERROR_MASK).
Definition warning_code (n : Z) : t := from_usize (Z.lor n WARNING_MASK).

Definition LOAD_ERROR : t := error_code 1.
Definition INVALID_PARAMETER : t := error_code 2.
Definition UNSUPPORTED : t := error_code 3.
Definition BAD_BUFFER_SIZE : t := error_code 4.
Definition BUFFER_TOO_SMALL : t := error_code 5.
Definition NOT_READY : t := error_code 6.
Definition DEVICE_ERROR : t := error_code 7.
Definition WRITE_PROTECTED : t := error_code 8.
Definition OUT_OF_RESOURCES : t := error_code 9.
Definition VOLUME_CORRUPTED : t := error_code 10.
Definition VOLUME_FULL : t := error_code 11.
Definition NO_MEDIA : t := error_code 12.
Definition MEDIA_CHANGED : t := error_code 13.
Definition NOT_FOUND : t := error_code 14.
Definition ACCESS_DENIED : t := error_code 15.
Definition NO_RESPONSE : t := error_code 16.
Definition NO_MAPPING : t := error_code 17.
Definition TIMEOUT : t := error_code 18.
Definition NOT_STARTED : t := error_code 19.
Definition ALREADY_STARTED : t := error_code 20.
Definition ABORTED : t := error_code 21.
Definition ICMP_ERROR : t := error_code 22.
Definition TFTP_ERROR : t := error_code 23.
Definition PROTOCOL_ERROR : t := error_code 24.
Definition INCOMPATIBLE_VERSION : t := error_code 25.
Definition SECURITY_VIOLATION : t := error_code 26.
Definition CRC_ERROR : t := error_code 27.
Definition END_OF_MEDIA : t := error_code 28.
Definition END_OF_FILE : t := error_code 31.
Definition INVALID_LANGUAGE : t := error_code 32.
Definition COMPROMISED_DATA : t := error_code 33.
Definition IP_ADDRESS_CONFLICT : t := error_code 34.
Definition HTTP_ERROR : t := error_code 35.

Definition WARN_UNKNOWN_GLYPH : t := warning_code 1.
Definition WARN_DELETE_FAILURE : t := warning_code 2.
Definition WARN_WRITE_FAILURE : t := warning_code 3.
Definition WARN_BUFFER_TOO_SMALL : t := warning_code 4.
Definition WARN_STALE_DATA : t := warning_code 5.
Definition WARN_FILE_SYSTEM : t := warning_code 6.
Definition WARN_RESET_REQUIRED : t := warning_code 7.

Definition mask (s : t) : Z := Z.land (value s) MASK.
Definition is_error (s : t) : bool := mask s =? ERROR_MASK.
Definition is_warning (s : t) : bool :=
  negb (value s =? 0) && (mask s =? WARNING_MASK).

(** [impl From<Status> for Result<Status, Status>] *)
Definition into_result (s : t) : result t t :=
  if is_error s then Err s else Ok s.

(** [status == other], derived [PartialEq]. *)
Definition eqb (a b : t) : bool := value a =? value b.
End Status.

Lemma status_eqb_spec (a b : Status.t) : Status.eqb a b = true <-> a = b.
Proof.
  destruct a as [x], b as [y]. unfold Status.eqb; cbn. rewrite Z.eqb_eq.
  split; [by intros -> | by intros [= ->]].
Qed.

(** Decide the comparisons of status constants, then run the monad. *)
Ltac status_step :=
  repeat match goal with
  | |- context [Status.eqb ?a ?b] =>
      let v := eval vm_compute in (Status.eqb a b) in
      lazymatch v with true => idtac | false => idtac end;
      change (Status.eqb a b) with v
  end; cbn [negb]; rstep.

(** ** Boolean *)
Module Boolean.
(** [pub struct Boolean(u8)] *)
Record t := mk { raw : Z }.
Definition FALSE : t := mk 0.
Definition TRUE : t := mk 1.
Definition from_u8 (v : Z) : t := mk v.
Definition from_bool (v : bool) : t := match v with false => FALSE | true => TRUE end.
Definition to_bool (v : t) : bool := if raw v =? 0 then false else true.
(** [impl PartialEq for Boolean] *)
Definition eqb (a b : t) : bool := Bool.eqb (to_bool a) (to_bool b).
Definition eqb_bool (a : t) (b : bool) : bool := Bool.eqb b (to_bool a).
End Boolean.

(** ** Guid *)
Module Guid.
Record t := mk {
  time_low : list Z;
  time_mid : list Z;
  time_hi_and_version : list Z;
  clk_seq_hi_res : Z;
  clk_seq_low : Z;
  node : list Z
}.

#[global] Instance eq_dec : EqDecision t.
Proof. solve_decision. Defined.

Definition u32_to_bytes_le (num : Z) : list Z :=
  [u8 num; u8 (Z.shiftr num 8); u8 (Z.shiftr num 16); u8 (Z.shiftr num 24)].
Definition u32_from_bytes_le (b : list Z) : Z :=
  Z.lor (Z.lor (Z.lor (b !!! 0%nat) (Z.shiftl (b !!! 1%nat) 8))
    (Z.shiftl (b !!! 2%nat) 16)) (Z.shiftl (b !!! 3%nat) 24).
Definition u16_to_bytes_le (num : Z) : list Z := [u8 num; u8 (Z.shiftr num 8)].
Definition u16_from_bytes_le (b : list Z) : Z :=
  Z.lor (b !!! 0%nat) (Z.shiftl (b !!! 1%nat) 8).

Definition from_fields (time_low time_mid time_hi_and_version
    clk_seq_hi_res clk_seq_low : Z) (node : list Z) : t :=
  mk (u32_to_bytes_le time_low) (u16_to_bytes_le time_mid)
     (u16_to_bytes_le time_hi_and_version) clk_seq_hi_res clk_seq_low node.

Definition as_fields (g : t) : Z * Z * Z * Z * Z * list Z :=
  (u32_from_bytes_le (time_low g), u16_from_bytes_le (time_mid g),
   u16_from_bytes_le (time_hi_and_version g),
   clk_seq_hi_res g, clk_seq_low g, node g).

(** [#\[repr(C)\]]: the sixteen bytes in field order. *)
Definition as_bytes (g : t) : list Z :=
  time_low g ++ time_mid g ++ time_hi_and_version g ++
  [clk_seq_hi_res g; clk_seq_low g] ++ node g.

(** Derived [PartialEq]. *)
Definition eqb (a b : t) : bool := bool_decide (a = b).

(** The declared array lengths. *)
Definition wf (g : t) : Prop :=
  length (time_low g) = 4%nat /\ length (time_mid g) = 2%nat /\
  length (time_hi_and_version g) = 2%nat /\ length (node g) = 6%nat.
End Guid.

(** ** Memory services types *)
Inductive AllocateType :=
| AllocateAnyPages
| AllocateMaxAddress
| AllocateAddress.

Inductive MemoryType :=
| ReservedMemoryType
| LoaderCode
| LoaderData
| BootServicesCode
| BootServicesData
| RuntimeServicesCode
| RuntimeServicesData
| ConventionalMemory
| UnusableMemory
| AcpiReclaimMemory
| AcpiMemoryNvs
| MemoryMappedIO
| MemoryMappedIOPortSpace
| PalCode
| PersistentMemory.

#[export] Instance AllocateType_eq_dec : EqDecision AllocateType.
Proof. solve_decision. Defined.
#[export] Instance MemoryType_eq_dec : EqDecision MemoryType.
Proof. solve_decision. Defined.

(** [memory_type as u32] *)
Definition memory_type_u32 (m : MemoryType) : Z :=
  match m with
  | ReservedMemoryType => 0
  | LoaderCode => 1
  | LoaderData => 2
  | BootServicesCode => 3
  | BootServicesData => 4
  | RuntimeServicesCode => 5
  | RuntimeServicesData => 6
  | ConventionalMemory => 7
  | UnusableMemory => 8
  | AcpiReclaimMemory => 9
  | AcpiMemoryNvs => 10
  | MemoryMappedIO => 11
  | MemoryMappedIOPortSpace => 12
  | PalCode => 13
  | PersistentMemory => 14
  end.

Definition MEMORY_WB : Z := 0x8.
Definition MEMORY_RUNTIME : Z := 0x8000000000000000.
Definition MEMORY_DESCRIPTOR_VERSION : Z := 1.

Definition VARIABLE_NON_VOLATILE : Z := 0x1.
Definition VARIABLE_BOOTSERVICE_ACCESS : Z := 0x2.
Definition VARIABLE_RUNTIME_ACCESS : Z := 0x4.

Lemma memory_type_u32_inj m m' : memory_type_u32 m = memory_type_u32 m' -> m = m'.
Proof. destruct m, m'; cbn; congruence. Qed.

(** ** Properties *)

(** Splitting a number into little-endian bytes and back. *)
Lemma lor_shift_add a b k : 0 <= k -> 0 <= a < 2 ^ k -> Z.lor a (Z.shiftl b k) = a + b * 2 ^ k.
Proof.
  intros Hk Ha. rewrite <- Z.shiftl_mul_pow2 by done.
  assert (Hland : Z.land a (Z.shiftl b k) = 0).
  { apply Z.bits_inj'; intros n Hn. rewrite Z.land_spec, Z.bits_0, Z.shiftl_spec by done.
    destruct (decide (n < k)) as [Hlt|Hge].
    - rewrite (Z.testbit_neg_r b) by lia. apply andb_false_r.
    - destruct (decide (a = 0)) as [->|Hnz]; [by rewrite Z.bits_0 |].
      assert (Z.log2 a < k) by (apply Z.log2_lt_pow2; lia).
      rewrite (Z.bits_above_log2 a n) by lia. done. }
  by rewrite Z.add_nocarry_lxor, Z.lxor_lor.
Qed.

Lemma u16_bytes_roundtrip x : 0 <= x < 2 ^ 16 ->
  Guid.u16_from_bytes_le (Guid.u16_to_bytes_le x) = x.
Proof.
  intros H. unfold Guid.u16_from_bytes_le, Guid.u16_to_bytes_le, wrap; cbn -[Z.pow Z.shiftl Z.shiftr].
  rewrite lor_shift_add by (try lia; apply Z.mod_pos_bound; lia).
  rewrite Z.shiftr_div_pow2 by lia. mlia.
Qed.

Lemma u32_bytes_roundtrip x : 0 <= x < 2 ^ 32 ->
  Guid.u32_from_bytes_le (Guid.u32_to_bytes_le x) = x.
Proof.
  intros H. unfold Guid.u32_from_bytes_le, Guid.u32_to_bytes_le, wrap; cbn -[Z.pow Z.shiftl Z.shiftr].
  rewrite !Z.shiftr_div_pow2 by lia.
  rewrite (lor_shift_add (x mod 2 ^ 8)) by mlia.
  rewrite (lor_shift_add (x mod 2 ^ 8 + _)) by mlia.
  rewrite lor_shift_add by mlia. mlia.
Qed.

(** [Guid::as_fields] gives back the fields [Guid::from_fields] was given,
    through the little-endian bytes the GUID is stored as. *)
Lemma guid_fields_roundtrip lo mid hi r l n :
  0 <= lo < 2 ^ 32 -> 0 <= mid < 2 ^ 16 -> 0 <= hi < 2 ^ 16 ->
  Guid.as_fields (Guid.from_fields lo mid hi r l n) = (lo, mid, hi, r, l, n).
Proof.
  intros. unfold Guid.as_fields; cbn -[Guid.u32_from_bytes_le Guid.u16_from_bytes_le
    Guid.u32_to_bytes_le Guid.u16_to_bytes_le].
  rewrite u32_bytes_roundtrip, !u16_bytes_roundtrip by done. done.
Qed.
