(* ===== verification/Mem.v ===== *)
(** * Physical memory and checked regions (src/mem.rs)

    [memory] is the byte-addressed physical memory the firmware runs in (it
    is identity mapped, so a raw pointer is an address).  Little-endian loads
    and stores of 1, 2, 4 or 8 bytes stand for the typed accesses through raw
    pointers.  Module [MemoryRegion] models [mem.rs], the bounds-checked window
    on memory. *)

From S2P Require Import Prelude.

(** ** Little-endian bytes *)

Fixpoint le_split (n : nat) (v : Z) : list Z :=
  match n with
  | O => []
  | S n => u8 v :: le_split n (v / 256)
  end.

Fixpoint le_combine (bs : list Z) : Z :=
  match bs with
  | [] => 0
  | b :: bs => b + 256 * le_combine bs
  end.

Definition is_byte (b : Z) : Prop := 0 <= b < 256.
Abbreviation bytes_ok := (Forall is_byte).

Lemma length_le_split n v : length (le_split n v) = n.
Proof. revert v. induction n; intros; cbn; auto. Qed.

Lemma le_split_ok n v : bytes_ok (le_split n v).
Proof.
  revert v. induction n; intros; cbn; constructor; auto.
  unfold is_byte. pose proof (wrap_range 8 v). mlia.
Qed.

Lemma le_combine_split n v : le_combine (le_split n v) = v mod 2 ^ (8 * Z.of_nat n).
Proof.
  revert v. induction n as [|n IH]; intros v; cbn [le_split le_combine].
  { by rewrite Z.mod_1_r. }
  rewrite IH. unfold wrap. change (2 ^ 8) with 256.
  replace (2 ^ (8 * Z.of_nat (S n))) with (256 * 2 ^ (8 * Z.of_nat n)).
  - symmetry. by apply Z.rem_mul_r; [| apply Z.pow_pos_nonneg; lia].
  - rewrite Nat2Z.inj_succ, Z.mul_succ_r, Z.pow_add_r by lia. norm_pow. lia.
Qed.

Lemma le_combine_range bs : bytes_ok bs -> 0 <= le_combine bs < 2 ^ (8 * Z.of_nat (length bs)).
Proof.
  induction 1 as [|b bs Hb Hbs IH]; cbn [le_combine length]; [done|].
  rewrite Nat2Z.inj_succ, Z.mul_succ_r, Z.pow_add_r by lia.
  unfold is_byte in Hb. change (2 ^ 8) with 256. nia.
Qed.

Lemma le_split_combine bs : bytes_ok bs -> le_split (length bs) (le_combine bs) = bs.
Proof.
  induction 1 as [|b bs Hb Hbs IH]; cbn [le_combine le_split length]; [done|].
  unfold is_byte in Hb. unfold wrap. change (2 ^ 8) with 256.
  rewrite (Z.mul_comm 256), Z.mod_add, Z.div_add, Z.mod_small, Z.div_small by lia.
  by rewrite Z.add_0_l, IH.
Qed.

(** ** Memory *)

Abbreviation memory := (gmap Z Z).

(** Memory never written reads as zero. *)
Definition load8 (m : memory) (a : Z) : Z := default 0 (m !! a).
Definition store8 (m : memory) (a : Z) (v : Z) : memory := <[a := u8 v]> m.

Fixpoint load_bytes (m : memory) (a : Z) (n : nat) : list Z :=
  match n with
  | O => []
  | S n => load8 m a :: load_bytes m (a + 1) n
  end.

Fixpoint store_bytes (m : memory) (a : Z) (bs : list Z) : memory :=
  match bs with
  | [] => m
  | b :: bs => store_bytes (store8 m a b) (a + 1) bs
  end.

Definition load (n : nat) (m : memory) (a : Z) : Z := le_combine (load_bytes m a n).
Definition store (n : nat) (m : memory) (a v : Z) : memory := store_bytes m a (le_split n v).

Abbreviation load16 := (load 2).
Abbreviation load32 := (load 4).
Abbreviation load64 := (load 8).
Abbreviation store16 := (store 2).
Abbreviation store32 := (store 4).
Abbreviation store64 := (store 8).

(** [core::ptr::copy_nonoverlapping] of [n] bytes. *)
Definition copy_bytes (m : memory) (src dst : Z) (n : nat) : memory :=
  store_bytes m dst (load_bytes m src n).

Definition fill_bytes (m : memory) (a : Z) (n : nat) (v : Z) : memory :=
  store_bytes m a (replicate n v).

(** Every stored cell is a byte. *)
Definition mem_ok (m : memory) : Prop := map_Forall (fun _ b => is_byte b) m.

Lemma load8_ok m a : mem_ok m -> is_byte (load8 m a).
Proof.
  intros Hm. unfold load8. destruct (m !! a) eqn:E; cbn; [by eapply Hm | unfold is_byte; lia].
Qed.

Lemma load_bytes_ok m a n : mem_ok m -> bytes_ok (load_bytes m a n).
Proof. intros Hm. revert a. induction n; intros; cbn; constructor; auto using load8_ok. Qed.

Lemma length_load_bytes m a n : length (load_bytes m a n) = n.
Proof. revert a. induction n; intros; cbn; auto. Qed.

Lemma load_range n m a : mem_ok m -> 0 <= load n m a < 2 ^ (8 * Z.of_nat n).
Proof.
  intros Hm. pose proof (le_combine_range _ (load_bytes_ok m a n Hm)) as H.
  by rewrite length_load_bytes in H.
Qed.

Lemma mem_ok_store_bytes m a bs : mem_ok m -> mem_ok (store_bytes m a bs).
Proof.
  revert m a. induction bs as [|b bs IH]; intros m a Hm; cbn; [done|].
  apply IH. apply map_Forall_insert_2; [|done]. unfold is_byte.
  pose proof (wrap_range 8 b). mlia.
Qed.

Lemma load8_store_bytes_out m a bs x :
  x < a \/ a + Z.of_nat (length bs) <= x -> load8 (store_bytes m a bs) x = load8 m x.
Proof.
  revert m a. induction bs as [|b bs IH]; intros m a Hx; cbn in *; [done|].
  rewrite IH by lia. unfold load8, store8. by rewrite lookup_insert_ne by lia.
Qed.

Lemma load8_store_bytes_in m a bs (i : nat) b :
  bytes_ok bs -> bs !! i = Some b -> load8 (store_bytes m a bs) (a + Z.of_nat i) = b.
Proof.
  intros Hb. revert m a i. induction Hb as [|b' bs Hb' Hbs IH]; intros m a i Hi; [done|].
  destruct i as [|i]; cbn in *.
  - simplify_eq. rewrite load8_store_bytes_out by lia. unfold load8, store8.
    rewrite Z.add_0_r, lookup_insert_eq. cbn. apply wrap_small. unfold is_byte in Hb'. mlia.
  - replace (a + Z.of_nat (S i)) with (a + 1 + Z.of_nat i) by lia. by apply IH.
Qed.

Lemma load_bytes_ext m m' a n :
  (forall x, a <= x < a + Z.of_nat n -> load8 m' x = load8 m x) ->
  load_bytes m' a n = load_bytes m a n.
Proof.
  revert a. induction n as [|n IH]; intros a H; cbn; [done|].
  rewrite H by lia. f_equal. apply IH. intros x Hx. apply H. lia.
Qed.

Lemma load_bytes_store_bytes m a bs :
  bytes_ok bs -> load_bytes (store_bytes m a bs) a (length bs) = bs.
Proof.
  intros Hb. revert m a. induction Hb as [|b bs Hb Hbs IH]; intros m a; cbn; [done|].
  rewrite IH. f_equal. rewrite load8_store_bytes_out by lia. unfold load8, store8.
  rewrite lookup_insert_eq. cbn. apply wrap_small. unfold is_byte in Hb. mlia.
Qed.

(** Accesses to disjoint ranges do not interfere. *)
Lemma load_bytes_store_bytes_out m a bs x n :
  x + Z.of_nat n <= a \/ a + Z.of_nat (length bs) <= x ->
  load_bytes (store_bytes m a bs) x n = load_bytes m x n.
Proof. intros H. apply load_bytes_ext. intros y Hy. apply load8_store_bytes_out. lia. Qed.

Lemma load_store n m a v : load n (store n m a v) a = v mod 2 ^ (8 * Z.of_nat n).
Proof.
  unfold load, store.
  pose proof (load_bytes_store_bytes m a (le_split n v) (le_split_ok n v)) as H.
  rewrite length_le_split in H. rewrite H. apply le_combine_split.
Qed.

Lemma load_store_out k n m a v x :
  x + Z.of_nat k <= a \/ a + Z.of_nat n <= x -> load k (store n m a v) x = load k m x.
Proof.
  intros H. unfold load, store. by rewrite load_bytes_store_bytes_out by (rewrite length_le_split; lia).
Qed.

Lemma load_bytes_app m a n k :
  load_bytes m a (n + k) = load_bytes m a n ++ load_bytes m (a + Z.of_nat n) k.
Proof.
  revert a. induction n as [|n IH]; intros a; cbn [load_bytes Nat.add app].
  - by rewrite Z.add_0_r.
  - rewrite IH. do 3 f_equal. lia.
Qed.

Lemma lookup_load_bytes m a n i :
  (i < n)%nat -> load_bytes m a n !! i = Some (load8 m (a + Z.of_nat i)).
Proof.
  revert a i. induction n as [|n IH]; intros a i Hi; [lia|]. destruct i as [|i]; cbn.
  - by rewrite Z.add_0_r.
  - rewrite IH by lia. do 2 f_equal. lia.
Qed.

Lemma load_ext n m m' a : (forall x, a <= x < a + Z.of_nat n -> load8 m' x = load8 m x) ->
  load n m' a = load n m a.
Proof. intros H. unfold load. by rewrite (load_bytes_ext m m'). Qed.

Lemma load8_store_out n m a v x : x < a \/ a + Z.of_nat n <= x -> load8 (store n m a v) x = load8 m x.
Proof. intros H. unfold store. apply load8_store_bytes_out. by rewrite length_le_split. Qed.

Lemma store_bytes_app m a l1 l2 :
  store_bytes m a (l1 ++ l2) = store_bytes (store_bytes m a l1) (a + Z.of_nat (length l1)) l2.
Proof.
  revert m a. induction l1 as [|b l1 IH]; intros m a; cbn [store_bytes app length].
  - by rewrite Z.add_0_r.
  - rewrite IH. f_equal. lia.
Qed.

(** ** MemoryRegion *)
Module MemoryRegion.
Record t := mk { base : Z; length : Z }.

Definition new (base length : Z) : t := mk base length.

(** [from_slice::<T>] of a slice of [len] elements of [size] bytes at [ptr]. *)
Definition from_slice (ptr len size : Z) : t := mk ptr (u64 (usize (len * size))).

(** [as_slice::<T>] and [as_mut_slice::<T>]: address and element count of the
    slice. *)
Definition as_slice (r : t) (size offset len : Z) : res (Z * Z) :=
  _ ← assert_ (u64 (offset + u64 (len * size)) <=? length r);
  Done (u64 (base r + offset), len).

(** [read::<T>] and [write::<T>] of [n] bytes; [io_read] and [io_write] do the
    same with volatile accesses. *)
Definition read (n : nat) (m : memory) (r : t) (offset : Z) : res Z :=
  _ ← assert_ (u64 (offset + (Z.of_nat n - 1)) <? length r);
  Done (load n m (u64 (base r + offset))).

Definition write (n : nat) (m : memory) (r : t) (offset value : Z) : res memory :=
  _ ← assert_ (u64 (offset + (Z.of_nat n - 1)) <? length r);
  Done (store n m (u64 (base r + offset)) value).

Definition read_u8 := read 1.
Definition read_u16 := read 2.
Definition read_u32 := read 4.
Definition read_u64 := read 8.
Definition write_u8 := write 1.
Definition write_u16 := write 2.
Definition write_u32 := write 4.
Definition write_u64 := write 8.
Definition io_read := read.
Definition io_write := write.
Definition io_read_u8 := io_read 1.
Definition io_read_u16 := io_read 2.
Definition io_read_u32 := io_read 4.
Definition io_read_u64 := io_read 8.
Definition io_write_u8 := io_write 1.
Definition io_write_u16 := io_write 2.
Definition io_write_u32 := io_write 4.
Definition io_write_u64 := io_write 8.

(** The region lies in the address space. *)
Definition wf (r : t) : Prop := 0 <= base r /\ 0 <= length r /\ base r + length r <= 2 ^ 64.

Lemma read_in n m r offset : wf r -> (0 < n)%nat -> 0 <= offset ->
  offset + Z.of_nat n <= length r -> read n m r offset = Done (load n m (base r + offset)).
Proof.
  intros (Hb & Hl & Hw) Hn Ho Hend. unfold read.
  rewrite (wrap_small 64 (offset + _)), (wrap_small 64 (base r + offset)) by lia.
  by rewrite (proj2 (Z.ltb_lt _ _)) by lia.
Qed.

Lemma write_in n m r offset v : wf r -> (0 < n)%nat -> 0 <= offset ->
  offset + Z.of_nat n <= length r -> write n m r offset v = Done (store n m (base r + offset) v).
Proof.
  intros (Hb & Hl & Hw) Hn Ho Hend. unfold write.
  rewrite (wrap_small 64 (offset + _)), (wrap_small 64 (base r + offset)) by lia.
  by rewrite (proj2 (Z.ltb_lt _ _)) by lia.
Qed.

Lemma as_slice_in r size offset len : 0 <= base r -> 0 <= offset -> 0 <= len -> 0 <= size ->
  base r + offset < 2 ^ 64 -> offset + len * size <= length r -> length r < 2 ^ 64 ->
  as_slice r size offset len = Done (base r + offset, len).
Proof.
  intros Hb Ho Hl Hs H1 H2 H3. unfold as_slice.
  rewrite (wrap_small 64 (len * size)), (wrap_small 64 (offset + _)), (wrap_small 64 (base r + offset)) by nia.
  by rewrite (proj2 (Z.leb_le _ _)) by lia.
Qed.

(** The assertion's sum, with and without wrap-around. *)
Lemma sum_wraps offset n : (0 < n <= 8)%nat -> 0 <= offset < 2 ^ 64 ->
  u64 (offset + (Z.of_nat n - 1)) =
  offset + Z.of_nat n - 1 - (if decide (2 ^ 64 < offset + Z.of_nat n) then 2 ^ 64 else 0).
Proof.
  intros Hn Ho. case_decide; [|rewrite wrap_small; lia]. unfold wrap.
  replace (offset + _) with (offset + Z.of_nat n - 1 - 2 ^ 64 + 1 * 2 ^ 64) by lia.
  rewrite Z.mod_add, Z.mod_small; lia.
Qed.

Lemma read_out n m r offset : (0 < n <= 8)%nat -> 0 <= offset < 2 ^ 64 ->
  ~ offset + Z.of_nat n <= length r -> ~ 2 ^ 64 < offset + Z.of_nat n <= 2 ^ 64 + length r ->
  read n m r offset = Panic.
Proof.
  intros Hn Ho Hend Hw. unfold read. rewrite sum_wraps by done.
  rewrite (proj2 (Z.ltb_ge _ _)); [done|]. case_decide; lia.
Qed.

Lemma write_out n m r offset v : (0 < n <= 8)%nat -> 0 <= offset < 2 ^ 64 ->
  ~ offset + Z.of_nat n <= length r -> ~ 2 ^ 64 < offset + Z.of_nat n <= 2 ^ 64 + length r ->
  write n m r offset v = Panic.
Proof.
  intros Hn Ho Hend Hw. unfold write. rewrite sum_wraps by done.
  rewrite (proj2 (Z.ltb_ge _ _)); [done|]. case_decide; lia.
Qed.

Lemma read_wrapped n m r offset : (0 < n <= 8)%nat -> 0 <= offset < 2 ^ 64 ->
  2 ^ 64 < offset + Z.of_nat n <= 2 ^ 64 + length r ->
  read n m r offset = Done (load n m ((base r + offset) mod 2 ^ 64)).
Proof.
  intros Hn Ho Hw. unfold read. rewrite sum_wraps, decide_True by tauto.
  by rewrite (proj2 (Z.ltb_lt _ _)) by lia.
Qed.

Lemma write_wrapped n m r offset v : (0 < n <= 8)%nat -> 0 <= offset < 2 ^ 64 ->
  2 ^ 64 < offset + Z.of_nat n <= 2 ^ 64 + length r ->
  write n m r offset v = Done (store n m ((base r + offset) mod 2 ^ 64) v).
Proof.
  intros Hn Ho Hw. unfold write. rewrite sum_wraps, decide_True by tauto.
  by rewrite (proj2 (Z.ltb_lt _ _)) by lia.
Qed.

(** An access that passed by wrapping leaves the region. *)
Lemma wrapped_outside n r offset : wf r -> 0 <= offset < 2 ^ 64 ->
  2 ^ 64 < offset + Z.of_nat n <= 2 ^ 64 + length r ->
  ~ (base r <= (base r + offset) mod 2 ^ 64 /\
     (base r + offset) mod 2 ^ 64 + Z.of_nat n <= base r + length r).
Proof.
  intros (Hb & Hl & Hw) Ho Hov. destruct (decide (base r + offset < 2 ^ 64)).
  - rewrite Z.mod_small by lia. lia.
  - replace (base r + offset) with (base r + offset - 2 ^ 64 + 1 * 2 ^ 64) by lia.
    destruct (decide (base r = 2 ^ 64)); [lia|].
    rewrite Z.mod_add, Z.mod_small by lia. lia.
Qed.
End MemoryRegion.

(** C40: What a [MemoryRegion] access of [n] bytes at any 64-bit offset does.
    When the accessed bytes fit in the region, a read returns the bytes at
    [base + offset] and a write is read back by the same offset and touches no
    byte outside the accessed ones.  When they do not fit, the access panics
    without touching memory, with one exception: the sum in the assertion of
    mem.rs is a 64-bit addition that wraps in a release build, so an offset
    that is less than [n] bytes below 2^64 passes the check when the region
    holds the rest of the access, and the access goes to [base + offset] modulo
    2^64, which is not inside the region.  The three cases are told apart by
    the offset and the two lengths alone. *)
Theorem memory_region_window n m r offset v :
  MemoryRegion.wf r -> (0 < n <= 8)%nat -> 0 <= offset < 2 ^ 64 ->
  let a := MemoryRegion.base r + offset in
  let last := offset + Z.of_nat n in
  if decide (last <= MemoryRegion.length r) then
    MemoryRegion.read n m r offset = Done (load n m a) /\
    exists m', MemoryRegion.write n m r offset v = Done m' /\
      MemoryRegion.read n m' r offset = Done (v mod 2 ^ (8 * Z.of_nat n)) /\
      forall x, ~ (a <= x < a + Z.of_nat n) -> load8 m' x = load8 m x
  else if decide (2 ^ 64 < last <= 2 ^ 64 + MemoryRegion.length r) then
    MemoryRegion.read n m r offset = Done (load n m (a mod 2 ^ 64)) /\
    MemoryRegion.write n m r offset v = Done (store n m (a mod 2 ^ 64) v) /\
    ~ (MemoryRegion.base r <= a mod 2 ^ 64 /\
       a mod 2 ^ 64 + Z.of_nat n <= MemoryRegion.base r + MemoryRegion.length r)
  else MemoryRegion.write n m r offset v = Panic /\ MemoryRegion.read n m r offset = Panic.
Proof.
  intros Hr Hn Ho a last. case_decide as Hin; [|case_decide as Hwrap].
  - subst a last. rewrite MemoryRegion.read_in by (done || lia). split; [done|].
    eexists. rewrite MemoryRegion.write_in, MemoryRegion.read_in by (done || lia).
    split_and!; [done | by rewrite load_store |].
    intros x Hx. apply load8_store_bytes_out. rewrite length_le_split. lia.
  - subst a last. split_and!; [by apply MemoryRegion.read_wrapped | by apply MemoryRegion.write_wrapped |].
    by apply MemoryRegion.wrapped_outside.
  - subst a last. by rewrite MemoryRegion.write_out, MemoryRegion.read_out by (done || lia).
Qed.

(** A write at the end of a region, and one that wraps: the four bytes at
    offset 2^64 - 2 are those from two bytes before the region's base. *)
Lemma memory_region_window_witness :
  (exists m', MemoryRegion.write 4 ∅ (MemoryRegion.new 0x1000 64) 60 0x12345678 = Done m' /\
    MemoryRegion.read 4 m' (MemoryRegion.new 0x1000 64) 60 = Done 0x12345678) /\
  MemoryRegion.write 4 ∅ (MemoryRegion.new 0x1000 64) (2 ^ 64 - 2) 0x12345678 =
    Done (store 4 ∅ 0xFFE 0x12345678).
Proof.
  split.
  - destruct (memory_region_window 4 ∅ (MemoryRegion.new 0x1000 64) 60 0x12345678)
      as (_ & m' & E & E' & _); [unfold MemoryRegion.wf; cbn; lia | lia.. |].
    exists m'. split; [exact E | exact E'].
  - destruct (memory_region_window 4 ∅ (MemoryRegion.new 0x1000 64) (2 ^ 64 - 2) 0x12345678)
      as (_ & E & _); [unfold MemoryRegion.wf; cbn; lia | lia.. |]. exact E.
Defined.
