(* ===== verification/Layout.v ===== *)
(** * Layouts of the structures shared with hardware, images and callers

    Most of what the firmware exchanges with the outside is a [#[repr(C)]] or
    packed structure accessed through a raw pointer.  A [Ty] is such a
    declaration: its fields in source order, with their types.  [size], [align]
    and [offset_of] are the rules of the x86-64 target for it: a field starts at
    the next multiple of its alignment, a structure is as aligned as its most
    aligned field (or as [repr(align)] says) and its size is a multiple of that;
    [repr(packed)] drops all padding; the members of a union share offset 0.  The
    declarations themselves are in [Structs]; the theorems on them in [LayoutProps]. *)

From stdpp Require Import strings.
From S2P Require Import Prelude Mem.

(** ** Types and their layout *)

(** A pointer carries the name of what it points to, a function pointer its
    signature; neither changes the layout, and a declaration may refer to itself
    through them.  [Enum] lists the variants of a field-less enumeration. *)
#[local] Unset Elimination Schemes.
Inductive Ty :=
| Scalar (n : Z)
| Enum (n : Z) (variants : list string)
| Ptr (pointee : string)
| Fn (args : list Ty) (ret : option Ty)
| Array (t : Ty) (n : Z)
| Struct (packed : bool) (min_align : Z) (fields : list (string * Ty))
| Union (fields : list (string * Ty)).
#[local] Set Elimination Schemes.

(** The next multiple of [a] from [n] on. *)
Definition round_up (n a : Z) : Z := (n + a - 1) / a * a.

Fixpoint align (t : Ty) : Z :=
  match t with
  | Scalar n | Enum n _ => n
  | Ptr _ | Fn _ _ => 8
  | Array t _ => align t
  | Struct packed a fs => if packed then 1 else foldr (fun f => Z.max (align f.2)) a fs
  | Union fs => foldr (fun f => Z.max (align f.2)) 1 fs
  end.

(** Where a field goes when the ones before it end at [off]. *)
Definition place (packed : bool) (off a : Z) : Z := if packed then off else round_up off a.

Fixpoint size (t : Ty) : Z :=
  match t with
  | Scalar n | Enum n _ => n
  | Ptr _ | Fn _ _ => 8
  | Array t n => size t * n
  | Struct packed a fs =>
      round_up (foldl (fun off f => place packed off (align f.2) + size f.2) 0 fs)
               (if packed then 1 else foldr (fun f => Z.max (align f.2)) a fs)
  | Union fs =>
      round_up (foldr (fun f => Z.max (size f.2)) 0 fs) (foldr (fun f => Z.max (align f.2)) 1 fs)
  end.

(** The fields with their offsets and types, the first one from [off] on. *)
Fixpoint offsets (packed : bool) (off : Z) (fs : list (string * Ty)) : list (string * (Z * Ty)) :=
  match fs with
  | [] => []
  | (f, t) :: fs =>
      let o := place packed off (align t) in (f, (o, t)) :: offsets packed (o + size t) fs
  end.

Definition fields (t : Ty) : list (string * (Z * Ty)) :=
  match t with
  | Struct packed _ fs => offsets packed 0 fs
  | Union fs => map (fun f => (f.1, (0, f.2))) fs
  | _ => []
  end.

(** A step of a place expression: [.f] or [[i]]. *)
Inductive Access := Field (f : string) | Index (i : Z).

Fixpoint find_field {A : Type} (f : string) (fs : list (string * A)) : option A :=
  match fs with
  | [] => None
  | (g, x) :: fs => if decide (g = f) then Some x else find_field f fs
  end.

Definition step (t : Ty) (a : Access) : option (Z * Ty) :=
  match a with
  | Field f => find_field f (fields t)
  | Index i =>
      match t with
      | Array e n => if (0 <=? i) && (i <? n) then Some (size e * i, e) else None
      | _ => None
      end
  end.

(** The offset of a place in an object of type [t], and the type of the place. *)
Fixpoint offset_of (t : Ty) (path : list Access) : option (Z * Ty) :=
  match path with
  | [] => Some (0, t)
  | a :: path => '(o, u) ← step t a; '(o', v) ← offset_of u path; Some (o + o', v)
  end.

(** Reading and writing a scalar place of the object at [base]. *)
Definition read_field (t : Ty) (path : list Access) (m : memory) (base : Z) : option Z :=
  '(o, u) ← offset_of t path; Some (load (Z.to_nat (size u)) m (base + o)).

Definition write_field (t : Ty) (path : list Access) (m : memory) (base v : Z) : option memory :=
  '(o, u) ← offset_of t path; Some (store (Z.to_nat (size u)) m (base + o) v).

(** A structure literal written to memory, field after field. *)
Fixpoint write_fields (t : Ty) (m : memory) (base : Z) (vs : list (list string * Z)) : option memory :=
  match vs with
  | [] => Some m
  | (f, v) :: vs => m ← write_field t (map Field f) m base v; write_fields t m base vs
  end.

(** The bytes of a place in an object held as a list of bytes. *)
Definition bytes_field (t : Ty) (path : list Access) (data : list Z) : option (list Z) :=
  '(o, u) ← offset_of t path; Some (take (Z.to_nat (size u)) (drop (Z.to_nat o) data)).

(** The place [t.f.g...]. *)
Definition dot (fs : list string) : list Access := map Field fs.

(** The value of a variant of an enumeration. *)
Definition discriminant (t : Ty) (v : string) : option Z :=
  match t with
  | Enum _ vs => (fun p => Z.of_nat p.1) <$> list_find (fun x => x = v) vs
  | _ => None
  end.

(** Offset and size of every field: what two declarations must share to be
    overlaid on one another. *)
Definition shape (t : Ty) : list (Z * Z) := map (fun f => (f.2.1, size f.2.2)) (fields t).

(** ** Well-formed declarations *)

Definition is_align (a : Z) : bool := existsb (Z.eqb a) [1; 2; 4; 8; 16; 32; 64].

Fixpoint wf (t : Ty) : bool :=
  match t with
  | Scalar n | Enum n _ => is_align n
  | Ptr _ | Fn _ _ => true
  | Array t n => wf t && (0 <=? n)
  | Struct _ a fs => is_align a && forallb (fun f => wf f.2) fs
  | Union fs => forallb (fun f => wf f.2) fs
  end.

(** No packed structure inside; no union inside. *)
Fixpoint natural (t : Ty) : bool :=
  match t with
  | Array t _ => natural t
  | Struct packed _ fs => negb packed && forallb (fun f => natural f.2) fs
  | Union fs => forallb (fun f => natural f.2) fs
  | _ => true
  end.

Fixpoint no_union (t : Ty) : bool :=
  match t with
  | Array t _ => no_union t
  | Struct _ _ fs => forallb (fun f => no_union f.2) fs
  | Union _ => false
  | _ => true
  end.

(** Two places that part at some step: neither contains the other. *)
Fixpoint diverge (p q : list Access) : Prop :=
  match p, q with
  | a :: p, b :: q => (a = b /\ diverge p q) \/ a <> b
  | _, _ => False
  end.

(** ** Lemmas *)

Section TyInd.
  Variable P : Ty -> Prop.
  Hypothesis HScalar : forall n, P (Scalar n).
  Hypothesis HEnum : forall n vs, P (Enum n vs).
  Hypothesis HPtr : forall s, P (Ptr s).
  Hypothesis HFn : forall args ret, P (Fn args ret).
  Hypothesis HArray : forall t n, P t -> P (Array t n).
  Hypothesis HStruct : forall packed a fs, Forall (fun f => P f.2) fs -> P (Struct packed a fs).
  Hypothesis HUnion : forall fs, Forall (fun f => P f.2) fs -> P (Union fs).

(** Induction through the lists of fields. *)
Fixpoint Ty_nested_ind (t : Ty) : P t :=
  let fix all (fs : list (string * Ty)) : Forall (fun f => P f.2) fs :=
    match fs with
    | [] => Forall_nil_2 _
    | f :: fs => Forall_cons_2 _ _ _ (Ty_nested_ind f.2) (all fs)
    end in
  match t with
  | Scalar n => HScalar n
  | Enum n vs => HEnum n vs
  | Ptr s => HPtr s
  | Fn args ret => HFn args ret
  | Array t n => HArray t n (Ty_nested_ind t)
  | Struct packed a fs => HStruct packed a fs (all fs)
  | Union fs => HUnion fs (all fs)
  end.
End TyInd.

Lemma is_align_pow a : is_align a = true -> exists k, 0 <= k /\ a = 2 ^ k.
Proof.
  unfold is_align. cbn [existsb]. rewrite !orb_true_iff, !Z.eqb_eq.
  intros E. destruct_or! E; subst;
    [exists 0|exists 1|exists 2|exists 3|exists 4|exists 5|exists 6|done]; done.
Qed.

Lemma is_align_pos a : is_align a = true -> 0 < a.
Proof. intros (k & ? & ->)%is_align_pow. lia. Qed.

Lemma is_align_max a b : is_align a = true -> is_align b = true -> is_align (Z.max a b) = true.
Proof. intros. destruct (Z.max_spec a b) as [[_ ->]|[_ ->]]; done. Qed.

(** Of two alignments the smaller divides the larger. *)
Lemma align_divide a b : is_align a = true -> is_align b = true -> a <= b -> (a | b).
Proof.
  intros (i & ? & ->)%is_align_pow (j & ? & ->)%is_align_pow Hle.
  apply Z.pow_le_mono_r_iff in Hle; [|lia..].
  exists (2 ^ (j - i)). rewrite <- Z.pow_add_r by lia. f_equal. lia.
Qed.

Lemma round_up_ge n a : 0 < a -> n <= round_up n a.
Proof. intros. unfold round_up. pose proof (Z.div_mod (n + a - 1) a). pose proof (Z.mod_pos_bound (n + a - 1) a). nia. Qed.

Lemma round_up_divide n a : (a | round_up n a).
Proof. unfold round_up. by exists ((n + a - 1) / a). Qed.

Lemma place_ge packed off a : 0 < a -> off <= place packed off a.
Proof. intros. destruct packed; cbn; [lia|]. by apply round_up_ge. Qed.

(** The alignment of a list of fields is at least that of each. *)
Lemma aligns_spec (a : Z) (fs : list (string * Ty)) :
  is_align a = true -> Forall (fun f => is_align (align f.2) = true) fs ->
  is_align (foldr (fun f => Z.max (align f.2)) a fs) = true /\
  Forall (fun f => align f.2 <= foldr (fun f => Z.max (align f.2)) a fs) fs.
Proof.
  intros Ha Hfs. induction Hfs as [|f fs Hf Hfs [IH1 IH2]]; cbn; [done|].
  split; [by apply is_align_max|]. constructor; [lia|].
  eapply Forall_impl; [exact IH2|]. cbn. lia.
Qed.

Lemma wf_Forall (fs : list (string * Ty)) (P : Ty -> Prop) :
  Forall (fun f => wf f.2 = true -> P f.2) fs -> forallb (fun f => wf f.2) fs = true ->
  Forall (fun f => P f.2) fs.
Proof. induction 1; cbn; [done|]. intros [? ?]%andb_prop. constructor; auto. Qed.

Lemma align_ok t : wf t = true -> is_align (align t) = true.
Proof.
  induction t as [n|n vs|s|args ret|t n IH|packed a fs IH|fs IH] using Ty_nested_ind; cbn; auto.
  - intros [? ?]%andb_prop. auto.
  - intros [? Hfs]%andb_prop. destruct packed; [done|].
    by apply aligns_spec, (wf_Forall fs (fun t => is_align (align t) = true)).
  - intros Hfs. by apply aligns_spec, (wf_Forall fs (fun t => is_align (align t) = true)).
Qed.

Lemma align_pos t : wf t = true -> 0 < align t.
Proof. intros. by apply is_align_pos, align_ok. Qed.

(** The end of the last field. *)
Definition fields_end (packed : bool) (off : Z) (fs : list (string * Ty)) : Z :=
  foldl (fun off f => place packed off (align f.2) + size f.2) off fs.

Lemma fields_end_ge packed fs off :
  Forall (fun f => wf f.2 = true /\ 0 <= size f.2) fs -> off <= fields_end packed off fs.
Proof.
  intros H. revert off. induction H as [|f fs [Hw Hs] H IH]; intros off; cbn; [lia|].
  pose proof (place_ge packed off _ (align_pos _ Hw)).
  specialize (IH (place packed off (align f.2) + size f.2)). unfold fields_end in IH. lia.
Qed.

Lemma size_nonneg t : wf t = true -> 0 <= size t.
Proof.
  induction t as [n|n vs|s|args ret|t n IH|packed a fs IH|fs IH] using Ty_nested_ind; cbn [wf size]; try lia.
  - intros ?%is_align_pos. lia.
  - intros ?%is_align_pos. lia.
  - intros [? ?]%andb_prop. bool_to_prop. specialize (IH ltac:(done)). nia.
  - intros [Ha Hfs]%andb_prop.
    pose proof (wf_Forall fs (fun t => wf t = true /\ 0 <= size t)) as HF.
    assert (Forall (fun f => wf f.2 = true -> wf f.2 = true /\ 0 <= size f.2) fs) as HI.
    { eapply Forall_impl; [exact IH|]. cbn. auto. }
    pose proof (fields_end_ge packed fs 0 (HF HI Hfs)) as He. unfold fields_end in He.
    assert (0 < if packed then 1 else foldr (fun f => Z.max (align f.2)) a fs).
    { apply (align_pos (Struct packed a fs)). cbn [wf]. by rewrite Ha, Hfs. }
    etrans; [exact He|]. by apply round_up_ge.
  - intros Hfs. etrans; [|apply round_up_ge].
    + clear. induction fs; cbn; lia.
    + by apply (align_pos (Union fs)).
Qed.

(** An array of the type keeps every element aligned. *)
Lemma align_divides_size t : wf t = true -> (align t | size t).
Proof.
  induction t as [n|n vs|s|args ret|t n IH|packed a fs IH|fs IH] using Ty_nested_ind;
    cbn [wf size align]; try done.
  - intros [? ?]%andb_prop. apply Z.divide_mul_l. auto.
  - intros _. apply round_up_divide.
  - intros _. apply round_up_divide.
Qed.

(** ** Steps of a place *)

Lemma forallb_find {A : Type} (p : A -> bool) f (fs : list (string * A)) x :
  forallb (fun e => p e.2) fs = true -> find_field f fs = Some x -> p x = true.
Proof.
  induction fs as [|[g y] fs IH]; cbn; [done|]. intros [? ?]%andb_prop ?. case_decide; simplify_eq; auto.
Qed.

(** The offset of a field, between the end of the ones before and its own end. *)
Lemma find_offsets packed f fs off o t :
  forallb (fun e => wf e.2) fs = true -> find_field f (offsets packed off fs) = Some (o, t) ->
  find_field f fs = Some t /\ off <= o /\ o + size t <= fields_end packed off fs /\
  (packed = false -> (align t | o)).
Proof.
  revert off. induction fs as [|[g u] fs IH]; intros off; cbn; [done|].
  intros [Hu Hfs]%andb_prop. cbn in Hu.
  pose proof (place_ge packed off _ (align_pos _ Hu)) as Hp. pose proof (size_nonneg _ Hu) as Hs.
  case_decide.
  - intros [= <- <-]. split_and!; try done.
    + apply fields_end_ge. apply (wf_Forall fs (fun t => wf t = true /\ 0 <= size t)); [|done].
      apply Forall_forall. intros e _ He. auto using size_nonneg.
    + intros ->. apply round_up_divide.
  - intros Hf. destruct (IH _ Hfs Hf) as (? & ? & ? & ?). split_and!; [done|lia|done|done].
Qed.

Lemma find_union f (fs : list (string * Ty)) o t :
  find_field f (map (fun f => (f.1, (0, f.2))) fs) = Some (o, t) -> find_field f fs = Some t /\ o = 0.
Proof. induction fs as [|[g u] fs IH]; cbn; [done|]. case_decide; [by intros [= <- <-]|done]. Qed.

Lemma find_max_size f (fs : list (string * Ty)) t :
  find_field f fs = Some t -> size t <= foldr (fun f => Z.max (size f.2)) 0 fs.
Proof.
  induction fs as [|[g u] fs IH]; cbn; [done|]. case_decide; [intros [= <-]; lia|].
  intros ?%IH. lia.
Qed.

Lemma find_max_align a f (fs : list (string * Ty)) t :
  is_align a = true -> forallb (fun e => wf e.2) fs = true -> find_field f fs = Some t ->
  (align t | foldr (fun f => Z.max (align f.2)) a fs).
Proof.
  intros Ha Hfs Hf.
  destruct (aligns_spec a fs Ha) as [Hm Hle].
  { apply (wf_Forall fs (fun t => is_align (align t) = true)); [|done].
    apply Forall_forall. intros e _. apply align_ok. }
  apply align_divide; [apply align_ok, (forallb_find wf f fs t); done|done|].
  clear Hm Hfs. revert Hle Hf. generalize (foldr (fun f => Z.max (align f.2)) a fs). intros z.
  induction 1 as [|[g u] fs ? ? IH]; cbn; [done|]. case_decide; [by intros [= <-]|done].
Qed.

Lemma step_inside t a o u : wf t = true -> step t a = Some (o, u) ->
  wf u = true /\ 0 <= o /\ o + size u <= size t.
Proof.
  intros Hw. destruct a as [f|i]; cbn [step].
  - destruct t as [| | | | |packed a fs|fs]; cbn [fields]; try done; cbn [wf] in Hw.
    + apply andb_prop in Hw as [Ha Hfs]. intros Hf.
      destruct (find_offsets _ _ _ _ _ _ Hfs Hf) as (Hff & ? & ? & _).
      split_and!; [by apply (forallb_find wf f fs)|done|].
      etrans; [eassumption|]. cbn [size]. apply round_up_ge.
      apply (align_pos (Struct packed a fs)). cbn [wf]. by rewrite Ha, Hfs.
    + intros (Hf & ->)%find_union. split_and!; [by apply (forallb_find wf f fs)|done|].
      rewrite Z.add_0_l. etrans; [by apply (find_max_size f)|]. cbn [size]. apply round_up_ge.
      by apply (align_pos (Union fs)).
  - destruct t as [| | | |e n| |]; try done. cbn [wf] in Hw.
    destruct ((0 <=? i) && (i <? n)) eqn:E; [|done]. intros [= <- <-].
    bool_to_prop. destruct_and?. pose proof (size_nonneg e ltac:(done)). cbn [size]. split_and!; [done|nia|nia].
Qed.

Lemma step_aligned t a o u : wf t = true -> natural t = true -> step t a = Some (o, u) ->
  natural u = true /\ (align u | o) /\ (align u | align t).
Proof.
  intros Hw Hn. destruct a as [f|i]; cbn [step].
  - destruct t as [| | | | |packed a fs|fs]; cbn [fields]; try done; cbn [wf natural] in Hw, Hn.
    + apply andb_prop in Hw as [Ha Hfs]. apply andb_prop in Hn as [Hp Hn]. intros Hf.
      destruct (find_offsets _ _ _ _ _ _ Hfs Hf) as (Hff & _ & _ & Hd). destruct packed; [done|].
      split_and!; [by apply (forallb_find natural f fs)|auto|by apply (find_max_align _ f)].
    + intros (Hf & ->)%find_union. split_and!; [by apply (forallb_find natural f fs)|by exists 0|].
      by apply (find_max_align _ f).
  - destruct t as [| | | |e n| |]; try done. cbn [wf natural] in Hw, Hn.
    destruct ((0 <=? i) && (i <? n)) eqn:E; [|done]. intros [= <- <-].
    apply andb_prop in Hw as [Hw _]. split_and!; [done| |done].
    by apply Z.divide_mul_l, align_divides_size.
Qed.

Lemma find_offsets_disjoint packed fs off f g o u o' u' : f <> g ->
  forallb (fun e => wf e.2) fs = true ->
  find_field f (offsets packed off fs) = Some (o, u) ->
  find_field g (offsets packed off fs) = Some (o', u') -> o + size u <= o' \/ o' + size u' <= o.
Proof.
  intros Hne. revert off. induction fs as [|[h t] fs IH]; intros off; cbn; [done|].
  intros [Ht Hfs]%andb_prop. case_decide; case_decide; try congruence.
  - intros [= <- <-] Hg. left. apply find_offsets in Hg as (_ & ? & _); done.
  - intros Hf [= <- <-]. right. apply find_offsets in Hf as (_ & ? & _); done.
  - by apply IH.
Qed.

Lemma step_disjoint t a b o u o' u' : wf t = true -> no_union t = true -> a <> b ->
  step t a = Some (o, u) -> step t b = Some (o', u') -> o + size u <= o' \/ o' + size u' <= o.
Proof.
  intros Hw Hn Hne.
  destruct a as [f|i], b as [g|j], t as [| | | |e n|packed a fs|fs]; cbn [step fields find_field]; try done.
  - cbn [wf] in Hw. apply andb_prop in Hw as [_ Hfs].
    apply find_offsets_disjoint; [congruence|done].
  - destruct ((0 <=? i) && (i <? n)), ((0 <=? j) && (j <? n)); try done.
    intros [= <- <-] [= <- <-]. cbn [wf] in Hw. apply andb_prop in Hw as [Hw _].
    pose proof (size_nonneg e Hw). assert (i < j \/ j < i) as [?|?]; [|left; nia|right; nia].
    destruct (Z.lt_total i j) as [|[->|]]; auto. done.
Qed.

Lemma step_no_union t a o u : no_union t = true -> step t a = Some (o, u) -> no_union u = true.
Proof.
  intros Hn. destruct a as [f|i]; cbn [step].
  - destruct t as [| | | | |packed a fs|fs]; cbn [fields]; try done; cbn [no_union] in Hn.
    intros Hf. apply (forallb_find no_union f fs); [done|]. clear Hn.
    revert Hf. generalize 0. induction fs as [|[g v] fs IH]; intros off; cbn; [done|].
    case_decide; [by intros [= _ <-]|apply IH].
  - destruct t as [| | | |e n| |]; try done. case_match; [|done]. by intros [= <- <-].
Qed.

(** ** Places *)

Lemma offset_inside p : forall t o u, wf t = true -> offset_of t p = Some (o, u) ->
  wf u = true /\ 0 <= o /\ o + size u <= size t.
Proof.
  induction p as [|a p IH]; intros t o u Hw; cbn [offset_of].
  - intros [= <- <-]. split_and!; [done|lia|lia].
  - intros H. apply bind_Some in H as ([o1 v] & Ha & H). apply bind_Some in H as ([o2 w] & Hp & [= <- <-]).
    destruct (step_inside _ _ _ _ Hw Ha) as (Hv & ? & ?). destruct (IH _ _ _ Hv Hp) as (? & ? & ?).
    split_and!; [done|lia|lia].
Qed.

Lemma offset_aligned p : forall t o u, wf t = true -> natural t = true -> offset_of t p = Some (o, u) ->
  (align u | o) /\ (align u | align t).
Proof.
  induction p as [|a p IH]; intros t o u Hw Hn; cbn [offset_of].
  - intros [= <- <-]. split; [by exists 0|done].
  - intros H. apply bind_Some in H as ([o1 v] & Ha & H). apply bind_Some in H as ([o2 w] & Hp & [= <- <-]).
    destruct (step_inside _ _ _ _ Hw Ha) as (Hv & _ & _).
    destruct (step_aligned _ _ _ _ Hw Hn Ha) as (Hnv & Ho & Ht).
    destruct (IH _ _ _ Hv Hnv Hp) as (Ho2 & Hvt).
    split; [apply Z.divide_add_r; [by etrans|done]|by etrans].
Qed.

Lemma offset_disjoint p : forall q t o u o' u', wf t = true -> no_union t = true -> diverge p q ->
  offset_of t p = Some (o, u) -> offset_of t q = Some (o', u') -> o + size u <= o' \/ o' + size u' <= o.
Proof.
  induction p as [|a p IH]; intros [|b q] t o u o' u' Hw Hn Hd; try done; cbn [offset_of].
  intros H H'. apply bind_Some in H as ([o1 v] & Ha & H). apply bind_Some in H as ([o2 w] & Hp & [= <- <-]).
  apply bind_Some in H' as ([o1' v'] & Hb & H'). apply bind_Some in H' as ([o2' w'] & Hq & [= <- <-]).
  destruct (step_inside _ _ _ _ Hw Ha) as (Hv & _ & _). destruct (step_inside _ _ _ _ Hw Hb) as (Hv' & _ & _).
  destruct Hd as [[-> Hd]|Hne].
  - rewrite Ha in Hb. injection Hb as <- <-.
    destruct (IH _ _ _ _ _ _ Hv (step_no_union _ _ _ _ Hn Ha) Hd Hp Hq); lia.
  - pose proof (offset_inside _ _ _ _ Hv Hp) as (_ & ? & ?).
    pose proof (offset_inside _ _ _ _ Hv' Hq) as (_ & ? & ?).
    destruct (step_disjoint _ _ _ _ _ _ _ Hw Hn Hne Ha Hb); lia.
Qed.
