(* ===== verification/Structs.v ===== *)
(** * The declarations of the r-efi crate (r-efi/src/base.rs, system.rs, protocols/)

    The structures, unions and enumerations a UEFI image and the firmware agree
    on, each with its fields in the order of the source; one Module per source
    file.  A declaration whose last field is a slice takes the slice's length. *)

From stdpp Require Import strings.
From S2P Require Import Prelude Mem Layout.

#[local] Open Scope string_scope.
#[local] Open Scope Z_scope.

(** ** Primitive types of the x86-64 target *)

Definition Bool : Ty := Scalar 1.
Definition U8 : Ty := Scalar 1.
Definition U16 : Ty := Scalar 2.
Definition I16 : Ty := Scalar 2.
Definition U32 : Ty := Scalar 4.
Definition I32 : Ty := Scalar 4.
Definition U64 : Ty := Scalar 8.
Definition Usize : Ty := Scalar 8.

(** ** r-efi/src/base.rs *)

Module rbase.

Definition Boolean : Ty := Struct false 1 [("0", U8)].
Definition Char8 : Ty := U8.
Definition Char16 : Ty := U16.
Definition Status : Ty := Struct false 1 [("0", Usize)].
Definition Handle : Ty := Ptr "c_void".
Definition Event : Ty := Ptr "c_void".
Definition Lba : Ty := U64.
Definition Tpl : Ty := Usize.
Definition PhysicalAddress : Ty := U64.
Definition VirtualAddress : Ty := U64.
Definition ImageEntryPoint : Ty := Fn [Handle; Ptr "SystemTable"] (Some Status).

Definition Guid : Ty :=
  Struct false 8 [
    ("time_low", Array U8 4); ("time_mid", Array U8 2); ("time_hi_and_version", Array U8 2);
    ("clk_seq_hi_res", U8); ("clk_seq_low", U8); ("node", Array U8 6)].

End rbase.

Import rbase.

(** ** r-efi/src/system.rs *)

Module system.

Definition Time : Ty :=
  Struct false 1 [
    ("year", U16); ("month", U8); ("day", U8); ("hour", U8); ("minute", U8); ("second", U8);
    ("pad1", U8); ("nanosecond", U32); ("timezone", I16); ("daylight", U8); ("pad2", U8)].

Definition TimeCapabilities : Ty :=
  Struct false 1 [
    ("resolution", U32); ("accuracy", U32); ("sets_to_zero", Boolean)].

Definition VariableAuthentication3CertId (n : Z) : Ty :=
  Struct false 1 [
    ("type", U8); ("id_size", U32); ("id", Array U8 n)].

Definition VariableAuthentication (n : Z) : Ty :=
  Struct false 1 [
    ("monotonic_count", U64); ("auth_info", Array U8 n)].

Definition VariableAuthentication2 (n : Z) : Ty :=
  Struct false 1 [
    ("timestamp", Time); ("auth_info", Array U8 n)].

Definition VariableAuthentication3 : Ty :=
  Struct false 1 [
    ("version", U8); ("type", U8); ("metadata_size", U32); ("flags", U32)].

Definition VariableAuthentication3Nonce (n : Z) : Ty :=
  Struct false 1 [
    ("nonce_size", U32); ("nonce", Array U8 n)].

Definition ResetType : Ty :=
  Enum 4 ["ResetCold"; "ResetWarm"; "ResetShutdown"; "ResetPlatformSpecific"].

Definition CapsuleBlockDescriptorUnion : Ty :=
  Union [
    ("data_block", PhysicalAddress); ("continuation_pointer", PhysicalAddress)].

Definition CapsuleBlockDescriptor : Ty :=
  Struct false 1 [
    ("length", U64); ("data", CapsuleBlockDescriptorUnion)].

Definition CapsuleHeader : Ty :=
  Struct false 1 [
    ("capsule_guid", Guid); ("header_size", U32); ("flags", U32); ("capsule_image_size", U32)].

Definition CapsuleResultVariableHeader : Ty :=
  Struct false 1 [
    ("variable_total_size", U32); ("reserved", U32); ("capsule_guid", Guid); ("capsule_processed", Time);
    ("capsule_status", Status)].

Definition CapsuleResultVariableFMP (n : Z) : Ty :=
  Struct false 1 [
    ("version", U16); ("payload_index", U8); ("update_image_index", U8); ("update_image_type_id", Guid);
    ("capsule_file_name_and_target", Array Char16 n)].

Definition EventNotify : Ty := Fn [Event; Ptr "c_void"] None.

Definition TimerDelay : Ty :=
  Enum 4 ["TimerCancel"; "TimerPeriodic"; "TimerRelative"].

Definition AllocateType : Ty :=
  Enum 4 ["AllocateAnyPages"; "AllocateMaxAddress"; "AllocateAddress"].

Definition MemoryType : Ty :=
  Enum 4 ["ReservedMemoryType"; "LoaderCode"; "LoaderData"; "BootServicesCode"; "BootServicesData"; "RuntimeServicesCode";
          "RuntimeServicesData"; "ConventionalMemory"; "UnusableMemory"; "AcpiReclaimMemory"; "AcpiMemoryNvs";
          "MemoryMappedIO"; "MemoryMappedIOPortSpace"; "PalCode"; "PersistentMemory"].

Definition MemoryDescriptor : Ty :=
  Struct false 1 [
    ("type", U32); ("physical_start", PhysicalAddress); ("virtual_start", VirtualAddress);
    ("number_of_pages", U64); ("attribute", U64)].

Definition InterfaceType : Ty :=
  Enum 4 ["NativeInterface"].

Definition LocateSearchType : Ty :=
  Enum 4 ["AllHandles"; "ByRegisterNotify"; "ByProtocol"].

Definition OpenProtocolInformationEntry : Ty :=
  Struct false 1 [
    ("agent_handle", Handle); ("controller_handle", Handle); ("attributes", U32); ("open_count", U32)].

Definition ConfigurationTable : Ty :=
  Struct false 1 [
    ("vendor_guid", Guid); ("vendor_table", Ptr "c_void")].

Definition PropertiesTable : Ty :=
  Struct false 1 [
    ("version", U32); ("length", U32); ("memory_protection_attribute", U64)].

Definition MemoryAttributesTable (n : Z) : Ty :=
  Struct false 1 [
    ("version", U32); ("number_of_entries", U32); ("descriptor_size", U32); ("reserved", U32);
    ("entry", Array MemoryDescriptor n)].

Definition TableHeader : Ty :=
  Struct false 1 [
    ("signature", U64); ("revision", U32); ("header_size", U32); ("crc32", U32); ("reserved", U32)].

Definition RuntimeServices : Ty :=
  Struct false 1 [
    ("hdr", TableHeader);
    ("get_time", Fn [Ptr "Time"; Ptr "TimeCapabilities"] (Some Status));
    ("set_time", Fn [Ptr "Time"] (Some Status));
    ("get_wakeup_time", Fn [Ptr "Boolean"; Ptr "Boolean"; Ptr "Time"] (Some Status));
    ("set_wakeup_time", Fn [Boolean; Ptr "Time"] (Some Status));
    ("set_virtual_address_map", Fn [Usize; Usize; U32; Ptr "MemoryDescriptor"] (Some Status));
    ("convert_pointer", Fn [Usize; Ptr "*c_void"] (Some Status));
    ("get_variable", Fn [Ptr "Char16"; Ptr "Guid"; Ptr "u32"; Ptr "usize"; Ptr "c_void"] (Some Status));
    ("get_next_variable_name", Fn [Ptr "usize"; Ptr "Char16"; Ptr "Guid"] (Some Status));
    ("set_variable", Fn [Ptr "Char16"; Ptr "Guid"; U32; Usize; Ptr "c_void"] (Some Status));
    ("get_next_high_mono_count", Fn [Ptr "u32"] (Some Status));
    ("reset_system", Fn [ResetType; Status; Usize; Ptr "c_void"] None);
    ("update_capsule", Fn [Ptr "*CapsuleHeader"; Usize; PhysicalAddress] (Some Status));
    ("query_capsule_capabilities", Fn [Ptr "*CapsuleHeader"; Usize; Ptr "u64"; Ptr "ResetType"]
      (Some Status));
    ("query_variable_info", Fn [U32; Ptr "u64"; Ptr "u64"; Ptr "u64"] (Some Status))].

Definition BootServices : Ty :=
  Struct false 1 [
    ("hdr", TableHeader);
    ("raise_tpl", Fn [Tpl] (Some Tpl));
    ("restore_tpl", Fn [Tpl] None);
    ("allocate_pages", Fn [AllocateType; MemoryType; Usize; Ptr "PhysicalAddress"] (Some Status));
    ("free_pages", Fn [PhysicalAddress; Usize] (Some Status));
    ("get_memory_map", Fn [Ptr "usize"; Ptr "MemoryDescriptor"; Ptr "usize"; Ptr "usize"; Ptr "u32"]
      (Some Status));
    ("allocate_pool", Fn [MemoryType; Usize; Ptr "*c_void"] (Some Status));
    ("free_pool", Fn [Ptr "c_void"] (Some Status));
    ("create_event", Fn [U32; Tpl; EventNotify; Ptr "c_void"; Ptr "Event"] (Some Status));
    ("set_timer", Fn [Event; TimerDelay; U64] (Some Status));
    ("wait_for_event", Fn [Usize; Ptr "Event"; Ptr "usize"] (Some Status));
    ("signal_event", Fn [Event] (Some Status));
    ("close_event", Fn [Event] (Some Status));
    ("check_event", Fn [Event] (Some Status));
    ("install_protocol_interface", Fn [Ptr "Handle"; Ptr "Guid"; InterfaceType; Ptr "c_void"]
      (Some Status));
    ("reinstall_protocol_interface", Fn [Handle; Ptr "Guid"; Ptr "c_void"; Ptr "c_void"] (Some Status));
    ("uninstall_protocol_interface", Fn [Handle; Ptr "Guid"; Ptr "c_void"] (Some Status));
    ("handle_protocol", Fn [Handle; Ptr "Guid"; Ptr "*c_void"] (Some Status));
    ("reserved", Ptr "c_void");
    ("register_protocol_notify", Fn [Ptr "Guid"; Event; Ptr "*c_void"] (Some Status));
    ("locate_handle", Fn [LocateSearchType; Ptr "Guid"; Ptr "c_void"; Ptr "usize"; Ptr "Handle"]
      (Some Status));
    ("locate_device_path", Fn [Ptr "Guid"; Ptr "*c_void"; Ptr "Handle"] (Some Status));
    ("install_configuration_table", Fn [Ptr "Guid"; Ptr "c_void"] (Some Status));
    ("load_image", Fn [Boolean; Handle; Ptr "c_void"; Ptr "c_void"; Usize; Ptr "Handle"] (Some Status));
    ("start_image", Fn [Handle; Ptr "usize"; Ptr "*Char16"] (Some Status));
    ("exit", Fn [Handle; Status; Usize; Ptr "Char16"] (Some Status));
    ("unload_image", Fn [Handle] (Some Status));
    ("exit_boot_services", Fn [Handle; Usize] (Some Status));
    ("get_next_monotonic_count", Fn [Ptr "u64"] (Some Status));
    ("stall", Fn [Usize] (Some Status));
    ("set_watchdog_timer", Fn [Usize; U64; Usize; Ptr "Char16"] (Some Status));
    ("connect_controller", Fn [Handle; Ptr "Handle"; Ptr "c_void"; Boolean] (Some Status));
    ("disconnect_controller", Fn [Handle; Handle; Handle] (Some Status));
    ("open_protocol", Fn [Handle; Ptr "Guid"; Ptr "*c_void"; Handle; Handle; U32] (Some Status));
    ("close_protocol", Fn [Handle; Ptr "Guid"; Handle; Handle] (Some Status));
    ("open_protocol_information", Fn [Handle; Ptr "Guid"; Ptr "*OpenProtocolInformationEntry";
      Ptr "usize"] (Some Status));
    ("protocols_per_handle", Fn [Handle; Ptr "**Guid"; Ptr "usize"] (Some Status));
    ("locate_handle_buffer", Fn [LocateSearchType; Ptr "Guid"; Ptr "c_void"; Ptr "usize"; Ptr "*Handle"]
      (Some Status));
    ("locate_protocol", Fn [Ptr "Guid"; Ptr "c_void"; Ptr "*c_void"] (Some Status));
    ("install_multiple_protocol_interfaces", Fn [Ptr "Handle"; Ptr "c_void"; Ptr "c_void"] (Some Status));
    ("uninstall_multiple_protocol_interfaces", Fn [Ptr "Handle"; Ptr "c_void"; Ptr "c_void"]
      (Some Status));
    ("calculate_crc32", Fn [Ptr "c_void"; Usize; Ptr "u32"] (Some Status));
    ("copy_mem", Fn [Ptr "c_void"; Ptr "c_void"; Usize] None);
    ("set_mem", Fn [Ptr "c_void"; Usize; U8] None);
    ("create_event_ex", Fn [U32; Tpl; EventNotify; Ptr "c_void"; Ptr "Guid"; Ptr "Event"] (Some Status))].

Definition SystemTable : Ty :=
  Struct false 1 [
    ("hdr", TableHeader); ("firmware_vendor", Ptr "Char16"); ("firmware_revision", U32);
    ("console_in_handle", Handle); ("con_in", Ptr "simple_text_input::Protocol");
    ("console_out_handle", Handle); ("con_out", Ptr "simple_text_output::Protocol");
    ("standard_error_handle", Handle); ("std_err", Ptr "simple_text_output::Protocol");
    ("runtime_services", Ptr "RuntimeServices"); ("boot_services", Ptr "BootServices");
    ("number_of_table_entries", Usize); ("configuration_table", Ptr "ConfigurationTable")].

End system.

(** ** r-efi/src/protocols/block_io.rs *)

Module block_io.

Definition BlockIoMedia : Ty :=
  Struct false 1 [
    ("media_id", U32); ("removable_media", Bool); ("media_present", Bool); ("logical_partition", Bool);
    ("read_only", Bool); ("write_caching", Bool); ("block_size", U32); ("io_align", U32);
    ("last_block", U64)].

Definition Protocol : Ty :=
  Struct false 1 [
    ("revision", U64); ("media", Ptr "BlockIoMedia");
    ("reset", Fn [Ptr "Protocol"; Bool] (Some Status));
    ("read_blocks", Fn [Ptr "Protocol"; U32; U64; Usize; Ptr "c_void"] (Some Status));
    ("write_blocks", Fn [Ptr "Protocol"; U32; U64; Usize; Ptr "c_void"] (Some Status));
    ("flush_blocks", Fn [Ptr "Protocol"] (Some Status))].

End block_io.

(** ** r-efi/src/protocols/decompress.rs *)

Module decompress.

Definition Protocol : Ty :=
  Struct false 1 [
    ("get_info", Fn [Ptr "Protocol"; Ptr "c_void"; U32; Ptr "u32"; Ptr "u32"] (Some Status));
    ("decompress", Fn [Ptr "Protocol"; Ptr "c_void"; U32; Ptr "c_void"; U32; Ptr "c_void"; U32]
      (Some Status))].

End decompress.

(** ** r-efi/src/protocols/device_path.rs *)

Module device_path.

Definition Protocol : Ty :=
  Struct false 1 [
    ("type", U8); ("sub_type", U8); ("length", Array U8 2)].

Definition End : Ty :=
  Struct false 1 [
    ("header", Protocol)].

Definition Hardware : Ty :=
  Struct false 1 [
    ("header", Protocol)].

Definition Media : Ty :=
  Struct false 1 [
    ("header", Protocol)].

Definition HardDriveDevicePathNode : Ty :=
  Struct true 1 [
    ("header", Protocol); ("partition_number", U32); ("partition_start", U64); ("partition_size", U64);
    ("partition_signature", Array U64 2); ("partition_format", U8); ("signature_type", U8)].

Definition HardDriveDevicePath : Ty :=
  Struct true 1 [
    ("file_system_path_node", HardDriveDevicePathNode); ("end", End)].

Definition PciDevicePathNode : Ty :=
  Struct true 1 [
    ("header", Protocol); ("function", U8); ("device", U8)].

Definition PciDevicePath : Ty :=
  Struct true 1 [
    ("pci_device_path", PciDevicePathNode); ("end", Protocol)].

End device_path.

(** ** r-efi/src/protocols/device_path_utilities.rs *)

Module device_path_utilities.

Definition Protocol : Ty :=
  Struct false 1 [
    ("get_device_path_size", Fn [Ptr "device_path::Protocol"] (Some Usize));
    ("duplicate_device_path", Fn [Ptr "device_path::Protocol"] (Some (Ptr "device_path::Protocol")));
    ("append_device_path", Fn [Ptr "device_path::Protocol"; Ptr "device_path::Protocol"]
      (Some (Ptr "device_path::Protocol")));
    ("append_device_node", Fn [Ptr "device_path::Protocol"; Ptr "device_path::Protocol"]
      (Some (Ptr "device_path::Protocol")));
    ("append_device_path_instance", Fn [Ptr "device_path::Protocol"; Ptr "device_path::Protocol"]
      (Some (Ptr "device_path::Protocol")));
    ("get_next_device_path_instance", Fn [Ptr "*device_path::Protocol"; Ptr "usize"]
      (Some (Ptr "device_path::Protocol")));
    ("is_device_path_multi_instance", Fn [Ptr "device_path::Protocol"] (Some Boolean));
    ("create_device_node", Fn [U8; U8; U16] (Some (Ptr "device_path::Protocol")))].

End device_path_utilities.

(** ** r-efi/src/protocols/disk_io.rs *)

Module disk_io.

Definition Protocol : Ty :=
  Struct false 1 [
    ("revision", U64);
    ("read_disk", Fn [Ptr "Protocol"; U32; U64; Usize; Ptr "c_void"] (Some Status));
    ("write_disk", Fn [Ptr "Protocol"; U32; U64; Usize; Ptr "c_void"] (Some Status))].

End disk_io.

(** ** r-efi/src/protocols/disk_io2.rs *)

Module disk_io2.

Definition DiskIo2Token : Ty :=
  Struct false 1 [
    ("event", Event); ("transaction_status", Status)].

Definition Protocol : Ty :=
  Struct false 1 [
    ("revision", U64);
    ("cancel", Fn [Ptr "Protocol"] None);
    ("read_disk_ex", Fn [Ptr "Protocol"; U32; U64; Usize; Ptr "c_void"] (Some Status));
    ("write_disk_ex", Fn [Ptr "Protocol"; U32; U64; Ptr "DiskIo2Token"; Usize; Ptr "c_void"]
      (Some Status));
    ("flush_disk_ex", Fn [Ptr "Protocol"; Ptr "DiskIo2Token"] (Some Status))].

End disk_io2.

(** ** r-efi/src/protocols/driver_binding.rs *)

Module driver_binding.

Definition Protocol : Ty :=
  Struct false 1 [
    ("supported", Fn [Ptr "Protocol"; Handle; Ptr "device_path::Protocol"] (Some Status));
    ("start", Fn [Ptr "Protocol"; Handle; Ptr "device_path::Protocol"] (Some Status));
    ("stop", Fn [Ptr "Protocol"; Handle; Usize; Handle] (Some Status));
    ("version", U32); ("image_handle", Handle); ("driver_binding_handle", Handle)].

End driver_binding.

(** ** r-efi/src/protocols/file.rs *)

Module file.

Definition IoToken : Ty :=
  Struct false 1 [
    ("event", Event); ("status", Status); ("buffer_size", Usize); ("buffer", Ptr "c_void")].

Definition Info : Ty :=
  Struct false 1 [
    ("size", U64); ("file_size", U64); ("physical_size", U64); ("create_time", system.Time);
    ("last_access_time", system.Time); ("modification_time", system.Time); ("attribute", U64);
    ("file_name", Ptr "Char16")].

Definition SystemInfo (n : Z) : Ty :=
  Struct false 1 [
    ("size", U64); ("read_only", Boolean); ("volume_size", U64); ("free_space", U64);
    ("block_size", U32); ("volume_label", Array Char16 n)].

Definition SystemVolumeLabel (n : Z) : Ty :=
  Struct false 1 [
    ("volume_label", Array Char16 n)].

Definition Protocol : Ty :=
  Struct false 1 [
    ("revision", U64);
    ("open", Fn [Ptr "Protocol"; Ptr "*Protocol"; Ptr "Char16"; U64; U64] (Some Status));
    ("close", Fn [Ptr "Protocol"] (Some Status));
    ("delete", Fn [Ptr "Protocol"] (Some Status));
    ("read", Fn [Ptr "Protocol"; Ptr "usize"; Ptr "c_void"] (Some Status));
    ("write", Fn [Ptr "Protocol"; Ptr "usize"; Ptr "c_void"] (Some Status));
    ("get_position", Fn [Ptr "Protocol"; Ptr "u64"] (Some Status));
    ("set_position", Fn [Ptr "Protocol"; U64] (Some Status));
    ("get_info", Fn [Ptr "Protocol"; Ptr "Guid"; Ptr "usize"; Ptr "c_void"] (Some Status));
    ("set_info", Fn [Ptr "Protocol"; Ptr "Guid"; Usize; Ptr "c_void"] (Some Status));
    ("flush", Fn [Ptr "Protocol"] (Some Status));
    ("open_ex", Fn [Ptr "Protocol"; Ptr "*Protocol"; Ptr "Char16"; U64; U64; Ptr "IoToken"] (Some Status));
    ("read_ex", Fn [Ptr "Protocol"; Ptr "IoToken"] (Some Status));
    ("write_ex", Fn [Ptr "Protocol"; Ptr "IoToken"] (Some Status));
    ("flush_ex", Fn [Ptr "Protocol"; Ptr "IoToken"] (Some Status))].

End file.

(** ** r-efi/src/protocols/graphics_output.rs *)

Module graphics_output.

Definition PixelBitmask : Ty :=
  Struct false 1 [
    ("red_mask", U32); ("green_mask", U32); ("blue_mask", U32); ("reserved_mask", U32)].

Definition GraphicsPixelFormat : Ty :=
  Enum 4 ["PixelRedGreenBlueReserved8BitPerColor"; "PixelBlueGreenRedReserved8BitPerColor"; "PixelBitMask";
          "PixelBltOnly"; "PixelFormatMax"].

Definition ModeInformation : Ty :=
  Struct false 1 [
    ("version", U32); ("horizontal_resolution", U32); ("vertical_resolution", U32);
    ("pixel_format", GraphicsPixelFormat); ("pixel_information", PixelBitmask);
    ("pixels_per_scan_line", U32)].

Definition Mode : Ty :=
  Struct false 1 [
    ("max_mode", U32); ("mode", U32); ("info", Ptr "ModeInformation"); ("size_of_info", Usize);
    ("frame_buffer_base", PhysicalAddress); ("frame_buffer_size", Usize)].

Definition BltPixel : Ty :=
  Struct false 1 [
    ("blue", U8); ("green", U8); ("red", U8); ("reserved", U8)].

Definition BltOperation : Ty :=
  Enum 4 ["BltVideoFill"; "BltVideoToBltBuffer"; "BltBufferToVideo"; "BltVideoToVideo"; "BltOperationMax"].

Definition Protocol : Ty :=
  Struct false 1 [
    ("query_mode", Fn [Ptr "Protocol"; U32; Ptr "usize"; Ptr "*ModeInformation"] (Some Status));
    ("set_mode", Fn [Ptr "Protocol"; U32] (Some Status));
    ("blt", Fn [Ptr "Protocol"; Ptr "BltPixel"; BltOperation; Usize; Usize; Usize; Usize; Usize; Usize;
      Usize] (Some Status));
    ("mode", Ptr "Mode")].

End graphics_output.

(** ** r-efi/src/protocols/hii.rs *)

Module hii.

Definition StringId : Ty := U16.

Definition HiiFontStyle : Ty := U32.

End hii.

(** ** r-efi/src/protocols/hii_database.rs *)

Module hii_database.

Definition HiiHandle : Ty := Ptr "c_void".

End hii_database.

(** ** r-efi/src/protocols/hii_font.rs *)

Module hii_font.

Definition String : Ty := Ptr "Char16".

Definition FontInfo (n : Z) : Ty :=
  Struct false 1 [
    ("font_style", hii.HiiFontStyle); ("font_size", U16); ("font_name", Array Char16 n)].

End hii_font.

(** ** r-efi/src/protocols/hii_string.rs *)

Module hii_string.

Definition Protocol : Ty :=
  Struct false 1 [
    ("new_string", Fn [Ptr "Protocol"; hii_database.HiiHandle; Ptr "StringId"; Ptr "Char8"; Ptr "Char16";
      hii_font.String; Ptr "FontInfo"] (Some Status));
    ("get_string", Fn [Ptr "Protocol"; Ptr "Char8"; hii_database.HiiHandle; hii.StringId; hii_font.String;
      Ptr "usize"; Ptr "*FontInfo"] (Some Status));
    ("set_string", Fn [Ptr "Protocol"; hii_database.HiiHandle; hii.StringId; Ptr "Char8"; hii_font.String;
      Ptr "FontInfo"] (Some Status));
    ("get_language", Fn [Ptr "Protocol"; hii_database.HiiHandle; Ptr "Char8"; Ptr "usize"] (Some Status));
    ("get_second_language", Fn [Ptr "Protocol"; hii_database.HiiHandle; Ptr "Char8"; Ptr "Char8";
      Ptr "usize"] (Some Status))].

End hii_string.

(** ** r-efi/src/protocols/loaded_image.rs *)

Module loaded_image.

Definition Protocol : Ty :=
  Struct false 1 [
    ("revision", U32); ("parent_handle", Handle); ("system_table", Ptr "SystemTable");
    ("device_handle", Handle); ("file_path", Ptr "device_path::Protocol"); ("reserved", Ptr "c_void");
    ("load_options_size", U32); ("load_options", Ptr "c_void"); ("image_base", Ptr "c_void");
    ("image_size", U64); ("image_code_type", system.MemoryType); ("image_data_type", system.MemoryType);
    ("unload", Fn [Handle] (Some Status))].

End loaded_image.

(** ** r-efi/src/protocols/simple_file_system.rs *)

Module simple_file_system.

Definition Protocol : Ty :=
  Struct false 1 [
    ("revision", U64);
    ("open_volume", Fn [Ptr "Protocol"; Ptr "*file::Protocol"] (Some Status))].

End simple_file_system.

(** ** r-efi/src/protocols/simple_text_input.rs *)

Module simple_text_input.

Definition InputKey : Ty :=
  Struct false 1 [
    ("scan_code", U16); ("unicode_char", Char16)].

Definition Protocol : Ty :=
  Struct false 1 [
    ("reset", Fn [Ptr "Protocol"; Boolean] (Some Status));
    ("read_key_stroke", Fn [Ptr "Protocol"; Ptr "InputKey"] (Some Status));
    ("wait_for_key", Event)].

End simple_text_input.

(** ** r-efi/src/protocols/simple_text_input_ex.rs *)

Module simple_text_input_ex.

Definition KeyToggleState : Ty := U8.

Definition KeyNotifyFunction : Ty := Fn [Ptr "KeyData"] (Some Status).

Definition KeyState : Ty :=
  Struct false 1 [
    ("key_shift_state", U32); ("key_toggle_state", KeyToggleState)].

Definition KeyData : Ty :=
  Struct false 1 [
    ("key", simple_text_input.InputKey); ("key_state", KeyState)].

Definition Protocol : Ty :=
  Struct false 1 [
    ("reset", Fn [Ptr "Protocol"; Boolean] (Some Status));
    ("read_key_stroke_ex", Fn [Ptr "Protocol"; Ptr "KeyData"] (Some Status));
    ("wait_for_key_ex", Event);
    ("set_state", Fn [Ptr "Protocol"; Ptr "KeyToggleState"] (Some Status));
    ("register_key_notify", Fn [Ptr "Protocol"; Ptr "KeyData"; KeyNotifyFunction; Ptr "*c_void"]
      (Some Status));
    ("unregister_key_notify", Fn [Ptr "Protocol"; Ptr "c_void"] (Some Status))].

End simple_text_input_ex.

(** ** r-efi/src/protocols/simple_text_output.rs *)

Module simple_text_output.

Definition Mode : Ty :=
  Struct false 1 [
    ("max_mode", I32); ("mode", I32); ("attribute", I32); ("cursor_column", I32); ("cursor_row", I32);
    ("cursor_visible", Boolean)].

Definition Protocol : Ty :=
  Struct false 1 [
    ("reset", Fn [Ptr "Protocol"; Boolean] (Some Status));
    ("output_string", Fn [Ptr "Protocol"; Ptr "Char16"] (Some Status));
    ("test_string", Fn [Ptr "Protocol"; Ptr "Char16"] (Some Status));
    ("query_mode", Fn [Ptr "Protocol"; Usize; Ptr "usize"; Ptr "usize"] (Some Status));
    ("set_mode", Fn [Ptr "Protocol"; Usize] (Some Status));
    ("set_attribute", Fn [Ptr "Protocol"; Usize] (Some Status));
    ("clear_screen", Fn [Ptr "Protocol"] (Some Status));
    ("set_cursor_position", Fn [Ptr "Protocol"; Usize; Usize] (Some Status));
    ("enable_cursor", Fn [Ptr "Protocol"; Boolean] (Some Status));
    ("mode", Ptr "Mode")].

End simple_text_output.
