(* ===== verification/FwStructs.v ===== *)
(** * The declarations of the firmware (pi/, efi/, and the loaders and drivers)

    The structures the firmware overlays on memory it shares with the payload,
    its images, the disk and the virtio device, one Module per source file.  The
    copies of r-efi's declarations that some files keep for themselves are here
    too.  [hii*.rs] are not part of the crate's module tree. *)

From stdpp Require Import strings.
From S2P Require Import Prelude Mem Layout Structs.
Import rbase.

#[local] Open Scope string_scope.
#[local] Open Scope Z_scope.

(** ** src/pi/hob.rs *)

Module hob.

Definition ResourceType : Ty := U32.

Definition ResourceAttributeType : Ty := U32.

Definition Header : Ty :=
  Struct false 1 [
    ("type", U16); ("length", U16); ("reserved", U32)].

Definition HandoffInfoTable : Ty :=
  Struct false 1 [
    ("header", Header); ("version", U32); ("boot_mode", U32); ("efi_memory_top", PhysicalAddress);
    ("efi_memory_bottom", PhysicalAddress); ("efi_free_memory_top", PhysicalAddress);
    ("efi_free_memory_bottom", PhysicalAddress); ("efi_end_of_hob_list", PhysicalAddress)].

Definition MemoryAllocationHeader : Ty :=
  Struct false 1 [
    ("name", Guid); ("memory_base_address", PhysicalAddress); ("memory_length", U64);
    ("memory_type", system.MemoryType); ("reserved", Array U8 4)].

Definition MemoryAllocation : Ty :=
  Struct false 1 [
    ("header", Header); ("alloc_descriptor", MemoryAllocationHeader)].

Definition ResourceDescription : Ty :=
  Struct false 1 [
    ("header", Header); ("owner", Guid); ("resource_type", ResourceType);
    ("resource_attribute", ResourceAttributeType); ("physical_start", PhysicalAddress);
    ("resource_length", U64)].

Definition FirmwareVolume : Ty :=
  Struct false 1 [
    ("header", Header); ("base_address", PhysicalAddress); ("length", U64)].

Definition FirmwareVolume2 : Ty :=
  Struct false 1 [
    ("header", Header); ("base_address", PhysicalAddress); ("length", U64); ("fv_name", Guid);
    ("file_name", Guid)].

Definition FirmwareVolume3 : Ty :=
  Struct false 1 [
    ("header", Header); ("base_address", PhysicalAddress); ("length", U64);
    ("authentication_status", U32); ("extracted_fv", Boolean); ("fv_name", Guid); ("file_name", Guid)].

Definition Cpu : Ty :=
  Struct false 1 [
    ("header", Header); ("size_of_memory_space", U8); ("size_of_io_space", U8); ("reserved", Array U8 6)].

End hob.

(** ** src/pi/fv.rs *)

Module fv.

Definition FvbAttributes2 : Ty := U32.

Definition FirmwareVolumeHeader : Ty :=
  Struct false 1 [
    ("zero_vector", Array U8 16); ("file_system_guid", Guid); ("fv_length", U64); ("signature", U32);
    ("attributes", FvbAttributes2); ("header_length", U16); ("checksum", U16);
    ("ext_header_offset", U16); ("reserved", U8); ("revision", U8)].

Definition FvBlockMap : Ty :=
  Struct false 1 [
    ("num_blocks", U32); ("length", U32)].

Definition FirmwareVolumeExtHeader : Ty :=
  Struct false 1 [
    ("fv_name", Guid); ("ext_header_size", U32)].

Definition FirmwareVolumeExtEntry : Ty :=
  Struct false 1 [
    ("ext_entry_size", U16); ("ext_entry_type", U32)].

Definition FvFileType : Ty := U8.

Definition FfsFileAttributes : Ty := U8.

Definition FfsFileState : Ty := U8.

Definition FfsFileHeader : Ty :=
  Struct false 1 [
    ("name", Guid); ("integrity_check", U16); ("type", FvFileType); ("attributes", FfsFileAttributes);
    ("size", Array U8 3); ("state", FfsFileState)].

Definition FfsFileHeader2 : Ty :=
  Struct false 1 [
    ("name", Guid); ("integrity_check", U16); ("type", FvFileType); ("attributes", FfsFileAttributes);
    ("size", Array U8 3); ("state", FfsFileState); ("extended_size", U32)].

Definition SectionType : Ty := U8.

Definition CommonSectionHeader : Ty :=
  Struct false 1 [
    ("size", Array U8 3); ("type", SectionType)].

Definition CommonSectionHeader2 : Ty :=
  Struct false 1 [
    ("size", Array U8 3); ("type", SectionType); ("extended_size", U32)].

End fv.

(** ** src/efi/peloader.rs *)

Module peloader.

Definition ImageDosHeader : Ty :=
  Struct true 1 [
    ("e_magic", U16); ("e_cblp", U16); ("e_cp", U16); ("e_crlc", U16); ("e_cparhdr", U16);
    ("e_minalloc", U16); ("e_maxalloc", U16); ("e_ss", U16); ("e_sp", U16); ("e_csum", U16);
    ("e_ip", U16); ("e_cs", U16); ("e_lfarlc", U16); ("e_ovno", U16); ("e_res", Array U16 4);
    ("e_oemid", U16); ("e_oeminfo", U16); ("e_res2", Array U16 10); ("e_lfanew", U32)].

Definition ImageFileHeader : Ty :=
  Struct true 1 [
    ("machine", U16); ("number_of_sections", U16); ("time_date_stamp", U32);
    ("pointer_to_symbol_table", U32); ("number_of_symbols", U32); ("size_of_optional_header", U16);
    ("characteristics", U16)].

Definition ImageDataDirectory : Ty :=
  Struct true 1 [
    ("virtual_address", U32); ("size", U32)].

Definition ImageOptionalHeader32 : Ty :=
  Struct true 1 [
    ("magic", U16); ("major_linker_version", U8); ("minor_linker_version", U8); ("size_of_code", U32);
    ("size_of_initialized_data", U32); ("size_of_uninitialized_data", U32);
    ("address_of_entry_point", U32); ("base_of_code", U32); ("base_of_data", U32); ("image_base", U32);
    ("section_alignment", U32); ("file_alignment", U32); ("major_operating_system_version", U16);
    ("minor_operating_system_version", U16); ("major_image_version", U16); ("minor_image_version", U16);
    ("major_subsystem_version", U16); ("minor_subsystem_version", U16); ("win32_version_value", U32);
    ("size_of_image", U32); ("size_of_headers", U32); ("checksum", U32); ("subsystem", U16);
    ("dll_characteristics", U16); ("size_of_stack_reserve", U32); ("size_of_stack_commit", U32);
    ("size_of_heap_reserve", U32); ("size_of_heap_commit", U32); ("loader_flags", U32);
    ("number_of_rva_and_sizes", U32); ("data_directory", Array ImageDataDirectory 16)].

Definition ImageOptionalHeader64 : Ty :=
  Struct true 1 [
    ("magic", U16); ("major_linker_version", U8); ("minor_linker_version", U8); ("size_of_code", U32);
    ("size_of_initialized_data", U32); ("size_of_uninitialized_data", U32);
    ("address_of_entry_point", U32); ("base_of_code", U32); ("image_base", U64);
    ("section_alignment", U32); ("file_alignment", U32); ("major_operating_system_version", U16);
    ("minor_operating_system_version", U16); ("major_image_version", U16); ("minor_image_version", U16);
    ("major_subsystem_version", U16); ("minor_subsystem_version", U16); ("win32_version_value", U32);
    ("size_of_image", U32); ("size_of_headers", U32); ("checksum", U32); ("subsystem", U16);
    ("dll_characteristics", U16); ("size_of_stack_reserve", U64); ("size_of_stack_commit", U64);
    ("size_of_heap_reserve", U64); ("size_of_heap_commit", U64); ("loader_flags", U32);
    ("number_of_rva_and_sizes", U32); ("data_directory", Array ImageDataDirectory 16)].

Definition ImageNtHeader32 : Ty :=
  Struct true 1 [
    ("signature", U32); ("file_header", ImageFileHeader); ("optional_header", ImageOptionalHeader32)].

Definition ImageNtHeader64 : Ty :=
  Struct true 1 [
    ("signature", U32); ("file_header", ImageFileHeader); ("optional_header", ImageOptionalHeader64)].

Definition ImageSectionHeader : Ty :=
  Struct true 1 [
    ("name", Array U8 8); ("virtual_size", U32); ("virtual_address", U32); ("size_of_raw_data", U32);
    ("pointer_to_raw_data", U32); ("pointer_to_relocations", U32); ("pointer_to_linenumbers", U32);
    ("number_of_relocations", U16); ("number_of_linenumbers", U16); ("characteristics", U32)].

Definition ImageRelocation : Ty :=
  Struct true 1 [
    ("virtual_address", U32); ("symbol_table_index", U32); ("type", U16)].

Definition ImageBaseRelocation : Ty :=
  Struct true 1 [
    ("virtual_address", U32); ("size_of_block", U32)].

End peloader.

(** ** src/pe.rs *)

Module pe.

Definition Section : Ty :=
  Struct true 1 [
    ("name", Array U8 8); ("virt_size", U32); ("virt_address", U32); ("raw_size", U32);
    ("raw_offset", U32); ("_unused", Array U8 16)].

End pe.

(** ** src/bzimage.rs *)

Module bzimage.

Definition E820Entry : Ty :=
  Struct true 1 [
    ("addr", U64); ("size", U64); ("entry_type", U32)].

End bzimage.

(** ** src/part.rs *)

Module part.

Definition Header : Ty :=
  Struct true 1 [
    ("signature", U64); ("_revision", U32); ("_header_size", U32); ("_header_crc", U32);
    ("_reserved", U32); ("_current_lba", U64); ("_backup_lba", U64); ("first_usable_lba", U64);
    ("last_usable_lba", U64); ("_disk_guid", Array U8 16); ("first_part_lba", U64); ("part_count", U32);
    ("_part_entry_size", U32); ("_part_crc", U32)].

Definition PartitionEntry : Ty :=
  Struct true 1 [
    ("type_guid", Array U8 16); ("guid", Array U8 16); ("first_lba", U64); ("last_lba", U64);
    ("_flags", U64); ("_partition_name", Array U32 18)].

End part.

(** ** src/fat.rs *)

Module fat.

Definition Header : Ty :=
  Struct true 1 [
    ("_magic", Array U8 3); ("_identifier", Array U8 8); ("bytes_per_sector", U16);
    ("sectors_per_cluster", U8); ("reserved_sectors", U16); ("fat_count", U8); ("root_dir_count", U16);
    ("legacy_sectors", U16); ("_media_type", U8); ("legacy_sectors_per_fat", U16);
    ("_sectors_per_track", U16); ("_head_count", U16); ("_hidden_sectors", U32); ("sectors", U32)].

Definition Fat32Header : Ty :=
  Struct true 1 [
    ("_header", Header); ("sectors_per_fat", U32); ("_flags", U16); ("_version", U16);
    ("root_cluster", U32); ("_fsinfo_sector", U16); ("_backup_boot_sector", U16);
    ("_reserved", Array U8 12); ("_drive_no", U8); ("_nt_flags", U8); ("_signature", U8);
    ("_serial", U32); ("_volume", Array U8 11); ("_id", Array U8 8)].

Definition FatDirectory : Ty :=
  Struct true 1 [
    ("name", Array U8 11); ("flags", U8); ("_unused1", Array U8 8); ("cluster_high", U16);
    ("_unused2", Array U8 4); ("cluster_low", U16); ("size", U32)].

Definition FatLongNameEntry : Ty :=
  Struct true 1 [
    ("seq", U8); ("name", Array U16 5); ("_attr", U8); ("_type", U8); ("_checksum", U8);
    ("name2", Array U16 6); ("_cluster", U16); ("name3", Array U16 2)].

End fat.

(** ** src/block.rs *)

Module block.

Definition UsedElem : Ty :=
  Struct false 1 [
    ("id", U32); ("len", U32)].

Definition Desc : Ty :=
  Struct false 16 [
    ("addr", U64); ("length", U32); ("flags", U16); ("next", U16)].

Definition AvailRing : Ty :=
  Struct false 2 [
    ("flags", U16); ("idx", U16); ("ring", Array U16 16)].

Definition UsedRing : Ty :=
  Struct false 4 [
    ("flags", U16); ("idx", U16); ("ring", Array UsedElem 16)].

Definition DriverState : Ty :=
  Struct false 64 [
    ("descriptors", Array Desc 16); ("avail", AvailRing); ("used", UsedRing); ("next_head", Usize)].

Definition BlockRequestHeader : Ty :=
  Struct false 1 [
    ("request", U32); ("reserved", U32); ("sector", U64)].

Definition BlockRequestFooter : Ty :=
  Struct false 1 [
    ("status", U8)].

End block.

(** ** src/efi/alloc.rs *)

Module alloc.

Definition MemoryDescriptor : Ty :=
  Struct false 1 [
    ("type", U32); ("physical_start", PhysicalAddress); ("virtual_start", VirtualAddress);
    ("number_of_pages", U64); ("attribute", U64)].

End alloc.

(** ** src/efi/device_path.rs *)

Module efi_device_path.

Definition MemoryMaped : Ty :=
  Struct false 1 [
    ("header", device_path.Protocol); ("memory_type", system.MemoryType);
    ("start_address", PhysicalAddress); ("end_address", PhysicalAddress)].

End efi_device_path.

(** ** src/efi/init.rs *)

Module init.

Definition HardDriveDevicePathNode : Ty :=
  Struct true 1 [
    ("header", device_path.Protocol); ("partition_number", U32); ("partition_start", U64);
    ("partition_size", U64); ("partition_signature", Array U64 2); ("partition_format", U8);
    ("partition_type", U8)].

Definition HardDriveDevicePath : Ty :=
  Struct true 1 [
    ("file_system_path_node", HardDriveDevicePathNode); ("end", device_path.End)].

End init.

(** ** src/efi/mod.rs *)

Module efi.

Definition HardDriveDevicePathNode : Ty :=
  Struct true 1 [
    ("header", device_path.Protocol); ("partition_number", U32); ("partition_start", U64);
    ("partition_size", U64); ("partition_signature", Array U64 2); ("partition_format", U8);
    ("partition_type", U8)].

Definition HardDriveDevicePath : Ty :=
  Struct true 1 [
    ("file_system_path_node", HardDriveDevicePathNode); ("end", device_path.End)].

Definition PciDevicePathNode : Ty :=
  Struct true 1 [
    ("header", device_path.Protocol); ("function", U8); ("device", U8)].

Definition PciDevicePath : Ty :=
  Struct true 1 [
    ("pci_device_path_node", PciDevicePathNode); ("end", device_path.End)].

Definition FullMemoryMappedDevicePath : Ty :=
  Struct true 1 [
    ("memory_map", efi_device_path.MemoryMaped); ("end", device_path.End)].

Definition HandleType : Ty :=
  Enum 1 ["None"; "Block"; "FileSystem"; "LoadedImage"].

Definition HandleWrapper : Ty :=
  Struct false 1 [
    ("handle_type", HandleType)].

End efi.

(** ** src/efi/block.rs *)

Module efi_block.

Definition HardDiskDevicePathProtocol : Ty :=
  Struct true 1 [
    ("device_path", device_path.Protocol); ("partition_number", U32); ("partition_start", U64);
    ("partition_size", U64); ("partition_signature", Array U8 16); ("partition_format", U8);
    ("signature_type", U8)].

Definition BlockIoMedia : Ty :=
  Struct false 1 [
    ("media_id", U32); ("removable_media", Bool); ("media_present", Bool); ("logical_partition", Bool);
    ("read_only", Bool); ("write_caching", Bool); ("block_size", U32); ("io_align", U32);
    ("last_block", U64)].

Definition BlockIoProtocol : Ty :=
  Struct false 1 [
    ("revision", U64); ("media", Ptr "BlockIoMedia");
    ("reset", Fn [Ptr "BlockIoProtocol"; Bool] (Some Status));
    ("read_blocks", Fn [Ptr "BlockIoProtocol"; U32; U64; Usize; Ptr "c_void"] (Some Status));
    ("write_blocks", Fn [Ptr "BlockIoProtocol"; U32; U64; Usize; Ptr "c_void"] (Some Status));
    ("flush_blocks", Fn [Ptr "BlockIoProtocol"] (Some Status))].

Definition ControllerDevicePathProtocol : Ty :=
  Struct false 1 [
    ("device_path", device_path.Protocol); ("controller", U32)].

Definition BlockDevicePath : Ty :=
  Struct true 1 [
    ("pci", device_path.PciDevicePathNode); ("hard_disk", HardDiskDevicePathProtocol);
    ("end", device_path.Protocol)].

Definition BlockWrapper : Ty :=
  Struct false 1 [
    ("hw", efi.HandleWrapper); ("block", Ptr "VirtioBlockDevice"); ("media", BlockIoMedia);
    ("proto", BlockIoProtocol); ("controller_path", ControllerDevicePathProtocol);
    ("disk_paths", BlockDevicePath); ("start_lba", U64)].

End efi_block.

(** ** src/efi/file.rs *)

Module efi_file.

Definition FileInfo : Ty :=
  Struct true 1 [
    ("size", U64); ("file_size", U64); ("physical_size", U64); ("_create_time", system.Time);
    ("_last_access_time", system.Time); ("_modification_time", system.Time); ("attribute", U64);
    ("file_name", Array Char16 260)].

End efi_file.

(** ** src/efi/image.rs *)

Module image.

Definition LoadedImageProtocol : Ty :=
  Struct false 1 [
    ("revision", U32); ("parent_handle", Handle); ("system_table", Ptr "SystemTable");
    ("device_handle", Handle); ("file_path", Ptr "device_path::Protocol"); ("reserved", Ptr "c_void");
    ("load_options_size", U32); ("load_options", Ptr "c_void"); ("image_base", Ptr "c_void");
    ("image_size", U64); ("image_code_type", system.MemoryType); ("image_data_type", system.MemoryType);
    ("unload", Fn [Handle] (Some Status))].

Definition ImageInfo : Ty :=
  Struct false 1 [
    ("signature", U32); ("source_buffer", Usize); ("source_size", Usize); ("entry_point", Usize);
    ("loaded_image", LoadedImageProtocol)].

End image.

(** ** src/efi/handle_database.rs *)

Module handle_database.

Definition ProtocolStruct : Ty :=
  Struct false 1 [
    ("guid", Guid); ("interface", Usize)].

Definition ProtocolHandle : Ty :=
  Struct false 1 [
    ("signature", U32); ("protocol_count", Usize); ("protocol_struct", Array ProtocolStruct 32)].

Definition HandleDatabase : Ty :=
  Struct false 1 [
    ("protocol_handle_count", Usize); ("protocol_handle", Array ProtocolHandle 32)].

End handle_database.

(** ** src/efi/variable.rs *)

Module variable.

Definition VariableItem : Ty :=
  Struct false 1 [
    ("name", Array U8 32); ("guid", Array U8 16); ("attributes", U32); ("data_size", Usize);
    ("data", Array U8 2048)].

Definition Variable_ : Ty :=
  Struct false 1 [
    ("variable_count", Usize); ("varialbe_item", Array VariableItem 64)].

End variable.

(** ** src/efi/hii.rs *)

Module efi_hii.

Definition StringId : Ty := U16.

Definition HiiFontStyle : Ty := U32.

End efi_hii.

(** ** src/efi/hii_database.rs *)

Module efi_hii_database.

Definition HiiHandle : Ty := Ptr "c_void".

End efi_hii_database.

(** ** src/efi/hii_font.rs *)

Module efi_hii_font.

Definition String : Ty := Ptr "Char16".

Definition FontInfo (n : Z) : Ty :=
  Struct false 1 [
    ("font_style", efi_hii.HiiFontStyle); ("font_size", U16); ("font_name", Array Char16 n)].

End efi_hii_font.

(** ** src/efi/hii_string.rs *)

Module efi_hii_string.

Definition Protocol : Ty :=
  Struct false 1 [
    ("new_string", Fn [Ptr "Protocol"; efi_hii_database.HiiHandle; Ptr "StringId"; Ptr "Char8";
      Ptr "Char16"; efi_hii_font.String; Ptr "FontInfo"] (Some Status));
    ("get_string", Fn [Ptr "Protocol"; Ptr "Char8"; efi_hii_database.HiiHandle; efi_hii.StringId;
      efi_hii_font.String; Ptr "usize"; Ptr "*FontInfo"] (Some Status));
    ("set_string", Fn [Ptr "Protocol"; efi_hii_database.HiiHandle; efi_hii.StringId; Ptr "Char8";
      efi_hii_font.String; Ptr "FontInfo"] (Some Status));
    ("get_language", Fn [Ptr "Protocol"; efi_hii_database.HiiHandle; Ptr "Char8"; Ptr "usize"]
      (Some Status));
    ("get_second_language", Fn [Ptr "Protocol"; efi_hii_database.HiiHandle; Ptr "Char8"; Ptr "Char8";
      Ptr "usize"] (Some Status))].

End efi_hii_string.
