(* ===== verification/PeLoader.v ===== *)
(** * The PE/COFF loader (src/efi/peloader.rs): data and operations

    Headers are read in place, so the functions work on memory and addresses.
    The packed layouts put the fields at the offsets below. *)

From S2P Require Import Prelude REfi Mem.

Module PeLoader.

Definition IMAGE_DOS_SIGNATURE : Z := 0x5A4D.
Definition IMAGE_FILE_MACHINE_X64 : Z := 0x8664.
Definition IMAGE_NT_OPTIONAL_HDR64_MAGIC : Z := 0x20b.
Definition IMAGE_PE_SIGNATURE : Z := 0x004550.

(** [ImageDosHeader] *)
Definition DOS_HEADER_SIZE : Z := 64.
Definition e_magic (m : memory) (p : Z) : Z := load16 m p.
Definition e_lfanew (m : memory) (p : Z) : Z := load32 m (p + 60).

(** [ImageNtHeader64]: signature, [ImageFileHeader] at 4,
    [ImageOptionalHeader64] at 24 with its data directory at 136. *)
Definition NT_HEADER_SIZE : Z := 264.
Definition OPTIONAL_HEADER_OFFSET : Z := 24.
Definition signature (m : memory) (p : Z) : Z := load32 m p.
Definition machine (m : memory) (p : Z) : Z := load16 m (p + 4).
Definition number_of_sections (m : memory) (p : Z) : Z := load16 m (p + 6).
Definition size_of_optional_header (m : memory) (p : Z) : Z := load16 m (p + 20).
Definition magic (m : memory) (p : Z) : Z := load16 m (p + 24).
Definition address_of_entry_point (m : memory) (p : Z) : Z := load32 m (p + 40).
Definition image_base (m : memory) (p : Z) : Z := load64 m (p + 48).
Definition size_of_image (m : memory) (p : Z) : Z := load32 m (p + 80).
Definition IMAGE_DIRECTORY_ENTRY_BASERELOC : Z := 5.
Definition directory_address (m : memory) (p i : Z) : Z := load32 m (p + 136 + 8 * i).
Definition directory_size (m : memory) (p i : Z) : Z := load32 m (p + 140 + 8 * i).

(** [ImageSectionHeader] *)
Definition SECTION_HEADER_SIZE : Z := 40.
Definition virtual_size (m : memory) (p : Z) : Z := load32 m (p + 8).
Definition virtual_address (m : memory) (p : Z) : Z := load32 m (p + 12).
Definition size_of_raw_data (m : memory) (p : Z) : Z := load32 m (p + 16).
Definition pointer_to_raw_data (m : memory) (p : Z) : Z := load32 m (p + 20).

(** [ImageBaseRelocation] *)
Definition BASE_RELOCATION_SIZE : Z := 8.
Definition rel_virtual_address (m : memory) (p : Z) : Z := load32 m p.
Definition size_of_block (m : memory) (p : Z) : Z := load32 m (p + 4).

Definition IMAGE_REL_BASED_ABSOLUTE : Z := 0.
Definition IMAGE_REL_BASED_HIGH : Z := 1.
Definition IMAGE_REL_BASED_LOW : Z := 2.
Definition IMAGE_REL_BASED_HIGHLOW : Z := 3.
Definition IMAGE_REL_BASED_DIR64 : Z := 10.

(** The size of the image, 0 when the headers are not those of an x86-64 PE
    file. *)
Definition peloader_get_image_info (m : memory) (source_buffer source_size : Z) : Z :=
  let source_end := usize (source_buffer + source_size) in
  if source_end <? usize (source_buffer + DOS_HEADER_SIZE) then 0
  else if negb (e_magic m source_buffer =? IMAGE_DOS_SIGNATURE) then 0
  else
    let nt := usize (source_buffer + e_lfanew m source_buffer) in
    if source_end <? usize (nt + NT_HEADER_SIZE) then 0
    else if negb (signature m nt =? IMAGE_PE_SIGNATURE) then 0
    else if negb (machine m nt =? IMAGE_FILE_MACHINE_X64) then 0
    else if negb (magic m nt =? IMAGE_NT_OPTIONAL_HDR64_MAGIC) then 0
    else size_of_image m nt.

(** One relocation: the entry at [relocs] of the block at [rel]; [None] is an
    unknown type. *)
Definition relocate_entry (m : memory) (dest_buffer delta rel relocs : Z) : option memory :=
  let entry := load16 m relocs in
  let ptr := usize (dest_buffer + usize (Z.land entry 0xfff + rel_virtual_address m rel)) in
  let rel_type := Z.shiftr entry 12 in
  if rel_type =? IMAGE_REL_BASED_ABSOLUTE then Some m
  else if rel_type =? IMAGE_REL_BASED_HIGH then
    Some (store16 m ptr (u16 (load16 m ptr + u16 (Z.shiftr (u32 delta) 16))))
  else if rel_type =? IMAGE_REL_BASED_LOW then
    Some (store16 m ptr (u16 (load16 m ptr + u16 delta)))
  else if rel_type =? IMAGE_REL_BASED_HIGHLOW then
    Some (store32 m ptr (u32 (load32 m ptr + u32 delta)))
  else if rel_type =? IMAGE_REL_BASED_DIR64 then
    Some (store64 m ptr (u64 (load64 m ptr + delta)))
  else None.

(** [for x in 0..count]; also where [relocs] ends. *)
Fixpoint relocate_block (count : nat) (m : memory) (dest_buffer delta rel relocs : Z)
    : result Z unit * memory :=
  match count with
  | O => (Ok relocs, m)
  | S count =>
      match relocate_entry m dest_buffer delta rel relocs with
      | None => (Err tt, m)
      | Some m => relocate_block count m dest_buffer delta rel (usize (relocs + 2))
      end
  end.

Fixpoint relocate_loop (fuel : nat) (m : memory) (dest_buffer delta rel_base rel_end : Z)
    : res (result unit unit * memory) :=
  match fuel with
  | O => OutOfFuel
  | S fuel =>
      if rel_end <=? rel_base then Done (Ok tt, m)
      else
        let block := size_of_block m rel_base in
        if block =? 0 then Done (Ok tt, m)
        else
          let count := usize (block - BASE_RELOCATION_SIZE) / 2 in
          let '(r, m) := relocate_block (Z.to_nat count) m dest_buffer delta rel_base
                           (usize (rel_base + BASE_RELOCATION_SIZE)) in
          match r with
          | Err _ => Done (Err tt, m)
          | Ok relocs => relocate_loop fuel m dest_buffer delta relocs rel_end
          end
  end.

Definition relocate_image (fuel : nat) (m : memory)
    (dest_buffer dest_size dest_rel_buffer dest_rel_size base : Z)
    : res (result unit unit * memory) :=
  let delta := usize (dest_buffer - base) in
  if delta =? 0 then Done (Ok tt, m)
  else relocate_loop fuel m dest_buffer delta dest_rel_buffer (usize (dest_rel_buffer + dest_rel_size)).

(** One section: zeros written after it, its raw data copied. *)
Definition load_section (m : memory) (dest_buffer source_buffer section : Z) : memory :=
  let m := fill_bytes m
    (usize (usize (dest_buffer + virtual_address m section) + virtual_size m section))
    (Z.to_nat (virtual_size m section)) 0 in
  copy_bytes m (usize (source_buffer + pointer_to_raw_data m section))
    (usize (dest_buffer + virtual_address m section)) (Z.to_nat (size_of_raw_data m section)).

(** [for section_index in 0..number_of_sections], [n] of them left. *)
Fixpoint load_sections (n : nat) (m : memory) (dest_buffer source_buffer section : Z) : memory :=
  match n with
  | O => m
  | S n =>
      load_sections n (load_section m dest_buffer source_buffer section) dest_buffer source_buffer
        (usize (section + SECTION_HEADER_SIZE))
  end.

(** The offset of the first section header. *)
Definition first_section_offset (m : memory) (source_buffer : Z) : Z :=
  let pecoff_header_offset := e_lfanew m source_buffer in
  let nt := usize (source_buffer + pecoff_header_offset) in
  usize (pecoff_header_offset + OPTIONAL_HEADER_OFFSET + size_of_optional_header m nt).

(** Headers and sections copied to the destination. *)
Definition load_raw (m : memory) (dest_buffer source_buffer : Z) : memory :=
  let n := number_of_sections m (usize (source_buffer + e_lfanew m source_buffer)) in
  let first := first_section_offset m source_buffer in
  let total_header_size := usize (first + n * SECTION_HEADER_SIZE) in
  let m := copy_bytes m source_buffer dest_buffer (Z.to_nat total_header_size) in
  load_sections (Z.to_nat n) m dest_buffer source_buffer (usize (source_buffer + first)).

(** The entry point of the loaded image, 0 when relocation fails. *)
Definition peloader_load_image (fuel : nat) (m : memory)
    (dest_buffer dest_size source_buffer source_size : Z) : res (Z * memory) :=
  let nt := usize (source_buffer + e_lfanew m source_buffer) in
  let m := load_raw m dest_buffer source_buffer in
  '(r, m) ← relocate_image fuel m dest_buffer dest_size
    (usize (dest_buffer + directory_address m nt IMAGE_DIRECTORY_ENTRY_BASERELOC))
    (directory_size m nt IMAGE_DIRECTORY_ENTRY_BASERELOC) (image_base m nt);
  match r with
  | Ok _ => Done (usize (dest_buffer + address_of_entry_point m nt), m)
  | Err _ => Done (0, m)
  end.
End PeLoader.
