(* ===== verification/PeReloc.v ===== *)
(** * Base relocation (src/efi/peloader.rs, [relocate_image])

    The relocation table is a list of blocks, each a page address and 16-bit
    entries; it means a list of fixups.  [relocate_image], which reads the table
    from the memory it patches, applies exactly those. *)

From S2P Require Import Prelude REfi Mem PeLoader.
Import PeLoader.

(** ** What a relocation table means *)

(** Add [fx_add] to the [fx_width] bytes at [fx_ptr]. *)
Record Fixup := mkFixup { fx_width : nat; fx_ptr : Z; fx_add : Z }.

Definition patched (m : memory) (f : Fixup) : Z :=
  (load (fx_width f) m (fx_ptr f) + fx_add f) mod 2 ^ (8 * Z.of_nat (fx_width f)).
Definition patch (m : memory) (f : Fixup) : memory :=
  store (fx_width f) m (fx_ptr f) (patched m f).
Definition patch_all (m : memory) (fs : list Fixup) : memory := fold_left patch fs m.

(** An entry of a block: nothing, a fixup, or an unknown type. *)
Definition entry_fixups (dest delta va entry : Z) : option (list Fixup) :=
  let ptr := usize (dest + usize (Z.land entry 0xfff + va)) in
  let ty := Z.shiftr entry 12 in
  if ty =? IMAGE_REL_BASED_ABSOLUTE then Some []
  else if ty =? IMAGE_REL_BASED_HIGH then Some [mkFixup 2 ptr (u16 (Z.shiftr (u32 delta) 16))]
  else if ty =? IMAGE_REL_BASED_LOW then Some [mkFixup 2 ptr (u16 delta)]
  else if ty =? IMAGE_REL_BASED_HIGHLOW then Some [mkFixup 4 ptr (u32 delta)]
  else if ty =? IMAGE_REL_BASED_DIR64 then Some [mkFixup 8 ptr delta]
  else None.

Fixpoint entries_fixups (dest delta va : Z) (es : list Z) : option (list Fixup) :=
  match es with
  | [] => Some []
  | e :: es =>
      match entry_fixups dest delta va e, entries_fixups dest delta va es with
      | Some f, Some fs => Some (f ++ fs)
      | _, _ => None
      end
  end.

Abbreviation Block := (Z * list Z)%type.
Fixpoint table_fixups (dest delta : Z) (bs : list Block) : option (list Fixup) :=
  match bs with
  | [] => Some []
  | (va, es) :: bs =>
      match entries_fixups dest delta va es, table_fixups dest delta bs with
      | Some f, Some fs => Some (f ++ fs)
      | _, _ => None
      end
  end.

(** The table in memory. *)
Definition block_size (b : Block) : Z := 8 + 2 * Z.of_nat (length (snd b)).
Fixpoint table_size (bs : list Block) : Z :=
  match bs with [] => 0 | b :: bs => block_size b + table_size bs end.
Fixpoint entries_at (m : memory) (a : Z) (es : list Z) : Prop :=
  match es with [] => True | e :: es => load16 m a = e /\ entries_at m (a + 2) es end.
Fixpoint table_at (m : memory) (a : Z) (bs : list Block) : Prop :=
  match bs with
  | [] => True
  | b :: bs => rel_virtual_address m a = fst b /\ size_of_block m a = block_size b /\
      block_size b < 2 ^ 32 /\ entries_at m (a + 8) (snd b) /\ table_at m (a + block_size b) bs
  end.

Lemma table_size_nonneg bs : 0 <= table_size bs.
Proof. induction bs as [|b bs IH]; cbn [table_size]; [lia|]. unfold block_size. lia. Qed.

(** ** Patches that stay clear of the table *)

(** [f] writes no byte of [lo, hi). *)
Definition clear_of (lo hi : Z) (f : Fixup) : Prop :=
  fx_ptr f + Z.of_nat (fx_width f) <= lo \/ hi <= fx_ptr f.

Definition agree (lo hi : Z) (m m' : memory) : Prop := forall x, lo <= x < hi -> load8 m' x = load8 m x.

Lemma agree_trans lo hi m1 m2 m3 : agree lo hi m1 m2 -> agree lo hi m2 m3 -> agree lo hi m1 m3.
Proof. intros H1 H2 x Hx. rewrite (H2 x Hx). by apply H1. Qed.

Lemma agree_load lo hi m m' n a : agree lo hi m m' -> lo <= a -> a + Z.of_nat n <= hi ->
  load n m' a = load n m a.
Proof. intros H Hl Hh. apply load_ext. intros x Hx. apply H. lia. Qed.

Lemma patch_agree lo hi m f : clear_of lo hi f -> agree lo hi m (patch m f).
Proof. intros Hc x Hx. unfold patch. apply load8_store_out. destruct Hc; lia. Qed.

Lemma patch_all_agree lo hi m fs : Forall (clear_of lo hi) fs -> agree lo hi m (patch_all m fs).
Proof.
  intros Hf. revert m. induction Hf as [|f fs Hc Hf IH]; intros m; [by intros x|].
  unfold patch_all in *. cbn [fold_left]. eapply agree_trans; [by apply patch_agree|apply IH].
Qed.

Lemma patch_all_app m fs gs : patch_all m (fs ++ gs) = patch_all (patch_all m fs) gs.
Proof. apply fold_left_app. Qed.

Lemma entries_at_agree lo hi m m' a es : agree lo hi m m' -> lo <= a ->
  a + 2 * Z.of_nat (length es) <= hi -> entries_at m a es -> entries_at m' a es.
Proof.
  intros Hag. revert a. induction es as [|e es IH]; intros a Hl Hh; cbn [entries_at length] in *; [done|].
  intros [He Hes]. split; [|apply IH; [lia..|done]].
  by rewrite (agree_load lo hi m) by (done || lia).
Qed.

Lemma table_at_agree lo hi m m' a bs : agree lo hi m m' -> lo <= a -> a + table_size bs <= hi ->
  table_at m a bs -> table_at m' a bs.
Proof.
  intros Hag. revert a. induction bs as [|b bs IH]; intros a Hl Hh; cbn [table_at table_size] in *; [done|].
  pose proof (table_size_nonneg bs). unfold block_size in *. intros (Hva & Hsz & Hlt & Hes & Hbs).
  unfold rel_virtual_address, size_of_block in *.
  rewrite (agree_load lo hi m m' 4 a Hag), (agree_load lo hi m m' 4 (a + 4) Hag) by lia.
  split_and!; [done..| |].
  - eapply entries_at_agree; [done|lia..|done].
  - apply IH; [lia..|done].
Qed.

(** ** The code applies the fixups *)

Lemma relocate_entry_spec m dest delta rel relocs va e fs :
  rel_virtual_address m rel = va -> load16 m relocs = e -> entry_fixups dest delta va e = Some fs ->
  relocate_entry m dest delta rel relocs = Some (patch_all m fs).
Proof.
  intros <- <-. unfold entry_fixups, relocate_entry. intros H.
  repeat (destruct (_ =? _); [by injection H as <-|]). done.
Qed.

Lemma relocate_block_spec lo hi m dest delta rel relocs va es fs :
  rel_virtual_address m rel = va -> lo <= rel -> rel + 4 <= hi ->
  entries_at m relocs es -> lo <= relocs -> relocs + 2 * Z.of_nat (length es) <= hi ->
  0 <= lo -> hi < 2 ^ 64 ->
  entries_fixups dest delta va es = Some fs -> Forall (clear_of lo hi) fs ->
  relocate_block (length es) m dest delta rel relocs =
  (Ok (relocs + 2 * Z.of_nat (length es)), patch_all m fs).
Proof.
  intros Hva Hl Hr Hes Hlo Hhi H0 H64. revert m relocs fs Hva Hes Hlo Hhi.
  induction es as [|e es IH]; intros m relocs fs Hva Hes Hlo Hhi Hfs Hcl; cbn [length relocate_block] in *.
  { cbn in Hfs. injection Hfs as <-. do 2 f_equal. lia. }
  destruct Hes as [He Hes]. cbn [entries_fixups] in Hfs.
  destruct (entry_fixups dest delta va e) as [f|] eqn:Ef; [|done].
  destruct (entries_fixups dest delta va es) as [gs|] eqn:Eg; [|done]. injection Hfs as <-.
  apply Forall_app in Hcl as [Hf Hg].
  rewrite (relocate_entry_spec m dest delta rel relocs va e f Hva He Ef).
  assert (Hag := patch_all_agree lo hi m f Hf). rewrite (wrap_small 64) by lia.
  rewrite (IH (patch_all m f) (relocs + 2) gs); try done; try lia.
  - rewrite patch_all_app. do 2 f_equal. lia.
  - unfold rel_virtual_address in *. rewrite (agree_load lo hi m) by (done || lia). done.
  - eapply entries_at_agree; [done|lia..|done].
Qed.

Lemma relocate_loop_spec lo hi fuel m dest delta a bs fs :
  table_at m a bs -> lo <= a -> a + table_size bs = hi -> 0 <= lo -> hi < 2 ^ 64 ->
  (length bs < fuel)%nat ->
  table_fixups dest delta bs = Some fs -> Forall (clear_of lo hi) fs ->
  relocate_loop fuel m dest delta a hi = Done (Ok tt, patch_all m fs).
Proof.
  intros Ht Hl Hh H0 H64. revert m a bs fs Ht Hl Hh.
  induction fuel as [|fuel IH]; intros m a bs fs Ht Hl Hh Hf Hfs Hcl; [lia|].
  cbn [relocate_loop]. destruct bs as [|b bs]; cbn [table_size table_at table_fixups length] in *.
  { rewrite (proj2 (Z.leb_le _ _)) by lia. by injection Hfs as <-. }
  destruct Ht as (Hva & Hsz & Hlt & Hes & Hbs). destruct b as [va es]. cbn [fst snd] in *.
  pose proof (table_size_nonneg bs).
  destruct (entries_fixups dest delta va es) as [f|] eqn:Ef; [|done].
  destruct (table_fixups dest delta bs) as [gs|] eqn:Eg; [|done]. injection Hfs as <-.
  apply Forall_app in Hcl as [Hcf Hcg]. unfold block_size in *. cbn [snd] in *.
  rewrite (proj2 (Z.leb_gt _ _)) by lia. rewrite Hsz, (proj2 (Z.eqb_neq _ _)) by lia.
  unfold BASE_RELOCATION_SIZE. rewrite (wrap_small 64 (_ - _)), (wrap_small 64) by (norm_pow; lia).
  replace (Z.to_nat ((8 + 2 * Z.of_nat (length es) - 8) / 2)) with (length es) by mlia.
  rewrite (relocate_block_spec lo hi m dest delta a (a + 8) va es f); try done; try lia.
  rewrite patch_all_app. replace (a + 8 + 2 * Z.of_nat (length es)) with (a + (8 + 2 * Z.of_nat (length es))) by lia.
  apply (IH _ _ bs); try done; try lia.
  eapply table_at_agree; [by apply patch_all_agree|lia..|done].
Qed.

(** ** What disjoint fixups do to memory *)

Definition apart (f g : Fixup) : Prop :=
  fx_ptr f + Z.of_nat (fx_width f) <= fx_ptr g \/ fx_ptr g + Z.of_nat (fx_width g) <= fx_ptr f.

Lemma apart_clear f g : apart f g -> clear_of (fx_ptr f) (fx_ptr f + Z.of_nat (fx_width f)) g.
Proof. unfold apart, clear_of. lia. Qed.

Lemma load_patch m f : load (fx_width f) (patch m f) (fx_ptr f) = patched m f.
Proof. unfold patch. rewrite load_store. unfold patched. rewrite Z.mod_mod; [done|]. apply Z.pow_nonzero; lia. Qed.

Lemma patch_all_load m fs f : ForallOrdPairs apart fs -> In f fs ->
  load (fx_width f) (patch_all m fs) (fx_ptr f) = patched m f.
Proof.
  intros Hp. revert m. induction Hp as [|g fs Hg Hp IH]; intros m Hin; [done|].
  unfold patch_all in *. cbn [fold_left]. destruct Hin as [->|Hin].
  - rewrite <- load_patch. apply (agree_load (fx_ptr f) (fx_ptr f + Z.of_nat (fx_width f))); try lia.
    apply patch_all_agree. apply Forall_forall. intros h Hh. apply apart_clear.
    rewrite Forall_forall in Hg. by apply Hg.
  - rewrite IH by done. unfold patched. do 2 f_equal.
    apply (agree_load (fx_ptr f) (fx_ptr f + Z.of_nat (fx_width f))); try lia. apply patch_agree, apart_clear.
    rewrite List.Forall_forall in Hg. specialize (Hg f Hin). unfold apart in *. lia.
Qed.
