(* ===== verification/PeProps.v ===== *)
(** * Loading PE images: theorems

    What [peloader_get_image_info] accepts, and what [peloader_load_image]
    leaves in memory: the headers and the raw data of the sections at their
    addresses, patched by the relocation table. *)

From S2P Require Import Prelude REfi Mem PeLoader PeReloc.
Import PeLoader.

(** ** Copies and fills *)

Lemma copy_bytes_out m src dst n x : x < dst \/ dst + Z.of_nat n <= x ->
  load8 (copy_bytes m src dst n) x = load8 m x.
Proof. intros Hx. unfold copy_bytes. apply load8_store_bytes_out. by rewrite length_load_bytes. Qed.

Lemma fill_bytes_out m a n v x : x < a \/ a + Z.of_nat n <= x -> load8 (fill_bytes m a n v) x = load8 m x.
Proof. intros Hx. unfold fill_bytes. apply load8_store_bytes_out. by rewrite length_replicate. Qed.

Lemma copy_bytes_in m src dst n : mem_ok m ->
  load_bytes (copy_bytes m src dst n) dst n = load_bytes m src n.
Proof.
  intros Hm. unfold copy_bytes. rewrite <- (length_load_bytes m src n) at 2.
  apply load_bytes_store_bytes. by apply load_bytes_ok.
Qed.

Lemma mem_ok_copy m src dst n : mem_ok m -> mem_ok (copy_bytes m src dst n).
Proof. apply mem_ok_store_bytes. Qed.
Lemma mem_ok_fill m a n v : mem_ok m -> mem_ok (fill_bytes m a n v).
Proof. apply mem_ok_store_bytes. Qed.

(** ** Sections *)

Record Sect := mkSect { s_vs : Z; s_va : Z; s_rs : Z; s_rp : Z }.

Fixpoint sections_at (m : memory) (p : Z) (ss : list Sect) : Prop :=
  match ss with
  | [] => True
  | s :: ss => virtual_size m p = s_vs s /\ virtual_address m p = s_va s /\
      size_of_raw_data m p = s_rs s /\ pointer_to_raw_data m p = s_rp s /\
      sections_at m (p + SECTION_HEADER_SIZE) ss
  end.

(** Raw data in ascending order from [lo] on. *)
Fixpoint ordered (lo : Z) (ss : list Sect) : Prop :=
  match ss with
  | [] => True
  | s :: ss => lo <= s_va s /\ ordered (s_va s + s_rs s) ss
  end.

(** A section whose data lies in the file and whose writes end below [span]:
    with the zeros the code puts after it, that is twice its virtual size. *)
Definition sect_fits (size span : Z) (s : Sect) : Prop :=
  0 <= s_vs s /\ 0 <= s_va s /\ 0 <= s_rs s /\ 0 <= s_rp s /\
  s_rp s + s_rs s <= size /\ s_va s + 2 * s_vs s <= span /\ s_va s + s_rs s <= span.

Section Load.
(** A source buffer of [size] bytes away from the destination's [span]. *)
Context (src size dest span : Z).
Context (Hsrc : 0 <= src) (Hsize : 0 <= size) (Hs64 : src + size < 2 ^ 64).
Context (Hdest : 0 <= dest) (Hspan : 0 <= span) (Hd64 : dest + span < 2 ^ 64).
Context (Haway : src + size <= dest \/ dest + span <= src).

Lemma sections_at_agree m m' p ss : agree src (src + size) m m' -> src <= p ->
  p + SECTION_HEADER_SIZE * Z.of_nat (length ss) <= src + size ->
  sections_at m p ss -> sections_at m' p ss.
Proof.
  intros Hag. revert p. induction ss as [|s ss IH]; intros p Hl Hh; cbn [sections_at length] in *; [done|].
  unfold virtual_size, virtual_address, size_of_raw_data, pointer_to_raw_data, SECTION_HEADER_SIZE in *.
  rewrite (agree_load src (src + size) m m' 4 (p + 8) Hag), (agree_load src (src + size) m m' 4 (p + 12) Hag),
    (agree_load src (src + size) m m' 4 (p + 16) Hag), (agree_load src (src + size) m m' 4 (p + 20) Hag) by lia.
  intros (? & ? & ? & ? & Hss). split_and!; try done. apply IH; [lia..|done].
Qed.

(** One section: the source stays, nothing below the section or past the span
    changes, its raw
    data is at its address. *)
Lemma load_section_spec m p s :
  mem_ok m -> sections_at m p [s] -> src <= p -> p + SECTION_HEADER_SIZE <= src + size ->
  sect_fits size span s ->
  let m' := load_section m dest src p in
  mem_ok m' /\ agree src (src + size) m m' /\ (forall x, x < dest + s_va s \/ dest + span <= x -> load8 m' x = load8 m x) /\
  load_bytes m' (dest + s_va s) (Z.to_nat (s_rs s)) = load_bytes m (src + s_rp s) (Z.to_nat (s_rs s)).
Proof.
  intros Hm Hp Hl Hh (Hvs & Hva & Hrs & Hrp & Hfile & Hz & Hr). pose proof Hp as (Evs & Eva & Ers & Erp & _).
  unfold load_section. rewrite Evs, Eva.
  rewrite (wrap_small 64 (dest + s_va s)), (wrap_small 64 (dest + s_va s + s_vs s)) by lia.
  set (m1 := fill_bytes m (dest + s_va s + s_vs s) (Z.to_nat (s_vs s)) 0).
  assert (Hag : agree src (src + size) m m1) by (intros x Hx; apply fill_bytes_out; lia).
  destruct (sections_at_agree m m1 p [s] Hag Hl) as (_ & Eva1 & Ers1 & Erp1 & _); [cbn; lia|done|].
  rewrite Eva1, Ers1, Erp1.
  rewrite (wrap_small 64 (dest + s_va s)), (wrap_small 64 (src + s_rp s)) by lia.
  assert (Hm1 : mem_ok m1) by (by apply mem_ok_fill).
  split_and!.
  - by apply mem_ok_copy.
  - eapply agree_trans; [done|]. intros x Hx. apply copy_bytes_out. lia.
  - intros x Hx. rewrite copy_bytes_out by lia. apply fill_bytes_out. lia.
  - rewrite copy_bytes_in by done. apply load_bytes_ext. intros x Hx. apply Hag. lia.
Qed.

Lemma load_sections_spec ss m p lo :
  mem_ok m -> sections_at m p ss -> src <= p ->
  p + SECTION_HEADER_SIZE * Z.of_nat (length ss) <= src + size ->
  Forall (sect_fits size span) ss -> ordered lo ss ->
  let m' := load_sections (length ss) m dest src p in
  mem_ok m' /\ agree src (src + size) m m' /\ (forall x, x < dest + lo \/ dest + span <= x -> load8 m' x = load8 m x) /\
  Forall (fun s => load_bytes m' (dest + s_va s) (Z.to_nat (s_rs s))
                   = load_bytes m (src + s_rp s) (Z.to_nat (s_rs s))) ss.
Proof.
  revert m p lo. induction ss as [|s ss IH]; intros m p lo Hm Hp Hl Hh Hfit Hord; [done|].
  cbn [length load_sections sections_at ordered] in *. destruct Hord as [Hlo Hord].
  apply Forall_cons in Hfit as [Hs Hfit]. unfold SECTION_HEADER_SIZE in *.
  destruct Hp as (E1 & E2 & E3 & E4 & Hp).
  destruct (load_section_spec m p s Hm) as (Hm1 & Hag & Hbelow & Hcopy);
    [by split_and! | done | unfold SECTION_HEADER_SIZE; lia | done |].
  set (m1 := load_section m dest src p) in *. rewrite (wrap_small 64) by lia.
  destruct (IH m1 (p + 40) (s_va s + s_rs s) Hm1) as (Hm2 & Hag2 & Hbelow2 & Hcopy2); try done; try lia.
  { apply (sections_at_agree m m1); [done|lia|unfold SECTION_HEADER_SIZE; lia|done]. }
  destruct Hs as (Hvs & Hva & Hrs & Hrp & Hfile & Hz & Hr).
  split_and!; [done|by eapply agree_trans| |apply Forall_cons; split].
  - intros x Hx. rewrite Hbelow2 by lia. apply Hbelow. lia.
  - rewrite <- Hcopy. apply load_bytes_ext. intros x Hx. apply Hbelow2. lia.
  - eapply Forall_impl; [apply Forall_and; exact (conj Hfit Hcopy2)|]. cbn. intros t [Ht ->].
    destruct Ht as (_ & _ & ? & ? & ? & _). apply load_bytes_ext. intros x Hx. apply Hag. lia.
Qed.

(** The file: its NT header at [nt], its section headers [ss]. *)
Record image_at (m : memory) (nt : Z) (ss : list Sect) : Prop := {
  im_nt : nt = src + e_lfanew m src /\ nt + NT_HEADER_SIZE <= src + size;
  im_lfanew : 0 <= e_lfanew m src /\ 64 <= size;
  im_count : number_of_sections m nt = Z.of_nat (length ss);
  im_optional : 0 <= size_of_optional_header m nt < 2 ^ 16;
  im_sections : sections_at m (nt + OPTIONAL_HEADER_OFFSET + size_of_optional_header m nt) ss
}.

Definition header_size (m : memory) (nt : Z) (ss : list Sect) : Z :=
  nt - src + OPTIONAL_HEADER_OFFSET + size_of_optional_header m nt + SECTION_HEADER_SIZE * Z.of_nat (length ss).

(** Everything but the relocation. *)
Lemma load_raw_spec m nt ss :
  mem_ok m -> image_at m nt ss -> header_size m nt ss <= size -> header_size m nt ss <= span ->
  Forall (sect_fits size span) ss -> ordered (header_size m nt ss) ss ->
  let m' := load_raw m dest src in
  mem_ok m' /\ (forall x, x < dest \/ dest + span <= x -> load8 m' x = load8 m x) /\
  agree src (src + size) m m' /\
  load_bytes m' dest (Z.to_nat (header_size m nt ss)) = load_bytes m src (Z.to_nat (header_size m nt ss)) /\
  Forall (fun s => load_bytes m' (dest + s_va s) (Z.to_nat (s_rs s))
                   = load_bytes m (src + s_rp s) (Z.to_nat (s_rs s))) ss.
Proof.
  intros Hm [[Hnt Hend] [Hlf H64] Hn Hopt Hss] Hsz Hsp Hfit Hord. cbv zeta.
  unfold load_raw, first_section_offset. unfold NT_HEADER_SIZE in Hend.
  rewrite (wrap_small 64 (src + e_lfanew m src)) by lia. rewrite <- Hnt, Hn.
  unfold header_size, OPTIONAL_HEADER_OFFSET, SECTION_HEADER_SIZE in *.
  rewrite (wrap_small 64 (e_lfanew m src + 24 + _)), (wrap_small 64 (_ + Z.of_nat (length ss) * 40)),
    (wrap_small 64 (src + _)) by lia.
  set (th := nt - src + 24 + size_of_optional_header m nt + 40 * Z.of_nat (length ss)) in *.
  replace (e_lfanew m src + 24 + size_of_optional_header m nt + Z.of_nat (length ss) * 40) with th by (subst th; lia).
  replace (src + (e_lfanew m src + 24 + size_of_optional_header m nt))
    with (nt + 24 + size_of_optional_header m nt) by lia.
  rewrite Nat2Z.id. set (m1 := copy_bytes m src dest (Z.to_nat th)).
  assert (Hth : 0 <= th) by (subst th; lia).
  assert (Hag : agree src (src + size) m m1) by (intros x Hx; apply copy_bytes_out; lia).
  destruct (load_sections_spec ss m1 (nt + 24 + size_of_optional_header m nt) th) as (Hm2 & Hag2 & Hbelow & Hcopy);
    try done; try (subst th; unfold SECTION_HEADER_SIZE; lia).
  { by apply mem_ok_copy. }
  { apply (sections_at_agree m m1); [done|lia|subst th; unfold SECTION_HEADER_SIZE; lia|done]. }
  split_and!.
  - done.
  - intros x Hx. rewrite Hbelow by lia. apply copy_bytes_out. lia.
  - by eapply agree_trans.
  - rewrite (load_bytes_ext m1) by (intros x Hx; apply Hbelow; lia). by apply copy_bytes_in.
  - eapply Forall_impl; [apply Forall_and; exact (conj Hfit Hcopy)|]. cbn. intros t [Ht ->].
    destruct Ht as (_ & _ & ? & ? & ? & _). apply load_bytes_ext. intros x Hx. apply Hag. lia.
Qed.
End Load.

(** ** The whole loader *)

(** The fixups of an image loaded at [dest]: none when it is loaded at its
    base, else those of its relocation directory, which none of them
    overwrites; nor do they overwrite the source. *)
Definition image_fixups (fuel : nat) (m1 : memory) (src size dest nt : Z) (fs : list Fixup) : Prop :=
  let delta := usize (dest - image_base m1 nt) in
  let rva := directory_address m1 nt IMAGE_DIRECTORY_ENTRY_BASERELOC in
  let rsz := directory_size m1 nt IMAGE_DIRECTORY_ENTRY_BASERELOC in
  (delta = 0 /\ fs = []) \/
  (delta <> 0 /\ exists bs, table_at m1 (dest + rva) bs /\ table_size bs = rsz /\
     0 <= rva /\ dest + rva + rsz < 2 ^ 64 /\ (length bs < fuel)%nat /\
     table_fixups dest delta bs = Some fs /\
     Forall (clear_of (dest + rva) (dest + rva + rsz)) fs /\ Forall (clear_of src (src + size)) fs).

Lemma relocate_image_spec fuel m1 src size dest dsize nt fs : 0 <= dest ->
  image_fixups fuel m1 src size dest nt fs ->
  relocate_image fuel m1 dest dsize
    (usize (dest + directory_address m1 nt IMAGE_DIRECTORY_ENTRY_BASERELOC))
    (directory_size m1 nt IMAGE_DIRECTORY_ENTRY_BASERELOC) (image_base m1 nt)
  = Done (Ok tt, patch_all m1 fs) /\ Forall (clear_of src (src + size)) fs.
Proof.
  intros Hd. unfold image_fixups, relocate_image. cbv zeta.
  intros [[-> ->]|[Hne (bs & Ht & Hsz & Hr0 & Hr64 & Hfuel & Hfs & Hcl & Hsrc)]]; [done|].
  split; [|done]. rewrite (proj2 (Z.eqb_neq _ _)) by done. pose proof (table_size_nonneg bs).
  set (rva := directory_address _ _ _) in *. set (rsz := directory_size _ _ _) in *.
  rewrite (wrap_small 64 (dest + rva)), (wrap_small 64 (dest + rva + rsz)) by lia.
  eapply relocate_loop_spec; try done; lia.
Qed.

(** A byte no fixup touches keeps its value. *)
Lemma patch_all_outside m fs x : Forall (clear_of x (x + 1)) fs -> load8 (patch_all m fs) x = load8 m x.
Proof. intros Hf. apply (patch_all_agree x (x + 1)); [done|lia]. Qed.

(** ** Properties *)

(** [peloader_get_image_info] looks only at the bytes of the buffer it is
    given, and accepts exactly when both headers lie inside it and carry the
    DOS, PE, x86-64 and PE32+ marks; then it returns the image size. *)
Theorem image_info_inside m src size :
  0 <= src -> 0 <= size -> src + size + 2 ^ 33 < 2 ^ 64 -> mem_ok m ->
  (forall m', agree src (src + size) m m' ->
     peloader_get_image_info m' src size = peloader_get_image_info m src size) /\
  (peloader_get_image_info m src size <> 0 <->
   let nt := src + e_lfanew m src in
   DOS_HEADER_SIZE <= size /\ e_magic m src = IMAGE_DOS_SIGNATURE /\
   nt + NT_HEADER_SIZE <= src + size /\ signature m nt = IMAGE_PE_SIGNATURE /\
   machine m nt = IMAGE_FILE_MACHINE_X64 /\ magic m nt = IMAGE_NT_OPTIONAL_HDR64_MAGIC /\
   size_of_image m nt <> 0 /\ peloader_get_image_info m src size = size_of_image m nt).
Proof.
  intros Hs Hz H64 Hm. unfold peloader_get_image_info, DOS_HEADER_SIZE, NT_HEADER_SIZE.
  pose proof (load_range 4 m (src + 60) Hm) as Hlf. fold (e_lfanew m src) in Hlf.
  change (8 * Z.of_nat 4) with 32 in Hlf.
  rewrite (wrap_small 64 (src + size)), (wrap_small 64 (src + 64)) by (norm_pow; lia). split.
  - intros m' Hag. destruct (Z.ltb_spec (src + size) (src + 64)) as [?|H64']; [done|].
    unfold e_magic, e_lfanew. rewrite (agree_load _ _ _ _ 2 src Hag), (agree_load _ _ _ _ 4 (src + 60) Hag) by lia.
    fold (e_lfanew m src). rewrite (wrap_small 64 (src + e_lfanew m src)), (wrap_small 64 (_ + 264)) by (norm_pow; lia).
    destruct (_ =? IMAGE_DOS_SIGNATURE); [|done]. cbn [negb].
    destruct (Z.ltb_spec (src + size) (src + e_lfanew m src + 264)) as [?|Hnt]; [done|].
    unfold signature, machine, magic, size_of_image. rewrite !(agree_load _ _ _ _ _ _ Hag) by lia. done.
  - rewrite (wrap_small 64 (src + e_lfanew m src)), (wrap_small 64 (_ + 264)) by (norm_pow; lia). cbv zeta.
    set (nt := src + e_lfanew m src).
    destruct (Z.ltb_spec (src + size) (src + 64)); [split; [done|lia]|].
    destruct (Z.eqb_spec (e_magic m src) IMAGE_DOS_SIGNATURE); cbn [negb]; [|split; [done|tauto]].
    destruct (Z.ltb_spec (src + size) (nt + 264)); [split; [done|lia]|].
    destruct (Z.eqb_spec (signature m nt) IMAGE_PE_SIGNATURE); cbn [negb]; [|split; [done|tauto]].
    destruct (Z.eqb_spec (machine m nt) IMAGE_FILE_MACHINE_X64); cbn [negb]; [|split; [done|tauto]].
    destruct (Z.eqb_spec (magic m nt) IMAGE_NT_OPTIONAL_HDR64_MAGIC); cbn [negb]; [|split; [done|tauto]].
    split; [intros Hne; split_and!; try done; lia|tauto].
Qed.

(** C17: [peloader_load_image] loads a well-formed image (sections in
    ascending order inside the destination's [span], the source elsewhere): it
    returns the entry point, and memory holds the headers and every section's
    raw data at its address, except that each fixup of the relocation table has
    added the load offset, modulo its width, to its bytes, once. *)
Theorem load_image_correct fuel m dest dsize src size span nt ss fs :
  0 <= src -> 0 <= size -> src + size < 2 ^ 64 -> 0 <= dest -> 0 <= span -> dest + span < 2 ^ 64 ->
  src + size <= dest \/ dest + span <= src ->
  mem_ok m -> image_at src size m nt ss ->
  header_size src m nt ss <= size -> header_size src m nt ss <= span ->
  Forall (sect_fits size span) ss -> ordered (header_size src m nt ss) ss ->
  let m1 := load_raw m dest src in
  image_fixups fuel m1 src size dest nt fs -> ForallOrdPairs apart fs ->
  dest + address_of_entry_point m nt < 2 ^ 64 ->
  exists m', peloader_load_image fuel m dest dsize src size =
      Done (dest + address_of_entry_point m nt, m') /\
    load_bytes m1 dest (Z.to_nat (header_size src m nt ss))
      = load_bytes m src (Z.to_nat (header_size src m nt ss)) /\
    Forall (fun s => load_bytes m1 (dest + s_va s) (Z.to_nat (s_rs s))
                     = load_bytes m (src + s_rp s) (Z.to_nat (s_rs s))) ss /\
    (forall f, In f fs -> load (fx_width f) m' (fx_ptr f) = patched m1 f) /\
    (forall x, Forall (clear_of x (x + 1)) fs -> load8 m' x = load8 m1 x).
Proof.
  intros H1 H2 H3 H4 H5 H6 Haway Hm Hi Hh1 Hh2 Hfit Hord m1 Hfx Hap Hent.
  edestruct (load_raw_spec src size dest span) with (m := m) (nt := nt) (ss := ss)
    as (_ & _ & Hag & Hhead & Hcopy); [done..|]. fold m1 in Hag, Hhead, Hcopy.
  destruct (relocate_image_spec fuel m1 src size dest dsize nt fs H4 Hfx) as [Erel Hclear].
  destruct Hi as [[Hnt Hend] [Hlf H64] _ _ _]. unfold NT_HEADER_SIZE in Hend.
  exists (patch_all m1 fs). split; [|split_and!; try done].
  - unfold peloader_load_image. fold m1. rewrite (wrap_small 64 (src + e_lfanew m src)) by lia.
    rewrite <- Hnt, Erel. rstep. unfold address_of_entry_point in *.
    rewrite (agree_load _ _ _ _ 4 (nt + 40) (patch_all_agree _ _ m1 fs Hclear)) by lia.
    rewrite (agree_load _ _ _ _ 4 (nt + 40) Hag) by lia.
    pose proof (load_range 4 m (nt + 40) Hm). rewrite wrap_small by lia. done.
  - intros f Hf. by apply patch_all_load.
  - intros x Hx. by apply patch_all_outside.
Qed.

(** A small image: a section with an address to relocate, and the relocation
    section with one DIR64 entry for it. *)
Definition demo_image : list Z :=
  (* DOS header, NT header at 64 *)
  le_split 2 IMAGE_DOS_SIGNATURE ++ replicate 58 0 ++ le_split 4 64 ++
  (* NT signature, file header *)
  le_split 4 IMAGE_PE_SIGNATURE ++ le_split 2 IMAGE_FILE_MACHINE_X64 ++ le_split 2 2 ++ replicate 12 0 ++
  le_split 2 240 ++ replicate 2 0 ++
  (* optional header: entry point 512, base 0x400000, image size 2048 *)
  le_split 2 IMAGE_NT_OPTIONAL_HDR64_MAGIC ++ replicate 14 0 ++ le_split 4 512 ++ replicate 4 0 ++
  le_split 8 0x400000 ++ replicate 24 0 ++ le_split 4 2048 ++ replicate 52 0 ++
  (* data directories: the sixth is the relocation table *)
  replicate 40 0 ++ le_split 4 1024 ++ le_split 4 12 ++ replicate 80 0 ++
  (* section headers at 328 *)
  replicate 8 0 ++ le_split 4 16 ++ le_split 4 512 ++ le_split 4 16 ++ le_split 4 408 ++ replicate 16 0 ++
  replicate 8 0 ++ le_split 4 12 ++ le_split 4 1024 ++ le_split 4 12 ++ le_split 4 424 ++ replicate 16 0 ++
  (* raw data: the second quadword is the address 0x400200 *)
  replicate 8 0x90 ++ le_split 8 0x400200 ++
  (* the relocation block of page 512: DIR64 at 8, and padding *)
  le_split 4 512 ++ le_split 4 12 ++ le_split 2 0xa008 ++ le_split 2 0.
Definition demo_memory : memory := store_bytes ∅ 0x1000 demo_image.
Definition demo_sections : list Sect := [mkSect 16 512 16 408; mkSect 12 1024 12 424].

Lemma demo_memory_ok : mem_ok demo_memory.
Proof. apply mem_ok_store_bytes. by apply map_Forall_empty. Qed.

Lemma demo_image_at : image_at 0x1000 436 demo_memory 0x1040 demo_sections.
Proof. constructor; vm_compute; repeat split; discriminate. Qed.

Lemma image_info_inside_witness : peloader_get_image_info demo_memory 0x1000 436 = 2048.
Proof.
  destruct (image_info_inside demo_memory 0x1000 436) as [_ [_ Hi]]; [lia..|apply demo_memory_ok|].
  assert (Hne : peloader_get_image_info demo_memory 0x1000 436 <> 0) by (vm_compute; discriminate).
  apply (image_info_inside demo_memory 0x1000 436) in Hne as (_ & _ & _ & _ & _ & _ & _ & ->);
    [vm_compute; reflexivity|lia..|apply demo_memory_ok].
Defined.

(** Loaded at 0x10000: the address becomes 0x10200. *)
Lemma load_image_correct_witness : exists m',
  peloader_load_image 9 demo_memory 0x10000 2048 0x1000 436 = Done (0x10200, m') /\
  load64 m' 0x10208 = 0x10200.
Proof.
  pose (f := mkFixup 8 0x10208 (usize (0x10000 - 0x400000))).
  destruct (load_image_correct 9 demo_memory 0x10000 2048 0x1000 436 2048 0x1040 demo_sections [f])
    as (m' & E & _ & _ & Hf & _).
  1-6: lia.
  - left. lia.
  - apply demo_memory_ok.
  - apply demo_image_at.
  - vm_compute. discriminate.
  - vm_compute. discriminate.
  - repeat constructor; vm_compute; discriminate.
  - repeat constructor; vm_compute; discriminate.
  - right. split; [vm_compute; discriminate|]. exists [(512, [0xa008; 0])].
    split; [vm_compute; repeat split|].
    split; [vm_compute; reflexivity|]. split; [vm_compute; discriminate|].
    split; [vm_compute; reflexivity|]. split; [cbn; lia|]. split; [vm_compute; reflexivity|].
    split; (constructor; [|constructor]); [left|right]; vm_compute; discriminate.
  - repeat constructor.
  - vm_compute. reflexivity.
  - exists m'. split; [exact E|]. rewrite (Hf f (or_introl eq_refl) : load64 m' 0x10208 = _).
    vm_compute. reflexivity.
Defined.

(** Loading a section zeroes the wrong bytes: those of its virtual size
    that follow it, which may belong to others, and not its own uninitialised
    part, whose bytes keep what memory held. *)
Theorem section_zeroes_past_end m dest src size span p s x :
  0 <= src -> src + size < 2 ^ 64 -> 0 <= dest -> dest + span < 2 ^ 64 ->
  src + size <= dest \/ dest + span <= src ->
  sections_at m p [s] -> src <= p -> p + SECTION_HEADER_SIZE <= src + size -> sect_fits size span s ->
  (dest + s_va s + s_vs s <= x < dest + s_va s + 2 * s_vs s -> dest + s_va s + s_rs s <= x ->
   load8 (load_section m dest src p) x = 0) /\
  (dest + s_va s + s_rs s <= x < dest + s_va s + s_vs s ->
   load8 (load_section m dest src p) x = load8 m x).
Proof.
  intros H1 H2 H3 H4 Haway Hp Hl Hh (Hvs & Hva & Hrs & Hrp & Hfile & Hz & Hr). pose proof Hp as (Evs & Eva & _).
  unfold load_section. rewrite Evs, Eva.
  rewrite (wrap_small 64 (dest + s_va s)), (wrap_small 64 (dest + s_va s + s_vs s)) by lia.
  set (m1 := fill_bytes m (dest + s_va s + s_vs s) (Z.to_nat (s_vs s)) 0).
  assert (Hag : agree src (src + size) m m1) by (intros y Hy; apply fill_bytes_out; lia).
  destruct (sections_at_agree src size m m1 p [s] Hag Hl) as (_ & Eva1 & Ers1 & _); [cbn; lia|done|].
  rewrite Eva1, Ers1, (wrap_small 64 (dest + s_va s)) by lia. split.
  - intros Hx Hx'. rewrite copy_bytes_out by lia. unfold m1, fill_bytes.
    replace x with (dest + s_va s + s_vs s + Z.of_nat (Z.to_nat (x - (dest + s_va s + s_vs s)))) by lia.
    apply (load8_store_bytes_in _ _ (replicate _ 0)).
    + apply Forall_replicate. unfold is_byte. lia.
    + apply lookup_replicate_2. lia.
  - intros Hx. rewrite copy_bytes_out by lia. apply fill_bytes_out. lia.
Qed.

(** The byte after a 16-byte image of one section becomes 0. *)
Lemma section_zeroes_past_end_witness :
  load8 (load_section (store8 demo_memory 0x10210 0x55) 0x10000 0x1000 0x1148) 0x10210 = 0.
Proof.
  refine (proj1 (section_zeroes_past_end (store8 demo_memory 0x10210 0x55) 0x10000 0x1000 436 2048 0x1148
            (mkSect 16 512 16 408) 0x10210 _ _ _ _ _ _ _ _ _) _ _).
  1-4: lia.
  - left. lia.
  - vm_compute. repeat split.
  - lia.
  - vm_compute. discriminate.
  - vm_compute. repeat split; discriminate.
  - cbn. lia.
  - cbn. lia.
Defined.
