(* ===== verification/Variables.v ===== *)
(** * UEFI variables (src/efi/variable.rs)

    [Variable] keeps an array of 64 items of which the first [variable_count]
    are live.  A pointer to an item is its index; the pointers to a name, a
    GUID and a data array given by the caller are the arrays they point to
    ([None] for the null data pointer). *)

From S2P Require Import Prelude REfi.

Module VariableStore.

Definition GLOBAL_VARIABLE_GUID : Guid.t :=
  Guid.from_fields 0x8BE4DF61 0x93CA 0x11D2 0xAA 0x0D [0x00; 0xE0; 0x98; 0x03; 0x2B; 0x8C].

Definition MAX_VARIABLE_NAME : nat := 32.
Definition MAX_VARIABLE_DATA : Z := 2048.

Record VariableItem := mkItem {
  name : list Z;
  guid : list Z;
  attributes : Z;
  data_size : Z;
  data : list Z
}.

Definition default_item : VariableItem :=
  mkItem (replicate MAX_VARIABLE_NAME 0) (replicate 16 0) 0 0
    (replicate (Z.to_nat MAX_VARIABLE_DATA) 0).

Definition MAX_VARIABLE_ITEM : nat := 64.

Record t := mk {
  variable_count : Z;
  varialbe_item : list VariableItem
}.

Definition default : t := mk 0 (replicate MAX_VARIABLE_ITEM default_item).
Definition new : t := mk (variable_count default) (varialbe_item default).

(** [find_variable]: the scan of the items [var_index .. variable_count). *)
Fixpoint find_from (s : t) (var_name var_guid : list Z) (var_index n : nat)
    : res (option nat) :=
  match n with
  | O => Done None
  | S n =>
      var_item ← index (varialbe_item s) var_index;
      if bool_decide (var_name = name var_item) && bool_decide (var_guid = guid var_item)
      then Done (Some var_index)
      else find_from s var_name var_guid (S var_index) n
  end.

Definition find_variable (s : t) (var_name var_guid : list Z) : res (option nat) :=
  find_from s var_name var_guid 0 (Z.to_nat (variable_count s)).

(** Lines 168-177: the test is for an empty store. *)
Definition find_last_variable (s : t) : res (option nat) :=
  if variable_count s =? 0 then
    let last := Z.to_nat (usize (variable_count s - 1)) in
    _ ← index (varialbe_item s) last;
    Done (Some last)
  else Done None.

Definition find_new_variable (s : t) : res (option nat * t) :=
  if variable_count s <? Z.of_nat MAX_VARIABLE_ITEM then
    let new := Z.to_nat (variable_count s) in
    _ ← index (varialbe_item s) new;
    Done (Some new, mk (usize (variable_count s + 1)) (varialbe_item s))
  else Done (None, s).

Definition get_variable (s : t) (var_name var_guid : list Z)
    : res (Status.t * Z * Z * option (list Z)) :=
  o ← find_variable s var_name var_guid;
  match o with
  | Some i =>
      var_item ← index (varialbe_item s) i;
      Done (Status.SUCCESS, attributes var_item, data_size var_item, Some (data var_item))
  | None => Done (Status.NOT_FOUND, 0, 0, None)
  end.

(** [attributes == 0 || size == 0 || data == null] *)
Definition is_delete (attributes size : Z) (data : option (list Z)) : bool :=
  (attributes =? 0) || (size =? 0) || match data with None => true | Some _ => false end.

Definition put_item (s : t) (i : nat) (f : VariableItem -> VariableItem) : res t :=
  x ← index (varialbe_item s) i;
  Done (mk (variable_count s) (<[i := f x]> (varialbe_item s))).

Definition set_variable (s : t) (var_name var_guid : list Z) (attributes size : Z)
    (data : option (list Z)) : res (Status.t * t) :=
  _ ← assert_ (size <=? MAX_VARIABLE_DATA);
  o ← find_variable s var_name var_guid;
  match o with
  | Some i =>
      if is_delete attributes size data then
        last ← find_last_variable s;
        s ← match last with
            | Some j => last_item ← index (varialbe_item s) j; put_item s i (fun _ => last_item)
            | None => Done s
            end;
        Done (Status.SUCCESS, mk (usize (variable_count s - 1)) (varialbe_item s))
      else
        d ← unwrap data;
        s ← put_item s i (fun x => mkItem (name x) (guid x) attributes size d);
        Done (Status.SUCCESS, s)
  | None =>
      if is_delete attributes size data then Done (Status.SUCCESS, s)
      else
        '(new, s) ← find_new_variable s;
        match new with
        | Some i =>
            d ← unwrap data;
            s ← put_item s i (fun _ => mkItem var_name var_guid attributes size d);
            Done (Status.SUCCESS, s)
        | None => Done (Status.SUCCESS, s)
        end
  end.

End VariableStore.

Import VariableStore.

(** ** The store as a list of live variables *)

Definition key (x : VariableItem) : list Z * list Z := (name x, guid x).
Definition live (s : VariableStore.t) : list VariableItem :=
  take (Z.to_nat (variable_count s)) (varialbe_item s).

(** The invariant: 64 slots, at most 64 live, no two live items with the same
    name and GUID. *)
Record store_ok (s : VariableStore.t) : Prop := {
  store_len : length (varialbe_item s) = MAX_VARIABLE_ITEM;
  store_count : 0 <= variable_count s <= 64;
  store_keys : NoDup (map key (live s))
}.

(** Position of the item with a key. *)
Fixpoint position (k : list Z * list Z) (l : list VariableItem) : option nat :=
  match l with
  | [] => None
  | x :: l => if decide (k = key x) then Some O else S <$> position k l
  end.

Lemma position_Some k l i : position k l = Some i -> exists x, l !! i = Some x /\ key x = k.
Proof.
  revert i. induction l as [|x l IH]; intros i H; cbn in H; [done|].
  case_decide; simplify_eq; [by exists x|].
  destruct (position k l) as [j|]; cbn in H; simplify_eq. by apply IH.
Qed.

Lemma position_None k l : position k l = None <-> k ∉ map key l.
Proof.
  induction l as [|x l IH]; cbn; [split; [intros _; apply not_elem_of_nil|done]|].
  rewrite not_elem_of_cons. case_decide as Hk; [naive_solver|].
  destruct (position k l); cbn; naive_solver.
Qed.

Lemma position_unique k l i x :
  NoDup (map key l) -> l !! i = Some x -> key x = k -> position k l = Some i.
Proof.
  intros Hnd Hi <-. destruct (position (key x) l) as [j|] eqn:E.
  - apply position_Some in E as (y & Hy & Ey). f_equal.
    apply (NoDup_lookup (map key l) j i (key x) Hnd); rewrite list_lookup_fmap.
    + rewrite Hy. cbn. by rewrite Ey.
    + by rewrite Hi.
  - apply position_None in E. exfalso. apply E.
    apply (list_elem_of_lookup_2 _ i). by rewrite list_lookup_fmap, Hi.
Qed.

Lemma find_from_spec s nm gd n i :
  (i + n <= length (varialbe_item s))%nat ->
  find_from s nm gd i n =
  Done ((fun j => (i + j)%nat) <$> position (nm, gd) (take n (drop i (varialbe_item s)))).
Proof.
  revert i. induction n as [|n IH]; intros i Hn; cbn [find_from]; [done|].
  destruct (lookup_lt_is_Some_2 (varialbe_item s) i) as [x Hx]; [lia|].
  unfold index. rewrite Hx; cbn [unwrap]; rstep.
  rewrite (drop_S _ x) by done. cbn [take position].
  destruct (decide ((nm, gd) = key x)) as [Hk|Hk].
  - unfold key in Hk. simplify_eq. rewrite !bool_decide_eq_true_2 by done. cbn. f_equal. f_equal. lia.
  - assert (bool_decide (nm = name x) && bool_decide (gd = guid x) = false) as ->.
    { apply andb_false_iff. unfold key in Hk.
      destruct (decide (nm = name x)) as [->|?]; [right|left]; apply bool_decide_eq_false_2; congruence. }
    rewrite IH by lia. f_equal. destruct (position _ _); cbn; [f_equal; lia | done].
Qed.

Lemma find_variable_spec s nm gd : store_ok s ->
  find_variable s nm gd = Done (position (nm, gd) (live s)).
Proof.
  intros [Hlen Hc _]. unfold find_variable. rewrite find_from_spec.
  - rewrite drop_0. unfold live. by destruct (position _ _).
  - rewrite Hlen. unfold MAX_VARIABLE_ITEM. lia.
Qed.

(** What [get_variable] returns for a key, in terms of the live items. *)
Definition item_result (o : option VariableItem) : Status.t * Z * Z * option (list Z) :=
  match o with
  | Some x => (Status.SUCCESS, attributes x, data_size x, Some (data x))
  | None => (Status.NOT_FOUND, 0, 0, None)
  end.

Definition item_of (s : VariableStore.t) (k : list Z * list Z) : option VariableItem :=
  i ← position k (live s); live s !! i.

Lemma live_lookup s i : store_ok s -> (i < length (live s))%nat ->
  live s !! i = varialbe_item s !! i.
Proof.
  intros _ Hi. unfold live in *. rewrite lookup_take_lt; [done|]. rewrite length_take in Hi. lia.
Qed.

Lemma get_variable_spec s nm gd : store_ok s ->
  get_variable s nm gd = Done (item_result (item_of s (nm, gd))).
Proof.
  intros Hs. unfold get_variable, item_of. rewrite (find_variable_spec _ _ _ Hs); rstep.
  destruct (position _ _) as [i|] eqn:E; [|done]. cbn.
  apply position_Some in E as (x & Hx & _). rewrite Hx. pose proof Hx as Hx'.
  rewrite live_lookup in Hx' by (try done; by eapply lookup_lt_Some).
  unfold index. by rewrite Hx'.
Qed.

Lemma item_of_Some s k x : store_ok s -> item_of s k = Some x <-> x ∈ live s /\ key x = k.
Proof.
  intros Hs. unfold item_of. split.
  - destruct (position k (live s)) as [i|] eqn:E; [|done]. cbn. intros Hx.
    apply position_Some in E as (y & Hy & Ek). simplify_eq. split; [by eapply list_elem_of_lookup_2|done].
  - intros [[i Hi]%list_elem_of_lookup_1 Hk]. rewrite (position_unique k _ i x); [done| |done|done].
    apply (store_keys _ Hs).
Qed.

(** Items with other keys are untouched by a change confined to one key. *)
Lemma item_of_other s s' k k' : store_ok s -> store_ok s' -> k' <> k ->
  (forall x, key x <> k -> x ∈ live s' <-> x ∈ live s) -> item_of s' k' = item_of s k'.
Proof.
  intros Hs Hs' Hne Hx. apply option_eq. intros x. rewrite !item_of_Some by done.
  split; intros [Hin Hk]; (split; [apply Hx; congruence || done | done]).
Qed.

Lemma length_live s : store_ok s -> length (live s) = Z.to_nat (variable_count s).
Proof.
  intros [Hlen Hc _]. unfold live. rewrite length_take, Hlen. unfold MAX_VARIABLE_ITEM. lia.
Qed.

(** Overwriting a live item, keeping its key. *)
Lemma store_update s i x y : store_ok s -> live s !! i = Some x -> key y = key x ->
  let s' := mk (variable_count s) (<[i := y]> (varialbe_item s)) in
  store_ok s' /\ live s' = <[i := y]> (live s).
Proof.
  intros Hs Hi Hk s'. pose proof (lookup_lt_Some _ _ _ Hi) as Hlt. rewrite length_live in Hlt by done.
  assert (Hlive : live s' = <[i := y]> (live s)).
  { unfold live; cbn. by rewrite take_insert_lt. }
  split; [|done]. destruct Hs as [Hlen Hc Hnd]. split; cbn.
  - by rewrite length_insert.
  - done.
  - rewrite Hlive, list_fmap_insert, list_insert_id; [done|].
    by rewrite list_lookup_fmap, Hi, Hk.
Qed.

(** Adding an item with a fresh key. *)
Lemma store_add s y : store_ok s -> variable_count s < 64 -> key y ∉ map key (live s) ->
  let s' := mk (variable_count s + 1)
               (<[Z.to_nat (variable_count s) := y]> (varialbe_item s)) in
  store_ok s' /\ live s' = live s ++ [y].
Proof.
  intros Hs Hc Hk s'. pose proof Hs as [Hlen Hc' Hnd].
  assert (Hlive : live s' = live s ++ [y]).
  { unfold live; cbn. rewrite Z2Nat.inj_add by lia. rewrite Nat.add_comm. cbn.
    rewrite (take_S_r _ _ y).
    - by rewrite take_insert_ge.
    - apply list_lookup_insert_eq. rewrite Hlen. unfold MAX_VARIABLE_ITEM. lia. }
  split; [|done]. split; cbn.
  - by rewrite length_insert.
  - lia.
  - rewrite Hlive, map_app. apply NoDup_app. split_and!; [done | | apply NoDup_singleton].
    intros x Hx [= ->]%list_elem_of_singleton. done.
Qed.

(** Dropping the last live item. *)
Lemma store_drop s : store_ok s -> 0 < variable_count s ->
  let s' := mk (variable_count s - 1) (varialbe_item s) in
  store_ok s' /\ live s' = take (length (live s) - 1) (live s).
Proof.
  intros Hs Hc s'. pose proof Hs as [Hlen Hc' Hnd].
  assert (Hlive : live s' = take (length (live s) - 1) (live s)).
  { rewrite (length_live s Hs). unfold live; cbn. rewrite take_take. f_equal. lia. }
  split; [|done]. split; cbn; [done | lia |].
  rewrite Hlive, <- firstn_map. eapply sublist_NoDup; [exact Hnd|]. apply sublist_take.
Qed.

(** The live items after [set_variable]. *)
Definition set_live (l : list VariableItem) (nm gd : list Z) (attr size : Z)
    (d : option (list Z)) : list VariableItem :=
  match position (nm, gd) l, is_delete attr size d, d with
  | Some _, true, _ => take (length l - 1) l
  | Some i, false, Some d => <[i := mkItem nm gd attr size d]> l
  | None, false, Some d =>
      if (length l <? MAX_VARIABLE_ITEM)%nat then l ++ [mkItem nm gd attr size d] else l
  | _, _, _ => l
  end.

Lemma set_variable_spec s nm gd attr size d : store_ok s -> size <= MAX_VARIABLE_DATA ->
  exists s', set_variable s nm gd attr size d = Done (Status.SUCCESS, s') /\
    store_ok s' /\ live s' = set_live (live s) nm gd attr size d.
Proof.
  intros Hs Hsz. unfold set_variable, set_live.
  unfold assert_. rewrite (proj2 (Z.leb_le _ _)) by done. rstep.
  rewrite (find_variable_spec _ _ _ Hs); rstep. pose proof (store_count _ Hs) as Hc.
  destruct (position (nm, gd) (live s)) as [i|] eqn:E.
  - apply position_Some in E as (x & Hx & Hk). pose proof (lookup_lt_Some _ _ _ Hx) as Hlt.
    pose proof Hlt as Hlt'. rewrite (length_live s Hs) in Hlt'.
    destruct (is_delete attr size d) eqn:Ed.
    + unfold find_last_variable. rewrite (proj2 (Z.eqb_neq _ _)) by lia. rstep.
      rewrite (wrap_small 64 (variable_count s - 1)) by mlia.
      destruct (store_drop s Hs) as [Hs' Hl]; [lia|]. eauto.
    + destruct d as [d|]; [|unfold is_delete in Ed; by rewrite !orb_true_r in Ed]. rstep.
      cbn [unwrap]. rstep. unfold put_item, index. rewrite <- live_lookup, Hx by done. cbn [unwrap]. rstep.
      unfold key in Hk. simplify_eq.
      destruct (store_update s i x (mkItem (name x) (guid x) attr size d) Hs Hx eq_refl) as [Hs' Hl].
      eauto.
  - apply position_None in E. destruct (is_delete attr size d) eqn:Ed; [eauto|].
    destruct d as [d|]; [|unfold is_delete in Ed; by rewrite !orb_true_r in Ed].
    unfold find_new_variable. rewrite (length_live s Hs). unfold MAX_VARIABLE_ITEM.
    destruct (Z.ltb_spec (variable_count s) (Z.of_nat 64)) as [Hlt|Hge].
    + destruct (lookup_lt_is_Some_2 (varialbe_item s) (Z.to_nat (variable_count s))) as [x Hx].
      { rewrite (store_len _ Hs). unfold MAX_VARIABLE_ITEM. lia. }
      unfold index. rewrite Hx; cbn [unwrap]; rstep. cbn [unwrap]; rstep.
      unfold put_item, index; cbn [varialbe_item]. rewrite Hx; cbn [unwrap]; rstep. cbn [variable_count].
      rewrite (wrap_small 64 (variable_count s + 1)) by mlia.
      rewrite (proj2 (Nat.ltb_lt _ _)) by lia.
      destruct (store_add s (mkItem nm gd attr size d) Hs) as [Hs' Hl]; [lia | done |]. eauto.
    + rstep. rewrite (proj2 (Nat.ltb_ge _ _)) by lia. eauto.
Qed.

Lemma item_of_live s s' : live s = live s' -> forall k, item_of s k = item_of s' k.
Proof. intros E k. unfold item_of. by rewrite E. Qed.

(** The variable found first under a key that is not the one changed. *)
Lemma get_same s s' nm gd : store_ok s -> store_ok s' ->
  item_of s' (nm, gd) = item_of s (nm, gd) -> get_variable s' nm gd = get_variable s nm gd.
Proof. intros Hs Hs' E. rewrite !get_variable_spec by done. by rewrite E. Qed.

(** Setting a variable, then getting it and the others. *)
Lemma set_get_item s nm gd attr size d :
  store_ok s -> size <= MAX_VARIABLE_DATA -> is_delete attr size (Some d) = false ->
  (variable_count s < 64 \/ is_Some (item_of s (nm, gd))) ->
  exists s', set_variable s nm gd attr size (Some d) = Done (Status.SUCCESS, s') /\
    get_variable s' nm gd = Done (Status.SUCCESS, attr, size, Some d) /\
    forall nm' gd', (nm', gd') <> (nm, gd) -> get_variable s' nm' gd' = get_variable s nm' gd'.
Proof.
  intros Hs Hsz Hnd Hroom.
  destruct (set_variable_spec s nm gd attr size (Some d) Hs Hsz) as (s' & E & Hs' & Hl).
  exists s'. split; [done|]. unfold set_live in Hl. rewrite Hnd in Hl.
  set (y := mkItem nm gd attr size d) in *.
  assert (Hset : y ∈ live s' /\ forall x, key x <> (nm, gd) -> x ∈ live s' <-> x ∈ live s).
  { destruct (position (nm, gd) (live s)) as [i|] eqn:Ep.
    - apply position_Some in Ep as (x & Hx & Hk). rewrite Hl. split.
      + apply (list_elem_of_lookup_2 _ i), list_lookup_insert_eq. by eapply lookup_lt_Some.
      + intros z Hz. rewrite !list_elem_of_lookup. split; intros [j Hj]; exists j.
        * apply list_lookup_insert_Some in Hj as [(-> & <- & _)|[Hne Hj]]; [by destruct Hz | done].
        * rewrite list_lookup_insert_ne; [done|]. intros <-. congruence.
    - unfold item_of in Hroom. rewrite Ep in Hroom. destruct Hroom as [Hc|[? [=]]].
      rewrite (length_live s Hs), (proj2 (Nat.ltb_lt _ _)) in Hl
        by (unfold MAX_VARIABLE_ITEM; pose proof (store_count _ Hs); lia).
      rewrite Hl. split; [set_solver|]. intros x Hx. rewrite elem_of_app, list_elem_of_singleton.
      split; [|auto]. intros [?| ->]; [done|]. by destruct Hx. }
  destruct Hset as [Hy Hother]. split.
  - rewrite get_variable_spec by done.
    by rewrite (proj2 (item_of_Some s' (nm, gd) y Hs')).
  - intros nm' gd' Hne. apply get_same; [done..|]. by apply (item_of_other s s' (nm, gd)).
Qed.

(** ** Properties *)

(** [set_variable] on a well-formed store (64 slots, distinct live keys)
    returns SUCCESS and leaves a well-formed store, whatever the attributes,
    size and data; it panics exactly when the size exceeds 2048 bytes. *)
Theorem set_variable_keeps_store s nm gd attr size d : store_ok s ->
  (size <= MAX_VARIABLE_DATA /\
   exists s', set_variable s nm gd attr size d = Done (Status.SUCCESS, s') /\ store_ok s') \/
  (MAX_VARIABLE_DATA < size /\ set_variable s nm gd attr size d = Panic).
Proof.
  intros Hs. destruct (decide (size <= MAX_VARIABLE_DATA)) as [Hsz|Hsz].
  - left. split; [done|]. destruct (set_variable_spec s nm gd attr size d Hs Hsz) as (s' & E & ? & _). eauto.
  - right. split; [lia|]. unfold set_variable, assert_. by rewrite (proj2 (Z.leb_gt _ _)) by lia.
Qed.

Lemma new_ok : store_ok new.
Proof.
  split; [by cbn | by cbn | ]. constructor.
Qed.

Lemma set_variable_keeps_store_witness : exists s',
  set_variable new (replicate 32 65) (replicate 16 1) 7 1 (Some (replicate 2048 9)) =
    Done (Status.SUCCESS, s') /\ store_ok s'.
Proof.
  destruct (set_variable_keeps_store new (replicate 32 65) (replicate 16 1) 7 1
    (Some (replicate 2048 9)) new_ok) as [(_ & H) | (H & _)]; [exact H | exfalso; revert H; by vm_compute].
Defined.

(** What is set is what is got: after [set_variable] of a variable that
    exists, or of a new one while fewer than 64 are live, [get_variable] returns
    the given attributes, size and data for that name and GUID, and the same
    result as before for every other name and GUID. *)
Theorem set_then_get_variable s nm gd attr size d :
  store_ok s -> size <= MAX_VARIABLE_DATA -> is_delete attr size (Some d) = false ->
  (variable_count s < 64 \/ is_Some (item_of s (nm, gd))) ->
  exists s', set_variable s nm gd attr size (Some d) = Done (Status.SUCCESS, s') /\
    get_variable s' nm gd = Done (Status.SUCCESS, attr, size, Some d) /\
    forall nm' gd', (nm', gd') <> (nm, gd) -> get_variable s' nm' gd' = get_variable s nm' gd'.
Proof. apply set_get_item. Qed.

Lemma set_then_get_variable_witness : exists s',
  set_variable new (replicate 32 65) (replicate 16 1) 7 1 (Some (replicate 2048 9)) =
    Done (Status.SUCCESS, s') /\
  get_variable s' (replicate 32 65) (replicate 16 1) =
    Done (Status.SUCCESS, 7, 1, Some (replicate 2048 9)).
Proof.
  destruct (set_then_get_variable new (replicate 32 65) (replicate 16 1) 7 1 (replicate 2048 9) new_ok)
    as (s' & E & G & _).
  - vm_compute. discriminate.
  - reflexivity.
  - left. vm_compute. reflexivity.
  - exists s'. split; [exact E | exact G].
Defined.

(** Deleting a variable that is not the last live one removes the wrong
    variable: [set_variable] reports SUCCESS, the variable it was asked to
    delete is still found unchanged, and the last live variable is lost.  Only
    the last live variable can be deleted. *)
Theorem delete_variable_drops_last s i x last d attr size :
  store_ok s -> size <= MAX_VARIABLE_DATA -> is_delete attr size d = true ->
  live s !! i = Some x -> live s !! (length (live s) - 1)%nat = Some last ->
  exists s', set_variable s (name x) (guid x) attr size d = Done (Status.SUCCESS, s') /\
    get_variable s' (name last) (guid last) = Done (Status.NOT_FOUND, 0, 0, None) /\
    ((i < length (live s) - 1)%nat ->
     get_variable s' (name x) (guid x) =
       Done (Status.SUCCESS, attributes x, data_size x, Some (data x))).
Proof.
  intros Hs Hsz Hdel Hx Hlast.
  destruct (set_variable_spec s (name x) (guid x) attr size d Hs Hsz) as (s' & E & Hs' & Hl).
  exists s'. split; [done|]. unfold set_live in Hl.
  rewrite (position_unique _ _ i x), Hdel in Hl by (try done; by apply store_keys).
  rewrite !get_variable_spec by done. split.
  - replace (item_of s' (name last, guid last)) with (@None VariableItem); [done|]. symmetry.
    destruct (item_of s' _) as [z|] eqn:Ez; [|done]. exfalso.
    apply (item_of_Some s' _ z Hs') in Ez as [[j Hj]%list_elem_of_lookup Hk].
    rewrite Hl in Hj. apply lookup_take_Some in Hj as [Hj Hlt].
    assert (j = (length (live s) - 1)%nat); [|lia].
    pose proof (position_unique _ _ _ _ (store_keys _ Hs) Hj Hk).
    pose proof (position_unique _ _ _ _ (store_keys _ Hs) Hlast eq_refl).
    unfold key in *. congruence.
  - intros Hi. rewrite (proj2 (item_of_Some s' (name x, guid x) x Hs')); [done|]. split; [|done].
    apply (list_elem_of_lookup_2 _ i). rewrite Hl. by rewrite lookup_take_lt.
Qed.

(** Two variables, "A" then "B". *)
Definition two_variables : VariableStore.t :=
  mk 2 (mkItem (replicate 32 65) (replicate 16 1) 7 1 (replicate 2048 9) ::
        mkItem (replicate 32 66) (replicate 16 1) 7 1 (replicate 2048 8) ::
        replicate 62 default_item).

Lemma two_variables_ok : store_ok two_variables.
Proof.
  split; [by cbn | by cbn |]. apply (bool_decide_unpack _). vm_compute. exact I.
Qed.

Lemma delete_variable_drops_last_witness : exists s',
  set_variable two_variables (replicate 32 65) (replicate 16 1) 0 0 None =
    Done (Status.SUCCESS, s') /\
  get_variable s' (replicate 32 66) (replicate 16 1) = Done (Status.NOT_FOUND, 0, 0, None) /\
  get_variable s' (replicate 32 65) (replicate 16 1) =
    Done (Status.SUCCESS, 7, 1, Some (replicate 2048 9)).
Proof.
  destruct (delete_variable_drops_last two_variables 0
    (mkItem (replicate 32 65) (replicate 16 1) 7 1 (replicate 2048 9))
    (mkItem (replicate 32 66) (replicate 16 1) 7 1 (replicate 2048 8)) None 0 0 two_variables_ok)
    as (s' & E & H1 & H2).
  - vm_compute. discriminate.
  - reflexivity.
  - reflexivity.
  - reflexivity.
  - exists s'. split; [exact E|]. split; [exact H1|]. apply H2. apply Nat.ltb_lt. vm_compute. reflexivity.
Defined.

(** A full store drops new variables silently: with 64 live variables,
    [set_variable] of a name and GUID not among them reports SUCCESS and
    [get_variable] does not find it. *)
Theorem set_variable_full_store s nm gd attr size d :
  store_ok s -> variable_count s = 64 -> size <= MAX_VARIABLE_DATA ->
  item_of s (nm, gd) = None ->
  exists s', set_variable s nm gd attr size d = Done (Status.SUCCESS, s') /\
    get_variable s' nm gd = Done (Status.NOT_FOUND, 0, 0, None).
Proof.
  intros Hs Hc Hsz Hnone.
  destruct (set_variable_spec s nm gd attr size d Hs Hsz) as (s' & E & Hs' & Hl).
  exists s'. split; [done|]. rewrite get_variable_spec by done.
  rewrite (item_of_live s' s); [by rewrite Hnone|]. rewrite Hl. unfold set_live.
  assert (position (nm, gd) (live s) = None) as ->.
  { unfold item_of in Hnone. destruct (position _ _) as [i|] eqn:Ep; [|done].
    apply position_Some in Ep as (z & Hz & _). cbn in Hnone. congruence. }
  destruct (is_delete _ _ _), d; try done. by rewrite (length_live s Hs), Hc.
Qed.

(** 64 variables with one-byte names. *)
Definition full_store : VariableStore.t :=
  mk 64 ((fun i => mkItem [Z.of_nat i] [] 7 1 [0]) <$> seq 0 64).

Lemma full_store_ok : store_ok full_store.
Proof.
  split; [by cbn | by cbn |]. apply (bool_decide_unpack _). vm_compute. exact I.
Qed.

Lemma set_variable_full_store_witness : exists s',
  set_variable full_store [100] [] 7 1 (Some [0]) = Done (Status.SUCCESS, s') /\
  get_variable s' [100] [] = Done (Status.NOT_FOUND, 0, 0, None).
Proof.
  apply (set_variable_full_store full_store [100] [] 7 1 (Some [0]) full_store_ok);
    [reflexivity | vm_compute; discriminate | vm_compute; reflexivity].
Defined.
