(* ===== verification/HandleDb.v ===== *)
(** * The handle database (src/efi/handle_database.rs)

    A table of at most 32 handles with at most 32 protocols each.  A UEFI
    handle is a raw pointer: to an entry of the table, null, or anything a
    caller makes up.  The last case carries the word found where the signature
    would be; a forged pointer whose target holds the signature is outside the
    model ([get_protocol] on it is [Panic]).  Pointers to GUIDs are the GUIDs. *)

From S2P Require Import Prelude REfi.

Module HandleDatabase.

Definition HANDLE_SIGNATURE : Z := 0x4C444849.

Record ProtocolStruct := mkPS { guid : Guid.t; interface : Z }.

Definition zero_guid : Guid.t := Guid.from_fields 0 0 0 0 0 [0; 0; 0; 0; 0; 0].
Definition default_protocol : ProtocolStruct := mkPS zero_guid 0.

Definition MAX_PROTOCOL_STRUCT : nat := 32.

Record ProtocolHandle := mkPH {
  signature : Z;
  protocol_count : nat;
  protocol_struct : list ProtocolStruct
}.

Definition MAX_HANDLE_STRUCT : nat := 32.

Record t := mk {
  protocol_handle_count : nat;
  protocol_handle : list ProtocolHandle
}.

Definition default_handle : ProtocolHandle :=
  mkPH 0 0 (replicate MAX_PROTOCOL_STRUCT default_protocol).

Definition new : t := mk 0 (replicate MAX_HANDLE_STRUCT default_handle).

Inductive Handle :=
| Null
| Entry (i : nat)
| Foreign (word : Z).

#[export] Instance Handle_eq_dec : EqDecision Handle.
Proof. solve_decision. Defined.

(** The handle table read and written through a pointer to an entry. *)
Definition entry (db : t) (i : nat) : res ProtocolHandle := index (protocol_handle db) i.
Definition modify (db : t) (i : nat) (f : ProtocolHandle -> ProtocolHandle) : res t :=
  e ← entry db i;
  Done (mk (protocol_handle_count db) (<[i := f e]> (protocol_handle db))).

Definition get_new_protocol (db : t) (i : nat) : res ((Status.t * nat) * t) :=
  e ← entry db i;
  if (MAX_PROTOCOL_STRUCT <=? protocol_count e)%nat
  then Done ((Status.OUT_OF_RESOURCES, 0%nat), db)
  else
    let j := protocol_count e in
    ps ← update (protocol_struct e) j (mkPS zero_guid 0);
    db ← modify db i (fun e => mkPH (signature e) (S (protocol_count e)) ps);
    Done ((Status.SUCCESS, j), db).

(** [get_protocol]: the scan of the protocols [j .. protocol_count). *)
Fixpoint scan_protocols (ps : list ProtocolStruct) (g : Guid.t) (j n : nat)
    : res (Status.t * nat) :=
  match n with
  | O => Done (Status.NOT_FOUND, 0%nat)
  | S n =>
      p ← index ps j;
      if Guid.eqb g (guid p) then Done (Status.SUCCESS, j) else scan_protocols ps g (S j) n
  end.

Definition get_protocol (db : t) (i : nat) (g : Guid.t) : res (Status.t * nat) :=
  e ← entry db i;
  _ ← assert_ (signature e =? HANDLE_SIGNATURE);
  scan_protocols (protocol_struct e) g 0 (protocol_count e).

Definition get_new_handle (db : t) : res ((Status.t * Handle) * t) :=
  let i := protocol_handle_count db in
  if (MAX_HANDLE_STRUCT <=? i)%nat then Done ((Status.OUT_OF_RESOURCES, Null), db)
  else
    db ← modify (mk (S i) (protocol_handle db)) i
           (fun e => mkPH HANDLE_SIGNATURE 0 (protocol_struct e));
    Done ((Status.SUCCESS, Entry i), db).

Definition get_handle (db : t) (h : Handle) : res (Status.t * Handle) :=
  match h with
  | Null => Done (Status.NOT_FOUND, Null)
  | Entry i =>
      e ← entry db i;
      if negb (signature e =? HANDLE_SIGNATURE) then Done (Status.INVALID_PARAMETER, Null)
      else Done (Status.SUCCESS, h)
  | Foreign w =>
      if negb (w =? HANDLE_SIGNATURE) then Done (Status.INVALID_PARAMETER, Null)
      else Done (Status.SUCCESS, h)
  end.

(** The entry behind a handle the code has checked. *)
Definition deref (h : Handle) : res nat :=
  match h with Entry i => Done i | _ => Panic end.

Definition write_protocol (db : t) (i j : nat) (p : ProtocolStruct) : res t :=
  e ← entry db i;
  ps ← update (protocol_struct e) j p;
  modify db i (fun e => mkPH (signature e) (protocol_count e) ps).

(** Lines 75-90 and 140-153: the handle to install on. *)
Definition handle_or_new (db : t) (h : Handle) : res ((Status.t * Handle) * t) :=
  '(status, cur) ← get_handle db h;
  if Status.eqb status Status.SUCCESS then Done ((Status.SUCCESS, cur), db)
  else if Status.eqb status Status.NOT_FOUND then get_new_handle db
  else Done ((status, Null), db).

Definition install_protocol (db : t) (h : Handle) (g : Guid.t) (iface : Z)
    : res ((Status.t * Handle) * t) :=
  '((status, cur), db) ← handle_or_new db h;
  if negb (Status.eqb status Status.SUCCESS) then Done ((status, Null), db)
  else
    i ← deref cur;
    e ← entry db i;
    _ ← assert_ (signature e =? HANDLE_SIGNATURE);
    '(status, _) ← get_protocol db i g;
    if Status.eqb status Status.SUCCESS then Done ((Status.INVALID_PARAMETER, Null), db)
    else if Status.eqb status Status.NOT_FOUND then
      '((status, j), db) ← get_new_protocol db i;
      if negb (Status.eqb status Status.SUCCESS) then Done ((status, Null), db)
      else
        db ← write_protocol db i j (mkPS g iface);
        Done ((Status.SUCCESS, cur), db)
    else Done ((status, Null), db).

(** Lines 133-138: is one of the pairs [k .. count) already installed? *)
Fixpoint any_installed (db : t) (i : nat) (pair : list (Guid.t * Z)) (k n : nat) : res bool :=
  match n with
  | O => Done false
  | S n =>
      p ← index pair k;
      '(status, _) ← get_protocol db i p.1;
      if Status.eqb status Status.SUCCESS then Done true
      else any_installed db i pair (S k) n
  end.

(** Lines 154-162 *)
Fixpoint install_pairs (db : t) (i : nat) (pair : list (Guid.t * Z)) (k n : nat) : res t :=
  match n with
  | O => Done db
  | S n =>
      '((status, j), db) ← get_new_protocol db i;
      _ ← assert_ (Status.eqb status Status.SUCCESS);
      p ← index pair k;
      db ← write_protocol db i j (mkPS p.1 p.2);
      install_pairs db i pair (S k) n
  end.

(** Lines 151-164 *)
Definition install_on (db : t) (cur : Handle) (count : nat) (pair : list (Guid.t * Z))
    : res ((Status.t * Handle) * t) :=
  i ← deref cur;
  e ← entry db i;
  _ ← assert_ (signature e =? HANDLE_SIGNATURE);
  db ← install_pairs db i pair 0 count;
  Done ((Status.SUCCESS, cur), db).

(** [pair] is the caller's array of eight pairs. *)
Definition install_multiple_protocol (db : t) (h : Handle) (count : nat)
    (pair : list (Guid.t * Z)) : res ((Status.t * Handle) * t) :=
  _ ← assert_ (count <=? 8)%nat;
  _ ← assert_ (count <=? MAX_PROTOCOL_STRUCT)%nat;
  _ ← assert_ (0 <? count)%nat;
  '(status, cur) ← get_handle db h;
  if Status.eqb status Status.SUCCESS then
    i ← deref cur;
    e ← entry db i;
    _ ← assert_ (signature e =? HANDLE_SIGNATURE);
    if (MAX_PROTOCOL_STRUCT - count <? protocol_count e)%nat
    then Done ((Status.OUT_OF_RESOURCES, Null), db)
    else
      dup ← any_installed db i pair 0 count;
      if (dup : bool) then Done ((Status.INVALID_PARAMETER, Null), db) else install_on db cur count pair
  else if Status.eqb status Status.NOT_FOUND then
    '((status, new), db) ← get_new_handle db;
    if negb (Status.eqb status Status.SUCCESS) then Done ((status, Null), db)
    else install_on db new count pair
  else Done ((status, Null), db).

(** The handles, from entry [k], that carry the protocol: the loop shared by
    [locate_handle_count] and [locate_handle_copy]. *)
Fixpoint handles_with (db : t) (g : Guid.t) (k n : nat) : res (list nat) :=
  match n with
  | O => Done []
  | S n =>
      _ ← entry db k;
      '(status, _) ← get_protocol db k g;
      rest ← handles_with db g (S k) n;
      Done (if Status.eqb status Status.SUCCESS then k :: rest else rest)
  end.

Definition locate_handle_count (db : t) (g : Guid.t) : res (Status.t * nat) :=
  hs ← handles_with db g 0 (protocol_handle_count db);
  if (length hs =? 0)%nat then Done (Status.NOT_FOUND, 0%nat)
  else Done (Status.SUCCESS, length hs).

(** Lines 195-204: the handles written to the caller's buffer, with the checks
    of the buffer size and of the 32-element array it is viewed as. *)
Fixpoint copy_handles (hs : list nat) (size count : nat) : res (list Handle) :=
  match hs with
  | [] => Done []
  | i :: hs =>
      _ ← assert_ ((count + 1) * 8 <=? size)%nat;
      _ ← assert_ (count <? MAX_HANDLE_STRUCT)%nat;
      rest ← copy_handles hs size (count + 1);
      Done (Entry i :: rest)
  end.

Definition locate_handle_copy (db : t) (g : Guid.t) (size : nat) : res (list Handle) :=
  hs ← handles_with db g 0 (protocol_handle_count db);
  copy_handles hs size 0.

(** [locate_handle]: status, size and what is written to the buffer. *)
Definition locate_handle (db : t) (g : Guid.t) (buffer_size : Z)
    : res (Status.t * Z * list Handle) :=
  '(status, count) ← locate_handle_count db g;
  if negb (Status.eqb status Status.SUCCESS) then Done (status, 0, [])
  else
    let real_size := (count * 8)%nat in
    if buffer_size <? Z.of_nat real_size
    then Done (Status.BUFFER_TOO_SMALL, Z.of_nat real_size, [])
    else
      hs ← locate_handle_copy db g real_size;
      Done (Status.SUCCESS, Z.of_nat real_size, hs).

(** [locate_handle_buffer] with the pool allocator it calls ([A] is the
    allocator's state). *)
Definition locate_handle_buffer {A} (allocate_pool : A -> Z -> res ((Status.t * Z) * A))
    (al : A) (db : t) (g : Guid.t) : res ((Status.t * nat * Z * list Handle) * A) :=
  '(status, count) ← locate_handle_count db g;
  if negb (Status.eqb status Status.SUCCESS) then Done ((status, 0%nat, 0, []), al)
  else
    '((status, address), al) ← allocate_pool al (Z.of_nat (count * 8));
    if negb (Status.eqb status Status.SUCCESS) then Done ((status, 0%nat, 0, []), al)
    else
      hs ← locate_handle_copy db g (count * 8);
      Done ((Status.SUCCESS, count, address, hs), al).

(** [handle_protocol]; [null_word] is the word at address 0, which a null
    handle reads as its signature. *)
Definition handle_protocol (null_word : Z) (db : t) (h : Handle) (g : Guid.t)
    : res (Status.t * Z) :=
  sig ← match h with
        | Null => Done null_word
        | Entry i => e ← entry db i; Done (signature e)
        | Foreign w => Done w
        end;
  if negb (sig =? HANDLE_SIGNATURE) then Done (Status.INVALID_PARAMETER, 0)
  else
    i ← deref h;
    '(status, j) ← get_protocol db i g;
    if negb (Status.eqb status Status.SUCCESS) then Done (status, 0)
    else
      e ← entry db i;
      p ← index (protocol_struct e) j;
      Done (Status.SUCCESS, interface p).

(** [locate_protocol]: the scan of the entries [k .. protocol_handle_count). *)
Fixpoint locate_from (db : t) (g : Guid.t) (k n : nat) : res (Status.t * Z) :=
  match n with
  | O => Done (Status.NOT_FOUND, 0)
  | S n =>
      e ← entry db k;
      '(status, j) ← get_protocol db k g;
      if Status.eqb status Status.SUCCESS then
        p ← index (protocol_struct e) j;
        Done (Status.SUCCESS, interface p)
      else locate_from db g (S k) n
  end.

Definition locate_protocol (db : t) (g : Guid.t) : res (Status.t * Z) :=
  locate_from db g 0 (protocol_handle_count db).

End HandleDatabase.

Import HandleDatabase.

(** ** Abstract view: which interface a handle has for a GUID *)

Definition protocols (e : ProtocolHandle) : list ProtocolStruct :=
  take (protocol_count e) (protocol_struct e).

(** The first protocol with the GUID, and its interface. *)
Fixpoint find_guid (g : Guid.t) (ps : list ProtocolStruct) : option nat :=
  match ps with
  | [] => None
  | p :: ps => if decide (g = guid p) then Some O else S <$> find_guid g ps
  end.

Definition find_interface (g : Guid.t) (ps : list ProtocolStruct) : option Z :=
  j ← find_guid g ps; interface <$> ps !! j.

Definition iface (db : HandleDatabase.t) (i : nat) (g : Guid.t) : option Z :=
  if decide (i < protocol_handle_count db)%nat
  then e ← protocol_handle db !! i; find_interface g (protocols e)
  else None.

(** An entry in use: signed, with its protocol table of 32 slots. *)
Record entry_ok (e : ProtocolHandle) : Prop := {
  entry_signature : signature e = HANDLE_SIGNATURE;
  entry_count : (protocol_count e <= MAX_PROTOCOL_STRUCT)%nat;
  entry_len : length (protocol_struct e) = MAX_PROTOCOL_STRUCT
}.

Record db_ok (db : HandleDatabase.t) : Prop := {
  db_len : length (protocol_handle db) = MAX_HANDLE_STRUCT;
  db_count : (protocol_handle_count db <= MAX_HANDLE_STRUCT)%nat;
  db_used : forall i e, protocol_handle db !! i = Some e ->
    (i < protocol_handle_count db)%nat -> entry_ok e;
  db_unused : forall i e, protocol_handle db !! i = Some e ->
    (protocol_handle_count db <= i)%nat ->
    signature e <> HANDLE_SIGNATURE /\ length (protocol_struct e) = MAX_PROTOCOL_STRUCT
}.

(** ** Lookup *)

Lemma entry_Done db i e : protocol_handle db !! i = Some e -> entry db i = Done e.
Proof. intros H. unfold entry, index. by rewrite H. Qed.


Lemma scan_protocols_spec ps g j n : (j + n <= length ps)%nat ->
  scan_protocols ps g j n =
  Done (match find_guid g (take n (drop j ps)) with
        | Some k => (Status.SUCCESS, (j + k)%nat)
        | None => (Status.NOT_FOUND, 0%nat)
        end).
Proof.
  revert j. induction n as [|n IH]; intros j Hn; cbn [scan_protocols]; [done|].
  destruct (lookup_lt_is_Some_2 ps j) as [p Hp]; [lia|].
  unfold index. rewrite Hp; cbn [unwrap]; rstep. rewrite (drop_S _ p) by done.
  cbn [take find_guid]. unfold Guid.eqb. destruct (decide (g = guid p)) as [Hg|Hg].
  - rewrite bool_decide_eq_true_2 by done. by rewrite Nat.add_0_r.
  - rewrite bool_decide_eq_false_2, IH by (done || lia). destruct (find_guid _ _); cbn; [|done]. by rewrite Nat.add_succ_r.
Qed.

Lemma find_guid_lt g ps k : find_guid g ps = Some k -> exists p, ps !! k = Some p /\ guid p = g.
Proof.
  revert k. induction ps as [|p ps IH]; intros k H; cbn in H; [done|].
  case_decide; simplify_eq; [by exists p|].
  destruct (find_guid g ps); cbn in H; simplify_eq. by apply IH.
Qed.

Lemma find_guid_app g ps p :
  find_guid g (ps ++ [p]) =
  match find_guid g ps with
  | Some k => Some k
  | None => if decide (g = guid p) then Some (length ps) else None
  end.
Proof.
  induction ps as [|q ps IH]; cbn; [by case_decide|].
  destruct (decide (g = guid q)); [done|]. rewrite IH. destruct (find_guid g ps); [done|]. by case_decide.
Qed.

Lemma find_interface_app g ps p :
  find_interface g (ps ++ [p]) =
  match find_interface g ps with
  | Some x => Some x
  | None => if decide (g = guid p) then Some (interface p) else None
  end.
Proof.
  unfold find_interface. rewrite find_guid_app. destruct (find_guid g ps) as [k|] eqn:E; cbn.
  - apply find_guid_lt in E as (q & Hq & _). rewrite lookup_app_l by (by eapply lookup_lt_Some).
    by rewrite Hq.
  - case_decide; cbn; [|done]. by rewrite lookup_app_r, Nat.sub_diag by lia.
Qed.

Lemma find_interface_guid g ps : is_Some (find_interface g ps) <-> is_Some (find_guid g ps).
Proof.
  unfold find_interface. destruct (find_guid g ps) as [k|] eqn:E; cbn; [|done].
  apply find_guid_lt in E as (p & -> & _). split; eauto.
Qed.

Section Lookup.
Context (db : HandleDatabase.t) (Hdb : db_ok db).

Lemma used_entry i : (i < protocol_handle_count db)%nat ->
  exists e, protocol_handle db !! i = Some e /\ entry db i = Done e /\ entry_ok e.
Proof.
  intros Hi. pose proof (db_count _ Hdb).
  destruct (lookup_lt_is_Some_2 (protocol_handle db) i) as [e He]; [rewrite (db_len _ Hdb); lia|].
  exists e. split; [done|]. split; [unfold entry, index; by rewrite He|]. by eapply db_used.
Qed.

Lemma get_protocol_spec i g e : (i < protocol_handle_count db)%nat ->
  protocol_handle db !! i = Some e ->
  get_protocol db i g =
  Done (match find_guid g (protocols e) with
        | Some k => (Status.SUCCESS, k)
        | None => (Status.NOT_FOUND, 0%nat)
        end).
Proof.
  intros Hi He. pose proof (db_used _ Hdb _ _ He Hi) as [Hs Hc Hl]. unfold get_protocol, entry, index.
  rewrite He; cbn [unwrap]; rstep. rewrite Hs. cbn [assert_ Z.eqb]. unfold assert_.
  rewrite Z.eqb_refl; rstep. rewrite scan_protocols_spec by (rewrite Hl; lia).
  by rewrite drop_0.
Qed.

(** The interface at the position [find_guid] gives. *)
Lemma found_interface i g e k : (i < protocol_handle_count db)%nat ->
  protocol_handle db !! i = Some e -> find_guid g (protocols e) = Some k ->
  exists p, index (protocol_struct e) k = Done p /\ iface db i g = Some (interface p).
Proof.
  intros Hi He Hk. pose proof (find_guid_lt _ _ _ Hk) as (p & Hp & _). exists p.
  unfold iface, find_interface. rewrite decide_True, He by done. cbn. rewrite Hk. cbn. rewrite Hp.
  split; [|done]. unfold protocols in Hp. apply lookup_take_Some in Hp as [Hp _].
  unfold index. by rewrite Hp.
Qed.

Lemma handle_protocol_spec w i g :
  (i < length (protocol_handle db))%nat ->
  handle_protocol w db (Entry i) g =
  Done (if decide (i < protocol_handle_count db)%nat then
          match iface db i g with
          | Some x => (Status.SUCCESS, x)
          | None => (Status.NOT_FOUND, 0)
          end
        else (Status.INVALID_PARAMETER, 0)).
Proof.
  intros Hi. destruct (lookup_lt_is_Some_2 _ _ Hi) as [e He].
  unfold handle_protocol, entry, index. rewrite He; cbn [unwrap]; rstep.
  case_decide as Hlt.
  - pose proof (db_used _ Hdb _ _ He Hlt) as Hok. rewrite (entry_signature _ Hok), Z.eqb_refl.
    cbn [negb deref]; rstep. rewrite (get_protocol_spec i g e Hlt He); rstep.
    destruct (find_guid g (protocols e)) as [k|] eqn:Ek; cbn.
    + destruct (found_interface i g e k Hlt He Ek) as (p & Hp & ->).
      apply index_Done in Hp. rewrite He; cbn. by rewrite Hp.
    + unfold iface, find_interface. rewrite decide_True, He by done. cbn. by rewrite Ek.
  - destruct (db_unused _ Hdb i e He ltac:(lia)) as [Hs _].
    by rewrite (proj2 (Z.eqb_neq _ _) Hs).
Qed.

Lemma handles_with_spec g k n : (k + n <= protocol_handle_count db)%nat ->
  handles_with db g k n = Done (filter (fun i => is_Some (iface db i g)) (seq k n)).
Proof.
  revert k. induction n as [|n IH]; intros k Hk; cbn [handles_with seq]; [done|].
  destruct (used_entry k) as (e & He & Een & _); [lia|]. rewrite Een; rstep.
  rewrite (get_protocol_spec k g e) by (try done; lia). rstep.
  assert (Hif : iface db k g = find_interface g (protocols e)).
  { unfold iface. rewrite decide_True by lia. by rewrite He. }
  pose proof (find_interface_guid g (protocols e)) as Hiff. rewrite <- Hif in Hiff.
  destruct (find_guid g (protocols e)) as [j|] eqn:Ej; rstep; rewrite IH by lia; rstep.
  - rewrite filter_cons_True by (apply Hiff; eauto). done.
  - rewrite filter_cons_False; [done|]. rewrite Hiff. by intros [? [=]].
Qed.
Lemma locate_from_spec g n k : (k + n <= protocol_handle_count db)%nat ->
  locate_from db g k n =
  Done (match head (filter (fun i => is_Some (iface db i g)) (seq k n)) ≫= (fun i => iface db i g) with
        | Some x => (Status.SUCCESS, x)
        | None => (Status.NOT_FOUND, 0)
        end).
Proof.
  revert k. induction n as [|n IH]; intros k Hk; cbn [locate_from seq]; [done|].
  destruct (used_entry k) as (e & He & Een & _); [lia|]. rewrite Een; rstep.
  rewrite (get_protocol_spec k g e) by (try done; lia). rstep.
  destruct (find_guid g (protocols e)) as [j|] eqn:Ej; status_step.
  - destruct (found_interface k g e j) as (p & Hp & Hif); [lia | done | done |].
    rewrite filter_cons_True by (rewrite Hif; eauto). rewrite Hp. cbn. by rewrite Hif.
  - rewrite filter_cons_False; [apply IH; lia|].
    unfold iface. rewrite decide_True, He by lia. cbn.
    rewrite find_interface_guid, Ej. by intros [? [=]].
Qed.

Lemma copy_handles_spec l c size :
  (length l + c <= MAX_HANDLE_STRUCT)%nat -> ((length l + c) * 8 <= size)%nat ->
  copy_handles l size c = Done (Entry <$> l).
Proof.
  revert c. induction l as [|i l IH]; intros c Hc Hsz; cbn [copy_handles]; [done|].
  cbn [length] in *. unfold assert_.
  rewrite (proj2 (Nat.leb_le _ _)), (proj2 (Nat.ltb_lt _ _)) by lia. rstep.
  by rewrite IH by lia.
Qed.

Lemma handles_with_length g : (length (filter (fun i => is_Some (iface db i g)) (seq 0 (protocol_handle_count db)))
  <= MAX_HANDLE_STRUCT)%nat.
Proof. etransitivity; [apply length_filter|]. rewrite length_seq. apply (db_count _ Hdb). Qed.

Lemma locate_handle_spec g size :
  let hs := filter (fun i => is_Some (iface db i g)) (seq 0 (protocol_handle_count db)) in
  locate_handle db g size =
    Done (match hs with
          | [] => (Status.NOT_FOUND, 0, [])
          | _ => if size <? Z.of_nat (length hs * 8)
                 then (Status.BUFFER_TOO_SMALL, Z.of_nat (length hs * 8), [])
                 else (Status.SUCCESS, Z.of_nat (length hs * 8), Entry <$> hs)
          end).
Proof.
  intros hs. pose proof (handles_with_length g) as Hlen. fold hs in Hlen.
  unfold locate_handle, locate_handle_count, locate_handle_copy.
  rewrite handles_with_spec by lia. fold hs. clearbody hs. rstep.
  destruct hs as [|i hs]; [done|]. cbn [length] in *.
  change (S (length hs) =? 0)%nat with false. status_step.
  destruct (size <? _); [done|]. by rewrite copy_handles_spec by (cbn [length]; lia).
Qed.
End Lookup.

(** ** Installation *)

(** A pointer the model covers: null, an entry of the table, or a pointer to
    memory that does not hold the signature. *)
Definition valid_handle (h : Handle) : Prop :=
  match h with
  | Null => True
  | Entry i => (i < MAX_HANDLE_STRUCT)%nat
  | Foreign w => w <> HANDLE_SIGNATURE
  end.

(** The database after [p] is appended to the protocols of entry [i]. *)
Definition appended (db db' : HandleDatabase.t) (i : nat) (e : ProtocolHandle)
    (p : ProtocolStruct) : Prop :=
  db_ok db' /\ protocol_handle_count db' = protocol_handle_count db /\
  (exists e', protocol_handle db' !! i = Some e' /\ protocols e' = protocols e ++ [p] /\
     protocol_count e' = S (protocol_count e)) /\
  (forall k, k <> i -> protocol_handle db' !! k = protocol_handle db !! k).

Lemma append_protocol db i e p : db_ok db -> (i < protocol_handle_count db)%nat ->
  protocol_handle db !! i = Some e -> (protocol_count e < MAX_PROTOCOL_STRUCT)%nat ->
  exists db1 db', get_new_protocol db i = Done ((Status.SUCCESS, protocol_count e), db1) /\
    write_protocol db1 i (protocol_count e) p = Done db' /\ appended db db' i e p.
Proof.
  intros Hdb Hi He Hc. pose proof (db_used _ Hdb _ _ He Hi) as [Hs Hle Hlen].
  pose proof (lookup_lt_Some _ _ _ He) as Hlt.
  unfold get_new_protocol, modify, entry, index. rewrite He; cbn [unwrap]; rstep.
  rewrite (proj2 (Nat.leb_gt _ _)) by done. rewrite update_lt by lia. rstep. cbn [unwrap]; rstep.
  do 2 eexists. split; [reflexivity|].
  unfold write_protocol, modify, entry, index; cbn [protocol_handle protocol_handle_count].
  rewrite list_lookup_insert_eq by done; cbn [unwrap]; rstep. cbn [protocol_struct].
  rewrite update_lt by (rewrite length_insert; lia). rstep. cbn [unwrap]; rstep.
  split; [reflexivity|]. unfold appended; cbn [protocol_handle protocol_handle_count signature protocol_count].
  rewrite !list_insert_insert_eq. split_and!; [|done| |].
  - destruct Hdb as [H1 H2 H3 H4]. split; cbn; [by rewrite length_insert | done | |].
    + intros k e' Hk Hkc. destruct (decide (k = i)) as [->|Hne].
      * rewrite list_lookup_insert_eq in Hk by done. simplify_eq. split; cbn; [done | lia |].
        by rewrite length_insert.
      * rewrite list_lookup_insert_ne in Hk by done. eauto.
    + intros k e' Hk Hkc. rewrite list_lookup_insert_ne in Hk by lia. eauto.
  - eexists. rewrite list_lookup_insert_eq by done. split; [done|]. cbn. split; [|done].
    unfold protocols; cbn. rewrite (take_S_r _ _ p) by (apply list_lookup_insert_eq; lia).
    by rewrite take_insert_ge.
  - intros k Hk. by rewrite list_lookup_insert_ne.
Qed.

Lemma appended_iface db db' i e p k g : db_ok db -> (i < protocol_handle_count db)%nat ->
  protocol_handle db !! i = Some e -> appended db db' i e p ->
  iface db' k g =
  match iface db k g with
  | Some x => Some x
  | None => if decide (k = i /\ g = guid p) then Some (interface p) else None
  end.
Proof.
  intros Hdb Hi He (_ & Hc & (e' & He' & Hp & _) & Hother). unfold iface. rewrite Hc.
  destruct (decide (k = i)) as [->|Hne].
  - rewrite !decide_True by done. rewrite He, He'. cbn. rewrite Hp, find_interface_app.
    destruct (find_interface g (protocols e)); [done|].
    destruct (decide (g = guid p)), (decide (i = i /\ g = guid p)); naive_solver.
  - rewrite Hother by done. destruct (if decide _ then _ else _) as [x|]; [done|].
    by rewrite decide_False by naive_solver.
Qed.

Lemma get_new_handle_spec db : db_ok db ->
  (protocol_handle_count db = MAX_HANDLE_STRUCT /\
   get_new_handle db = Done ((Status.OUT_OF_RESOURCES, Null), db)) \/
  ((protocol_handle_count db < MAX_HANDLE_STRUCT)%nat /\
   exists db', get_new_handle db = Done ((Status.SUCCESS, Entry (protocol_handle_count db)), db') /\
     db_ok db' /\ protocol_handle_count db' = S (protocol_handle_count db) /\
     (exists e, protocol_handle db' !! protocol_handle_count db = Some e /\ protocol_count e = 0%nat /\
        forall k, k <> protocol_handle_count db -> protocol_handle db' !! k = protocol_handle db !! k) /\
     forall k g, iface db' k g = iface db k g).
Proof.
  intros Hdb. pose proof Hdb as [H1 H2 H3 H4]. unfold get_new_handle.
  destruct (Nat.leb_spec MAX_HANDLE_STRUCT (protocol_handle_count db)); [left; split; [lia|done]|].
  right. split; [done|].
  destruct (lookup_lt_is_Some_2 (protocol_handle db) (protocol_handle_count db)) as [e He]; [lia|].
  pose proof (lookup_lt_Some _ _ _ He) as Hlt. destruct (H4 _ _ He ltac:(lia)) as [_ Hlen].
  unfold modify, entry, index; cbn [protocol_handle protocol_handle_count].
  rewrite He; cbn [unwrap]; rstep. eexists. split; [reflexivity|]. cbn [protocol_handle protocol_handle_count].
  split_and!; [|done| |].
  - split; cbn; [by rewrite length_insert | lia | |].
    + intros k e' Hk Hkc. destruct (decide (k = protocol_handle_count db)) as [->|Hne].
      * rewrite list_lookup_insert_eq in Hk by done. simplify_eq. split; cbn; [done | lia | done].
      * rewrite list_lookup_insert_ne in Hk by done. apply (H3 k); [done|lia].
    + intros k e' Hk Hkc. rewrite list_lookup_insert_ne in Hk by lia. apply (H4 k); [done|lia].
  - eexists. rewrite list_lookup_insert_eq by done. split_and!; [done..|].
    intros k Hk. by rewrite list_lookup_insert_ne by done.
  - intros k g. unfold iface; cbn [protocol_handle protocol_handle_count].
    destruct (decide (k = protocol_handle_count db)) as [->|Hne].
    + rewrite decide_True, decide_False by lia. by rewrite list_lookup_insert_eq by done.
    + rewrite list_lookup_insert_ne by done. destruct (decide (k < protocol_handle_count db)%nat).
      * by rewrite decide_True by lia.
      * by rewrite decide_False by lia.
Qed.

(** The handle the protocols go on: an existing one, or a fresh one. *)
Lemma handle_or_new_spec db h : db_ok db -> valid_handle h ->
  (exists st db', handle_or_new db h = Done ((st, Null), db') /\ db' = db /\
     (st = Status.INVALID_PARAMETER \/ st = Status.OUT_OF_RESOURCES)) \/
  (exists i db' e, handle_or_new db h = Done ((Status.SUCCESS, Entry i), db') /\
     (h = Entry i \/ h = Null) /\
     db_ok db' /\ (i < protocol_handle_count db')%nat /\ protocol_handle db' !! i = Some e /\
     (h = Null -> protocol_count e = 0%nat) /\
     forall k g, iface db' k g = iface db k g).
Proof.
  intros Hdb Hv. unfold handle_or_new. destruct h as [|i|w]; cbn [get_handle].
  - rstep. destruct (get_new_handle_spec db Hdb) as [(? & E)|(? & db' & E & Hok & Hc & (e & He & Hz & Hoth) & Hif)];
      rewrite E; [left | right].
    + do 2 eexists. split; [reflexivity|]. auto.
    + exists (protocol_handle_count db), db', e. split_and!; auto. lia.
  - cbn in Hv. destruct (lookup_lt_is_Some_2 (protocol_handle db) i) as [e He]; [by rewrite (db_len _ Hdb)|].
    unfold entry, index. rewrite He; cbn [unwrap]; rstep.
    destruct (decide (i < protocol_handle_count db)%nat) as [Hlt|Hge].
    + rewrite (entry_signature e) by (by eapply db_used). rewrite Z.eqb_refl. cbn [negb]. rstep. cbn.
      right. exists i, db, e. split_and!; auto. done.
    + destruct (db_unused _ Hdb i e He ltac:(lia)) as [Hs _].
      rewrite (proj2 (Z.eqb_neq _ _) Hs). cbn [negb]. rstep. left. do 2 eexists. split; [reflexivity|]. auto.
  - cbn in Hv. rewrite (proj2 (Z.eqb_neq _ _) Hv). cbn [negb]. rstep. left.
    do 2 eexists. split; [reflexivity|]. auto.
Qed.

(** Both outcomes of an installation, as its callers use them. *)
Lemma install_protocol_spec db h g x : db_ok db -> valid_handle h ->
  exists st h' db', install_protocol db h g x = Done ((st, h'), db') /\ db_ok db' /\
    ((st = Status.SUCCESS /\ exists i, h' = Entry i /\ (h = Entry i \/ h = Null) /\
        iface db i g = None /\ iface db' i g = Some x /\
        forall k g', (k, g') <> (i, g) -> iface db' k g' = iface db k g') \/
     (st <> Status.SUCCESS /\ h' = Null /\ forall k g', iface db' k g' = iface db k g')).
Proof.
  intros Hdb Hv. unfold install_protocol.
  destruct (handle_or_new_spec db h Hdb Hv) as [(st & db' & -> & -> & Hst)|(i & db1 & e & -> & Hh & Hok & Hi & He & Hz & Hif)]; rstep.
  { assert (Hne : Status.eqb st Status.SUCCESS = false) by (by destruct Hst as [->| ->]).
    rewrite Hne. do 3 eexists. split; [reflexivity|]. split; [done|]. right. split_and!; [|done|done].
    intros ->. done. }
  cbn [negb Status.eqb Status.value Status.SUCCESS Z.eqb deref]. rstep.
  unfold entry at 1, index at 1. rewrite He; cbn [unwrap]; rstep.
  pose proof (db_used _ Hok _ _ He Hi) as [Hs Hle Hlen]. unfold assert_. rewrite Hs, Z.eqb_refl; rstep.
  rewrite (get_protocol_spec db1 Hok i g e Hi He); rstep.
  assert (Hifi : iface db i g = find_interface g (protocols e)).
  { rewrite <- Hif. unfold iface. rewrite decide_True by done. by rewrite He. }
  destruct (find_guid g (protocols e)) as [k|] eqn:Ek; cbn [Status.eqb Status.value Status.SUCCESS Status.NOT_FOUND].
  { cbn. do 3 eexists. split; [reflexivity|]. split; [done|]. right. split_and!; [done|done|done]. }
  assert (Hnone : iface db i g = None).
  { rewrite Hifi. unfold find_interface. by rewrite Ek. }
  cbn -[get_new_protocol]. destruct (decide (protocol_count e < MAX_PROTOCOL_STRUCT)%nat) as [Hlt|Hge].
  - destruct (append_protocol db1 i e (mkPS g x) Hok Hi He Hlt) as (db2 & db3 & -> & Hw & Happ).
    cbn -[write_protocol]. rewrite Hw. cbn. do 3 eexists. split; [reflexivity|]. split; [apply Happ|].
    left. split; [done|]. exists i. split_and!; [done | done | done | |].
    + rewrite (appended_iface _ _ _ _ _ _ _ Hok Hi He Happ), Hif, Hnone. cbn. by rewrite decide_True.
    + intros k g' Hne. rewrite (appended_iface _ _ _ _ _ _ _ Hok Hi He Happ), Hif. cbn.
      destruct (iface db k g'); [done|]. rewrite decide_False; [done|]. intros [-> ->]. done.
  - unfold get_new_protocol, entry, index. rewrite He; cbn [unwrap]; rstep.
    rewrite (proj2 (Nat.leb_le _ _)) by lia. cbn. do 3 eexists. split; [reflexivity|]. split; [done|].
    right. by split_and!.
Qed.

(** Installing on a handle that has room and not yet the GUID succeeds. *)
Lemma install_succeeds db h db1 i e g x : db_ok db1 ->
  handle_or_new db h = Done ((Status.SUCCESS, Entry i), db1) ->
  (i < protocol_handle_count db1)%nat -> protocol_handle db1 !! i = Some e ->
  (protocol_count e < MAX_PROTOCOL_STRUCT)%nat -> find_guid g (protocols e) = None ->
  exists db', install_protocol db h g x = Done ((Status.SUCCESS, Entry i), db') /\ appended db1 db' i e (mkPS g x).
Proof.
  intros Hok Hh Hi He Hlt Hg. unfold install_protocol. rewrite Hh. rstep. status_step. cbn [deref]. rstep.
  unfold entry at 1, index at 1. rewrite He; cbn [unwrap]; rstep.
  pose proof (db_used _ Hok _ _ He Hi) as [Hs _ _]. unfold assert_. rewrite Hs, Z.eqb_refl; rstep.
  rewrite (get_protocol_spec db1 Hok i g e Hi He), Hg; rstep. status_step.
  destruct (append_protocol db1 i e (mkPS g x) Hok Hi He Hlt) as (db2 & db3 & -> & Hw & Happ). rstep. status_step.
  rewrite Hw. rstep. eauto.
Qed.

(** A fresh handle, and a handle in use. *)
Lemma install_new db g x : db_ok db -> (protocol_handle_count db < MAX_HANDLE_STRUCT)%nat ->
  exists db', install_protocol db Null g x = Done ((Status.SUCCESS, Entry (protocol_handle_count db)), db') /\
    db_ok db' /\ protocol_handle_count db' = S (protocol_handle_count db) /\
    (exists e, protocol_handle db' !! protocol_handle_count db = Some e /\ protocols e = [mkPS g x] /\
       protocol_count e = 1%nat) /\
    forall k, k <> protocol_handle_count db ->
      protocol_handle db' !! k = protocol_handle db !! k /\ forall g', iface db' k g' = iface db k g'.
Proof.
  intros Hdb Hc.
  destruct (get_new_handle_spec db Hdb) as [(? & _)|(_ & db1 & E & Hok & Hc1 & (e & He & Hz & Hoth) & Hif)]; [lia|].
  assert (Hp : protocols e = []) by (unfold protocols; by rewrite Hz).
  destruct (install_succeeds db Null db1 (protocol_handle_count db) e g x) as (db' & Ei & Happ); try done.
  { lia. } { rewrite Hz. unfold MAX_PROTOCOL_STRUCT. lia. } { by rewrite Hp. }
  exists db'. split; [done|]. pose proof Happ as (Hok' & Hc' & (e' & He' & Hp' & Hn') & Hk').
  split_and!; [done|lia|exists e'; rewrite Hp', Hp, Hn', Hz; done|].
  intros k Hk. split; [by rewrite Hk', Hoth|]. intros g'. assert (Hlt : (protocol_handle_count db < protocol_handle_count db1)%nat) by lia.
  rewrite (appended_iface _ _ _ _ _ _ _ Hok Hlt He Happ), Hif.
  destruct (iface db k g'); [done|]. by rewrite decide_False by naive_solver.
Qed.

Lemma install_more db i e g x : db_ok db -> (i < protocol_handle_count db)%nat ->
  protocol_handle db !! i = Some e -> (protocol_count e < MAX_PROTOCOL_STRUCT)%nat ->
  find_guid g (protocols e) = None ->
  exists db', install_protocol db (Entry i) g x = Done ((Status.SUCCESS, Entry i), db') /\
    appended db db' i e (mkPS g x).
Proof.
  intros Hdb Hi He Hlt Hg. apply (install_succeeds db (Entry i) db i e); try done.
  unfold handle_or_new. cbn [get_handle]. unfold entry, index. rewrite He. cbn [unwrap]. rstep.
  rewrite (entry_signature e) by (by eapply db_used). rewrite Z.eqb_refl. cbn [negb]. rstep. by status_step.
Qed.

(** ** Properties *)

(** C25: [install_protocol] is all or nothing: on a well-formed database and
    any handle but a forged one it returns; on SUCCESS the handle has the new
    interface for the GUID and nothing else changed; on an error (the GUID is
    already there, a table is full, or the handle is invalid) no interface of
    any handle changed. *)
Theorem install_protocol_correct db h g x : db_ok db -> valid_handle h ->
  exists st h' db', install_protocol db h g x = Done ((st, h'), db') /\ db_ok db' /\
    ((st = Status.SUCCESS /\ exists i, h' = Entry i /\ (h = Entry i \/ h = Null) /\
        iface db i g = None /\ iface db' i g = Some x /\
        forall k g', (k, g') <> (i, g) -> iface db' k g' = iface db k g') \/
     (st <> Status.SUCCESS /\ h' = Null /\ forall k g', iface db' k g' = iface db k g')).
Proof. apply install_protocol_spec. Qed.

Lemma new_db_ok : db_ok HandleDatabase.new.
Proof.
  split; [by cbn | cbn; lia | cbn; lia |].
  intros i e [-> _]%lookup_replicate _. by split.
Qed.

Definition demo_guid : Guid.t := Guid.from_fields 0x964e5b21 0x6459 0x11d2 0x8e 0x39 [0; 0xa0; 0xc9; 0x69; 0x72; 0x3b].

Lemma install_protocol_correct_witness : exists db',
  install_protocol HandleDatabase.new Null demo_guid 0x5000 = Done ((Status.SUCCESS, Entry 0), db') /\
  db_ok db'.
Proof.
  destruct (install_protocol_correct HandleDatabase.new Null demo_guid 0x5000 new_db_ok I)
    as (st & h' & db' & E & Hok & _).
  exists db'. split; [|exact Hok]. rewrite E.
  assert (R : match install_protocol HandleDatabase.new Null demo_guid 0x5000 with
              | Done ((st, h), _) => bool_decide (st = Status.SUCCESS /\ h = Entry 0)
              | _ => false end = true) by (vm_compute; reflexivity).
  rewrite E in R. apply bool_decide_eq_true in R as [-> ->]. reflexivity.
Defined.

(** C26: The lookups agree with the abstract view: [handle_protocol] returns
    the interface an entry has for the GUID (NOT_FOUND without one,
    INVALID_PARAMETER for an unused entry); [locate_protocol] that of the first
    handle that has one; [locate_handle] writes exactly the handles that have
    the GUID, in order, when the buffer holds 8 bytes for each. *)
Theorem handle_lookups_correct db g size w : db_ok db ->
  let hs := filter (fun i => is_Some (iface db i g)) (seq 0 (protocol_handle_count db)) in
  (forall i, (i < MAX_HANDLE_STRUCT)%nat ->
     handle_protocol w db (Entry i) g =
     Done (if decide (i < protocol_handle_count db)%nat then
             match iface db i g with
             | Some x => (Status.SUCCESS, x)
             | None => (Status.NOT_FOUND, 0)
             end
           else (Status.INVALID_PARAMETER, 0))) /\
  locate_protocol db g =
    Done (match head hs ≫= (fun i => iface db i g) with
          | Some x => (Status.SUCCESS, x)
          | None => (Status.NOT_FOUND, 0)
          end) /\
  locate_handle db g size =
    Done (match hs with
          | [] => (Status.NOT_FOUND, 0, [])
          | _ => if size <? Z.of_nat (length hs * 8)
                 then (Status.BUFFER_TOO_SMALL, Z.of_nat (length hs * 8), [])
                 else (Status.SUCCESS, Z.of_nat (length hs * 8), Entry <$> hs)
          end).
Proof.
  intros Hdb hs.
  split_and!.
  - intros i Hi. apply handle_protocol_spec; [done|]. by rewrite (db_len _ Hdb).
  - by apply locate_from_spec.
  - by apply locate_handle_spec.
Qed.

(** Two handles, the second with the block-I/O protocol. *)
Definition demo_db : HandleDatabase.t := Eval vm_compute in
  match install_protocol HandleDatabase.new Null zero_guid 1 with
  | Done (_, db) =>
      match install_protocol db Null demo_guid 0x5000 with
      | Done (_, db) => db
      | _ => HandleDatabase.new
      end
  | _ => HandleDatabase.new
  end.

Lemma demo_db_ok : db_ok demo_db.
Proof.
  split; [reflexivity | apply Nat.leb_le; reflexivity | |].
  - intros [|[|i]] e He Hi; [injection He as <-; by split; [|apply Nat.leb_le|]..|].
    apply Nat.ltb_lt in Hi. done.
  - intros [|[|i]] e He Hi; [by apply Nat.leb_le in Hi..|].
    change (protocol_handle demo_db !! S (S i)) with (replicate 30 default_handle !! i) in He.
    apply lookup_replicate in He as [-> _]. by split.
Qed.

Lemma handle_lookups_correct_witness :
  locate_handle demo_db demo_guid 8 = Done (Status.SUCCESS, 8, [Entry 1]) /\
  locate_protocol demo_db demo_guid = Done (Status.SUCCESS, 0x5000).
Proof.
  destruct (handle_lookups_correct demo_db demo_guid 8 0 demo_db_ok) as (_ & H2 & H3).
  split; [rewrite H3 | rewrite H2]; vm_compute; reflexivity.
Defined.

(** ** Installing several protocols at once *)

Definition pair_protocols (l : list (Guid.t * Z)) : list ProtocolStruct :=
  map (fun p => mkPS p.1 p.2) l.

(** Entry [i] of [db'] has the protocols [ps] more than in [db]. *)
Definition extended (db db' : HandleDatabase.t) (i : nat) (e : ProtocolHandle)
    (ps : list ProtocolStruct) : Prop :=
  db_ok db' /\ protocol_handle_count db' = protocol_handle_count db /\
  (exists e', protocol_handle db' !! i = Some e' /\ protocols e' = protocols e ++ ps) /\
  (forall k, k <> i -> protocol_handle db' !! k = protocol_handle db !! k).

Lemma install_pairs_spec db i e pair k n : db_ok db -> (i < protocol_handle_count db)%nat ->
  protocol_handle db !! i = Some e -> (protocol_count e + n <= MAX_PROTOCOL_STRUCT)%nat ->
  (k + n <= length pair)%nat ->
  exists db', install_pairs db i pair k n = Done db' /\
    extended db db' i e (pair_protocols (take n (drop k pair))).
Proof.
  revert db e k. induction n as [|n IH]; intros db e k Hdb Hi He Hc Hk; cbn [install_pairs].
  { exists db. split; [done|]. unfold extended. cbn. split_and!; auto. exists e. by rewrite app_nil_r. }
  destruct (lookup_lt_is_Some_2 pair k) as [[g x] Hp]; [lia|].
  destruct (append_protocol db i e (mkPS g x) Hdb Hi He) as (db1 & db2 & -> & Hw & Happ); [lia|].
  status_step. unfold assert_; rstep. unfold index. rewrite Hp; cbn [unwrap]; rstep. cbn [fst snd].
  rewrite Hw; rstep. destruct Happ as (Hok & Hcnt & (e' & He' & Hps & Hpc) & Hother).
  destruct (IH db2 e' (S k)) as (db3 & -> & Hok3 & Hcnt3 & (e3 & He3 & Hps3) & Hother3);
    [done | lia | done | lia | lia |].
  exists db3. split; [done|]. unfold extended. split_and!; [done | congruence | | ].
  - exists e3. split; [done|]. rewrite Hps3, Hps, <- app_assoc. rewrite (drop_S pair (g, x) k Hp). done.
  - intros j Hj. rewrite Hother3, Hother by done. done.
Qed.

Lemma find_interface_app_r g l1 l2 : find_interface g (l1 ++ l2) =
  match find_interface g l1 with Some x => Some x | None => find_interface g l2 end.
Proof.
  induction l2 as [|p l2 IH] using rev_ind.
  - rewrite app_nil_r. by destruct (find_interface g l1).
  - rewrite app_assoc, !find_interface_app, IH. by destruct (find_interface g l1).
Qed.

Lemma extended_iface db db' i e ps k g : (i < protocol_handle_count db)%nat ->
  protocol_handle db !! i = Some e -> extended db db' i e ps ->
  iface db' k g =
  match iface db k g with
  | Some x => Some x
  | None => if decide (k = i) then find_interface g ps else None
  end.
Proof.
  intros Hi He (_ & Hc & (e' & He' & Hp) & Hother). unfold iface. rewrite Hc.
  destruct (decide (k = i)) as [->|Hne].
  - rewrite !decide_True by done. rewrite He, He'. cbn. by rewrite Hp, find_interface_app_r.
  - rewrite Hother by done. by destruct (if decide _ then _ else _).
Qed.

Lemma any_installed_spec db i pair k n : db_ok db -> (i < protocol_handle_count db)%nat ->
  (k + n <= length pair)%nat ->
  any_installed db i pair k n =
  Done (existsb (fun p => bool_decide (is_Some (iface db i p.1))) (take n (drop k pair))).
Proof.
  intros Hdb Hi. destruct (used_entry db Hdb i Hi) as (e & He & _).
  revert k. induction n as [|n IH]; intros k Hk; cbn [any_installed]; [done|].
  destruct (lookup_lt_is_Some_2 pair k) as [p Hp]; [lia|]. unfold index. rewrite Hp; cbn [unwrap]; rstep.
  rewrite (get_protocol_spec db Hdb i _ e Hi He); rstep. rewrite (drop_S _ p) by done. cbn [take existsb].
  assert (Hif : iface db i p.1 = find_interface p.1 (protocols e)).
  { unfold iface. rewrite decide_True by done. by rewrite He. }
  pose proof (find_interface_guid p.1 (protocols e)) as Hiff. rewrite <- Hif in Hiff.
  destruct (find_guid p.1 (protocols e)) as [j|]; status_step.
  - rewrite bool_decide_eq_true_2 by (apply Hiff; eauto). done.
  - rewrite bool_decide_eq_false_2 by (rewrite Hiff; by intros [? [=]]). rewrite IH by lia. done.
Qed.

Lemma install_on_spec db db1 i e count pair : db_ok db1 -> (i < protocol_handle_count db1)%nat ->
  protocol_handle db1 !! i = Some e -> (protocol_count e + count <= MAX_PROTOCOL_STRUCT)%nat ->
  (count <= length pair)%nat -> (forall k g, iface db1 k g = iface db k g) ->
  exists db', install_on db1 (Entry i) count pair = Done ((Status.SUCCESS, Entry i), db') /\
    db_ok db' /\
    forall k g, iface db' k g =
      match iface db k g with
      | Some x => Some x
      | None => if decide (k = i) then find_interface g (pair_protocols (take count pair)) else None
      end.
Proof.
  intros Hok Hi He Hc Hlen Hif. unfold install_on. cbn [deref]; rstep. rewrite (entry_Done _ _ _ He); rstep. rewrite (entry_signature e) by (by eapply db_used).
  rewrite Z.eqb_refl. unfold assert_; rstep.
  destruct (install_pairs_spec db1 i e pair 0 count Hok Hi He Hc) as (db' & -> & Hext); [lia|].
  rstep. exists db'. split_and!; [done | apply Hext |]. intros k g.
  by rewrite (extended_iface _ _ _ _ _ k g Hi He Hext), Hif, drop_0.
Qed.

(** The outcome of installing [pairs] on [h]: all of them (the first of equal
    GUIDs wins) or none. *)
Definition all_or_nothing (db : HandleDatabase.t) (h : Handle) (pairs : list (Guid.t * Z))
    (st : Status.t) (h' : Handle) (db' : HandleDatabase.t) : Prop :=
  (st = Status.SUCCESS /\ exists i, h' = Entry i /\ (h = Entry i \/ h = Null) /\
     Forall (fun p => iface db i p.1 = None) pairs /\
     forall k g, iface db' k g =
       match iface db k g with
       | Some x => Some x
       | None => if decide (k = i) then find_interface g (pair_protocols pairs) else None
       end) \/
  (st <> Status.SUCCESS /\ h' = Null /\ forall k g, iface db' k g = iface db k g).

Lemma install_multiple_spec db h count pair :
  db_ok db -> valid_handle h -> (0 < count <= 8)%nat -> (count <= length pair)%nat ->
  exists st h' db', install_multiple_protocol db h count pair = Done ((st, h'), db') /\ db_ok db' /\
    all_or_nothing db h (take count pair) st h' db'.
Proof.
  intros Hdb Hv Hcnt Hlen. unfold install_multiple_protocol.
  unfold assert_ at 1 2 3. rewrite !(proj2 (Nat.leb_le _ _)), (proj2 (Nat.ltb_lt _ _))
    by (unfold MAX_PROTOCOL_STRUCT; lia). rstep.
  assert (Herr : forall st, st <> Status.SUCCESS -> exists st' h' db'',
    @Done ((Status.t * Handle) * HandleDatabase.t) ((st, Null), db) = Done ((st', h'), db'') /\ db_ok db'' /\
    all_or_nothing db h (take count pair) st' h' db'').
  { intros st Hst. do 3 eexists. split; [reflexivity|]. split; [done|]. right. by split_and!. }
  destruct h as [|i|w]; cbn [get_handle]; cbn in Hv.
  - rstep. status_step.
    destruct (get_new_handle_spec db Hdb) as [(_ & ->)|(_ & db1 & -> & Hok & Hc1 & (e & He & Hz & Hoth) & Hif)];
      status_step; [by apply Herr|].
    destruct (install_on_spec db db1 (protocol_handle_count db) e count pair Hok)
      as (db' & -> & Hok' & Hif'); [lia | done | unfold MAX_PROTOCOL_STRUCT; lia | done | done |].
    do 3 eexists. split; [reflexivity|]. split; [done|]. left. split; [done|].
    exists (protocol_handle_count db). split_and!; auto.
    apply Forall_forall. intros p _. unfold iface. by rewrite decide_False by lia.
  - destruct (lookup_lt_is_Some_2 (protocol_handle db) i) as [e He]; [by rewrite (db_len _ Hdb)|].
    rewrite (entry_Done _ _ _ He); rstep.
    destruct (decide (i < protocol_handle_count db)%nat) as [Hlt|Hge].
    2:{ destruct (db_unused _ Hdb i e He ltac:(lia)) as [Hs _].
        rewrite (proj2 (Z.eqb_neq _ _) Hs). cbn [negb]; rstep. status_step. by apply Herr. }
    rewrite (entry_signature e) by (by eapply db_used). rewrite Z.eqb_refl. cbn [negb]; rstep. status_step.
    cbn [deref]; rstep. rewrite (entry_Done _ _ _ He); rstep.
    rewrite (entry_signature e), Z.eqb_refl by (by eapply db_used). unfold assert_ at 1; rstep.
    destruct (Nat.ltb_spec (MAX_PROTOCOL_STRUCT - count) (protocol_count e)) as [Hfull|Hroom]; [by apply Herr|].
    rewrite any_installed_spec by (try done; lia). rstep. rewrite drop_0.
    destruct (existsb _ _) eqn:Ex; [by apply Herr|].
    destruct (install_on_spec db db i e count pair Hdb Hlt He) as (db' & -> & Hok' & Hif');
      [unfold MAX_PROTOCOL_STRUCT in *; lia | done | done |].
    do 3 eexists. split; [reflexivity|]. split; [done|]. left. split; [done|].
    exists i. split_and!; auto. apply Forall_forall. intros p Hp.
    destruct (iface db i p.1) as [x|] eqn:Ep; [|done]. exfalso.
    assert (existsb (fun p => bool_decide (is_Some (iface db i p.1))) (take count pair) = true); [|congruence].
    apply existsb_exists. exists p. split; [by apply list_elem_of_In|]. rewrite Ep. by apply bool_decide_eq_true_2.
  - rewrite (proj2 (Z.eqb_neq _ _) Hv). cbn [negb]; rstep. status_step. by apply Herr.
Qed.

(** [install_multiple_protocol] installs all of its 1 to 8 pairs or none:
    it returns; on SUCCESS every pair's GUID was absent from the handle, each is
    now found (the first of equal GUIDs wins) and nothing else changed; on an
    error no interface of any handle changed. *)
Theorem install_multiple_all_or_nothing db h count pair :
  db_ok db -> valid_handle h -> (0 < count <= 8)%nat -> (count <= length pair)%nat ->
  exists st h' db', install_multiple_protocol db h count pair = Done ((st, h'), db') /\ db_ok db' /\
    all_or_nothing db h (take count pair) st h' db'.
Proof. apply install_multiple_spec. Qed.

Lemma install_multiple_all_or_nothing_witness : exists db',
  install_multiple_protocol demo_db (Entry 0) 2 [(demo_guid, 7); (zero_guid, 8)] =
    Done ((Status.INVALID_PARAMETER, Null), db') /\ db_ok db'.
Proof.
  destruct (install_multiple_all_or_nothing demo_db (Entry 0) 2 [(demo_guid, 7); (zero_guid, 8)]
    demo_db_ok) as (st & h' & db' & E & Hok & _); [cbn; unfold MAX_HANDLE_STRUCT; lia | lia | cbn; lia |].
  exists db'. split; [|exact Hok]. rewrite E.
  assert (R : match install_multiple_protocol demo_db (Entry 0) 2 [(demo_guid, 7); (zero_guid, 8)] with
              | Done ((st, h), _) => bool_decide (st = Status.INVALID_PARAMETER /\ h = Null)
              | _ => false end = true) by (vm_compute; reflexivity).
  rewrite E in R. apply bool_decide_eq_true in R as [-> ->]. reflexivity.
Defined.
