(* ===== verification/Console.v ===== *)
(** * Console and logger (src/efi/conout.rs, src/efi/conin.rs, src/logger.rs)

    The serial port is the list of the bytes written to it so far.  A UTF-16
    message behind a pointer is the function from index to code unit; the loops
    over it run on fuel and stop at the first unit whose low byte is zero, as
    the code does.  The [stdin_*] and [stdout_*] entry points of
    src/efi/mod.rs are modelled with them. *)

From S2P Require Import Prelude REfi.

(** ** Text output *)
Module ConOut.

(** [r_efi::protocols::simple_text_output::Mode] *)
Record Mode := mkMode {
  max_mode : Z;
  mode : Z;
  attribute : Z;
  cursor_column : Z;
  cursor_row : Z
}.

Definition OUTPUT_ESC : bool := false.
Definition CHAR_BACKSPACE : Z := 0x08.
Definition CHAR_LINEFEED : Z := 0x0a.
Definition CHAR_CARRIAGE_RETURN : Z := 0x0d.
Definition ESC : Z := 0x1b.
Definition BRIGHT_CONTROL_OFFSET : nat := 2.
Definition FOREGROUND_CONTROL_OFFSET : nat := 6.
Definition BACKGROUND_CONTROL_OFFSET : nat := 11.
Definition ROW_OFFSET : nat := 2.
Definition COLUMN_OFFSET : nat := 5.

(** [ConOut] with the mode it points to, the escape-sequence buffers (mutable
    statics of the file) and the port. *)
Record t := mk {
  port : list Z;
  mode_ptr : Mode;
  set_attribute_string : list Z;
  set_cursor_position_string : list Z
}.

(** ['\['] is 0x5b, ['0'] 0x30, ['4'] 0x34, ['m'] 0x6d, [';'] 0x3b, ['H'] 0x48,
    ['2'] 0x32, ['J'] 0x4a, ['='] 0x3d, ['3'] 0x33, ['h'] 0x68. *)
Definition SET_MODE_STRING : list Z := [ESC; 0x5b; 0x3d; 0x33; 0x68; 0].
Definition SET_ATTRIBUTE_STRING : list Z :=
  [ESC; 0x5b; 0x30; 0x6d; ESC; 0x5b; 0x34; 0x30; 0x6d; ESC; 0x5b; 0x34; 0x30; 0x6d; 0].
Definition CLEAR_SCREEN_STRING : list Z := [ESC; 0x5b; 0x32; 0x4a; 0].
Definition SET_CURSOR_POSITION_STRING : list Z :=
  [ESC; 0x5b; 0x30; 0x30; 0x3b; 0x30; 0x30; 0x48; 0].

Definition STDOUT_MODE : Mode := mkMode 1 0 0 0 0.

Definition new : t := mk [] STDOUT_MODE SET_ATTRIBUTE_STRING SET_CURSOR_POSITION_STRING.

Definition write_byte (s : t) (byte : Z) : t :=
  mk (port s ++ [byte]) (mode_ptr s) (set_attribute_string s) (set_cursor_position_string s).

(** [write_string] of the characters' code points. *)
Fixpoint write_string (s : t) (cs : list Z) : t :=
  match cs with
  | [] => s
  | c :: cs => write_string (write_byte s (u8 c)) cs
  end.

Definition set_cursor (col row : Z) (m : Mode) : Mode :=
  mkMode (max_mode m) (mode m) (attribute m) col row.
Definition with_mode (s : t) (m : Mode) : t :=
  mk (port s) m (set_attribute_string s) (set_cursor_position_string s).

Definition max_column : Z := 80.
Definition max_row_of (m : Mode) : Z := if mode m =? 1 then 50 else 25.

(** Lines 103-127: the cursor after one byte. *)
Definition advance (max_row output : Z) (m : Mode) : Mode :=
  let col := cursor_column m in
  let row := cursor_row m in
  if output =? CHAR_BACKSPACE then
    if 0 <? col then set_cursor (col - 1) row m else m
  else if output =? CHAR_LINEFEED then
    if row <? max_row - 1 then set_cursor col (row + 1) m else m
  else if output =? CHAR_CARRIAGE_RETURN then set_cursor 0 row m
  else if col <? max_column - 1 then set_cursor (col + 1) row m
  else if row <? max_row - 1 then set_cursor 0 (row + 1) m
  else set_cursor 0 row m.

Fixpoint output_loop (fuel : nat) (s : t) (max_row : Z) (message : nat -> Z) (i : nat) : res t :=
  match fuel with
  | O => OutOfFuel
  | S fuel =>
      let output := Z.land (message i) 0xff in
      if output =? 0 then Done s
      else
        let s := write_byte s output in
        output_loop fuel (with_mode s (advance max_row output (mode_ptr s))) max_row message (S i)
  end.

Definition output_string (fuel : nat) (s : t) (message : nat -> Z) : res t :=
  output_loop fuel s (max_row_of (mode_ptr s)) message 0.

(** A static escape buffer as a message. *)
Definition buffer (l : list Z) (i : nat) : Z := nth i l 0.
Definition output_esc (s : t) (l : list Z) : res t :=
  if OUTPUT_ESC then output_string (S (length l)) s (buffer l) else Done s.

Definition digit (n : Z) : Z := u16 (0x30 + n).

Definition set_cursor_position (s : t) (column row : Z) : res t :=
  let str := set_cursor_position_string s in
  str ← update str (ROW_OFFSET + 0) (digit (usize (row + 1) / 10));
  str ← update str (ROW_OFFSET + 1) (digit (usize (row + 1) mod 10));
  str ← update str (COLUMN_OFFSET + 0) (digit (usize (column + 1) / 10));
  str ← update str (COLUMN_OFFSET + 1) (digit (usize (column + 1) mod 10));
  s ← output_esc (mk (port s) (mode_ptr s) (set_attribute_string s) str) str;
  let s := with_mode s (set_cursor (i32 column) (i32 row) (mode_ptr s)) in
  Done (if column =? 0 then write_byte s 0x0d else s).

(** The ANSI colour of an EFI colour, on top of [base] (30 or 40). *)
Definition ansi_color (base efi : Z) : Z :=
  base +
  match efi with
  | 0 => 0 | 1 => 4 | 2 => 2 | 3 => 6 | 4 => 1 | 5 => 5 | 6 => 3 | _ => 7
  end.

Definition set_attribute (s : t) (attr : Z) : res t :=
  if negb (Z.lor attr 0x7f =? 0x7f) then Done s
  else if attribute (mode_ptr s) =? i32 attr then Done s
  else
    let saved_column := cursor_column (mode_ptr s) in
    let saved_row := cursor_row (mode_ptr s) in
    let foreground_control := ansi_color 30 (u8 (Z.land attr 0x7)) in
    let bright_control := Z.land (Z.shiftr attr 3) 1 in
    let background_control := ansi_color 40 (u8 (Z.land (Z.shiftr attr 4) 0x7)) in
    let str := set_attribute_string s in
    str ← update str BRIGHT_CONTROL_OFFSET (digit bright_control);
    str ← update str (FOREGROUND_CONTROL_OFFSET + 0) (digit (foreground_control / 10));
    str ← update str (FOREGROUND_CONTROL_OFFSET + 1) (digit (foreground_control mod 10));
    str ← update str (BACKGROUND_CONTROL_OFFSET + 0) (digit (background_control / 10));
    str ← update str (BACKGROUND_CONTROL_OFFSET + 1) (digit (background_control mod 10));
    s ← output_esc (mk (port s) (mode_ptr s) str (set_cursor_position_string s)) str;
    let m := mode_ptr s in
    Done (with_mode s (mkMode (max_mode m) (mode m) (i32 attr) saved_column saved_row)).

Definition clear_screen (s : t) : res t :=
  s ← output_esc s CLEAR_SCREEN_STRING;
  set_cursor_position s 0 0.

Definition set_mode_field (n : Z) (s : t) : t :=
  let m := mode_ptr s in
  with_mode s (mkMode (max_mode m) n (attribute m) (cursor_column m) (cursor_row m)).

Definition set_mode (s : t) (mode_number : Z) : res (Status.t * t) :=
  if max_mode (mode_ptr s) <? i32 mode_number then Done (Status.UNSUPPORTED, s)
  else
    s ← clear_screen (set_mode_field (i32 mode_number) s);
    s ← output_esc s SET_MODE_STRING;
    s ← clear_screen (set_mode_field (i32 mode_number) s);
    Done (Status.SUCCESS, s).

(** ** The protocol entry points of src/efi/mod.rs *)

Definition stdout_reset (s : t) : Status.t * t := (Status.SUCCESS, s).
Definition stdout_output_string (fuel : nat) (s : t) (message : nat -> Z) : res (Status.t * t) :=
  s ← output_string fuel s message; Done (Status.SUCCESS, s).
Definition stdout_test_string (s : t) : Status.t * t := (Status.SUCCESS, s).

(** [stdout_query_mode]: the columns and rows written through the pointers;
    [None] for a null pointer. *)
Definition stdout_query_mode (mode_number : Z) (columns rows : option Z)
    : Status.t * option Z * option Z :=
  match columns, rows with
  | Some _, Some _ =>
      if mode_number =? 0 then (Status.SUCCESS, Some 80, Some 25)
      else if mode_number =? 1 then (Status.SUCCESS, Some 80, Some 50)
      else (Status.UNSUPPORTED, columns, rows)
  | _, _ => (Status.INVALID_PARAMETER, columns, rows)
  end.

Definition stdout_set_mode (s : t) (mode_number : Z) : res (Status.t * t) := set_mode s mode_number.
Definition stdout_set_attribute (s : t) (attr : Z) : res (Status.t * t) :=
  s ← set_attribute s attr; Done (Status.SUCCESS, s).
Definition stdout_clear_screen (s : t) : res (Status.t * t) :=
  s ← clear_screen s; Done (Status.SUCCESS, s).
Definition stdout_set_cursor_position (s : t) (column row : Z) : res (Status.t * t) :=
  s ← set_cursor_position s column row; Done (Status.SUCCESS, s).
Definition stdout_enable_cursor (s : t) (visible : bool) : Status.t * t := (Status.SUCCESS, s).

End ConOut.

(** ** Text input *)
Module ConIn.
Definition LSR_RXDA : Z := 0x01.
Definition LSR_OFFSET : Z := 0x05.

(** The line status and data registers as they read at the moment of the call. *)
Record t := mk { port : Z; lsr_port : Z }.

Definition read_byte (s : t) : Z :=
  if Z.land (lsr_port s) LSR_RXDA =? 0 then 0 else port s.

(** [InputKey] and the key state of [KeyData]. *)
Record InputKey := mkKey { scan_code : Z; unicode_char : Z }.
Record KeyData := mkKeyData { key : InputKey; key_shift_state : Z; key_toggle_state : Z }.

Definition stdin_reset : Status.t := Status.SUCCESS.
Definition stdin_read_key_stroke (s : t) : Status.t * InputKey :=
  let byte := read_byte s in
  if byte =? 0 then (Status.NOT_READY, mkKey 0 0) else (Status.SUCCESS, mkKey 0 byte).
Definition stdin_reset_ex : Status.t := Status.SUCCESS.
Definition stdin_read_key_stroke_ex (s : t) : Status.t * KeyData :=
  let byte := read_byte s in
  if byte =? 0 then (Status.NOT_READY, mkKeyData (mkKey 0 0) 0 0)
  else (Status.SUCCESS, mkKeyData (mkKey 0 byte) 0 0).
Definition stdin_set_state : Status.t := Status.UNSUPPORTED.
Definition stdin_register_key_notify : Status.t := Status.SUCCESS.
Definition stdin_unregister_key_notify : Status.t := Status.UNSUPPORTED.
End ConIn.

(** ** Logger *)
Module Logger.
Definition LOG_LEVEL_VERBOSE : Z := 1000.
Definition LOG_LEVEL_INFO : Z := 100.
Definition LOG_LEVEL_WARN : Z := 10.
Definition LOG_LEVEL_ERROR : Z := 1.
Definition LOG_LEVEL_NONE : Z := 0.
Definition LOG_MASK_COMMON : Z := 0x1.
Definition LOG_MASK_ALL : Z := 0xFFFFFFFFFFFFFFFF.

Record t := mk { port : list Z; level : Z; mask : Z }.
Definition new : t := mk [] LOG_LEVEL_VERBOSE LOG_MASK_ALL.

Definition write_byte (s : t) (byte : Z) : t :=
  mk (port s ++ (if byte =? 0x0a then [0x0d; byte] else [byte])) (level s) (mask s).

Fixpoint write_string (s : t) (cs : list Z) : t :=
  match cs with
  | [] => s
  | c :: cs => write_string (write_byte s (u8 c)) cs
  end.

Definition get_level (s : t) : Z := level s.
Definition set_level (s : t) (l : Z) : t := mk (port s) l (mask s).
Definition get_mask (s : t) : Z := mask s.
Definition set_mask (s : t) (m : Z) : t := mk (port s) (level s) m.

(** [_log] and [_log_ex] of a formatted text. *)
Definition log_ (s : t) (text : list Z) : t := write_string s text.
Definition log_ex_ (s : t) (lvl msk : Z) (text : list Z) : t :=
  if get_level s <? lvl then s
  else if Z.land msk (get_mask s) =? 0 then s
  else log_ s text.
End Logger.

Import ConOut.

(** ** Theorems *)

(** The cursor is on the screen of the current mode. *)
Definition on_screen (m : Mode) : Prop :=
  0 <= cursor_column m < max_column /\ 0 <= cursor_row m < max_row_of m.

Lemma advance_on_screen output m : on_screen m ->
  on_screen (advance (max_row_of m) output m) /\
  max_row_of (advance (max_row_of m) output m) = max_row_of m.
Proof.
  intros [Hc Hr]. unfold advance, on_screen, max_column in *.
  repeat match goal with |- context [if ?b then _ else _] =>
    lazymatch b with context [mode] => fail | _ => destruct b eqn:? end end;
  bool_to_prop; cbn [cursor_column cursor_row set_cursor max_row_of mode] in *;
  unfold max_row_of in *; cbn [mode set_cursor] in *; split; try done; lia.
Qed.

(** The low bytes of the code units [i .. i + n). *)
Definition low_bytes (message : nat -> Z) (i n : nat) : list Z :=
  map (fun j => Z.land (message j) 0xff) (seq i n).

Lemma output_loop_spec n fuel s message i :
  on_screen (mode_ptr s) -> (n < fuel)%nat ->
  Forall (fun j => Z.land (message j) 0xff <> 0) (seq i n) ->
  Z.land (message (i + n)%nat) 0xff = 0 ->
  exists s', output_loop fuel s (max_row_of (mode_ptr s)) message i = Done s' /\
    port s' = port s ++ low_bytes message i n /\ on_screen (mode_ptr s') /\
    max_row_of (mode_ptr s') = max_row_of (mode_ptr s).
Proof.
  revert fuel s i. induction n as [|n IH]; intros fuel s i Hs Hf Hnz Hz;
    (destruct fuel as [|fuel]; [lia|]); cbn [output_loop].
  - rewrite Nat.add_0_r in Hz. rewrite Hz. exists s. by rewrite app_nil_r.
  - cbn [seq] in Hnz. apply Forall_cons in Hnz as [Hi Hnz].
    rewrite (proj2 (Z.eqb_neq _ _) Hi). cbn [mode_ptr write_byte].
    set (o := Z.land (message i) 0xff) in *.
    destruct (advance_on_screen o (mode_ptr s) Hs) as [Ha Hrow].
    set (s1 := with_mode _ _). rewrite <- Hrow. change (advance _ _ _) with (mode_ptr s1).
    destruct (IH fuel s1 (S i)) as (s' & -> & Hp & Hon & Hr); [done | lia | done | |].
    { by rewrite Nat.add_succ_comm. }
    exists s'. split; [done|]. split; [|split; [done|]].
    + rewrite Hp. cbn. by rewrite <- app_assoc.
    + exact Hr.
Qed.

(** [output_string] writes to the port exactly the low bytes of the
    message before the first unit whose low byte is zero, returns once its fuel
    exceeds their number, and keeps the cursor inside the 80-column screen of
    the current mode. *)
Theorem output_string_correct fuel s message n :
  on_screen (mode_ptr s) -> (n < fuel)%nat ->
  (forall j, (j < n)%nat -> Z.land (message j) 0xff <> 0) -> Z.land (message n) 0xff = 0 ->
  exists s', output_string fuel s message = Done s' /\
    port s' = port s ++ low_bytes message 0 n /\ on_screen (mode_ptr s').
Proof.
  intros Hs Hf Hnz Hz. destruct (output_loop_spec n fuel s message 0) as (s' & E & Hp & Hon & _); try done.
  - apply Forall_forall. intros j [_ Hj]%elem_of_seq. apply Hnz. lia.
  - exists s'. by split_and!.
Qed.

(** "A\r\n" *)
Lemma output_string_correct_witness : exists s',
  output_string 8 ConOut.new (buffer [0x41; 0x0d; 0x0a; 0]) = Done s' /\
  port s' = [0x41; 0x0d; 0x0a] /\ on_screen (mode_ptr s').
Proof.
  apply (output_string_correct 8 ConOut.new (buffer [0x41; 0x0d; 0x0a; 0]) 3).
  - unfold on_screen; cbn; unfold max_column; lia.
  - lia.
  - intros [|[|[|j]]] Hj; [vm_compute; discriminate.. | lia].
  - reflexivity.
Defined.

Lemma set_cursor_position_spec s column row : length (set_cursor_position_string s) = 9%nat ->
  exists s', set_cursor_position s column row = Done s' /\
    length (set_cursor_position_string s') = 9%nat /\
    set_attribute_string s' = set_attribute_string s /\
    mode_ptr s' = set_cursor (i32 column) (i32 row) (mode_ptr s).
Proof.
  intros H9. unfold set_cursor_position, output_esc, OUTPUT_ESC, ROW_OFFSET, COLUMN_OFFSET.
  rewrite update_lt by lia; rstep.
  do 3 (rewrite update_lt by (rewrite ?length_insert, H9; lia); rstep).
  eexists. split; [reflexivity|]. destruct (column =? 0); cbn; by rewrite !length_insert.
Qed.

(** [set_mode] accepts the two modes the console has and, when it accepts
    one, homes the cursor and stays on the screen of that mode; the escape
    buffers keep their sizes, so no later call can index past them. *)
Theorem set_mode_correct s n :
  length (set_cursor_position_string s) = 9%nat -> length (set_attribute_string s) = 15%nat ->
  max_mode (mode_ptr s) = 1 -> 0 <= n < 2 ^ 31 ->
  exists st s', set_mode s n = Done (st, s') /\
    length (set_cursor_position_string s') = 9%nat /\ length (set_attribute_string s') = 15%nat /\
    ((n <= 1 /\ st = Status.SUCCESS /\ mode (mode_ptr s') = n /\ on_screen (mode_ptr s') /\
      cursor_column (mode_ptr s') = 0 /\ cursor_row (mode_ptr s') = 0) \/
     (1 < n /\ st = Status.UNSUPPORTED /\ s' = s)).
Proof.
  intros H9 H15 Hmax Hn. unfold set_mode. rewrite Hmax.
  assert (Hi : i32 n = n).
  { unfold i32. rewrite wrap_small by mlia. by rewrite (proj2 (Z.ltb_lt _ _)) by lia. }
  rewrite Hi. destruct (Z.ltb_spec 1 n) as [Hgt|Hle].
  { do 2 eexists. split; [reflexivity|]. split_and!; [done|done|]. right. split_and!; [lia|done|done]. }
  unfold clear_screen, output_esc, OUTPUT_ESC; rstep.
  destruct (set_cursor_position_spec (set_mode_field n s) 0 0 H9) as (s1 & -> & L1 & A1 & M1); rstep.
  destruct (set_cursor_position_spec (set_mode_field n s1) 0 0 L1) as (s2 & -> & L2 & A2 & M2); rstep.
  do 2 eexists. split; [reflexivity|]. split_and!; [done | rewrite A2; cbn; by rewrite A1 |].
  left. rewrite M2. cbn. split_and!; try done. unfold on_screen, max_row_of, max_column; cbn.
  destruct (n =? 1); vm_compute; intuition discriminate.
Qed.

Lemma set_mode_correct_witness : exists s',
  set_mode ConOut.new 1 = Done (Status.SUCCESS, s') /\ mode (mode_ptr s') = 1.
Proof.
  destruct (set_mode_correct ConOut.new 1 eq_refl eq_refl eq_refl) as (st & s' & E & _ & _ & H); [lia|].
  destruct H as [(_ & -> & Hm & _)|(H & _)]; [|lia]. exists s'. split; [exact E | exact Hm].
Defined.
