(* ===== verification/DevicePath.v ===== *)
(** * Device paths (src/efi/device_path.rs)

    A device path is a sequence of nodes in memory, each with a type, a
    sub-type and its length, ended by an end node.  The walks of the code run
    on fuel; they end because a path has an end node. *)

From S2P Require Import Prelude REfi Mem.

Module DevicePath.

Definition PROTOCOL_GUID : Guid.t :=
  Guid.from_fields 0x09576e91 0x6d3f 0x11d2 0x8e 0x39 [0x00; 0xa0; 0xc9; 0x69; 0x72; 0x3b].
Definition TYPE_HARDWARE : Z := 0x01.
Definition TYPE_MEDIA : Z := 0x04.
Definition TYPE_END : Z := 0x7f.
Definition SUBTYPE_ENTIRE : Z := 0xff.
Definition SUBTYPE_FILE_PATH : Z := 0x4.

Definition get_device_path_node_size (m : memory) (dp : Z) : Z :=
  Z.lor (load8 m (dp + 2)) (Z.shiftl (load8 m (dp + 3)) 8).
Definition get_device_path_node_type (m : memory) (dp : Z) : Z := load8 m dp.
Definition get_device_path_node_sub_type (m : memory) (dp : Z) : Z := load8 m (dp + 1).

Definition get_next_device_path_node (m : memory) (dp : Z) : Z :=
  usize (dp + get_device_path_node_size m dp).

(** The test for the end of the entire path, written out in each loop. *)
Definition at_end (m : memory) (dp : Z) : bool :=
  (get_device_path_node_type m dp =? TYPE_END) &&
  (get_device_path_node_sub_type m dp =? SUBTYPE_ENTIRE).
Definition at_file_path (m : memory) (dp : Z) : bool :=
  (get_device_path_node_type m dp =? TYPE_MEDIA) &&
  (get_device_path_node_sub_type m dp =? SUBTYPE_FILE_PATH).

Fixpoint size_loop (fuel : nat) (m : memory) (size dp : Z) : res Z :=
  match fuel with
  | O => OutOfFuel
  | S fuel =>
      let node_size := get_device_path_node_size m dp in
      let size := usize (size + node_size) in
      if at_end m dp then Done size
      else size_loop fuel m size (get_next_device_path_node m dp)
  end.

Definition get_device_path_size (fuel : nat) (m : memory) (dp : Z) : res Z :=
  size_loop fuel m 0 dp.

Definition is_device_path_end_type (m : memory) (dp : Z) : bool :=
  get_device_path_node_type m dp =? TYPE_END.
Definition is_device_path_end (m : memory) (dp : Z) : bool :=
  is_device_path_end_type m dp && (get_device_path_node_sub_type m dp =? 0xff).
Definition is_device_path_end_instance (m : memory) (dp : Z) : bool :=
  is_device_path_end_type m dp && (get_device_path_node_sub_type m dp =? 0x01).

(** [compare_device_path]: the loop over [i .. i + n). *)
Fixpoint compare_from (m : memory) (dp1 dp2 i : Z) (n : nat) : bool :=
  match n with
  | O => true
  | S n =>
      if negb (load8 m (usize (dp1 + i)) =? load8 m (usize (dp2 + i))) then false
      else compare_from m dp1 dp2 (i + 1) n
  end.
Definition compare_device_path (m : memory) (dp1 dp2 size : Z) : bool :=
  compare_from m dp1 dp2 0 (Z.to_nat size).

Fixpoint get_file_path_media_device_path (fuel : nat) (m : memory) (dp : Z) : res (option Z) :=
  match fuel with
  | O => OutOfFuel
  | S fuel =>
      if at_end m dp then Done None
      else if at_file_path m dp then Done (Some (usize (dp + 4)))
      else get_file_path_media_device_path fuel m (get_next_device_path_node m dp)
  end.

(** The node is turned into an end node in place, and the walk stops there. *)
Fixpoint drop_file_path_media_device_path (fuel : nat) (m : memory) (dp : Z) : res memory :=
  match fuel with
  | O => OutOfFuel
  | S fuel =>
      if at_end m dp then Done m
      else
        let m := if at_file_path m dp
                 then store8 (store8 m dp TYPE_END) (dp + 1) SUBTYPE_ENTIRE
                 else m in
        if at_end m dp then Done m
        else drop_file_path_media_device_path fuel m (get_next_device_path_node m dp)
  end.

(** [dup_device_path] of src/efi/mod.rs, with the pool allocator it calls; as
    in the code, a failed allocation is not noticed. *)
Definition dup_device_path {A} (allocate_pool : A -> Z -> res ((Status.t * Z) * A))
    (fuel : nat) (al : A) (m : memory) (dp : Z) : res (Z * A * memory) :=
  size ← get_device_path_size fuel m dp;
  '((status, address), al) ← allocate_pool al size;
  let buffer := if Status.eqb status Status.SUCCESS then address else 0 in
  Done (buffer, al, copy_bytes m dp buffer (Z.to_nat size)).

End DevicePath.

Import DevicePath.

(** ** Well-formed paths *)

Record Node := mkNode { ntype : Z; nsub : Z; nsize : Z }.

Definition node_at (m : memory) (a : Z) (n : Node) : Prop :=
  get_device_path_node_type m a = ntype n /\ get_device_path_node_sub_type m a = nsub n /\
  get_device_path_node_size m a = nsize n /\ 4 <= nsize n.

Definition is_end (n : Node) : bool := (ntype n =? TYPE_END) && (nsub n =? SUBTYPE_ENTIRE).
Definition is_file_path (n : Node) : bool := (ntype n =? TYPE_MEDIA) && (nsub n =? SUBTYPE_FILE_PATH).

Definition path_length (ns : list Node) : Z := foldr (fun n acc => nsize n + acc) 0 ns.

(** [ns] are the nodes at [a] before the end node [e], in the address space. *)
Fixpoint path_at (m : memory) (a : Z) (ns : list Node) (e : Node) : Prop :=
  match ns with
  | [] => node_at m a e /\ is_end e = true /\ 0 <= a /\ a + nsize e < 2 ^ 64
  | n :: ns => node_at m a n /\ is_end n = false /\ 0 <= a /\ path_at m (a + nsize n) ns e
  end.

Lemma node_at_end m a n : node_at m a n -> at_end m a = is_end n.
Proof. intros (H1 & H2 & _). unfold at_end, is_end. by rewrite H1, H2. Qed.

Lemma node_at_file m a n : node_at m a n -> at_file_path m a = is_file_path n.
Proof. intros (H1 & H2 & _). unfold at_file_path, is_file_path. by rewrite H1, H2. Qed.

Lemma path_bound m a ns e : path_at m a ns e ->
  0 <= a /\ 0 <= path_length ns /\ 4 <= nsize e /\ a + path_length ns + nsize e < 2 ^ 64.
Proof.
  revert a. induction ns as [|n ns IH]; intros a H; cbn [path_at path_length foldr] in *.
  - destruct H as ((_ & _ & _ & ?) & _ & ? & ?). lia.
  - destruct H as ((_ & _ & _ & ?) & _ & ? & H). apply IH in H. unfold path_length in *. lia.
Qed.

Lemma path_next m a n ns e : node_at m a n -> path_at m (a + nsize n) ns e -> 0 <= a ->
  get_next_device_path_node m a = a + nsize n.
Proof.
  intros (_ & _ & Hs & H4) Hp Ha. unfold get_next_device_path_node. rewrite Hs.
  apply path_bound in Hp. apply wrap_small. lia.
Qed.

Lemma size_loop_spec fuel m a ns e size : path_at m a ns e -> (length ns < fuel)%nat ->
  0 <= size -> size + path_length ns + nsize e < 2 ^ 64 ->
  size_loop fuel m size a = Done (size + path_length ns + nsize e).
Proof.
  revert fuel a size. induction ns as [|n ns IH]; intros fuel a size Hp Hf Hs Hb;
    (destruct fuel as [|fuel]; [cbn in Hf; lia|]); cbn [size_loop path_at path_length foldr] in *.
  - destruct Hp as (Hn & He & _). rewrite (node_at_end _ _ _ Hn), He.
    destruct Hn as (_ & _ & -> & ?). rewrite wrap_small by lia. f_equal. lia.
  - destruct Hp as (Hn & He & Ha & Hp). rewrite (node_at_end _ _ _ Hn), He.
    rewrite (path_next _ _ _ _ _ Hn Hp Ha). pose proof (path_bound _ _ _ _ Hp) as Hbd.
    destruct Hn as (_ & _ & -> & ?). unfold path_length in *. rewrite wrap_small by lia.
    rewrite IH by (try done; cbn in Hf; lia). f_equal. lia.
Qed.

(** The first file-path node: its offset. *)
Fixpoint file_path_offset (ns : list Node) : option Z :=
  match ns with
  | [] => None
  | n :: ns => if is_file_path n then Some 0 else (fun o => nsize n + o) <$> file_path_offset ns
  end.

Lemma get_file_path_spec fuel m a ns e : path_at m a ns e -> (length ns < fuel)%nat ->
  get_file_path_media_device_path fuel m a =
  Done ((fun o => a + o + 4) <$> file_path_offset ns).
Proof.
  revert fuel a. induction ns as [|n ns IH]; intros fuel a Hp Hf;
    (destruct fuel as [|fuel]; [cbn in Hf; lia|]);
    cbn [get_file_path_media_device_path path_at file_path_offset] in *.
  - destruct Hp as (Hn & He & _). by rewrite (node_at_end _ _ _ Hn), He.
  - pose proof (path_bound _ _ (n :: ns) _ Hp) as Hbd.
    destruct Hp as (Hn & He & Ha & Hp). rewrite (node_at_end _ _ _ Hn), He, (node_at_file _ _ _ Hn).
    pose proof (path_bound _ _ _ _ Hp). destruct (is_file_path n).
    + cbn. rewrite wrap_small by (destruct Hn as (_ & _ & _ & ?); lia). do 2 f_equal. lia.
    + rewrite (path_next _ _ _ _ _ Hn Hp Ha), IH by (try done; cbn in Hf; lia).
      destruct (file_path_offset ns); cbn; [|done]. do 2 f_equal. lia.
Qed.

Lemma compare_from_spec m a b i n : 0 <= i -> 0 <= a -> 0 <= b ->
  a + i + Z.of_nat n < 2 ^ 64 -> b + i + Z.of_nat n < 2 ^ 64 ->
  compare_from m a b i n = bool_decide (load_bytes m (a + i) n = load_bytes m (b + i) n).
Proof.
  revert i. induction n as [|n IH]; intros i Hi Ha Hb Ha' Hb'; cbn [compare_from load_bytes]; [done|].
  rewrite !wrap_small by lia.
  destruct (Z.eqb_spec (load8 m (a + i)) (load8 m (b + i))) as [E|E]; cbn [negb].
  - rewrite IH by lia. replace (a + i + 1) with (a + (i + 1)) by lia.
    replace (b + i + 1) with (b + (i + 1)) by lia. rewrite E.
    apply bool_decide_ext. split; [by intros ->|by intros [= ->]].
  - symmetry. apply bool_decide_eq_false_2. congruence.
Qed.

(** ** Properties *)

(** On a well-formed device path (nodes of at least four bytes before an
    end node) the walks end with as much fuel as the path has nodes:
    [get_device_path_size] is the number of bytes up to and including the end
    node, and [get_file_path_media_device_path] points just past the header of
    the first file-path node, or finds none. *)
Theorem device_path_walks fuel m a ns e :
  path_at m a ns e -> (length ns < fuel)%nat ->
  get_device_path_size fuel m a = Done (path_length ns + nsize e) /\
  get_file_path_media_device_path fuel m a = Done ((fun o => a + o + 4) <$> file_path_offset ns).
Proof.
  intros Hp Hf. pose proof (path_bound _ _ _ _ Hp). split.
  - unfold get_device_path_size. rewrite (size_loop_spec _ _ _ ns e) by (done || lia). f_equal.
  - by apply (get_file_path_spec fuel m a ns e).
Qed.

(** A PCI node, a file-path node and the end node at 0x1000. *)
Definition demo_path : memory :=
  store_bytes ∅ 0x1000 [1; 1; 6; 0; 2; 3;  4; 4; 8; 0; 65; 0; 0; 0;  0x7f; 0xff; 4; 0].

Lemma demo_path_at :
  path_at demo_path 0x1000 [mkNode 1 1 6; mkNode 4 4 8] (mkNode 0x7f 0xff 4).
Proof.
  repeat split; try (vm_compute; reflexivity); vm_compute; discriminate.
Qed.

Lemma device_path_walks_witness :
  get_device_path_size 3 demo_path 0x1000 = Done 18 /\
  get_file_path_media_device_path 3 demo_path 0x1000 = Done (Some 0x100a).
Proof.
  destruct (device_path_walks 3 demo_path 0x1000 _ _ demo_path_at) as [H1 H2]; [cbn; lia|].
  split; [exact H1 | exact H2].
Defined.

(** [compare_device_path] is exactly equality of the first [size] bytes. *)
Lemma compare_device_path_correct m a b size :
  0 <= size -> 0 <= a -> 0 <= b -> a + size < 2 ^ 64 -> b + size < 2 ^ 64 ->
  compare_device_path m a b size = true <->
  load_bytes m a (Z.to_nat size) = load_bytes m b (Z.to_nat size).
Proof.
  intros Hs Ha Hb Ha' Hb'. unfold compare_device_path.
  rewrite compare_from_spec by lia. rewrite !Z.add_0_r. apply bool_decide_eq_true.
Qed.
