(* ===== verification/Events.v ===== *)
(** * Events (src/efi/event.rs)

    A table of 16 event slots handed out in order; there is no way to give one
    back.  An [Event] pointer is the index of its slot. *)

From S2P Require Import Prelude REfi.

Module EventInfo.
Definition EVENT_STRUCT_SIGNATURE : Z := 0x54564549.

Record EventStruct := mkEvent {
  signature : Z;
  type_ : Z;
  notify_tpl : Z;
  notify_function : Z;
  notify_context : Z
}.

Definition MAX_EVENT_STRUCT : nat := 16.

Record t := mk { event_count : nat; event_struct : list EventStruct }.

Definition new : t := mk 0 (replicate MAX_EVENT_STRUCT (mkEvent 0 0 0 0 0)).

Definition get_new_event (s : t) : res ((Status.t * option nat) * t) :=
  let i := event_count s in
  if (MAX_EVENT_STRUCT <=? i)%nat then Done ((Status.OUT_OF_RESOURCES, None), s)
  else
    e ← index (event_struct s) i;
    Done ((Status.SUCCESS, Some i),
      mk (S i) (<[i := mkEvent 0 (type_ e) (notify_tpl e) (notify_function e) (notify_context e)]>
                  (event_struct s))).

Definition create_event (s : t) (ty tpl func ctx : Z) : res ((Status.t * option nat) * t) :=
  '((status, new_event), s) ← get_new_event s;
  if negb (Status.eqb status Status.SUCCESS) then Done ((status, None), s)
  else
    i ← unwrap new_event;
    es ← update (event_struct s) i (mkEvent EVENT_STRUCT_SIGNATURE ty tpl func ctx);
    Done ((Status.SUCCESS, Some i), mk (event_count s) es).

Definition close_event (s : t) (event : option nat) : Status.t := Status.UNSUPPORTED.
End EventInfo.

Import EventInfo.

(** 16 slots, of which the first [event_count] are in use and signed. *)
Record events_ok (s : EventInfo.t) : Prop := {
  events_len : length (event_struct s) = MAX_EVENT_STRUCT;
  events_count : (event_count s <= MAX_EVENT_STRUCT)%nat;
  events_signed : Forall (fun e => signature e = EVENT_STRUCT_SIGNATURE)
    (take (event_count s) (event_struct s))
}.

(** [create_event] hands out each of the 16 slots once: below 16 events it
    returns the next slot, signed and holding the caller's type, TPL, function
    and context, without changing the earlier events; after that it reports
    OUT_OF_RESOURCES and changes nothing. *)
Theorem create_event_correct s ty tpl func ctx : events_ok s ->
  ((event_count s < MAX_EVENT_STRUCT)%nat /\
   exists s', create_event s ty tpl func ctx = Done ((Status.SUCCESS, Some (event_count s)), s') /\
     events_ok s' /\ event_count s' = S (event_count s) /\
     event_struct s' !! event_count s = Some (mkEvent EVENT_STRUCT_SIGNATURE ty tpl func ctx) /\
     take (event_count s) (event_struct s') = take (event_count s) (event_struct s)) \/
  (event_count s = MAX_EVENT_STRUCT /\
   create_event s ty tpl func ctx = Done ((Status.OUT_OF_RESOURCES, None), s)).
Proof.
  intros [Hlen Hc Hsig]. unfold create_event, get_new_event.
  destruct (Nat.leb_spec MAX_EVENT_STRUCT (event_count s)); [right; split; [lia|done]|].
  left. split; [done|]. destruct (lookup_lt_is_Some_2 (event_struct s) (event_count s)) as [e He]; [lia|].
  unfold index. rewrite He; cbn [unwrap]; rstep. status_step. cbn [unwrap event_struct event_count]; rstep.
  rewrite update_lt by (rewrite length_insert; lia). rstep. rewrite list_insert_insert_eq.
  eexists. split; [reflexivity|]. cbn [event_struct event_count].
  assert (Htake : take (event_count s) (<[event_count s:=mkEvent EVENT_STRUCT_SIGNATURE ty tpl func ctx]>
    (event_struct s)) = take (event_count s) (event_struct s)) by (by rewrite take_insert_ge).
  split_and!; [|done| |done].
  - split; cbn [event_struct event_count]; [by rewrite length_insert | lia |].
    rewrite (take_S_r _ _ (mkEvent EVENT_STRUCT_SIGNATURE ty tpl func ctx)), Htake
      by (apply list_lookup_insert_eq; lia).
    apply Forall_app. split; [done|]. by apply Forall_cons_2, Forall_nil_2.
  - apply list_lookup_insert_eq. lia.
Qed.

Lemma create_event_correct_witness : exists s',
  create_event EventInfo.new 1 8 0x1234 0 = Done ((Status.SUCCESS, Some 0%nat), s') /\ events_ok s'.
Proof.
  destruct (create_event_correct EventInfo.new 1 8 0x1234 0) as [(_ & s' & E & H & _)|(H & _)].
  - split; [reflexivity | cbn; unfold MAX_EVENT_STRUCT; lia | constructor].
  - exists s'. split; [exact E | exact H].
  - discriminate H.
Defined.
