(* ===== verification/Part.v ===== *)
(** * Sectors and GPT partitions (src/block.rs traits, src/part.rs)

    [SectorRead] is the trait through which partitions and file systems see a
    disk: a read returns the 512 bytes of a sector or an error.  The partition
    functions are proved against this interface only; [Ramdisk] is one
    implementation. *)

From S2P Require Import Prelude REfi Mem.

(** [block::Error] *)
Inductive BlkError := DEVICE_ERROR | BlockError_ | BlockIOError | BlockNotSupported.

(** [trait SectorRead]: what it promises is that a successful read fills the
    512-byte buffer. *)
Class SectorRead (D : Type) := {
  read_sector : D -> Z -> result (list Z) BlkError;
  read_sector_length : forall d s data,
    read_sector d s = Ok data -> length data = 512%nat /\ bytes_ok data
}.

(** A little-endian field of [n] bytes at [off]. *)
Definition field (data : list Z) (off n : nat) : Z := le_combine (take n (drop off data)).
Definition bytes_at (data : list Z) (off n : nat) : list Z := take n (drop off data).

Module Part.
(** GPT header; the packed layout puts the fields at these offsets. *)
Record Header := mkHeader {
  signature : Z;
  first_usable_lba : Z;
  last_usable_lba : Z;
  first_part_lba : Z;
  part_count : Z
}.
Definition header_of (data : list Z) : Header :=
  mkHeader (field data 0 8) (field data 40 8) (field data 48 8) (field data 72 8) (field data 80 4).

Record PartitionEntry := mkEntry {
  type_guid : list Z;
  guid : list Z;
  first_lba : Z;
  last_lba : Z
}.
Definition ENTRY_SIZE : nat := 128.
Definition entry_of (data : list Z) (i : nat) : PartitionEntry :=
  let off := (i * ENTRY_SIZE)%nat in
  mkEntry (bytes_at data off 16) (bytes_at data (off + 16) 16)
    (field data (off + 32) 8) (field data (off + 40) 8).
(** [from_raw_parts(data, 4)] *)
Definition entries_of (data : list Z) : list PartitionEntry := map (entry_of data) (seq 0 4).

Definition EFI_TYPE : list Z :=
  [0x28; 0x73; 0x2a; 0xc1; 0x1f; 0xf8; 0xd2; 0x11; 0xba; 0x4b; 0x00; 0xa0; 0xc9; 0x3e; 0xc9; 0x3b].
Definition is_efi_partition (p : PartitionEntry) : bool := bool_decide (type_guid p = EFI_TYPE).

Inductive Error :=
| BlockError
| HeaderNotFound
| ViolatesSpecification
| ExceededPartitionCount
| NoEFIPartition.

Definition GPT_SIGNATURE : Z := 0x5452415020494645.

Section Reader.
Context {D : Type} `{SectorRead D}.

(** Lines 74-90 and 129-145: the header, checked. *)
Definition read_header (r : D) : result Header Error :=
  match read_sector r 1 with
  | Err _ => Err BlockError
  | Ok data =>
      let h := header_of data in
      if negb (Part.signature h =? GPT_SIGNATURE) then Err HeaderNotFound
      else if first_usable_lba h <? 34 then Err ViolatesSpecification
      else Ok h
  end.

(** The number of iterations of [first_part_lba..first_usable_lba]. *)
Definition lba_count (h : Header) : nat := Z.to_nat (first_usable_lba h - first_part_lba h).

(** Lines 110-116: the non-empty entries appended to [parts_out]. *)
Fixpoint collect (parts : list PartitionEntry) (out : list PartitionEntry) (current : nat)
    : res (list PartitionEntry * nat) :=
  match parts with
  | [] => Done (out, current)
  | p :: parts =>
      if bool_decide (guid p = replicate 16 0) then collect parts out current
      else out ← update out current p; collect parts out (S current)
  end.

Fixpoint partitions_loop (n : nat) (r : D) (lba part_count checked : Z)
    (out : list PartitionEntry) (current : nat)
    : res (result Z Error * list PartitionEntry) :=
  match n with
  | O => Done (Ok (Z.of_nat current), out)
  | S n =>
      match read_sector r lba with
      | Err _ => Done (Err BlockError, out)
      | Ok data =>
          '(out, current) ← collect (entries_of data) out current;
          let checked := u32 (checked + 4) in
          if part_count <=? checked then Done (Ok (Z.of_nat current), out)
          else partitions_loop n r (lba + 1) part_count checked out current
      end
  end.

Definition get_partitions (r : D) (parts_out : list PartitionEntry)
    : res (result Z Error * list PartitionEntry) :=
  match read_header r with
  | Err e => Done (Err e, parts_out)
  | Ok h => partitions_loop (lba_count h) r (first_part_lba h) (part_count h) 0 parts_out 0
  end.

(** Lines 162-170: [Ok] ends the search, [Err] carries the count on. *)
Fixpoint scan_entries (parts : list PartitionEntry) (part_count checked : Z)
    : result (result (Z * Z * Z) Error) Z :=
  match parts with
  | [] => Err checked
  | p :: parts =>
      if is_efi_partition p then Ok (Ok (first_lba p, last_lba p, u32 (checked + 1)))
      else
        let checked := u32 (checked + 1) in
        if checked =? part_count then Ok (Err ExceededPartitionCount)
        else scan_entries parts part_count checked
  end.

Fixpoint find_loop (n : nat) (r : D) (lba part_count checked : Z) : result (Z * Z * Z) Error :=
  match n with
  | O => Err NoEFIPartition
  | S n =>
      match read_sector r lba with
      | Err _ => Err BlockError
      | Ok data =>
          match scan_entries (entries_of data) part_count checked with
          | Ok out => out
          | Err checked => find_loop n r (lba + 1) part_count checked
          end
      end
  end.

Definition find_efi_partition (r : D) : result (Z * Z * Z) Error :=
  match read_header r with
  | Err e => Err e
  | Ok h => find_loop (lba_count h) r (first_part_lba h) (part_count h) 0
  end.
End Reader.
End Part.

Import Part.

(** ** Specification *)

Section Spec.
Context {D : Type} `{SectorRead D}.

(** The slots of the partition array: four per sector of [n] sectors from
    [lba], or none if a sector cannot be read. *)
Fixpoint slots (n : nat) (r : D) (lba : Z) : option (list PartitionEntry) :=
  match n with
  | O => Some []
  | S n =>
      match read_sector r lba with
      | Err _ => None
      | Ok data => (fun l => entries_of data ++ l) <$> slots n r (lba + 1)
      end
  end.

(** The first EFI slot, counted from [k]. *)
Fixpoint first_efi (ps : list PartitionEntry) (k : Z) : option (Z * Z * Z) :=
  match ps with
  | [] => None
  | p :: ps => if is_efi_partition p then Some (first_lba p, last_lba p, k + 1)
               else first_efi ps (k + 1)
  end.

(** The search over the slots left, [count] of the table being valid. *)
Definition efi_result (ps : list PartitionEntry) (count checked : Z) : result (Z * Z * Z) Error :=
  match first_efi (take (Z.to_nat (count - checked)) ps) checked with
  | Some x => Ok x
  | None => if count <=? checked + Z.of_nat (length ps) then Err ExceededPartitionCount
            else Err NoEFIPartition
  end.

Lemma length_entries_of data : length (entries_of data) = 4%nat.
Proof. done. Qed.

Lemma efi_result_cons p ps count checked : checked < count ->
  efi_result (p :: ps) count checked =
  if is_efi_partition p then Ok (first_lba p, last_lba p, checked + 1)
  else efi_result ps count (checked + 1).
Proof.
  intros Hc. unfold efi_result.
  replace (Z.to_nat (count - checked)) with (S (Z.to_nat (count - (checked + 1)))) by lia.
  cbn [take first_efi length]. destruct (is_efi_partition p); [done|].
  by replace (checked + Z.of_nat (S (length ps))) with (checked + 1 + Z.of_nat (length ps)) by lia.
Qed.

Lemma efi_result_full ps count : efi_result ps count count = Err ExceededPartitionCount.
Proof. unfold efi_result. rewrite Z.sub_diag. cbn. by rewrite (proj2 (Z.leb_le _ _)) by lia. Qed.

Lemma scan_entries_spec ps qs count checked :
  0 <= checked < count -> count < 2 ^ 32 ->
  match scan_entries ps count checked with
  | Ok out => efi_result (ps ++ qs) count checked = out
  | Err c => checked <= c < count /\ efi_result (ps ++ qs) count checked = efi_result qs count c
  end.
Proof.
  revert checked. induction ps as [|p ps IH]; intros checked Hc Hcount; cbn [scan_entries app].
  { split; [lia | done]. }
  rewrite wrap_small, efi_result_cons by lia. destruct (is_efi_partition p); [done|].
  destruct (Z.eqb_spec (checked + 1) count) as [Heq|Hne].
  - rewrite Heq. apply efi_result_full.
  - specialize (IH (checked + 1) ltac:(lia) Hcount).
    destruct (scan_entries ps count (checked + 1)); [done|]. destruct IH. split; [lia|done].
Qed.

Lemma find_loop_spec n r lba count checked ps :
  slots n r lba = Some ps -> 0 <= checked < count -> count < 2 ^ 32 ->
  find_loop n r lba count checked = efi_result ps count checked.
Proof.
  revert lba checked ps. induction n as [|n IH]; intros lba checked ps Hs Hc Hcount; cbn [slots find_loop] in *.
  { simplify_eq. unfold efi_result. rewrite take_nil. cbn. by rewrite (proj2 (Z.leb_gt _ _)) by lia. }
  destruct (read_sector r lba) as [data|e]; [|done].
  apply fmap_Some in Hs as (qs & Eq & ->).
  pose proof (scan_entries_spec (entries_of data) qs count checked Hc Hcount) as Hscan.
  destruct (scan_entries _ _ _) as [out|c]; [done|]. destruct Hscan as (Hlt & ->).
  apply IH; [done | lia | done].
Qed.

(** What [get_partitions] keeps of the slots. *)
Definition nonempty_slot (p : PartitionEntry) : bool := negb (bool_decide (guid p = replicate 16 0)).

Lemma collect_spec ps out1 out2 :
  (length (List.filter nonempty_slot ps) <= length out2)%nat ->
  collect ps (out1 ++ out2) (length out1) =
  Done (out1 ++ List.filter nonempty_slot ps ++ drop (length (List.filter nonempty_slot ps)) out2,
        (length out1 + length (List.filter nonempty_slot ps))%nat).
Proof.
  revert out1 out2. induction ps as [|p ps IH]; intros out1 out2 Hl; cbn [collect List.filter].
  { cbn. by rewrite drop_0, Nat.add_0_r. }
  cbn [List.filter] in Hl. destruct (nonempty_slot p) eqn:E; unfold nonempty_slot in E.
  2:{ apply negb_false_iff in E. rewrite E. by apply IH. }
  apply negb_true_iff in E. rewrite E.
  destruct out2 as [|o out2]; [cbn in Hl; lia|].
  rewrite update_lt by (rewrite length_app; cbn; lia). rstep.
  rewrite insert_app_r_alt, Nat.sub_diag by lia. cbn [insert list_insert].
  rewrite (cons_middle p out1 out2), app_assoc.
  replace (S (length out1)) with (length (out1 ++ [p])) by (rewrite length_app; cbn; lia).
  rewrite IH by (cbn in Hl; lia). rewrite <- app_assoc, length_app. cbn. do 2 f_equal. lia.
Qed.

Lemma collect_panic ps out1 out2 :
  (length out2 < length (List.filter nonempty_slot ps))%nat ->
  collect ps (out1 ++ out2) (length out1) = Panic.
Proof.
  revert out1 out2. induction ps as [|p ps IH]; intros out1 out2 Hl; cbn [collect List.filter] in *.
  { cbn in Hl. lia. }
  destruct (nonempty_slot p) eqn:E; unfold nonempty_slot in E.
  2:{ apply negb_false_iff in E. rewrite E. by apply IH. }
  apply negb_true_iff in E. rewrite E. destruct out2 as [|o out2].
  - unfold update. rewrite decide_False by (rewrite app_nil_r; lia). done.
  - rewrite update_lt by (rewrite length_app; cbn; lia). rstep.
    rewrite insert_app_r_alt, Nat.sub_diag by lia. cbn [insert list_insert].
    rewrite (cons_middle p out1 out2), app_assoc.
    replace (S (length out1)) with (length (out1 ++ [p])) by (rewrite length_app; cbn; lia).
    apply IH. cbn in Hl. lia.
Qed.

(** The slots [get_partitions] looks at: whole sectors of four, at least one. *)
Definition examined (count checked : Z) : nat := Z.to_nat (4 * Z.max 1 ((count - checked + 3) / 4)).

(** The result of keeping the non-empty slots of [ps] after those in [out1]. *)
Definition keep (ps out1 out2 : list PartitionEntry) : res (result Z Error * list PartitionEntry) :=
  let kept := List.filter nonempty_slot ps in
  if decide (length kept <= length out2)%nat
  then Done (Ok (Z.of_nat (length out1 + length kept)), out1 ++ kept ++ drop (length kept) out2)
  else Panic.

Lemma keep_app ps qs out1 out2 :
  keep (ps ++ qs) out1 out2 =
  '(out, current) ← collect ps (out1 ++ out2) (length out1);
  keep qs (take current out) (drop current out).
Proof.
  unfold keep at 1. rewrite List.filter_app, length_app.
  set (k := List.filter nonempty_slot ps). set (k' := List.filter nonempty_slot qs).
  destruct (decide (length k <= length out2)%nat) as [Hk|Hk].
  2:{ rewrite collect_panic by (subst k; lia). rewrite decide_False by lia. done. }
  rewrite collect_spec by done. fold k. rstep.
  rewrite (app_assoc out1 k (drop (length k) out2)), <- (length_app out1 k), take_app_length, drop_app_length. unfold keep. fold k'.
  rewrite length_drop. destruct (decide (length k' <= length out2 - length k)%nat).
  - rewrite decide_True by lia. rewrite drop_drop, !length_app, <- !app_assoc. do 3 f_equal. lia.
  - by rewrite decide_False by lia.
Qed.

Lemma partitions_loop_spec n r lba count checked ps out1 out2 :
  slots n r lba = Some ps -> 0 <= checked -> checked < count \/ checked = 0 ->
  0 <= count <= 2 ^ 32 - 4 ->
  partitions_loop n r lba count checked (out1 ++ out2) (length out1) =
  keep (take (examined count checked) ps) out1 out2.
Proof.
  revert lba checked ps out1 out2.
  induction n as [|n IH]; intros lba checked ps out1 out2 Hs Hc Hcc Hcount; cbn [slots partitions_loop] in *.
  { simplify_eq. rewrite take_nil. unfold keep. cbn. by rewrite drop_0, Nat.add_0_r. }
  destruct (read_sector r lba) as [data|e]; [|done].
  apply fmap_Some in Hs as (qs & Eq & ->).
  rewrite take_app_ge by (rewrite length_entries_of; unfold examined; mlia).
  rewrite length_entries_of, keep_app.
  destruct (collect (entries_of data) (out1 ++ out2) (length out1)) as [[out current]| |] eqn:Ec; [|done|done].
  rstep. rewrite wrap_small by lia.
  assert (Hout : out = take current out ++ drop current out /\ length (take current out) = current).
  { destruct (decide (length (List.filter nonempty_slot (entries_of data)) <= length out2)%nat) as [Hk|Hk].
    - rewrite collect_spec in Ec by done. injection Ec as <- <-.
      rewrite take_drop. split; [done|]. rewrite length_take, !length_app. lia.
    - rewrite collect_panic in Ec by lia. done. }
  destruct Hout as [Hsplit Hlen].
  destruct (Z.leb_spec count (checked + 4)).
  - replace (examined count checked - 4)%nat with 0%nat by (unfold examined; mlia).
    rewrite take_0. unfold keep. cbn [List.filter length]. rewrite decide_True by lia.
    rewrite Nat.add_0_r, Hlen. cbn. by rewrite drop_0, take_drop.
  - replace (examined count checked - 4)%nat with (examined count (checked + 4)) by (unfold examined; mlia).
    rewrite <- (IH (lba + 1) (checked + 4) qs) by (done || lia). by rewrite <- Hsplit, Hlen.
Qed.
End Spec.

(** ** A disk in memory *)

(** Sectors not given read as zeros; a sector of the wrong size is an error. *)
Definition Ramdisk := gmap Z (list Z).
Definition sector_ok (data : list Z) : bool :=
  (length data =? 512)%nat && forallb (fun b => (0 <=? b) && (b <? 256)) data.
Definition ramdisk_read (d : Ramdisk) (s : Z) : result (list Z) BlkError :=
  let data := match (d : gmap Z (list Z)) !! s with Some b => b | None => replicate 512 0 end in
  if sector_ok data then Ok data else Err DEVICE_ERROR.

Lemma ramdisk_read_length d s data :
  ramdisk_read d s = Ok data -> length data = 512%nat /\ bytes_ok data.
Proof.
  unfold ramdisk_read, sector_ok. destruct (_ && _) eqn:E; [|done]. intros [= <-].
  apply andb_true_iff in E as [Hl Hf]. split; [by apply Nat.eqb_eq|].
  apply Forall_forall. intros b Hb. rewrite forallb_forall in Hf.
  specialize (Hf b (proj1 (list_elem_of_In _ _) Hb)). bool_to_prop. by split.
Qed.

#[global] Instance Ramdisk_SectorRead : SectorRead Ramdisk :=
  {| read_sector := ramdisk_read; read_sector_length := ramdisk_read_length |}.

(** ** Properties *)

(** [find_efi_partition] returns the LBAs and the one-based slot number
    of the first EFI slot among the [part_count] slots of the partition array,
    ExceededPartitionCount when those hold none, and NoEFIPartition when the
    array ends before [part_count] slots. *)
Theorem find_efi_partition_correct {D} `{SectorRead D} (r : D) h ps :
  read_header r = Ok h -> slots (lba_count h) r (first_part_lba h) = Some ps ->
  0 < part_count h < 2 ^ 32 ->
  find_efi_partition r =
  match first_efi (take (Z.to_nat (part_count h)) ps) 0 with
  | Some x => Ok x
  | None => if part_count h <=? Z.of_nat (length ps) then Err ExceededPartitionCount
            else Err NoEFIPartition
  end.
Proof.
  intros Hh Hs Hc. unfold find_efi_partition. rewrite Hh.
  rewrite (find_loop_spec _ _ _ _ _ ps Hs) by lia. unfold efi_result.
  by rewrite Z.sub_0_r, Z.add_0_l.
Qed.

(** A GPT with four slots, the third of them an EFI partition at 2048-4095. *)
Definition demo_header : list Z :=
  le_split 8 GPT_SIGNATURE ++ replicate 32 0 ++ le_split 8 34 ++ le_split 8 10000 ++
  replicate 16 0 ++ le_split 8 2 ++ le_split 4 4 ++ replicate 428 0.
Definition demo_slots : list Z :=
  replicate 256 0 ++ EFI_TYPE ++ replicate 16 1 ++ le_split 8 2048 ++ le_split 8 4095 ++
  replicate 80 0 ++ replicate 128 0.
Definition demo_disk : Ramdisk := list_to_map [(1, demo_header); (2, demo_slots)].

Lemma find_efi_partition_correct_witness : find_efi_partition demo_disk = Ok (2048, 4095, 3).
Proof.
  assert (exists h, read_header demo_disk = Ok h /\ part_count h = 4 /\
    exists ps, slots (lba_count h) demo_disk (first_part_lba h) = Some ps /\
      first_efi (take 4 ps) 0 = Some (2048, 4095, 3)) as (h & Hh & Hc & ps & Hps & He).
  { eexists. split; [vm_compute; reflexivity|]. split; [reflexivity|].
    eexists. split; vm_compute; reflexivity. }
  rewrite (find_efi_partition_correct demo_disk h ps Hh Hps) by lia.
  rewrite Hc. change (Z.to_nat 4) with 4%nat. by rewrite He.
Defined.

(** [get_partitions] copies to the caller's slice exactly the slots with
    a non-zero GUID, in order, of the sectors that hold the [part_count] slots,
    and returns their number; it panics when the slice is too short. *)
Theorem get_partitions_correct {D} `{SectorRead D} (r : D) h ps out :
  read_header r = Ok h -> slots (lba_count h) r (first_part_lba h) = Some ps ->
  0 <= part_count h <= 2 ^ 32 - 4 ->
  let kept := List.filter nonempty_slot (take (examined (part_count h) 0) ps) in
  ((length kept <= length out)%nat /\
   get_partitions r out = Done (Ok (Z.of_nat (length kept)), kept ++ drop (length kept) out)) \/
  ((length out < length kept)%nat /\ get_partitions r out = Panic).
Proof.
  intros Hh Hs Hc kept. unfold get_partitions. rewrite Hh.
  rewrite (partitions_loop_spec _ _ _ _ _ ps [] out Hs) by (auto; lia).
  unfold keep. fold kept. cbn [length app]. case_decide; [left | right]; (split; [lia | done]).
Qed.

Lemma get_partitions_correct_witness : get_partitions demo_disk [] = Panic.
Proof.
  assert (exists h, read_header demo_disk = Ok h /\ part_count h = 4 /\
    exists ps, slots (lba_count h) demo_disk (first_part_lba h) = Some ps /\
      length (List.filter nonempty_slot (take (examined 4 0) ps)) = 1%nat) as (h & Hh & Hc & ps & Hps & He).
  { eexists. split; [vm_compute; reflexivity|]. split; [reflexivity|].
    eexists. split; vm_compute; reflexivity. }
  destruct (get_partitions_correct demo_disk h ps [] Hh Hps) as [[Hlen _]|[_ E]]; [lia | | exact E].
  exfalso. rewrite Hc, He in Hlen. cbn in Hlen. lia.
Defined.
