(* ===== verification/VirtioBlk.v ===== *)
(** * The virtio block driver (src/block.rs, src/virtio.rs): data and operations

    The driver builds a chain of three descriptors in its queue, publishes it in
    the available ring, notifies the device and waits until the device has
    moved the used index.  The device is not part of the program: [poll], what
    it does between two looks at the used index, is a parameter. *)

From S2P Require Import Prelude REfi Mem Part.

Module Virtio.
Inductive Error :=
| VirtioMagicInvalid
| VirtioVersionInvalid
| VirtioUnsupportedDevice
| VirtioLegacyOnly
| VirtioFeatureNegotiationFailed
| VirtioQueueTooSmall.

(** [trait VirtioTransport]; an access outside a register window panics. *)
Class VirtioTransport (T : Type) := {
  init : T -> Z -> res (result unit Error * T);
  get_status : T -> res (Z * T);
  set_status : T -> Z -> res T;
  add_status : T -> Z -> res T;
  reset : T -> res T;
  get_features : T -> res (Z * T);
  set_features : T -> Z -> res T;
  set_queue : T -> Z -> res T;
  get_queue_max_size : T -> res (Z * T);
  set_queue_size : T -> Z -> res T;
  set_descriptors_address : T -> Z -> res T;
  set_avail_ring : T -> Z -> res T;
  set_used_ring : T -> Z -> res T;
  set_queue_enable : T -> res T;
  notify_queue : T -> Z -> res T;
  read_device_config : T -> Z -> res (Z * T)
}.
End Virtio.

Module VirtioBlock.
Import Virtio.

Definition QUEUE_SIZE : nat := 16.

Record Desc := mkDesc { addr : Z; dlength : Z; flags : Z; next : Z }.
Definition default_desc : Desc := mkDesc 0 0 0 0.

(** [DriverState]: the descriptors, the available ring, the used index (the
    used ring's elements are not looked at) and the next free descriptor. *)
Record DriverState := mkState {
  descriptors : list Desc;
  avail_idx : Z;
  avail_ring : list Z;
  used_idx : Z;
  next_head : nat
}.
Definition default_state : DriverState :=
  mkState (replicate QUEUE_SIZE default_desc) 0 (replicate QUEUE_SIZE 0) 0 0.

Inductive RequestType := RRead | RWrite | RFlush.
Definition request_u32 (r : RequestType) : Z := match r with RRead => 0 | RWrite => 1 | RFlush => 4 end.
#[global] Instance RequestType_eq_dec : EqDecision RequestType.
Proof. solve_decision. Defined.

Definition VIRTQ_DESC_F_NEXT : Z := 1.
Definition VIRTQ_DESC_F_WRITE : Z := 2.
Definition VIRTIO_BLK_S_OK : Z := 0.
Definition VIRTIO_BLK_S_IOERR : Z := 1.
Definition VIRTIO_BLK_S_UNSUPP : Z := 2.

(** [BlockRequestHeader] (16 bytes) and [BlockRequestFooter] (1 byte), locals
    of [request] at the addresses [header] and [footer]. *)
Definition HEADER_SIZE : Z := 16.
Definition FOOTER_SIZE : Z := 1.
Definition store_header (m : memory) (header : Z) (r : RequestType) (sector : Z) : memory :=
  store64 (store32 (store32 m header (request_u32 r)) (header + 4) 0) (header + 8) sector.

Definition set_descriptors (ds : list Desc) (s : DriverState) : DriverState :=
  mkState ds (avail_idx s) (avail_ring s) (used_idx s) (next_head s).
Definition set_used (u : Z) (s : DriverState) : DriverState :=
  mkState (descriptors s) (avail_idx s) (avail_ring s) u (next_head s).

(** The chain, the available ring and the next head. *)
Definition enqueue (s : DriverState) (header footer data : Z) (request : RequestType)
    : res DriverState :=
  let head := next_head s in
  let next_desc := ((head + 1) mod QUEUE_SIZE)%nat in
  ds ← update (descriptors s) head (mkDesc header HEADER_SIZE VIRTQ_DESC_F_NEXT (u16 (Z.of_nat next_desc)));
  d ← index ds next_desc;
  let next_desc' := ((next_desc + 1) mod QUEUE_SIZE)%nat in
  let d := match request with RFlush => d | _ => mkDesc data 512 (flags d) (next d) end in
  ds ← update ds next_desc
         (mkDesc (addr d) (dlength d)
            (Z.lor VIRTQ_DESC_F_NEXT (match request with RRead => VIRTQ_DESC_F_WRITE | _ => 0 end))
            (u16 (Z.of_nat next_desc')));
  ds ← update ds next_desc' (mkDesc footer FOOTER_SIZE VIRTQ_DESC_F_WRITE 0);
  ring ← update (avail_ring s) (Z.to_nat (avail_idx s mod Z.of_nat QUEUE_SIZE)) (u16 (Z.of_nat head));
  Done (mkState ds (u16 (avail_idx s + 1)) ring (used_idx s) ((next_desc' + 1) mod QUEUE_SIZE)%nat).

Definition status_result (status : Z) : result unit BlkError :=
  if status =? VIRTIO_BLK_S_OK then Ok tt
  else if status =? VIRTIO_BLK_S_IOERR then Err BlockIOError
  else if status =? VIRTIO_BLK_S_UNSUPP then Err BlockNotSupported
  else Err BlockNotSupported.

Section Driver.
(** The transport's state holds the device; [poll] is the device at work: the
    queue and memory it sees, and the memory and used index it leaves. *)
Context {T : Type} `{VirtioTransport T} (poll : T -> DriverState -> memory -> T * memory * Z).

(** [while read_volatile(&state.used.idx) != state.avail.idx] *)
Fixpoint wait (fuel : nat) (t : T) (s : DriverState) (m : memory) : res (T * DriverState * memory) :=
  match fuel with
  | O => OutOfFuel
  | S fuel =>
      let '(t, m, u) := poll t s m in
      let s := set_used u s in
      if u =? avail_idx s then Done (t, s, m) else wait fuel t s m
  end.

(** [data] is the address and length of the caller's buffer. *)
Definition request (fuel : nat) (header footer : Z) (t : T) (s : DriverState) (m : memory)
    (sector : Z) (data : option (Z * Z)) (rt : RequestType)
    : res (result unit BlkError * (T * DriverState * memory)) :=
  _ ← match rt with
      | RFlush => Done tt
      | _ => '(_, len) ← unwrap data; assert_ (len =? 512)
      end;
  let m := store_header m header rt sector in
  let m := store8 m footer 0 in
  buffer ← match rt with RFlush => Done 0 | _ => '(a, _) ← unwrap data; Done a end;
  s ← enqueue s header footer buffer rt;
  t ← notify_queue t 0;
  '(t, s, m) ← wait fuel t s m;
  Done (status_result (load8 m footer), (t, s, m)).

(** [SectorRead] and [SectorWrite] *)
Definition read (fuel : nat) (header footer : Z) t s m (sector data len : Z) :=
  request fuel header footer t s m sector (Some (data, len)) RRead.
Definition write (fuel : nat) (header footer : Z) t s m (sector data len : Z) :=
  request fuel header footer t s m sector (Some (data, len)) RWrite.
Definition flush (fuel : nat) (header footer : Z) t s m :=
  request fuel header footer t s m 0 None RFlush.

(** ** Initialisation *)

Definition VIRTIO_SUBSYSTEM_BLOCK : Z := 2.
Definition VIRTIO_F_VERSION_1 : Z := Z.shiftl 1 32.
Definition VIRTIO_STATUS_RESET : Z := 0.
Definition VIRTIO_STATUS_ACKNOWLEDGE : Z := 1.
Definition VIRTIO_STATUS_DRIVER : Z := 2.
Definition VIRTIO_STATUS_FEATURES_OK : Z := 8.
Definition VIRTIO_STATUS_DRIVER_OK : Z := 4.
Definition VIRTIO_STATUS_FAILED : Z := 128.

(** The addresses of the three parts of the queue. *)
Record QueueAddresses := mkQA { qa_descriptors : Z; qa_avail : Z; qa_used : Z }.

(** The last part of [init]: the queue. *)
Definition program_queue (t : T) (q : QueueAddresses) : res (result unit Error * T) :=
  t ← set_queue t 0;
  '(max_queue, t) ← get_queue_max_size t;
  if max_queue <? u16 (Z.of_nat QUEUE_SIZE) then
    t ← add_status t VIRTIO_STATUS_FAILED; Done (Err VirtioQueueTooSmall, t)
  else
    t ← set_queue_size t (u16 (Z.of_nat QUEUE_SIZE));
    t ← set_descriptors_address t (qa_descriptors q);
    t ← set_avail_ring t (qa_avail q);
    t ← set_used_ring t (qa_used q);
    t ← set_queue_enable t;
    t ← add_status t VIRTIO_STATUS_DRIVER_OK;
    Done (Ok tt, t).

Definition blk_init (t : T) (q : QueueAddresses) : res (result unit Error * T) :=
  '(r, t) ← init t VIRTIO_SUBSYSTEM_BLOCK;
  match r with
  | Err e => Done (Err e, t)
  | Ok _ =>
      t ← set_status t VIRTIO_STATUS_RESET;
      t ← add_status t VIRTIO_STATUS_ACKNOWLEDGE;
      t ← add_status t VIRTIO_STATUS_DRIVER;
      '(device_features, t) ← get_features t;
      if negb (Z.land device_features VIRTIO_F_VERSION_1 =? VIRTIO_F_VERSION_1) then
        t ← add_status t VIRTIO_STATUS_FAILED; Done (Err VirtioLegacyOnly, t)
      else
        t ← set_features t (Z.land device_features VIRTIO_F_VERSION_1);
        t ← add_status t VIRTIO_STATUS_FEATURES_OK;
        '(status, t) ← get_status t;
        if negb (Z.land status VIRTIO_STATUS_FEATURES_OK =? VIRTIO_STATUS_FEATURES_OK) then
          t ← add_status t VIRTIO_STATUS_FAILED; Done (Err VirtioFeatureNegotiationFailed, t)
        else program_queue t q
  end.

Definition blk_reset (t : T) : res T := reset t.

Definition get_capacity (t : T) : res (Z * T) :=
  '(lo, t) ← read_device_config t 0;
  '(hi, t) ← read_device_config t 4;
  Done (Z.lor lo (u64 (Z.shiftl hi 32)), t).
End Driver.
End VirtioBlock.
