(* ===== verification/VirtioProps.v ===== *)
(** * The virtio block driver: theorems

    [chain_of] and [request_of] read the queue the way a device does; the device
    promises ([device_ok]) to serve the published request and then move the used
    index.  Against that promise the driver reads and writes sectors. *)

From Stdlib Require Import ZifyNat.
From S2P Require Import Prelude REfi Mem Part VirtioBlk.
Import Virtio VirtioBlock.

(** ** The queue as the device sees it *)

(** The chain last published in the available ring. *)
Definition chain_of (s : DriverState) : option (Desc * Desc * Desc) :=
  h ← avail_ring s !! Z.to_nat ((avail_idx s - 1) mod 16);
  d0 ← descriptors s !! Z.to_nat h;
  d1 ← descriptors s !! Z.to_nat (next d0);
  d2 ← descriptors s !! Z.to_nat (next d1);
  if (Z.land (flags d0) 1 =? 1) && (Z.land (flags d1) 1 =? 1) && (Z.land (flags d2) 1 =? 0)
  then Some (d0, d1, d2) else None.

Record Request := mkRq {
  rq_type : Z; rq_sector : Z; rq_data : Z; rq_len : Z; rq_writes : bool; rq_status : Z
}.
Definition request_of (s : DriverState) (m : memory) : option Request :=
  '(d0, d1, d2) ← chain_of s;
  if (dlength d0 =? 16) && (dlength d2 =? 1) && (Z.land (flags d2) 2 =? 2) then
    Some (mkRq (load32 m (addr d0)) (load64 m (addr d0 + 8)) (addr d1) (dlength d1)
            (Z.land (flags d1) 2 =? 2) (addr d2))
  else None.

Record queue_ok (s : DriverState) : Prop := {
  qo_desc : length (descriptors s) = 16%nat;
  qo_ring : length (avail_ring s) = 16%nat;
  qo_head : (next_head s < 16)%nat;
  qo_idx : 0 <= avail_idx s < 2 ^ 16
}.

Ltac nlia := zify; Z.div_mod_to_equations; lia.

(** [enqueue] publishes a chain the device reads back as header, data buffer
    and status byte, in three different descriptors. *)
Lemma enqueue_spec s header footer data rt : queue_ok s -> exists s' d1,
  enqueue s header footer data rt = Done s' /\ queue_ok s' /\
  avail_idx s' = u16 (avail_idx s + 1) /\ used_idx s' = used_idx s /\
  chain_of s' = Some (mkDesc header 16 1 (Z.of_nat ((next_head s + 1) mod 16)), d1, mkDesc footer 1 2 0) /\
  flags d1 = match rt with RRead => 3 | _ => 1 end /\
  (rt <> RFlush -> addr d1 = data /\ dlength d1 = 512).
Proof.
  intros [Hd Hr Hh Hi]. unfold enqueue. change QUEUE_SIZE with 16%nat.
  set (h := next_head s) in *. set (h1 := ((h + 1) mod 16)%nat). set (h2 := ((h1 + 1) mod 16)%nat).
  assert (Hh1 : (h1 < 16)%nat /\ h1 <> h) by (subst h1; nlia).
  assert (Hh2 : (h2 < 16)%nat /\ h2 <> h /\ h2 <> h1) by (subst h2 h1; nlia).
  rewrite !(wrap_small 16 (Z.of_nat _)) by (norm_pow; lia).
  rewrite (update_lt (descriptors s) h) by lia. rstep.
  destruct (lookup_lt_is_Some_2 (descriptors s) h1) as [e He]; [lia|].
  unfold index. rewrite list_lookup_insert_ne, He by (by intros E; apply Hh1). cbn [unwrap]. rstep.
  rewrite (update_lt (<[h := _]> (descriptors s)) h1) by (rewrite length_insert; lia). rstep.
  rewrite (update_lt _ h2) by (rewrite !length_insert; lia). rstep.
  rewrite (update_lt (avail_ring s)) by nlia. rstep.
  eexists _, _. split; [reflexivity|]. split.
  { constructor; cbn; rewrite ?length_insert; try done; [nlia|]. apply wrap_range. lia. }
  split; [done|]. split; [done|].
  unfold chain_of. cbn [descriptors avail_idx avail_ring].
  assert (Ei : Z.to_nat ((u16 (avail_idx s + 1) - 1) mod 16) = Z.to_nat (avail_idx s mod Z.of_nat 16))
    by (unfold wrap; norm_pow; nlia).
  rewrite Ei, list_lookup_insert_eq by (rewrite Hr; nlia). cbn [mbind option_bind].
  rewrite Nat2Z.id, !list_lookup_insert_ne, list_lookup_insert_eq by (rewrite ?Hd; lia).
  cbn [mbind option_bind next]. rewrite Nat2Z.id, list_lookup_insert_ne, list_lookup_insert_eq
    by (rewrite ?length_insert, ?Hd; lia).
  cbn [mbind option_bind next]. rewrite Nat2Z.id, list_lookup_insert_eq by (rewrite !length_insert, Hd; lia).
  cbn [mbind option_bind flags]. unfold VIRTQ_DESC_F_NEXT, VIRTQ_DESC_F_WRITE, HEADER_SIZE, FOOTER_SIZE.
  assert (E1 : (Z.land (Z.lor 1 (match rt with RRead => 2 | _ => 0 end)) 1 =? 1) = true) by (by destruct rt).
  rewrite E1. split; [reflexivity|]. cbn [flags addr dlength]. by destruct rt.
Qed.

(** ** What a device promises *)

Section Device.
Context {T : Type} `{VirtioTransport T} (poll : T -> DriverState -> memory -> T * memory * Z).
(** The sectors of the device. *)
Context (disk : T -> gmap Z (list Z)).

(** Bytes the request does not let the device write. *)
Definition outside (rq : Request) (x : Z) : Prop :=
  x <> rq_status rq /\ (rq_writes rq = true -> ~ (rq_data rq <= x < rq_data rq + rq_len rq)).
Definition kept (rq : Request) (m m' : memory) : Prop :=
  forall x, outside rq x -> load8 m' x = load8 m x.

(** A request the device accepts. *)
Definition acceptable (rq : Request) : Prop :=
  ~ (rq_data rq <= rq_status rq < rq_data rq + 512) /\
  match rq_type rq with
  | 0 => rq_len rq = 512 /\ rq_writes rq = true
  | 1 => rq_len rq = 512 /\ rq_writes rq = false
  | _ => rq_type rq = 4 /\ rq_writes rq = false
  end.

(** How a request ends: [dk] is the disk before it, [m] and [t'], [m'] the
    memory before and the states after. *)
Definition finished (rq : Request) (dk : gmap Z (list Z)) (m : memory) (t' : T) (m' : memory) : Prop :=
  match rq_type rq with
  | 0 => disk t' = dk /\
         match dk !! rq_sector rq with
         | Some data => load8 m' (rq_status rq) = 0 /\ load_bytes m' (rq_data rq) 512 = data
         | None => load8 m' (rq_status rq) = 1
         end
  | 1 => match dk !! rq_sector rq with
         | Some _ => load8 m' (rq_status rq) = 0 /\
                     disk t' = <[rq_sector rq := load_bytes m (rq_data rq) 512]> dk
         | None => load8 m' (rq_status rq) = 1 /\ disk t' = dk
         end
  | _ => load8 m' (rq_status rq) = 0 /\ disk t' = dk
  end.

(** Within [n] polls the request is served and the used index moved; until
    then only what the device may write changes. *)
Fixpoint completes (n : nat) (rq : Request) (dk : gmap Z (list Z)) (m0 : memory)
    (t : T) (s : DriverState) (m : memory) : Prop :=
  match n with
  | O => False
  | S n =>
      let '(t', m', u) := poll t s m in
      kept rq m m' /\
      if u =? avail_idx s then finished rq dk m0 t' m'
      else completes n rq dk m0 t' (set_used u s) m'
  end.

(** The device serves every acceptable request it is notified of within
    [latency] polls. *)
Definition device_ok (latency : nat) : Prop := forall t s m rq,
  mem_ok m -> request_of s m = Some rq -> acceptable rq ->
  exists t', notify_queue t 0 = Done t' /\ completes latency rq (disk t) m t' s m.

Lemma kept_trans rq m1 m2 m3 : kept rq m1 m2 -> kept rq m2 m3 -> kept rq m1 m3.
Proof. intros H1 H2 x Hx. rewrite H2 by done. by apply H1. Qed.

(** The driver waits exactly as long as it takes. *)
Lemma wait_spec n fuel rq dk m0 t s m : completes n rq dk m0 t s m -> (n <= fuel)%nat ->
  exists t' m' u, wait poll fuel t s m = Done (t', set_used u s, m') /\ u = avail_idx s /\
    kept rq m m' /\ finished rq dk m0 t' m'.
Proof.
  revert fuel t s m. induction n as [|n IH]; intros fuel t s m Hc Hf; cbn [completes] in Hc; [done|].
  destruct fuel as [|fuel]; [lia|]. cbn [wait].
  destruct (poll t s m) as [[t1 m1] u] eqn:Ep. destruct Hc as [Hk Hc]. cbn [set_used avail_idx].
  destruct (Z.eqb_spec u (avail_idx s)) as [E|E].
  - exists t1, m1, u. done.
  - destruct (IH fuel t1 (set_used u s) m1 Hc) as (t' & m' & u' & Ew & Hu & Hk' & Hfin); [lia|].
    exists t', m', u'. split; [exact Ew|]. split; [done|]. split; [by eapply kept_trans|done].
Qed.

(** The request as the device reads it from the queue and the header. *)
Definition request_for (rt : RequestType) (sector data : Z) (footer : Z) (len : Z) : Request :=
  mkRq (request_u32 rt) sector data len (match rt with RRead => true | _ => false end) footer.

Lemma load_header m header footer rt sector : 0 <= sector < 2 ^ 64 ->
  (footer < header \/ header + 16 <= footer) ->
  let m' := store8 (store_header m header rt sector) footer 0 in
  load32 m' header = request_u32 rt /\ load64 m' (header + 8) = sector.
Proof.
  intros Hs Hf m'. unfold m', store_header.
  assert (Hout : forall n mm a, header <= a -> a + Z.of_nat n <= header + 16 ->
    load n (store8 mm footer 0) a = load n mm a).
  { intros n mm a Ha Hn. apply load_ext. intros x Hx. unfold load8, store8.
    rewrite lookup_insert_ne by lia. done. }
  rewrite !Hout by (cbn; lia). split.
  - rewrite !load_store_out by (cbn; lia). rewrite load_store. by destruct rt.
  - rewrite load_store. apply Z.mod_small. exact Hs.
Qed.

Lemma request_of_enqueued s s' header footer data rt sector m d1 :
  chain_of s' = Some (mkDesc header 16 1 (Z.of_nat ((next_head s + 1) mod 16)), d1, mkDesc footer 1 2 0) ->
  flags d1 = match rt with RRead => 3 | _ => 1 end ->
  (rt <> RFlush -> addr d1 = data /\ dlength d1 = 512) ->
  0 <= sector < 2 ^ 64 -> (footer < header \/ header + 16 <= footer) ->
  request_of s' (store8 (store_header m header rt sector) footer 0) =
  Some (request_for rt sector (addr d1) footer (dlength d1)).
Proof.
  intros Hc Hfl Hd Hs Hf. unfold request_of. rewrite Hc. cbn [mbind option_bind dlength flags addr].
  destruct (load_header m header footer rt sector Hs Hf) as [-> ->]. rewrite Hfl.
  unfold request_for. by destruct rt.
Qed.

(** One request, whatever the queue's state. *)
Lemma request_spec latency fuel header footer t s m sector data rt :
  device_ok latency -> queue_ok s -> (latency <= fuel)%nat -> rt <> RFlush -> mem_ok m ->
  0 <= sector < 2 ^ 64 -> (footer < header \/ header + 16 <= footer) ->
  (data + 512 <= footer \/ footer < data) ->
  let m1 := store8 (store_header m header rt sector) footer 0 in
  let rq := request_for rt sector data footer 512 in
  exists t' s' m',
    request poll fuel header footer t s m sector (Some (data, 512)) rt =
      Done (status_result (load8 m' footer), (t', s', m')) /\
    queue_ok s' /\ kept rq m1 m' /\ finished rq (disk t) m1 t' m'.
Proof.
  intros Hdev Hq Hfuel Hrt Hm Hs Hf Hdf m1 rq.
  destruct (enqueue_spec s header footer data rt Hq) as (s' & d1 & Een & Hq' & Hai & Hui & Hch & Hfl & Hd1).
  destruct (Hd1 Hrt) as [Ea El].
  assert (Hrq : request_of s' m1 = Some rq).
  { unfold m1, rq. rewrite (request_of_enqueued s s' header footer data rt sector m d1 Hch Hfl Hd1 Hs Hf).
    by rewrite Ea, El. }
  assert (Hm1 : mem_ok m1).
  { apply (mem_ok_store_bytes _ footer [0]). by do 3 apply mem_ok_store_bytes. }
  destruct (Hdev t s' m1 rq Hm1 Hrq) as (t1 & En & Hc).
  { unfold rq, request_for, acceptable. cbn. split; [lia|]. by destruct rt. }
  destruct (wait_spec latency fuel rq (disk t) m1 t1 s' m1 Hc Hfuel) as (t' & m' & u & Ew & Hu & Hk & Hfin).
  exists t', (set_used u s'), m'. split; [|split; [|done]].
  - unfold request. destruct rt; [| |done]; cbn [unwrap]; rstep; cbn [assert_ Z.eqb Pos.eqb]; rstep;
      fold m1; rewrite Een; rstep; rewrite En; rstep; rewrite Ew; by rstep.
  - destruct Hq'. by constructor.
Qed.
End Device.

(** ** Properties *)

(** C16: Against a device that serves its queue, the driver reads and writes
    sectors: whatever state earlier requests left the queue in, [read] returns
    the sector's bytes in the caller's buffer and [write] puts the buffer's bytes
    in the sector, each reports an I/O error exactly for a sector the disk does
    not have, touches no memory but its own locals and (reading) the buffer, and
    leaves a queue fit for the next request. *)
Theorem virtio_read_write_correct {T} `{VirtioTransport T} poll (disk : T -> gmap Z (list Z))
    latency fuel header footer t s m sector data :
  device_ok poll disk latency -> queue_ok s -> (latency <= fuel)%nat -> mem_ok m -> 0 <= sector < 2 ^ 64 ->
  (footer < header \/ header + 16 <= footer) ->
  (data + 512 <= footer \/ footer < data) -> (data + 512 <= header \/ header + 16 <= data) ->
  (exists t' s' m' r, read poll fuel header footer t s m sector data 512 = Done (r, (t', s', m')) /\
     queue_ok s' /\ disk t' = disk t /\
     match disk t !! sector with
     | Some bytes => r = Ok tt /\ load_bytes m' data 512 = bytes
     | None => r = Err BlockIOError
     end /\
     (forall x, x <> footer -> ~ (header <= x < header + 16) -> ~ (data <= x < data + 512) ->
        load8 m' x = load8 m x)) /\
  (exists t' s' m' r, write poll fuel header footer t s m sector data 512 = Done (r, (t', s', m')) /\
     queue_ok s' /\
     match disk t !! sector with
     | Some _ => r = Ok tt /\ disk t' = <[sector := load_bytes m data 512]> (disk t)
     | None => r = Err BlockIOError /\ disk t' = disk t
     end /\
     (forall x, x <> footer -> ~ (header <= x < header + 16) -> load8 m' x = load8 m x)).
Proof.
  intros Hdev Hq Hfuel Hm Hs Hf Hdf Hdh.
  assert (Hlocals : forall rt x, x <> footer -> ~ (header <= x < header + 16) ->
    load8 (store8 (store_header m header rt sector) footer 0) x = load8 m x).
  { intros rt x Hx Hh. unfold load8 at 1, store8. rewrite lookup_insert_ne by lia.
    fold (load8 (store_header m header rt sector) x). unfold store_header. rewrite !load8_store_out by (cbn; lia). done. }
  split.
  - destruct (request_spec poll disk latency fuel header footer t s m sector data RRead) as
      (t' & s' & m' & E & Hq' & Hk & Hfin); try done.
    cbn [finished request_for rq_type request_u32 rq_sector rq_status rq_data] in Hfin.
    destruct Hfin as [Hdk Hfin]. eexists t', s', m', _. split; [exact E|]. split; [done|]. split; [done|]. split.
    + destruct (disk t !! sector); [destruct Hfin as [-> ?]|rewrite Hfin]; done.
    + intros x Hx Hh Hb. rewrite (Hk x); [by apply Hlocals|]. split; cbn; [done|]. intros _. lia.
  - destruct (request_spec poll disk latency fuel header footer t s m sector data RWrite) as
      (t' & s' & m' & E & Hq' & Hk & Hfin); try done.
    cbn [finished request_for rq_type request_u32 rq_sector rq_status rq_data] in Hfin.
    eexists t', s', m', _. split; [exact E|]. split; [done|]. split.
    + destruct (disk t !! sector); destruct Hfin as [-> ->]; [|done]. split; [done|]. f_equal.
      apply load_bytes_ext. intros x Hx. apply Hlocals; lia.
    + intros x Hx Hh. rewrite (Hk x); [by apply Hlocals|]. by split.
Qed.

(** A device that serves a request at the first poll, on a disk in memory. *)
Definition TestDisk := gmap Z (list Z).
#[global] Instance TestDisk_transport : VirtioTransport TestDisk := {|
  init t _ := Done (Ok tt, t); get_status t := Done (0xff, t); set_status t _ := Done t;
  add_status t _ := Done t; reset t := Done t; get_features t := Done (VIRTIO_F_VERSION_1, t);
  set_features t _ := Done t; set_queue t _ := Done t; get_queue_max_size t := Done (256, t);
  set_queue_size t _ := Done t; set_descriptors_address t _ := Done t; set_avail_ring t _ := Done t;
  set_used_ring t _ := Done t; set_queue_enable t := Done t; notify_queue t _ := Done t;
  read_device_config t _ := Done (0, t)
|}.
(** A stored sector is padded or cut to 512 bytes. *)
Definition sector_bytes (l : list Z) : list Z := take 512 (map u8 l ++ replicate 512 0).
Definition test_sectors (t : TestDisk) : gmap Z (list Z) := sector_bytes <$> (t : gmap Z (list Z)).
Definition test_poll (t : TestDisk) (s : DriverState) (m : memory) : TestDisk * memory * Z :=
  match request_of s m with
  | None => (t, m, avail_idx s)
  | Some rq =>
      let '(t', m') :=
        match rq_type rq, test_sectors t !! rq_sector rq with
        | 0, Some data => (t, store8 (store_bytes m (rq_data rq) data) (rq_status rq) 0)
        | 1, Some _ => (<[rq_sector rq := load_bytes m (rq_data rq) 512]> (t : gmap Z (list Z)),
                        store8 m (rq_status rq) 0)
        | 0, None | 1, None => (t, store8 m (rq_status rq) 1)
        | _, _ => (t, store8 m (rq_status rq) 0)
        end in
      (t', m', avail_idx s)
  end.

Lemma sector_bytes_ok l : length (sector_bytes l) = 512%nat /\ bytes_ok (sector_bytes l).
Proof.
  unfold sector_bytes. split.
  - rewrite length_take, length_app, length_map, length_replicate. lia.
  - apply Forall_take, Forall_app. split.
    + apply Forall_map, Forall_true. intros x. apply (wrap_range 8). lia.
    + apply Forall_replicate. unfold is_byte. lia.
Qed.

Lemma sector_bytes_id l : length l = 512%nat -> bytes_ok l -> sector_bytes l = l.
Proof.
  intros Hl Hb. unfold sector_bytes.
  assert (E : map u8 l = l).
  { clear Hl. induction Hb as [|b l Hb Hl IH]; cbn [map]; [done|]. rewrite IH. f_equal. by apply (wrap_small 8). }
  rewrite E, take_app_le, take_ge by lia. done.
Qed.

Lemma load8_store8 m a v x : load8 (store8 m a v) x = if decide (x = a) then u8 v else load8 m x.
Proof.
  unfold load8, store8. destruct (decide (x = a)) as [->|Hne]; [by rewrite lookup_insert_eq|].
  by rewrite lookup_insert_ne by congruence.
Qed.

Lemma kept_status rq m v : kept rq m (store8 m (rq_status rq) v).
Proof. intros x [Hx _]. rewrite load8_store8. by rewrite decide_False by done. Qed.

Lemma acceptable_type rq : acceptable rq ->
  (rq_type rq = 0 /\ rq_len rq = 512 /\ rq_writes rq = true) \/ rq_type rq = 1 \/ rq_type rq = 4.
Proof. intros [_ Ha]. destruct (rq_type rq) as [|[p|p|]|p]; naive_solver. Qed.

Lemma test_sectors_ok t k data : test_sectors t !! k = Some data -> length data = 512%nat /\ bytes_ok data.
Proof.
  unfold test_sectors. rewrite lookup_fmap. intros E. apply fmap_Some in E as (l & _ & ->). apply sector_bytes_ok.
Qed.

Lemma load_bytes_status m a v p : ~ (p <= a < p + 512) -> load_bytes (store8 m a v) p 512 = load_bytes m p 512.
Proof. intros Ha. apply load_bytes_ext. intros x Hx. rewrite load8_store8, decide_False by lia. done. Qed.

Lemma test_device_ok : device_ok test_poll test_sectors 1.
Proof.
  intros t s m rq Hm Hrq Hacc. exists t. split; [done|]. cbn [completes]. unfold test_poll. rewrite Hrq.
  unfold finished. pose proof (proj1 Hacc) as Hst.
  destruct (acceptable_type rq Hacc) as [(E & Hl & Hw)|[E|E]]; rewrite E.
  - destruct (test_sectors t !! rq_sector rq) as [data|] eqn:Ed; rewrite Z.eqb_refl.
    + destruct (test_sectors_ok _ _ _ Ed) as [Hlen Hb]. split; [|split; [done|split]].
      * intros x [Hx Hx']. rewrite load8_store8, decide_False by done.
        apply load8_store_bytes_out. specialize (Hx' Hw). lia.
      * by rewrite load8_store8, decide_True.
      * rewrite load_bytes_status by done. rewrite <- Hlen. by apply load_bytes_store_bytes.
    + split; [apply kept_status|]. split; [done|]. by rewrite load8_store8, decide_True.
  - destruct (test_sectors t !! rq_sector rq) as [data|] eqn:Ed; rewrite Z.eqb_refl;
      (split; [apply kept_status|]); rewrite load8_store8, decide_True by done; [|done].
    split; [done|]. unfold test_sectors. rewrite fmap_insert. f_equal.
    apply sector_bytes_id; [apply length_load_bytes|by apply load_bytes_ok].
  - destruct (test_sectors t !! rq_sector rq); rewrite Z.eqb_refl;
      (split; [apply kept_status|]); by rewrite load8_store8, decide_True.
Qed.

Lemma virtio_read_write_correct_witness : exists t' s' m',
  read test_poll 1 0x100 0x200 ({[7 := replicate 512 0x5a]} : gmap Z (list Z)) default_state ∅ 7 0x1000 512
    = Done (Ok tt, (t', s', m')) /\ load_bytes m' 0x1000 512 = replicate 512 0x5a.
Proof.
  destruct (virtio_read_write_correct test_poll test_sectors 1 1 0x100 0x200
    ({[7 := replicate 512 0x5a]} : gmap Z (list Z)) default_state ∅ 7 0x1000)
    as [(t' & s' & m' & r & E & _ & _ & Hr & _) _].
  - apply test_device_ok.
  - constructor; cbn; (reflexivity || lia).
  - lia.
  - apply map_Forall_empty.
  - lia.
  - lia.
  - lia.
  - lia.
  - exists t', s', m'. rewrite E. clear E.
    assert (Ed : test_sectors ({[7 := replicate 512 0x5a]} : gmap Z (list Z)) !! 7 = Some (replicate 512 0x5a))
      by (vm_compute; reflexivity).
    rewrite Ed in Hr. destruct Hr as [-> Hr]. split; [reflexivity | exact Hr].
Defined.
