(* ===== verification/VirtioInit.v ===== *)
(** * Virtio device initialisation

    The dialogue that brings up a virtio device is a protocol (virtio 1.0, 3.1.1):
    reset, acknowledge, driver, read and write the features, features ok and its
    confirmation, queues, driver ok.  What the device answers decides whether to go
    on or to give up: the way out is a failed status with the error of the answer
    that was refused.  The protocol is stated as a step relation on phases, and the
    accesses of [blk_init] are shown to be a run of it. *)

From S2P Require Import Prelude REfi Mem Part VirtioBlk.
Import Virtio VirtioBlock.

(** The driver's accesses, in the order the device sees them: its writes, and the
    reads with the device's answers. *)
Inductive Event :=
| SetStatus (v : Z)
| GotStatus (v : Z)
| GotFeatures (f : Z)
| SetFeatures (v : Z)
| SelectQueue (q : Z)
| GotMaxSize (n : Z)
| QueueSize (n : Z)
| DescriptorsAt (a : Z)
| AvailAt (a : Z)
| UsedAt (a : Z)
| EnableQueue.

Inductive Phase :=
| Start | Reset | Acknowledged | Driver | Offered | FeaturesSet | FeaturesProposed | FeaturesOk
| QueueSelected | QueueFits | QueueSized | DescriptorsSet (q : Z) | AvailSet (d a : Z)
| UsedSet (q : QueueAddresses) | QueueReady (q : QueueAddresses) | Ready (q : QueueAddresses)
| Refused (e : Error) | Failed (e : Error).

(** The status bits of [v] include [b]. *)
Definition has (v b : Z) : Prop := Z.land v b = b.

(** Each answer of the device has one next phase. *)
Inductive step : Phase -> Event -> Phase -> Prop :=
| st_reset : step Start (SetStatus 0) Reset
| st_ack v : has v 1 -> step Reset (SetStatus v) Acknowledged
| st_driver v : has v 2 -> step Acknowledged (SetStatus v) Driver
| st_offer f : has f (2 ^ 32) -> step Driver (GotFeatures f) Offered
| st_legacy f : ~ has f (2 ^ 32) -> step Driver (GotFeatures f) (Refused VirtioLegacyOnly)
| st_features : step Offered (SetFeatures (2 ^ 32)) FeaturesSet
| st_propose v : has v 8 -> step FeaturesSet (SetStatus v) FeaturesProposed
| st_accepted v : has v 8 -> step FeaturesProposed (GotStatus v) FeaturesOk
| st_rejected v : ~ has v 8 -> step FeaturesProposed (GotStatus v) (Refused VirtioFeatureNegotiationFailed)
| st_select : step FeaturesOk (SelectQueue 0) QueueSelected
| st_fits n : 16 <= n -> step QueueSelected (GotMaxSize n) QueueFits
| st_small n : n < 16 -> step QueueSelected (GotMaxSize n) (Refused VirtioQueueTooSmall)
| st_size : step QueueFits (QueueSize 16) QueueSized
| st_descriptors a : step QueueSized (DescriptorsAt a) (DescriptorsSet a)
| st_avail d a : step (DescriptorsSet d) (AvailAt a) (AvailSet d a)
| st_used d a u : step (AvailSet d a) (UsedAt u) (UsedSet (mkQA d a u))
| st_enable q : step (UsedSet q) EnableQueue (QueueReady q)
| st_ready v q : has v 4 -> step (QueueReady q) (SetStatus v) (Ready q)
| st_fail e v : has v 128 -> step (Refused e) (SetStatus v) (Failed e).

Inductive run : Phase -> list Event -> Phase -> Prop :=
| run_nil p : run p [] p
| run_cons p e q es r : step p e q -> run q es r -> run p (e :: es) r.

Lemma run_snoc p es q e r : run p es q -> step q e r -> run p (es ++ [e]) r.
Proof.
  induction 1 as [p|p e' q es r' Hs Hr IH]; intros He; cbn [app].
  - eapply run_cons; [done|constructor].
  - eapply run_cons; [done|auto].
Qed.

Lemma has_lor v b : has (Z.lor v b) b.
Proof.
  unfold has. apply Z.bits_inj'. intros n Hn. rewrite Z.land_spec, Z.lor_spec.
  by destruct (Z.testbit v n), (Z.testbit b n).
Qed.

Section Protocol.
Context {T : Type} `{VirtioTransport T} (log : T -> list Event).

(** A transport whose accesses are inside its windows, with a record of the
    accesses to the device; [add_status] is recorded as the value it writes. *)
Record logged : Prop := {
  lg_init : forall t d, exists r t', init t d = Done (r, t') /\ log t' = log t;
  lg_get_status : forall t, exists v t', get_status t = Done (v, t') /\ log t' = log t ++ [GotStatus v];
  lg_set_status : forall t v, exists t', set_status t v = Done t' /\ log t' = log t ++ [SetStatus v];
  lg_add_status : forall t v, exists t' old, add_status t v = Done t' /\ log t' = log t ++ [SetStatus (Z.lor old v)];
  lg_get_features : forall t, exists v t', get_features t = Done (v, t') /\ log t' = log t ++ [GotFeatures v];
  lg_set_features : forall t v, exists t', set_features t v = Done t' /\ log t' = log t ++ [SetFeatures v];
  lg_set_queue : forall t v, exists t', set_queue t v = Done t' /\ log t' = log t ++ [SelectQueue v];
  lg_max_size : forall t, exists v t', get_queue_max_size t = Done (v, t') /\ log t' = log t ++ [GotMaxSize v];
  lg_set_size : forall t v, exists t', set_queue_size t v = Done t' /\ log t' = log t ++ [QueueSize v];
  lg_descriptors : forall t v, exists t', set_descriptors_address t v = Done t' /\ log t' = log t ++ [DescriptorsAt v];
  lg_avail : forall t v, exists t', set_avail_ring t v = Done t' /\ log t' = log t ++ [AvailAt v];
  lg_used : forall t v, exists t', set_used_ring t v = Done t' /\ log t' = log t ++ [UsedAt v];
  lg_enable : forall t, exists t', set_queue_enable t = Done t' /\ log t' = log t ++ [EnableQueue]
}.

(** The transport has made a run from [Start] to [p] since [t0]. *)
Definition at_phase (t0 t : T) (p : Phase) : Prop := exists es, log t = log t0 ++ es /\ run Start es p.

Lemma at_start t : at_phase t t Start.
Proof. exists []. rewrite app_nil_r. split; [done|constructor]. Qed.

Lemma at_same t0 t t' p : at_phase t0 t p -> log t' = log t -> at_phase t0 t' p.
Proof. intros (es & Hl & Hr) E. exists es. by rewrite E. Qed.

Lemma at_step t0 t t' p e q : at_phase t0 t p -> log t' = log t ++ [e] -> step p e q -> at_phase t0 t' q.
Proof.
  intros (es & Hl & Hr) E Hs. exists (es ++ [e]). rewrite E, Hl, app_assoc. split; [done|].
  by eapply run_snoc.
Qed.

(** The outcomes of the parts of [blk_init]: an error after the reset is
    reported to the device. *)
Definition outcome (t0 : T) (q : QueueAddresses) (m : res (result unit Error * T)) : Prop :=
  exists r t', m = Done (r, t') /\
    match r with
    | Ok _ => at_phase t0 t' (Ready q)
    | Err e => at_phase t0 t' (Failed e)
    end.

Lemma fail_outcome t0 t q e : logged -> at_phase t0 t (Refused e) ->
  outcome t0 q (t ← add_status t VIRTIO_STATUS_FAILED; Done (Err e, t)).
Proof.
  intros Hl Hp. destruct (lg_add_status Hl t VIRTIO_STATUS_FAILED) as (t' & old & -> & Hlog). rstep.
  eexists _, t'. split; [done|]. eapply at_step; [done..|]. constructor. apply has_lor.
Qed.

Lemma program_queue_outcome t0 t q : logged -> at_phase t0 t FeaturesOk -> outcome t0 q (program_queue t q).
Proof.
  intros Hl Hp. unfold program_queue.
  destruct (lg_set_queue Hl t 0) as (t1 & -> & E1). rstep. assert (P1 := at_step _ _ _ _ _ _ Hp E1 st_select).
  destruct (lg_max_size Hl t1) as (mx & t2 & -> & E2). rstep. change (u16 (Z.of_nat QUEUE_SIZE)) with 16.
  destruct (Z.ltb_spec mx 16) as [Hs|Hs].
  { apply fail_outcome; [done|]. exact (at_step _ _ _ _ _ _ P1 E2 (st_small _ Hs)). }
  assert (P2 := at_step _ _ _ _ _ _ P1 E2 (st_fits _ Hs)).
  destruct (lg_set_size Hl t2 16) as (t3 & -> & E3). rstep. assert (P3 := at_step _ _ _ _ _ _ P2 E3 st_size).
  destruct (lg_descriptors Hl t3 (qa_descriptors q)) as (t4 & -> & E4). rstep.
  assert (P4 := at_step _ _ _ _ _ _ P3 E4 (st_descriptors _)).
  destruct (lg_avail Hl t4 (qa_avail q)) as (t5 & -> & E5). rstep. assert (P5 := at_step _ _ _ _ _ _ P4 E5 (st_avail _ _)).
  destruct (lg_used Hl t5 (qa_used q)) as (t6 & -> & E6). rstep. assert (P6 := at_step _ _ _ _ _ _ P5 E6 (st_used _ _ _)).
  destruct (lg_enable Hl t6) as (t7 & -> & E7). rstep. assert (P7 := at_step _ _ _ _ _ _ P6 E7 (st_enable _)).
  destruct (lg_add_status Hl t7 VIRTIO_STATUS_DRIVER_OK) as (t8 & old & -> & E8). rstep.
  assert (P8 := at_step _ _ _ _ _ _ P7 E8 (st_ready _ _ (has_lor _ _))).
  eexists _, t8. split; [done|]. by destruct q.
Qed.

(** The negotiation of the features, from the acknowledged device on. *)
Lemma negotiate_outcome t0 t q : logged -> at_phase t0 t Driver ->
  outcome t0 q
    ('(device_features, t) ← get_features t;
     if negb (Z.land device_features VIRTIO_F_VERSION_1 =? VIRTIO_F_VERSION_1) then
       t ← add_status t VIRTIO_STATUS_FAILED; Done (Err VirtioLegacyOnly, t)
     else
       t ← set_features t (Z.land device_features VIRTIO_F_VERSION_1);
       t ← add_status t VIRTIO_STATUS_FEATURES_OK;
       '(status, t) ← get_status t;
       if negb (Z.land status VIRTIO_STATUS_FEATURES_OK =? VIRTIO_STATUS_FEATURES_OK) then
         t ← add_status t VIRTIO_STATUS_FAILED; Done (Err VirtioFeatureNegotiationFailed, t)
       else program_queue t q).
Proof.
  intros Hl P4. destruct (lg_get_features Hl t) as (df & t5 & -> & E5). rstep.
  destruct (Z.eqb_spec (Z.land df VIRTIO_F_VERSION_1) VIRTIO_F_VERSION_1) as [Ef|Ef]; cbn [negb].
  2: { apply fail_outcome; [done|]. exact (at_step _ _ _ _ _ _ P4 E5 (st_legacy _ Ef)). }
  assert (P5 := at_step _ _ _ _ _ _ P4 E5 (st_offer _ Ef)). rewrite Ef.
  destruct (lg_set_features Hl t5 VIRTIO_F_VERSION_1) as (t6 & -> & E6). rstep.
  assert (P6 := at_step _ _ _ _ _ _ P5 E6 st_features).
  destruct (lg_add_status Hl t6 VIRTIO_STATUS_FEATURES_OK) as (t7 & o7 & -> & E7). rstep.
  assert (P7 := at_step _ _ _ _ _ _ P6 E7 (st_propose _ (has_lor _ _))).
  destruct (lg_get_status Hl t7) as (st & t8 & -> & E8). rstep.
  destruct (Z.eqb_spec (Z.land st VIRTIO_STATUS_FEATURES_OK) VIRTIO_STATUS_FEATURES_OK) as [Es|Es]; cbn [negb].
  - apply program_queue_outcome; [done|]. exact (at_step _ _ _ _ _ _ P7 E8 (st_accepted _ Es)).
  - apply fail_outcome; [done|]. exact (at_step _ _ _ _ _ _ P7 E8 (st_rejected _ Es)).
Qed.
End Protocol.

(** ** Properties *)

(** C39: [blk_init] returns, and its accesses to the device are a run of the virtio
    initialisation protocol.  When the transport does not find the device, its
    error is returned and nothing else is accessed.  Otherwise the device's answers
    decide: a device that does not offer VERSION_1, that does not confirm FEATURES_OK
    when the status is read again, or whose queue has fewer than 16 entries is
    refused at that answer, with the error of that refusal and the FAILED bit
    written last; every other device ends [Ready], with a queue of 16 entries at the
    driver's addresses, and success is returned. *)
Theorem blk_init_follows_protocol {T} `{VirtioTransport T} (log : T -> list Event) t q :
  logged log ->
  match init t VIRTIO_SUBSYSTEM_BLOCK with
  | Done (Err e, t') => blk_init t q = Done (Err e, t') /\ log t' = log t
  | _ => exists r t', blk_init t q = Done (r, t') /\
      match r with
      | Ok _ => at_phase log t t' (Ready q)
      | Err e => at_phase log t t' (Failed e)
      end
  end.
Proof.
  intros Hl. unfold blk_init.
  destruct (lg_init log Hl t VIRTIO_SUBSYSTEM_BLOCK) as (r & t1 & -> & E1). rstep.
  destruct r as [[]|e]; [|done].
  assert (P1 := at_same log _ _ _ _ (at_start log t) E1).
  destruct (lg_set_status log Hl t1 VIRTIO_STATUS_RESET) as (t2 & -> & E2). rstep.
  assert (P2 := at_step log _ _ _ _ _ _ P1 E2 st_reset).
  destruct (lg_add_status log Hl t2 VIRTIO_STATUS_ACKNOWLEDGE) as (t3 & o3 & -> & E3). rstep.
  assert (P3 := at_step log _ _ _ _ _ _ P2 E3 (st_ack _ (has_lor _ _))).
  destruct (lg_add_status log Hl t3 VIRTIO_STATUS_DRIVER) as (t4 & o4 & -> & E4). rstep.
  exact (negotiate_outcome log _ _ q Hl (at_step log _ _ _ _ _ _ P3 E4 (st_driver _ (has_lor _ _)))).
Qed.

(** A transport to a device that offers VERSION_1 and shows the status bits in
    [tt_shown] only: its status register, and the accesses. *)
Record TestTransport := mkTT { tt_shown : Z; tt_status : Z; tt_log : list Event }.
Definition say (e : Event) (t : TestTransport) : TestTransport :=
  mkTT (tt_shown t) (tt_status t) (tt_log t ++ [e]).
Definition set_tt_status (t : TestTransport) (v : Z) : TestTransport :=
  mkTT (tt_shown t) v (tt_log t ++ [SetStatus v]).
#[global] Instance TestTransport_transport : VirtioTransport TestTransport := {|
  init t _ := Done (Ok tt, t);
  get_status t := let v := Z.land (tt_status t) (tt_shown t) in Done (v, say (GotStatus v) t);
  set_status t v := Done (set_tt_status t v);
  add_status t v := Done (set_tt_status t (Z.lor (tt_status t) v));
  reset t := Done (set_tt_status t 0);
  get_features t := Done (VIRTIO_F_VERSION_1, say (GotFeatures VIRTIO_F_VERSION_1) t);
  set_features t v := Done (say (SetFeatures v) t);
  set_queue t v := Done (say (SelectQueue v) t);
  get_queue_max_size t := Done (256, say (GotMaxSize 256) t);
  set_queue_size t v := Done (say (QueueSize v) t);
  set_descriptors_address t v := Done (say (DescriptorsAt v) t);
  set_avail_ring t v := Done (say (AvailAt v) t); set_used_ring t v := Done (say (UsedAt v) t);
  set_queue_enable t := Done (say EnableQueue t); notify_queue t _ := Done t;
  read_device_config t _ := Done (0, t)
|}.

Lemma test_logged : logged tt_log.
Proof. constructor; cbn; intros; do 2 eexists; split; reflexivity. Qed.

(** A device that accepts, and one that never confirms FEATURES_OK. *)
Lemma blk_init_follows_protocol_witness :
  (exists t',
    blk_init (mkTT 255 0 []) (mkQA 0x1000 0x2000 0x3000) = Done (Ok tt, t') /\
    at_phase tt_log (mkTT 255 0 []) t' (Ready (mkQA 0x1000 0x2000 0x3000))) /\
  (exists t',
    blk_init (mkTT 247 0 []) (mkQA 0x1000 0x2000 0x3000) = Done (Err VirtioFeatureNegotiationFailed, t') /\
    at_phase tt_log (mkTT 247 0 []) t' (Failed VirtioFeatureNegotiationFailed)).
Proof.
  split.
  - destruct (blk_init_follows_protocol tt_log (mkTT 255 0 []) (mkQA 0x1000 0x2000 0x3000) test_logged)
      as (r & t' & E & Hr).
    exists t'. pose proof E as E'. vm_compute in E'. injection E' as <- <-. split; [exact E | exact Hr].
  - destruct (blk_init_follows_protocol tt_log (mkTT 247 0 []) (mkQA 0x1000 0x2000 0x3000) test_logged)
      as (r & t' & E & Hr).
    exists t'. pose proof E as E'. vm_compute in E'. injection E' as <- <-. split; [exact E | exact Hr].
Defined.
