(* ===== verification/VirtioPci.v ===== *)
(** * Virtio over MMIO and PCI (src/mmio.rs, src/pci.rs)

    The two instances of the transport interface.  Device registers and port I/O
    are not memory: a [Bus] is a state that answers reads and takes writes. *)

From S2P Require Import Prelude REfi Mem Part VirtioBlk.
Import Virtio.

(** Port I/O and memory-mapped I/O of [n] bytes. *)
Class Bus (W : Type) := {
  port_in : W -> nat -> Z -> Z * W;
  port_out : W -> nat -> Z -> Z -> W;
  io_in : W -> nat -> Z -> Z * W;
  io_out : W -> nat -> Z -> Z -> W
}.

Section Region.
Context {W : Type} `{Bus W}.

(** [MemoryRegion::io_read] and [io_write] on device memory: the same bounds
    check, a volatile access. *)
Definition region_read (n : nat) (r : MemoryRegion.t) (w : W) (offset : Z) : res (Z * W) :=
  _ ← assert_ (u64 (offset + (Z.of_nat n - 1)) <? MemoryRegion.length r);
  Done (io_in w n (u64 (MemoryRegion.base r + offset))).
Definition region_write (n : nat) (r : MemoryRegion.t) (w : W) (offset value : Z) : res W :=
  _ ← assert_ (u64 (offset + (Z.of_nat n - 1)) <? MemoryRegion.length r);
  Done (io_out w n (u64 (MemoryRegion.base r + offset)) value).
End Region.

Module Mmio.
Section Mmio.
Context {W : Type} `{Bus W}.

(** [VirtioMMIOTransport], with the bus it sits on. *)
Record t := mk { region : MemoryRegion.t; bus : W }.
Definition new (base : Z) (w : W) : t := mk (MemoryRegion.new base 4096) w.
Definition set_bus (s : t) (w : W) : t := mk (region s) w.

Definition rd (s : t) (offset : Z) : res (Z * t) :=
  '(v, w) ← region_read 4 (region s) (bus s) offset; Done (v, set_bus s w).
Definition wr (s : t) (offset value : Z) : res t :=
  w ← region_write 4 (region s) (bus s) offset value; Done (set_bus s w).

Definition VIRTIO_MAGIC : Z := 0x74726976.
Definition VIRTIO_VERSION : Z := 2.
Definition init (s : t) (device_type : Z) : res (result unit Error * t) :=
  '(magic, s) ← rd s 0x000;
  if negb (magic =? VIRTIO_MAGIC) then Done (Err VirtioMagicInvalid, s)
  else
    '(version, s) ← rd s 0x004;
    if negb (version =? VIRTIO_VERSION) then Done (Err VirtioVersionInvalid, s)
    else
      '(device, s) ← rd s 0x008;
      if negb (device =? device_type) then Done (Err VirtioUnsupportedDevice, s)
      else Done (Ok tt, s).

Definition get_status (s : t) : res (Z * t) := rd s 0x70.
Definition set_status (s : t) (value : Z) : res t := wr s 0x70 value.
Definition add_status (s : t) (value : Z) : res t :=
  '(status, s) ← get_status s; set_status s (Z.lor status value).
Definition reset (s : t) : res t := set_status s 0.
Definition get_features (s : t) : res (Z * t) :=
  s ← wr s 0x014 0;
  '(lo, s) ← rd s 0x010;
  s ← wr s 0x014 1;
  '(hi, s) ← rd s 0x010;
  Done (Z.lor lo (u64 (Z.shiftl hi 32)), s).
Definition set_features (s : t) (features : Z) : res t :=
  s ← wr s 0x024 0;
  s ← wr s 0x020 (u32 features);
  s ← wr s 0x024 1;
  wr s 0x020 (u32 (Z.shiftr features 32)).
Definition set_queue (s : t) (queue : Z) : res t := wr s 0x030 queue.
Definition get_queue_max_size (s : t) : res (Z * t) := '(v, s) ← rd s 0x034; Done (u16 v, s).
Definition set_queue_size (s : t) (n : Z) : res t := wr s 0x038 n.
Definition set_descriptors_address (s : t) (addr : Z) : res t :=
  s ← wr s 0x080 (u32 addr); wr s 0x084 (u32 (Z.shiftr addr 32)).
Definition set_avail_ring (s : t) (addr : Z) : res t :=
  s ← wr s 0x090 (u32 addr); wr s 0x094 (u32 (Z.shiftr addr 32)).
Definition set_used_ring (s : t) (addr : Z) : res t :=
  s ← wr s 0x0a0 (u32 addr); wr s 0x0a4 (u32 (Z.shiftr addr 32)).
Definition set_queue_enable (s : t) : res t := wr s 0x044 1.
Definition notify_queue (s : t) (queue : Z) : res t := wr s 0x50 queue.
Definition read_device_config (s : t) (offset : Z) : res (Z * t) := rd s (u64 (0x100 + offset)).
End Mmio.
#[global] Arguments t W : clear implicits.
End Mmio.

#[global] Instance Mmio_transport {W} `{Bus W} : VirtioTransport (Mmio.t W) := {|
  init := Mmio.init; get_status := Mmio.get_status; set_status := Mmio.set_status;
  add_status := Mmio.add_status; reset := Mmio.reset; get_features := Mmio.get_features;
  set_features := Mmio.set_features; set_queue := Mmio.set_queue;
  get_queue_max_size := Mmio.get_queue_max_size; set_queue_size := Mmio.set_queue_size;
  set_descriptors_address := Mmio.set_descriptors_address; set_avail_ring := Mmio.set_avail_ring;
  set_used_ring := Mmio.set_used_ring; set_queue_enable := Mmio.set_queue_enable;
  notify_queue := Mmio.notify_queue; read_device_config := Mmio.read_device_config
|}.

Module Pci.
Definition CONFIG_ADDRESS : Z := 0xcf8.
Definition CONFIG_DATA : Z := 0xcfc.
Definition MAX_DEVICES : Z := 32.
Definition MAX_FUNCTIONS : Z := 8.
Definition INVALID_VENDOR_ID : Z := 0xffff.

(** The address of a configuration register; [off] is already masked. *)
Definition config_address (bus device func off : Z) : Z :=
  let addr := u32 (Z.shiftl bus 16) in
  let addr := Z.lor addr (u32 (Z.shiftl device 11)) in
  let addr := Z.lor addr (u32 (Z.shiftl func 8)) in
  let addr := Z.lor addr off in
  Z.lor addr (Z.shiftl 1 31).

Inductive PciBarType := Unused | MemorySpace32 | MemorySpace64 | IoSpace.
Record PciBar := mkBar { bar_type : PciBarType; address : Z }.
Definition default_bar : PciBar := mkBar Unused 0.

Record PciDevice := mkDev {
  bus : Z; device : Z; func : Z; bars : list PciBar; vendor_id : Z; device_id : Z
}.
Definition new (bus device func : Z) : PciDevice :=
  mkDev bus device func (replicate 6 default_bar) 0 0.
Definition default_device : PciDevice := new 0 0 0.

Section Config.
Context {W : Type} `{Bus W}.

Definition pci_config_read_u32 (bus device func offset : Z) (w : W) : res (Z * W) :=
  _ ← assert_ (offset mod 4 =? 0);
  _ ← assert_ (device <? MAX_DEVICES);
  _ ← assert_ (func <? MAX_FUNCTIONS);
  let w := port_out w 4 CONFIG_ADDRESS (config_address bus device func (Z.land offset 0xfc)) in
  Done (port_in w 4 CONFIG_DATA).
Definition pci_config_read_u8 (bus device func offset : Z) (w : W) : res (Z * W) :=
  '(v, w) ← pci_config_read_u32 bus device func (Z.land offset 0xfc) w;
  Done (u8 (Z.shiftr v (offset mod 4 * 8)), w).
Definition pci_config_read_u16 (bus device func offset : Z) (w : W) : res (Z * W) :=
  _ ← assert_ (offset mod 2 =? 0);
  '(v, w) ← pci_config_read_u32 bus device func (Z.land offset 0xfc) w;
  Done (u16 (Z.shiftr v (offset mod 4 * 8)), w).

Definition pci_config_write_u32 (bus device func offset value : Z) (w : W) : res W :=
  _ ← assert_ (offset mod 4 =? 0);
  _ ← assert_ (device <? MAX_DEVICES);
  _ ← assert_ (func <? MAX_FUNCTIONS);
  let w := port_out w 4 CONFIG_ADDRESS (config_address bus device func (Z.land offset 0xfc)) in
  Done (port_out w 4 CONFIG_DATA value).
Definition pci_config_write_u16 (bus device func offset value : Z) (w : W) : res W :=
  _ ← assert_ (offset mod 2 =? 0);
  _ ← assert_ (device <? MAX_DEVICES);
  _ ← assert_ (func <? MAX_FUNCTIONS);
  let w := port_out w 4 CONFIG_ADDRESS (config_address bus device func (Z.land offset 0xfe)) in
  Done (port_out w 2 CONFIG_DATA value).
Definition pci_config_write_u8 (bus device func offset value : Z) (w : W) : res W :=
  _ ← assert_ (device <? MAX_DEVICES);
  _ ← assert_ (func <? MAX_FUNCTIONS);
  let w := port_out w 4 CONFIG_ADDRESS (config_address bus device func offset) in
  Done (port_out w 1 CONFIG_DATA value).

Definition get_device_details (bus device func : Z) (w : W) : res (Z * Z * W) :=
  '(vendor, w) ← pci_config_read_u16 bus device func 0 w;
  '(dev, w) ← pci_config_read_u16 bus device func 2 w;
  Done (vendor, dev, w).

(** [for device in 0..MAX_DEVICES], [n] of them left. *)
Fixpoint search_from (n : nat) (dev : Z) (target_vendor_id target_device_id : Z) (w : W)
    : res (option PciDevice * W) :=
  match n with
  | O => Done (None, w)
  | S n =>
      '(vendor, device_id, w) ← get_device_details 0 dev 0 w;
      if (vendor =? target_vendor_id) && (device_id =? target_device_id)
      then Done (Some (new 0 dev 0), w)
      else search_from n (dev + 1) target_vendor_id target_device_id w
  end.
Definition search_bus (target_vendor_id target_device_id : Z) (w : W) : res (option PciDevice * W) :=
  search_from (Z.to_nat MAX_DEVICES) 0 target_vendor_id target_device_id w.

Definition config_read_u8 (d : PciDevice) (offset : Z) (w : W) := pci_config_read_u8 (bus d) (device d) (func d) offset w.
Definition config_read_u16 (d : PciDevice) (offset : Z) (w : W) := pci_config_read_u16 (bus d) (device d) (func d) offset w.
Definition config_read_u32 (d : PciDevice) (offset : Z) (w : W) := pci_config_read_u32 (bus d) (device d) (func d) offset w.
Definition config_write_u8 (d : PciDevice) (offset value : Z) (w : W) :=
  pci_config_write_u8 (bus d) (device d) (func d) offset value w.
Definition config_write_u16 (d : PciDevice) (offset value : Z) (w : W) :=
  pci_config_write_u16 (bus d) (device d) (func d) offset value w.
Definition config_write_u32 (d : PciDevice) (offset value : Z) (w : W) :=
  pci_config_write_u32 (bus d) (device d) (func d) offset value w.

Definition set_bar (d : PciDevice) (i : nat) (b : PciBar) : res PciDevice :=
  bs ← update (bars d) i b;
  Done (mkDev (bus d) (device d) (func d) bs (vendor_id d) (device_id d)).

(** [while current_bar_offset < 0x24]: at most five iterations. *)
Fixpoint bar_loop (fuel : nat) (d : PciDevice) (offset : Z) (current : nat) (w : W)
    : res (PciDevice * W) :=
  match fuel with
  | O => OutOfFuel
  | S fuel =>
      if negb (offset <? 0x24) then Done (d, w)
      else
        '(bar, w) ← config_read_u32 d offset w;
        if Z.land bar 1 =? 1 then
          d ← set_bar d current (mkBar IoSpace (Z.land bar 0xfffffffc));
          bar_loop fuel d (offset + 4) (S current) w
        else
          let kind := Z.land (Z.shiftr bar 1) 3 in
          if kind =? 0 then
            d ← set_bar d current (mkBar MemorySpace32 (Z.land bar 0xfffffff0));
            bar_loop fuel d (offset + 4) (S current) w
          else if kind =? 2 then
            '(high, w) ← config_read_u32 d (offset + 4) w;
            d ← set_bar d current
                  (mkBar MemorySpace64 (u64 (Z.land bar 0xfffffff0 + u64 (Z.shiftl high 32))));
            bar_loop fuel d (offset + 8) (S current) w
          else Panic
  end.

Definition init (d : PciDevice) (w : W) : res (PciDevice * W) :=
  '(vendor, dev, w) ← get_device_details (bus d) (device d) (func d) w;
  bar_loop 6 (mkDev (bus d) (device d) (func d) (bars d) vendor dev) 0x10 0 w.
End Config.
End Pci.

Module PciTransport.
Section Transport.
Context {W : Type} `{Bus W}.

(** [VirtioPciTransport], with the bus it sits on. *)
Record t := mk {
  pci : Pci.PciDevice;
  region : MemoryRegion.t;
  notify_region : MemoryRegion.t;
  notify_off_multiplier : Z;
  device_config_region : MemoryRegion.t;
  wires : W
}.
(** [MemoryRegion::default()] *)
Definition no_region : MemoryRegion.t := MemoryRegion.new 0 0.
Definition new (d : Pci.PciDevice) (w : W) : t := mk d no_region no_region 0 no_region w.

Definition set_wires (s : t) (w : W) : t :=
  mk (pci s) (region s) (notify_region s) (notify_off_multiplier s) (device_config_region s) w.

Definition CommonConfig : Z := 1.
Definition NotifyConfig : Z := 2.
Definition DeviceConfig : Z := 4.

(** The window a capability describes. *)
Definition cap_region (d : Pci.PciDevice) (bar offset length : Z) : res MemoryRegion.t :=
  b ← index (Pci.bars d) (Z.to_nat bar);
  Done (MemoryRegion.new (u64 (Pci.address b + offset)) length).

(** A vendor-specific capability at [cap]; offsets wrap at 8 bits. *)
Definition take_capability (s : t) (cap : Z) : res t :=
  let d := pci s in
  '(cfg_type, w) ← Pci.config_read_u8 d (u8 (cap + 3)) (wires s);
  '(bar, w) ← Pci.config_read_u8 d (u8 (cap + 4)) w;
  '(offset, w) ← Pci.config_read_u32 d (u8 (cap + 8)) w;
  '(length, w) ← Pci.config_read_u32 d (u8 (cap + 12)) w;
  let s := set_wires s w in
  s ← (if cfg_type =? CommonConfig then
         r ← cap_region d bar offset length;
         Done (mk d r (notify_region s) (notify_off_multiplier s) (device_config_region s) (wires s))
       else Done s);
  s ← (if cfg_type =? NotifyConfig then
         r ← cap_region d bar offset length;
         '(mult, w) ← Pci.config_read_u32 d (u8 (cap + 16)) (wires s);
         Done (mk d (region s) r mult (device_config_region s) w)
       else Done s);
  if cfg_type =? DeviceConfig then
    r ← cap_region d bar offset length;
    Done (mk d (region s) (notify_region s) (notify_off_multiplier s) r (wires s))
  else Done s.

(** [while cap_next < 0xff && cap_next > 0] *)
Fixpoint capability_loop (fuel : nat) (s : t) (cap_next : Z) : res t :=
  match fuel with
  | O => OutOfFuel
  | S fuel =>
      if (cap_next <? 0xff) && (0 <? cap_next) then
        '(id, w) ← Pci.config_read_u8 (pci s) cap_next (wires s);
        let s := set_wires s w in
        s ← (if id =? 0x09 then take_capability s cap_next else Done s);
        '(cap_next, w) ← Pci.config_read_u8 (pci s) (u8 (cap_next + 1)) (wires s);
        capability_loop fuel (set_wires s w) cap_next
      else Done s
  end.
(** A list of capabilities visits each of the 256 offsets once at most. *)
Definition CAPABILITY_FUEL : nat := 257.

Definition init (s : t) (device_type : Z) : res (result unit Error * t) :=
  '(d, w) ← Pci.init (pci s) (wires s);
  let s := mk d (region s) (notify_region s) (notify_off_multiplier s) (device_config_region s) w in
  '(status, w) ← Pci.config_read_u16 d 0x06 w;
  let s := set_wires s w in
  if Z.land status (Z.shiftl 1 4) =? 0 then Done (Err VirtioUnsupportedDevice, s)
  else
    '(cap_next, w) ← Pci.config_read_u8 d 0x34 (wires s);
    s ← capability_loop CAPABILITY_FUEL (set_wires s w) cap_next;
    Done (Ok tt, s).

Definition rd (n : nat) (r : MemoryRegion.t) (s : t) (offset : Z) : res (Z * t) :=
  '(v, w) ← region_read n r (wires s) offset; Done (v, set_wires s w).
Definition wr (n : nat) (r : MemoryRegion.t) (s : t) (offset value : Z) : res t :=
  w ← region_write n r (wires s) offset value; Done (set_wires s w).

Definition get_status (s : t) : res (Z * t) := rd 1 (region s) s 0x14.
Definition set_status (s : t) (value : Z) : res t := wr 1 (region s) s 0x14 (u8 value).
Definition add_status (s : t) (value : Z) : res t :=
  '(status, s) ← get_status s; set_status s (Z.lor status value).
Definition reset (s : t) : res t := set_status s 0.
Definition get_features (s : t) : res (Z * t) :=
  s ← wr 4 (region s) s 0x00 0;
  '(lo, s) ← rd 4 (region s) s 0x04;
  s ← wr 4 (region s) s 0x00 1;
  '(hi, s) ← rd 4 (region s) s 0x04;
  Done (Z.lor lo (u64 (Z.shiftl hi 32)), s).
Definition set_features (s : t) (features : Z) : res t :=
  s ← wr 4 (region s) s 0x08 0;
  s ← wr 4 (region s) s 0x0c (u32 features);
  s ← wr 4 (region s) s 0x08 1;
  wr 4 (region s) s 0x0c (u32 (Z.shiftr features 32)).
Definition set_queue (s : t) (queue : Z) : res t := wr 2 (region s) s 0x16 queue.
Definition get_queue_max_size (s : t) : res (Z * t) := rd 2 (region s) s 0x18.
Definition set_queue_size (s : t) (n : Z) : res t := wr 2 (region s) s 0x18 n.
Definition set_descriptors_address (s : t) (addr : Z) : res t := wr 8 (region s) s 0x20 addr.
Definition set_avail_ring (s : t) (addr : Z) : res t := wr 8 (region s) s 0x28 addr.
Definition set_used_ring (s : t) (addr : Z) : res t := wr 8 (region s) s 0x30 addr.
Definition set_queue_enable (s : t) : res t := wr 2 (region s) s 0x1c 1.
Definition notify_queue (s : t) (queue : Z) : res t :=
  '(off, s) ← rd 2 (region s) s 0x1e;
  wr 4 (notify_region s) s (u64 (off * notify_off_multiplier s)) queue.
Definition read_device_config (s : t) (offset : Z) : res (Z * t) :=
  rd 4 (device_config_region s) s offset.
End Transport.
#[global] Arguments t W : clear implicits.
End PciTransport.

#[global] Instance Pci_transport {W} `{Bus W} : VirtioTransport (PciTransport.t W) := {|
  init := PciTransport.init; get_status := PciTransport.get_status;
  set_status := PciTransport.set_status; add_status := PciTransport.add_status;
  reset := PciTransport.reset; get_features := PciTransport.get_features;
  set_features := PciTransport.set_features; set_queue := PciTransport.set_queue;
  get_queue_max_size := PciTransport.get_queue_max_size;
  set_queue_size := PciTransport.set_queue_size;
  set_descriptors_address := PciTransport.set_descriptors_address;
  set_avail_ring := PciTransport.set_avail_ring; set_used_ring := PciTransport.set_used_ring;
  set_queue_enable := PciTransport.set_queue_enable; notify_queue := PciTransport.notify_queue;
  read_device_config := PciTransport.read_device_config
|}.

(** ** Base address registers *)

(** [offset & !3] on a byte. *)
Lemma land_fc o : 0 <= o < 256 -> Z.land o 0xfc = o - o mod 4.
Proof.
  intros Ho. pose proof (Z.mod_pos_bound o 4 ltac:(lia)).
  replace (o - o mod 4) with (o / 4 * 2 ^ 2) by (pose proof (Z.div_mod o 4); lia).
  rewrite <- Z.shiftl_mul_pow2 by lia. change 4 with (2 ^ 2).
  rewrite <- Z.shiftr_div_pow2 by lia. change 0xfc with (Z.shiftl (Z.ones 6) 2).
  apply Z.bits_inj'. intros n Hn. rewrite Z.land_spec, !Z.shiftl_spec by lia.
  destruct (Z.ltb_spec n 2); [rewrite !(Z.testbit_neg_r _ (n - 2)) by lia; apply andb_false_r|].
  rewrite Z.shiftr_spec, Z.sub_add, Z.testbit_ones by lia.
  destruct (Z.leb_spec 0 (n - 2)), (Z.ltb_spec (n - 2) 6); try lia; cbn [andb]; [apply andb_true_r|].
  rewrite <- (Z.mod_small o (2 ^ 8)) by lia. rewrite Z.mod_pow2_bits_high by lia. done.
Qed.

Section Space.
Context {W : Type} `{Bus W}.
Import Pci.

(** The function at [b:dv.f] has the configuration registers [cfg]; reading one
    leaves them as they are. *)
Definition config_space (b dv f : Z) (cfg : Z -> Z) : Prop := forall w offset,
  0 <= offset < 256 -> offset mod 4 = 0 ->
  exists w' : W, pci_config_read_u32 b dv f offset w = Done (cfg offset, w').

(** The registers from [offset] on describe these BARs, as the PCI specification
    has it: bit 0 for I/O space, bits 2-1 for the width, and a 64-bit BAR takes
    the next register for its upper half. *)
Inductive bars_from (cfg : Z -> Z) : Z -> list PciBar -> Prop :=
  | bars_end offset : 0x24 <= offset -> bars_from cfg offset []
  | bars_io offset l : offset < 0x24 -> Z.land (cfg offset) 1 = 1 ->
      bars_from cfg (offset + 4) l ->
      bars_from cfg offset (mkBar IoSpace (Z.land (cfg offset) 0xfffffffc) :: l)
  | bars_32 offset l : offset < 0x24 -> Z.land (cfg offset) 1 = 0 ->
      Z.land (Z.shiftr (cfg offset) 1) 3 = 0 -> bars_from cfg (offset + 4) l ->
      bars_from cfg offset (mkBar MemorySpace32 (Z.land (cfg offset) 0xfffffff0) :: l)
  | bars_64 offset l : offset < 0x24 -> Z.land (cfg offset) 1 = 0 ->
      Z.land (Z.shiftr (cfg offset) 1) 3 = 2 -> bars_from cfg (offset + 8) l ->
      bars_from cfg offset
        (mkBar MemorySpace64
           (u64 (Z.land (cfg offset) 0xfffffff0 + u64 (Z.shiftl (cfg (offset + 4)) 32))) :: l).

Context (b dv f : Z) (cfg : Z -> Z).
Hypothesis (Hcfg : config_space b dv f cfg).

Lemma config_read_at w d offset : bus d = b -> device d = dv -> func d = f ->
  0 <= offset < 256 -> offset mod 4 = 0 ->
  exists w', config_read_u32 d offset w = Done (cfg offset, w').
Proof. intros <- <- <-. apply Hcfg. Qed.

Lemma pci_config_read_u16_spec w offset : 0 <= offset < 256 -> offset mod 2 = 0 ->
  exists w', pci_config_read_u16 b dv f offset w =
    Done (u16 (Z.shiftr (cfg (offset - offset mod 4)) (offset mod 4 * 8)), w').
Proof.
  intros Ho Hm. unfold pci_config_read_u16. rewrite Hm, land_fc by done. cbn [Z.eqb assert_]. rstep.
  destruct (Hcfg w (offset - offset mod 4)) as [w' ->]; [mlia..|]. rstep. eauto.
Qed.

(** Every register that opens a BAR is below 0x24. *)
Lemma bars_from_length offset l : bars_from cfg offset l -> 4 * Z.of_nat (length l) < 0x28 - offset \/ l = [].
Proof. induction 1 as [|? ? ? ? ? IH|? ? ? ? ? ? IH|? ? ? ? ? ? IH]; cbn [length]; [auto|..]; left; destruct IH; subst; cbn [length]; lia. Qed.

Lemma bars_64_inv offset l : bars_from cfg offset l -> offset < 0x24 ->
  Z.land (cfg offset) 1 = 0 -> Z.land (Z.shiftr (cfg offset) 1) 3 = 2 ->
  exists b0 l', l = b0 :: l' /\ bars_from cfg (offset + 8) l'.
Proof. inversion 1; intros; try lia. eauto. Qed.
Lemma bars_32_inv offset l : bars_from cfg offset l -> offset < 0x24 ->
  Z.land (cfg offset) 1 = 0 -> Z.land (Z.shiftr (cfg offset) 1) 3 = 0 ->
  exists l', l = mkBar MemorySpace32 (Z.land (cfg offset) 0xfffffff0) :: l' /\
    bars_from cfg (offset + 4) l'.
Proof. inversion 1; intros; try lia. eauto. Qed.

Lemma bar_loop_spec offset l : bars_from cfg offset l ->
  forall fuel d done rest w, 0x10 <= offset -> offset mod 4 = 0 ->
  bus d = b -> device d = dv -> func d = f -> bars d = done ++ rest ->
  (length l < fuel)%nat -> (length l <= length rest)%nat ->
  exists w', bar_loop fuel d offset (length done) w =
    Done (mkDev b dv f (done ++ l ++ drop (length l) rest) (vendor_id d) (device_id d), w').
Proof.
  induction 1 as [offset He|offset l Ho Hb Hl IH|offset l Ho Hb Hk Hl IH|offset l Ho Hb Hk Hl IH];
    intros fuel d dn rest w Hlo Hm Eb Ed Ef Ebars Hf Hr; destruct fuel as [|fuel]; try (cbn in Hf; lia);
    cbn [bar_loop length] in *.
  { rewrite (proj2 (Z.ltb_ge _ _)) by lia. cbn [negb]. exists w. destruct d; cbn in *; subst. done. }
  all: rewrite (proj2 (Z.ltb_lt _ _)) by lia; cbn [negb];
    destruct (config_read_at w d offset) as [w1 ->]; [auto; lia..|]; rstep; rewrite Hb; cbn [Z.eqb Pos.eqb];
    try rewrite Hk; cbn [Z.eqb Pos.eqb].
  3: destruct (config_read_at w1 d (offset + 4)) as [w2 ->]; [auto; mlia..|]; rstep.
  all: destruct rest as [|old rest]; [cbn in Hr; lia|]; unfold set_bar; rewrite Ebars;
    rewrite (update_lt (dn ++ old :: rest)) by (rewrite length_app; cbn; lia); rstep;
    rewrite insert_app_r_alt, Nat.sub_diag by lia; cbn [insert list_insert];
    match goal with |- context [bar_loop ?fu ?d' _ _ ?w'] =>
      match d' with mkDev _ _ _ (_ ++ ?x :: _) _ _ =>
        destruct (IH fu d' (dn ++ [x]) rest w') as [w3 E] end end;
    try (cbn in *; try rewrite <- app_assoc; auto; mlia).
  all: rewrite length_app, Nat.add_1_r in E; rewrite E; exists w3; rewrite <- !app_assoc; done.
Qed.

Lemma get_device_details_spec w : exists w',
  get_device_details b dv f w = Done (u16 (cfg 0), u16 (Z.shiftr (cfg 0) 16), w').
Proof.
  unfold get_device_details. destruct (pci_config_read_u16_spec w 0) as [w1 ->]; [lia|done|]. rstep.
  destruct (pci_config_read_u16_spec w1 2) as [w2 ->]; [lia|done|]. rstep.
  exists w2. rewrite Z.shiftr_0_r. done.
Qed.
End Space.

(** [PciDevice::init] on a function whose registers from 0x10 describe the BARs [l]:
    it ends, the identifiers are the two halves of register 0, and the table holds
    [l] packed from entry 0, the rest unused.  The loop stops before 0x24, the
    sixth register, so the last entry is always unused; and the table is indexed by
    position in [l], not by register: behind a 64-bit BAR 0, entry 1 is the BAR of
    register 0x18, which a capability calls BAR 2. *)
Theorem pci_init_packs_bars {W} `{Bus W} (w : W) b dv f (d := Pci.new b dv f) cfg l
    (Hcfg : config_space (W := W) b dv f cfg) (Hbars : bars_from cfg 0x10 l) :
  exists w' bs,
    Pci.init d w =
      Done (Pci.mkDev b dv f bs (u16 (cfg 0)) (u16 (Z.shiftr (cfg 0) 16)), w') /\
    bs = l ++ replicate (6 - length l) Pci.default_bar /\
    bs !! 5%nat = Some Pci.default_bar /\
    (Z.land (cfg 0x10) 1 = 0 -> Z.land (Z.shiftr (cfg 0x10) 1) 3 = 2 ->
     bars_from cfg 0x18 (tail l) /\
     (Z.land (cfg 0x18) 1 = 0 -> Z.land (Z.shiftr (cfg 0x18) 1) 3 = 0 ->
      bs !! 1%nat = Some (Pci.mkBar Pci.MemorySpace32 (Z.land (cfg 0x18) 0xfffffff0)))).
Proof.
  assert (Hl : (length l <= 5)%nat).
  { destruct (bars_from_length cfg 0x10 l Hbars); [lia|subst; cbn; lia]. }
  unfold Pci.init, d. cbn [Pci.new Pci.bus Pci.device Pci.func Pci.bars].
  destruct (get_device_details_spec b dv f cfg Hcfg w) as [w1 ->]. rstep.
  destruct (bar_loop_spec b dv f cfg Hcfg 0x10 l Hbars 6
    (Pci.mkDev b dv f (replicate 6 Pci.default_bar) (u16 (cfg 0)) (u16 (Z.shiftr (cfg 0) 16)))
    [] (replicate 6 Pci.default_bar) w1) as [w2 E]; [lia|done..|lia|cbn; lia|].
  cbn [length] in E. rewrite E. exists w2, (l ++ replicate (6 - length l) Pci.default_bar).
  rewrite app_nil_l, drop_replicate. split_and!; [done..| |].
  - rewrite lookup_app_r by lia. apply lookup_replicate. split; [done|lia].
  - intros Hb Hk. destruct (bars_64_inv cfg 0x10 l Hbars) as (b0 & l0 & -> & Hl0); [lia|done..|].
    split; [done|]. intros Hb' Hk'.
    destruct (bars_32_inv cfg 0x18 l0 Hl0) as (l1 & -> & _); [lia|done..].
Qed.

(** A bus with one function on it: the state is the address port. *)
Definition demo_cfg (offset : Z) : Z :=
  if offset =? 0 then 0x10421af4 else if offset =? 0x10 then 0xfe00000c
  else if offset =? 0x14 then 1 else if offset =? 0x18 then 0xfebf0000
  else if offset =? 0x1c then 0xc001 else 0.
#[local] Instance demo_bus : Bus Z := {|
  port_in w _ _ := (demo_cfg (Z.land w 0xfc), w);
  port_out w _ p v := if p =? Pci.CONFIG_ADDRESS then v else w;
  io_in w _ _ := (0, w);
  io_out w _ _ _ := w
|}.

Lemma demo_config_space : config_space (W := Z) 0 3 0 demo_cfg.
Proof.
  intros w offset Ho Hm. unfold Pci.pci_config_read_u32. rewrite Hm. rstep. eexists.
  enough (E : Z.land (Pci.config_address 0 3 0 (Z.land offset 0xfc)) 0xfc = offset)
    by (cbn - [Z.land Pci.config_address demo_cfg]; rewrite E; reflexivity).
  unfold Pci.config_address. rewrite !Z.land_lor_distr_l, <- (Z.land_assoc offset), Z.land_diag, (land_fc offset), Hm by done.
  change (Z.lor (Z.lor 0 (offset - 0)) 0 = offset). rewrite Z.lor_0_l, Z.lor_0_r. lia.
Qed.

Lemma pci_init_packs_bars_witness : exists w' bs,
  Pci.init (Pci.new 0 3 0) 0 = Done (Pci.mkDev 0 3 0 bs 0x1af4 0x1042, w') /\
  bs !! 1%nat = Some (Pci.mkBar Pci.MemorySpace32 0xfebf0000).
Proof.
  destruct (pci_init_packs_bars 0 0 3 0 demo_cfg
    [Pci.mkBar Pci.MemorySpace64 0x1fe000000; Pci.mkBar Pci.MemorySpace32 0xfebf0000;
     Pci.mkBar Pci.IoSpace 0xc000; Pci.mkBar Pci.MemorySpace32 0] demo_config_space)
    as (w' & bs & E & _ & _ & H1).
  - apply (bars_64 demo_cfg 0x10); [lia|reflexivity..|].
    apply (bars_32 demo_cfg 0x18); [lia|reflexivity..|].
    apply (bars_io demo_cfg 0x1c); [lia|reflexivity..|].
    apply (bars_32 demo_cfg 0x20); [lia|reflexivity..|]. apply bars_end. lia.
  - exists w', bs. split; [exact E|]. apply H1; reflexivity.
Defined.
