(* ===== verification/EfiStr.v ===== *)
(** * UCS-2 strings (efi-str/src/encoder.rs, efi-str/src/os_str.rs, src/common.rs)

    A [&str] is the list of its UTF-8 bytes, a UCS-2 string the list of its
    16-bit units, a pointer to units the function from index to unit. *)

From S2P Require Import Prelude.

Module Encoder.
Inductive Error := BufferOverFlow | MultiByte | NotUtf8String | Impossible.

(** [encode_fnc] with its callback, a function on the state [S] it captures.
    The four-byte case does not advance, so the loop runs on fuel. *)
Fixpoint encode_fnc {S} (fuel : nat) (fnc : S -> result Z Error -> res (result nat Error * S))
    (input : list Z) (bytes_index : nat) (s : S) : res (result nat Error * S) :=
  match fuel with
  | O => OutOfFuel
  | Datatypes.S fuel =>
      let bytes_len := length input in
      if (bytes_len <=? bytes_index)%nat then Done (Ok bytes_index, s)
      else
        b ← index input bytes_index;
        let next (ret : result Z Error) (bytes_index : nat) :=
          '(r, s) ← fnc s ret;
          match r with
          | Err e => Done (Err e, s)
          | Ok _ => encode_fnc fuel fnc input bytes_index s
          end in
        if b <=? 0x7f then next (Ok b) (bytes_index + 1)%nat
        else if (0xc0 <=? b) && (b <=? 0xdf) then
          if (bytes_len <? bytes_index + 2)%nat then Done (Err NotUtf8String, s)
          else
            b1 ← index input (bytes_index + 1);
            next (Ok (Z.lor (u16 (Z.shiftl (Z.land b 0x1f) 6)) (Z.land b1 0x3f))) (bytes_index + 2)%nat
        else if (0xe0 <=? b) && (b <=? 0xef) then
          if (bytes_len <? bytes_index + 3)%nat then Done (Err NotUtf8String, s)
          else
            b1 ← index input (bytes_index + 1);
            b2 ← index input (bytes_index + 2);
            next (Ok (Z.lor (Z.lor (u16 (Z.shiftl (Z.land b 0x0f) 12))
                                   (u16 (Z.shiftl (Z.land b1 0x3f) 6)))
                            (Z.land b2 0x3f))) (bytes_index + 3)%nat
        else if (0xf0 <=? b) && (b <=? 0xf7) then
          if (bytes_len <? bytes_index + 4)%nat then Done (Err NotUtf8String, s)
          else next (Err MultiByte) bytes_index
        else Done (Err NotUtf8String, s)
  end.

(** The callback of [encode]: [i] and the buffer. *)
Definition encode_callback (s : nat * list Z) (ret : result Z Error)
    : res (result nat Error * (nat * list Z)) :=
  let '(i, buffer) := s in
  match ret with
  | Ok ch =>
      if (length buffer + 1 <? i)%nat then Done (Err BufferOverFlow, s)
      else
        buffer ← update buffer i ch;
        Done (Ok (Datatypes.S i), (Datatypes.S i, buffer))
  | Err e => Done (Err e, s)
  end.

Definition encode (input : list Z) (buffer : list Z) : res (result nat Error * list Z) :=
  '(r, (i, buffer)) ← encode_fnc (Datatypes.S (length input)) encode_callback input 0 (0%nat, buffer);
  Done (match r with Ok _ => Ok i | Err e => Err e end, buffer).

(** One unit of [decode]: [index] and the buffer after it. *)
Definition decode_unit (ch : Z) (index : nat) (buffer : list Z)
    : res (result nat Error * list Z) :=
  let buffer_size := length buffer in
  if ch <=? 0x7f then
    if (buffer_size <? index + 1)%nat then Done (Err BufferOverFlow, buffer)
    else
      buffer ← update buffer index (u8 ch);
      Done (Ok (index + 1)%nat, buffer)
  else if ch <=? 0x7ff then
    if (buffer_size <? index + 2)%nat then Done (Err BufferOverFlow, buffer)
    else
      let ch0_6 := u8 (Z.shiftr (u16 (Z.shiftl ch 10)) 10) in
      let ch6_12 := u8 (Z.shiftr (u16 (Z.shiftl ch 5)) 11) in
      buffer ← update buffer index (u8 (0xc0 + ch6_12));
      buffer ← update buffer (index + 1) (u8 (0x80 + ch0_6));
      Done (Ok index, buffer)
  else
    if (buffer_size <? index + 3)%nat then Done (Err BufferOverFlow, buffer)
    else
      let ch0_6 := u8 (Z.shiftr (u16 (Z.shiftl ch 10)) 10) in
      let ch6_12 := u8 (Z.shiftr (u16 (Z.shiftl ch 4)) 10) in
      let ch12_16 := u8 (Z.shiftr ch 12) in
      buffer ← update buffer index (u8 (0xe0 + ch12_16));
      buffer ← update buffer (index + 1) (u8 (0x80 + ch6_12));
      buffer ← update buffer (index + 2) (u8 (0x80 + ch0_6));
      Done (Ok (index + 3)%nat, buffer).

Fixpoint decode_from (input : list Z) (index : nat) (buffer : list Z)
    : res (result nat Error * list Z) :=
  match input with
  | [] => Done (Ok index, buffer)
  | ch :: input =>
      '(r, buffer) ← decode_unit ch index buffer;
      match r with
      | Err e => Done (Err e, buffer)
      | Ok index => decode_from input index buffer
      end
  end.

Definition decode (input buffer : list Z) : res (result nat Error * list Z) :=
  decode_from input 0 buffer.
End Encoder.

Module OsStr.
(** [char16_with_null_len]: the loop tests the low byte only. *)
Fixpoint char16_with_null_len (fuel : nat) (s : nat -> Z) (len : nat) : res nat :=
  match fuel with
  | O => OutOfFuel
  | S fuel => if Z.land (s len) 0xff =? 0 then Done len else char16_with_null_len fuel s (S len)
  end.

(** [from_u16_slice_with_nul]: a length past the slice is a slicing panic; the
    units past the slice are whatever memory holds there. *)
Definition from_u16_slice_with_nul (beyond : nat -> Z) (s : list Z) : res (list Z) :=
  len ← char16_with_null_len (S (length s))
          (fun i => if decide (i < length s)%nat then nth i s 0 else beyond i) 0;
  if (length s <? len)%nat then Panic else Done (take len s).

(** The characters of a valid UTF-8 string. *)
Fixpoint chars (bytes : list Z) : list Z :=
  match bytes with
  | [] => []
  | b :: rest =>
      if b <? 0x80 then b :: chars rest
      else match rest with
           | [] => []
           | b1 :: rest1 =>
               if b <? 0xe0 then (Z.land b 0x1f * 64 + Z.land b1 0x3f) :: chars rest1
               else match rest1 with
                    | [] => []
                    | b2 :: rest2 =>
                        if b <? 0xf0 then
                          (Z.land b 0x0f * 4096 + Z.land b1 0x3f * 64 + Z.land b2 0x3f) :: chars rest2
                        else match rest2 with
                             | [] => []
                             | b3 :: rest3 =>
                                 (Z.land b 0x07 * 262144 + Z.land b1 0x3f * 4096
                                  + Z.land b2 0x3f * 64 + Z.land b3 0x3f) :: chars rest3
                             end
                    end
           end
  end.

(** [PartialEq<str> for OsStr]: the characters against the units. *)
Fixpoint eq_units (cs units : list Z) : bool :=
  match cs, units with
  | c :: cs, u :: units => if negb (c =? u) then false else eq_units cs units
  | _, _ => true
  end.
Definition eq_str (units : list Z) (other : list Z) : bool :=
  if (length units =? length (chars other))%nat then eq_units (chars other) units else false.
Definition eq_os (units other : list Z) : bool :=
  if (length other =? length units)%nat then bool_decide (units = other) else false.

(** [OsString::push] and [From<&OsStr>]. *)
Definition push (s units : list Z) : list Z := s ++ units.
(** [From<&str> for OsString] *)
Definition string_from_str (s : list Z) : res (list Z) :=
  '(_, units) ← Encoder.encode_fnc (S (length s))
    (fun (units : list Z) ret =>
       match ret with
       | Ok ch => Done (Ok (length (units ++ [ch])), units ++ [ch])
       | Err e => Done (Err e, units)
       end) s 0 [];
  Done (units ++ [0]).
End OsStr.

(** [ucs2_as_ascii_length], [ucs2_to_ascii], [ascii_to_ucs2] and
    [ascii_length] of src/common.rs. *)
Module Common.
Fixpoint ucs2_as_ascii_length (fuel : nat) (input : nat -> Z) (len : nat) : res nat :=
  match fuel with
  | O => OutOfFuel
  | S fuel => if Z.land (input len) 0xff =? 0 then Done len else ucs2_as_ascii_length fuel input (S len)
  end.

Fixpoint ucs2_to_ascii_loop (n : nat) (input : nat -> Z) (i : nat) (output : list Z) : res (list Z) :=
  match n with
  | O => Done output
  | S n =>
      let v := Z.land (input i) 0xff in
      output ← update output i v;
      if v =? 0 then Done output else ucs2_to_ascii_loop n input (S i) output
  end.
Definition ucs2_to_ascii (fuel : nat) (input : nat -> Z) (output : list Z) : res (list Z) :=
  len ← ucs2_as_ascii_length fuel input 0;
  _ ← assert_ (len <=? length output)%nat;
  ucs2_to_ascii_loop (length output) input 0 output.

Fixpoint ascii_to_ucs2_from (bytes : list Z) (i : nat) (output : list Z) : res (list Z) :=
  match bytes with
  | [] => Done output
  | c :: bytes => output ← update output i c; ascii_to_ucs2_from bytes (S i) output
  end.
Definition ascii_to_ucs2 (input output : list Z) : res (list Z) :=
  _ ← assert_ (length input <=? length output)%nat;
  ascii_to_ucs2_from input 0 output.

Fixpoint ascii_length (fuel : nat) (input : nat -> Z) (maxlen : nat) (len : nat) : res nat :=
  match fuel with
  | O => OutOfFuel
  | S fuel =>
      if input len =? 0 then Done len
      else if (maxlen <? len)%nat then Done len
      else ascii_length fuel input maxlen (S len)
  end.
End Common.

Import Encoder.

(** ** Round trip *)

(** The bytes [decode] writes for a unit of one or three bytes. *)
Definition utf8 (ch : Z) : list Z :=
  if ch <=? 0x7f then [ch]
  else [0xe0 + ch / 4096; 0x80 + ch / 64 mod 64; 0x80 + ch mod 64].

Definition one_or_three (ch : Z) : Prop := 0 <= ch <= 0x7f \/ 0x800 <= ch < 2 ^ 16.

Lemma low_bits x k n : 0 <= k -> 0 <= n -> Z.shiftr ((Z.shiftl x k) mod 2 ^ (k + n)) k = x mod 2 ^ n.
Proof.
  intros Hk Hn. rewrite Z.shiftr_div_pow2, Z.shiftl_mul_pow2 by done.
  rewrite (Z.mul_comm x), Z.pow_add_r, Z.mul_mod_distr_l by lia.
  rewrite Z.mul_comm. apply Z.div_mul. lia.
Qed.

Lemma insert_middle {A} (pre : list A) x y post :
  <[length pre := y]> (pre ++ x :: post) = pre ++ y :: post.
Proof. rewrite insert_app_r_alt, Nat.sub_diag by lia. done. Qed.

(** Writing a run of bytes over the rest of the buffer. *)
Definition overlay (pre bs rest : list Z) : list Z := pre ++ bs ++ drop (length bs) rest.

Lemma decode_unit_spec ch pre rest : one_or_three ch -> (length (utf8 ch) <= length rest)%nat ->
  decode_unit ch (length pre) (pre ++ rest) =
  Done (Ok (length pre + length (utf8 ch))%nat, overlay pre (utf8 ch) rest).
Proof.
  intros Hch Hl. unfold decode_unit, utf8, overlay in *. rewrite length_app.
  destruct (Z.leb_spec ch 0x7f) as [H7|H7].
  - destruct rest as [|r0 rest]; [cbn in Hl; lia|].
    rewrite (proj2 (Nat.ltb_ge _ _)) by (cbn; lia).
    rewrite update_lt by (rewrite !length_app; cbn [length]; lia). rstep. rewrite insert_middle.
    rewrite (wrap_small 8) by (destruct Hch; norm_pow; lia). cbn. by rewrite drop_0.
  - destruct rest as [|r0 [|r1 [|r2 rest]]]; [cbn in Hl; lia..|]. destruct Hch as [?|Hch]; [lia|].
    rewrite (proj2 (Z.leb_gt _ _)) by lia. rewrite (proj2 (Nat.ltb_ge _ _)) by (cbn; lia).
    assert (E1 : u8 (Z.shiftr (u16 (Z.shiftl ch 10)) 10) = ch mod 64).
    { unfold wrap. change 16 with (10 + 6). rewrite low_bits by lia. mlia. }
    assert (E2 : u8 (Z.shiftr (u16 (Z.shiftl ch 4)) 10) = ch / 64 mod 64).
    { unfold wrap. change 16 with (4 + 12). replace 10 with (4 + 6) by done.
      rewrite <- Z.shiftr_shiftr, low_bits by lia.
      rewrite Z.shiftr_div_pow2 by lia. norm_pow. mlia. }
    rewrite E1, E2. rewrite (Z.shiftr_div_pow2 ch 12) by lia.
    rewrite (wrap_small 8 (ch / 2 ^ 12)), !(wrap_small 8) by mlia.
    rewrite update_lt by (rewrite !length_app; cbn [length]; lia). rstep. rewrite insert_middle.
    rewrite update_lt by (rewrite !length_app; cbn [length]; lia). rstep. rewrite insert_app_r.
    rewrite update_lt by (rewrite !length_app; cbn [length insert list_insert]; lia). rstep. rewrite insert_app_r.
    change (2 ^ 12) with 4096. cbn [insert list_insert length app]. done.
Qed.

Definition utf8_all (cs : list Z) : list Z := concat (map utf8 cs).

Lemma overlay_next pre bs rest :
  overlay pre bs rest = (pre ++ bs) ++ drop (length bs) rest.
Proof. unfold overlay. by rewrite app_assoc. Qed.

Lemma decode_from_spec cs pre rest :
  Forall one_or_three cs -> (length (utf8_all cs) <= length rest)%nat ->
  decode_from cs (length pre) (pre ++ rest) =
  Done (Ok (length pre + length (utf8_all cs))%nat, overlay pre (utf8_all cs) rest).
Proof.
  intros Hcs. revert pre rest. induction Hcs as [|ch cs Hch Hcs IH]; intros pre rest Hl; cbn [decode_from].
  { unfold overlay. cbn. by rewrite drop_0, Nat.add_0_r. }
  unfold utf8_all in *. cbn [map concat] in *. rewrite length_app in *.
  rewrite decode_unit_spec by (try done; lia). rstep. rewrite overlay_next, <- length_app.
  rewrite IH by (rewrite length_drop; lia). unfold overlay.
  rewrite drop_drop, length_app, !length_app, <- !app_assoc. do 2 f_equal. f_equal. lia.
Qed.

(** Units read back from the three bytes of a unit. *)
Lemma three_bytes ch : 0 <= ch < 2 ^ 16 ->
  Z.lor (Z.lor (u16 (Z.shiftl (Z.land (0xe0 + ch / 4096) 0x0f) 12))
               (u16 (Z.shiftl (Z.land (0x80 + ch / 64 mod 64) 0x3f) 6)))
        (Z.land (0x80 + ch mod 64) 0x3f) = ch.
Proof.
  intros Hch.
  change 0x0f with (Z.ones 4). change 0x3f with (Z.ones 6). rewrite !Z.land_ones by lia.
  rewrite !Z.shiftl_mul_pow2 by lia.
  replace ((0xe0 + ch / 4096) mod 2 ^ 4) with (ch / 4096) by mlia.
  replace ((0x80 + ch / 64 mod 64) mod 2 ^ 6) with (ch / 64 mod 64) by mlia.
  replace ((0x80 + ch mod 64) mod 2 ^ 6) with (ch mod 64) by mlia.
  rewrite !wrap_small by mlia.
  assert (Hdisj : forall a b k, 0 <= k -> 0 <= b < 2 ^ k -> Z.lor (a * 2 ^ k) b = a * 2 ^ k + b).
  { intros a b k Hk Hb. rewrite <- Z.shiftl_mul_pow2 by done. rewrite Z.add_nocarry_lxor, Z.lxor_lor; [done| |].
    all: apply Z.bits_inj'; intros n Hn; rewrite Z.land_spec, Z.bits_0, Z.shiftl_spec by done.
    all: destruct (decide (n < k)) as [Hlt|Hge]; [by rewrite (Z.testbit_neg_r a) by lia|].
    all: replace (Z.testbit b n) with false; [by rewrite andb_false_r|].
    all: symmetry; destruct (decide (b = 0)) as [->|]; [apply Z.bits_0|].
    all: apply Z.bits_above_log2; [lia|]; assert (Z.log2 b < k) by (apply Z.log2_lt_pow2; lia); lia. }
  rewrite (Hdisj (ch / 4096) _ 12) by mlia.
  replace (ch / 4096 * 2 ^ 12 + ch / 64 mod 64 * 2 ^ 6) with (ch / 64 * 2 ^ 6) by mlia.
  rewrite Hdisj by mlia. mlia.
Qed.

Lemma index_app {A} (pre : list A) x post : index (pre ++ x :: post) (length pre) = Done x.
Proof. unfold index. by rewrite list_lookup_middle. Qed.

(** The callback writes one unit and advances. *)
Lemma encode_callback_ok k us r rest ch : length us = k ->
  encode_callback (k, us ++ r :: rest) (Ok ch) = Done (Ok (S k), (S k, us ++ ch :: rest)).
Proof.
  intros Hk. subst k. unfold encode_callback. rewrite length_app. cbn [length].
  rewrite (proj2 (Nat.ltb_ge _ _)) by lia.
  rewrite update_lt by (rewrite length_app; cbn [length]; lia). rstep. by rewrite insert_middle.
Qed.

(** The callback's buffer after [k] units. *)
Lemma encode_fnc_spec cs fuel pre k us rest :
  Forall one_or_three cs -> (length cs < fuel)%nat -> length us = k ->
  (length cs <= length rest)%nat ->
  encode_fnc fuel encode_callback (pre ++ utf8_all cs) (length pre) (k, us ++ rest) =
  Done (Ok (length pre + length (utf8_all cs))%nat,
        ((k + length cs)%nat, us ++ cs ++ drop (length cs) rest)).
Proof.
  intros Hcs. revert fuel pre k us rest.
  induction Hcs as [|ch cs Hch Hcs IH]; intros fuel pre k us rest Hf Hk Hl;
    (destruct fuel as [|fuel]; [cbn in Hf; lia|]); cbn [encode_fnc].
  { cbn [utf8_all map concat length]. rewrite app_nil_r, (proj2 (Nat.leb_le _ _)) by lia.
    by rewrite drop_0, !Nat.add_0_r. }
  unfold utf8_all in *. cbn [map concat]. set (tl := concat (map utf8 cs)) in *.
  destruct rest as [|r rest]; [cbn in Hl; lia|]. cbn [length] in Hf, Hl.
  assert (Hcb : forall pre', (forall fuel us', (length cs < fuel)%nat -> length us' = S k ->
      encode_fnc fuel encode_callback (pre' ++ tl) (length pre') (S k, us' ++ rest) =
      Done (Ok (length pre' + length tl)%nat, ((S k + length cs)%nat, us' ++ cs ++ drop (length cs) rest))) ->
    ('(r0, s) ← encode_callback (k, us ++ r :: rest) (Ok ch);
     match r0 with
     | Ok _ => encode_fnc fuel encode_callback (pre' ++ tl) (length pre') s
     | Err e => Done (Err e, s)
     end) = Done (Ok (length pre' + length tl)%nat,
        ((k + S (length cs))%nat, us ++ (ch :: cs) ++ drop (S (length cs)) (r :: rest)))).
  { intros pre' Hrec. rewrite encode_callback_ok by done. rstep.
    replace (us ++ ch :: rest) with ((us ++ [ch]) ++ rest) by (by rewrite <- app_assoc).
    rewrite Hrec by (rewrite ?length_app; cbn [length]; lia).
    rewrite <- app_assoc. replace (S k + length cs)%nat with (k + S (length cs))%nat by lia. done. }
  assert (Hrec : forall pre' fuel us', (length cs < fuel)%nat -> length us' = S k ->
      encode_fnc fuel encode_callback (pre' ++ tl) (length pre') (S k, us' ++ rest) =
      Done (Ok (length pre' + length tl)%nat, ((S k + length cs)%nat, us' ++ cs ++ drop (length cs) rest)))
    by (intros; apply IH; auto; lia).
  unfold utf8. destruct (Z.leb_spec ch 0x7f) as [H7|H7].
  - rewrite (proj2 (Nat.leb_gt _ _)) by (rewrite length_app; cbn; lia).
    cbn [app]. rewrite index_app; rstep. rewrite (proj2 (Z.leb_le _ _)) by lia.
    rewrite (cons_middle ch pre tl), app_assoc.
    replace (length pre + 1)%nat with (length (pre ++ [ch])) by (rewrite length_app; cbn; lia).
    rewrite (Hcb (pre ++ [ch])) by (intros; apply Hrec; auto; lia).
    rewrite !length_app. cbn [length]. do 3 f_equal. lia.
  - destruct Hch as [?|Hch]; [lia|]. cbn [app].
    set (b0 := 0xe0 + ch / 4096). set (b1 := 0x80 + ch / 64 mod 64). set (b2 := 0x80 + ch mod 64).
    assert (Hb0 : 0xe0 <= b0 <= 0xef) by (subst b0; mlia).
    rewrite (proj2 (Nat.leb_gt _ _)) by (rewrite length_app; cbn; lia).
    rewrite index_app; rstep. rewrite (proj2 (Z.leb_gt b0 0x7f)) by lia.
    rewrite (proj2 (Z.leb_le 0xc0 b0)), (proj2 (Z.leb_gt b0 0xdf)) by lia. cbn [andb].
    rewrite (proj2 (Z.leb_le 0xe0 b0)), (proj2 (Z.leb_le b0 0xef)) by lia. cbn [andb].
    rewrite (proj2 (Nat.ltb_ge _ _)) by (rewrite length_app; cbn; lia).
    assert (E1 : index (pre ++ b0 :: b1 :: b2 :: tl) (length pre + 1) = Done b1).
    { unfold index. by rewrite lookup_app_r, Nat.add_comm, Nat.add_sub by lia. }
    assert (E2 : index (pre ++ b0 :: b1 :: b2 :: tl) (length pre + 2) = Done b2).
    { unfold index. by rewrite lookup_app_r, Nat.add_comm, Nat.add_sub by lia. }
    rewrite E1; rstep. rewrite E2; rstep.
    assert (E3 := three_bytes ch). fold b0 b1 b2 in E3. rewrite E3 by lia.
    replace (pre ++ b0 :: b1 :: b2 :: tl) with ((pre ++ [b0; b1; b2]) ++ tl) by (by rewrite <- app_assoc).
    replace (length pre + 3)%nat with (length (pre ++ [b0; b1; b2])) by (rewrite length_app; cbn; lia).
    rewrite (Hcb (pre ++ [b0; b1; b2])) by (intros; apply Hrec; auto; lia).
    rewrite !length_app. cbn [length]. do 3 f_equal. lia.
Qed.

(** The two-byte case writes at [index] and does not advance. *)
Lemma decode_unit_two_byte ch r0 r1 rest : 0x80 <= ch <= 0x7ff ->
  exists a b, decode_unit ch 0 (r0 :: r1 :: rest) = Done (Ok 0%nat, a :: b :: rest).
Proof.
  intros Hch. unfold decode_unit.
  rewrite (proj2 (Z.leb_gt ch 0x7f)), (proj2 (Z.leb_le ch 0x7ff)) by lia.
  rewrite (proj2 (Nat.ltb_ge _ _)) by (cbn; lia).
  rewrite update_lt by (cbn; lia). rstep. rewrite update_lt by (cbn; lia). rstep.
  eexists _, _. reflexivity.
Qed.

(** ** Strings that end at a NUL *)

(** The units before the first one whose low byte is 0. *)
Definition up_to_nul (l nm : list Z) : Prop := exists z rest,
  l = nm ++ z :: rest /\ z mod 256 = 0 /\ Forall (fun u => u mod 256 <> 0) nm.
Lemma char16_len_spec s nm z : z mod 256 = 0 -> Forall (fun u => u mod 256 <> 0) nm -> forall fuel k,
  (forall i u, (nm ++ [z]) !! i = Some u -> s (k + i)%nat = u) -> (length nm < fuel)%nat ->
  OsStr.char16_with_null_len fuel s k = Done (k + length nm)%nat.
Proof.
  intros Hz Hnm. assert (Hland : forall x, Z.land x 0xff = x mod 256) by (intros; apply (Z.land_ones _ 8); lia).
  induction Hnm as [|u nm Hu _ IH]; intros [|fuel] k Hs Hf; cbn [length] in *; [lia| |lia|];
    cbn [OsStr.char16_with_null_len]; rewrite Hland; pose proof (Hs 0%nat _ eq_refl) as H0; rewrite Nat.add_0_r in H0.
  - rewrite H0, Hz. cbn. by rewrite Nat.add_0_r.
  - rewrite H0, (proj2 (Z.eqb_neq _ _)) by done. rewrite (IH fuel (S k)) by (lia || (intros i v Hi;
      rewrite <- (Hs (S i) v Hi); f_equal; lia)). f_equal. lia.
Qed.

Lemma up_to_nul_cut beyond l nm : up_to_nul l nm -> OsStr.from_u16_slice_with_nul beyond l = Done nm.
Proof.
  intros (z & rest & -> & Hz & Hnm). unfold OsStr.from_u16_slice_with_nul.
  rewrite (char16_len_spec _ nm z Hz Hnm); [|intros i u Hi|rewrite length_app; lia].
  - rstep. rewrite Nat.add_0_l, (proj2 (Nat.ltb_ge _ _)) by (rewrite length_app; lia). by rewrite take_app_length.
  - pose proof (lookup_lt_Some _ _ _ Hi) as Hlt. rewrite length_app in Hlt. cbn in Hlt |- *.
    rewrite decide_True by (rewrite length_app; cbn; lia). apply nth_lookup_Some.
    change (z :: rest) with ([z] ++ rest). rewrite app_assoc. by apply lookup_app_l_Some.
Qed.

(** [==] on strings is equality of the units with the characters. *)
Lemma eq_str_spec units other : OsStr.eq_str units other = bool_decide (units = OsStr.chars other).
Proof.
  unfold OsStr.eq_str. generalize (OsStr.chars other) as cs. intros cs.
  destruct (Nat.eqb_spec (length units) (length cs)) as [E|E]; [|rewrite bool_decide_eq_false_2; [done|by intros ->]].
  revert cs E. induction units as [|u units IH]; intros [|c cs] E; try discriminate E; [done|].
  cbn [OsStr.eq_units]. destruct (Z.eqb_spec c u) as [->|Hne]; cbn [negb].
  - injection E as E. rewrite (IH cs E). apply bool_decide_ext. split; [by intros ->|by intros [=]].
  - rewrite bool_decide_eq_false_2; [done|]. by intros [=].
Qed.

(** ** Properties *)

(** On UCS-2 strings whose units are ASCII or at least U+0800, decoding
    to UTF-8 and encoding back is the identity: [decode] into a large enough
    buffer gives the UTF-8 bytes and [encode] of those gives the units. *)
Theorem ucs2_utf8_roundtrip cs n :
  Forall one_or_three cs -> (length (utf8_all cs) <= n)%nat ->
  decode cs (replicate n 0) =
    Done (Ok (length (utf8_all cs)), utf8_all cs ++ replicate (n - length (utf8_all cs)) 0) /\
  encode (utf8_all cs) (replicate (length cs) 0) = Done (Ok (length cs), cs).
Proof.
  intros Hcs Hn. split.
  - unfold decode. assert (E := decode_from_spec cs [] (replicate n 0) Hcs).
    cbn [app length Nat.add] in E. rewrite E by (by rewrite length_replicate).
    unfold overlay. by rewrite drop_replicate.
  - unfold encode. assert (Hlen : (length cs <= length (utf8_all cs))%nat).
    { clear. unfold utf8_all. induction cs as [|c cs IH]; cbn [map concat length]; [lia|].
      rewrite length_app. unfold utf8 at 1. destruct (c <=? 0x7f); cbn [length]; lia. }
    assert (E := encode_fnc_spec cs (S (length (utf8_all cs))) [] 0 [] (replicate (length cs) 0) Hcs).
    cbn [app length Nat.add] in E. rewrite E by (rewrite ?length_replicate; lia).
    rstep. rewrite drop_ge by (by rewrite length_replicate). by rewrite app_nil_r.
Qed.

(** "A", U+4E2D. *)
Lemma ucs2_utf8_roundtrip_witness :
  decode [0x41; 0x4e2d] (replicate 4 0) = Done (Ok 4%nat, [0x41; 0xe4; 0xb8; 0xad]) /\
  encode [0x41; 0xe4; 0xb8; 0xad] [0; 0] = Done (Ok 2%nat, [0x41; 0x4e2d]).
Proof.
  destruct (ucs2_utf8_roundtrip [0x41; 0x4e2d] 4) as [H1 H2].
  - apply Forall_cons_2; [left; lia|]. apply Forall_cons_2; [right; lia|]. apply Forall_nil_2.
  - cbn. lia.
  - split; [exact H1 | exact H2].
Defined.

(** A unit of the two-byte range U+0080-U+07FF is lost by [decode]: it
    writes the two bytes but does not advance, so the next unit overwrites them
    and the returned length does not count them. *)
Theorem decode_two_byte_lost ch r0 r1 rest : 0x80 <= ch <= 0x7ff ->
  exists buffer, decode [ch] (r0 :: r1 :: rest) = Done (Ok 0%nat, buffer) /\
    decode [ch; 0x41] (r0 :: r1 :: rest) =
      Done (Ok 1%nat, 0x41 :: drop 1 buffer).
Proof.
  intros Hch. destruct (decode_unit_two_byte ch r0 r1 rest Hch) as (a & b & E).
  exists (a :: b :: rest). unfold decode; cbn [decode_from]. rewrite E. rstep. split; done.
Qed.

Lemma decode_two_byte_lost_witness : exists buffer,
  decode [0xe9] [0; 0; 0] = Done (Ok 0%nat, buffer).
Proof.
  destruct (decode_two_byte_lost 0xe9 0 0 [0]) as (b & E & _); [lia|]. exists b. exact E.
Defined.
