(* ===== verification/Fat.v ===== *)
(** * The FAT file system (src/fat.rs): data and operations

    A [&Filesystem] inside [File] and [Directory] is shared and immutable after
    [init], so it is an argument of their methods.  A byte buffer the code fills
    is returned instead.  [beyond] gives the memory just past a local array,
    for the two reads that are not bounds-checked. *)

From S2P Require Import Prelude REfi Mem Part EfiStr.

Module Fat.

Definition EFI_PATH_STRING_LENGTH : nat := 260.
Definition EFI_FAT_SHORT_NAME_LEN : nat := 11.

(** The packed [Header] and [Fat32Header], by offset. *)
Record Header := mkHeader {
  h_bytes_per_sector : Z; h_sectors_per_cluster : Z; h_reserved_sectors : Z; h_fat_count : Z;
  h_root_dir_count : Z; h_legacy_sectors : Z; h_legacy_sectors_per_fat : Z; h_sectors : Z
}.
Definition header_of (data : list Z) : Header :=
  mkHeader (field data 11 2) (field data 13 1) (field data 14 2) (field data 16 1)
    (field data 17 2) (field data 19 2) (field data 22 2) (field data 32 4).
Record Fat32Header := mkHeader32 { h32_sectors_per_fat : Z; h32_root_cluster : Z }.
Definition header32_of (data : list Z) : Fat32Header :=
  mkHeader32 (field data 36 4) (field data 44 4).

(** The packed [FatDirectory] and [FatLongNameEntry]: one 32-byte record read
    as the one or the other. *)
Record FatDirectory := mkFatDir {
  d_name : list Z; d_flags : Z; d_cluster_high : Z; d_cluster_low : Z; d_size : Z
}.
Definition directory_of (r : list Z) : FatDirectory :=
  mkFatDir (bytes_at r 0 11) (field r 11 1) (field r 20 2) (field r 26 2) (field r 28 4).
Record FatLongNameEntry := mkLfn {
  seq_ : Z; l_name : list Z; l_name2 : list Z; l_name3 : list Z
}.
Definition units_at (r : list Z) (off n : nat) : list Z :=
  map (fun k => field r (off + 2 * k) 2) (seq 0 n).
Definition long_name_of (r : list Z) : FatLongNameEntry :=
  mkLfn (field r 0 1) (units_at r 1 5) (units_at r 14 6) (units_at r 28 2).

Inductive FatType := Unknown | FAT12 | FAT16 | FAT32.
#[global] Instance FatType_eq_dec : EqDecision FatType.
Proof. solve_decision. Defined.

Record Filesystem (D : Type) := mkFs {
  device : D; start : Z; last : Z; part_id : Z;
  bytes_per_sector : Z; sectors : Z; fat_type : FatType; clusters : Z;
  sectors_per_fat : Z; sectors_per_cluster : Z; fat_count : Z; root_dir_sectors : Z;
  first_fat_sector : Z; first_data_sector : Z; data_sector_count : Z; data_cluster_count : Z;
  root_cluster : Z
}.
#[global] Arguments mkFs {D}.
#[global] Arguments device {D}. #[global] Arguments start {D}. #[global] Arguments last {D}.
#[global] Arguments part_id {D}. #[global] Arguments bytes_per_sector {D}.
#[global] Arguments sectors {D}. #[global] Arguments fat_type {D}. #[global] Arguments clusters {D}.
#[global] Arguments sectors_per_fat {D}. #[global] Arguments sectors_per_cluster {D}.
#[global] Arguments fat_count {D}. #[global] Arguments root_dir_sectors {D}.
#[global] Arguments first_fat_sector {D}. #[global] Arguments first_data_sector {D}.
#[global] Arguments data_sector_count {D}. #[global] Arguments data_cluster_count {D}.
#[global] Arguments root_cluster {D}.

Inductive FileType := File_ | Directory_.

Record DirectoryEntry := mkDE {
  name : list Z; file_type : FileType; size : Z; cluster : Z; long_name : list Z; attr : Z
}.

Inductive Error := BlockError | Unsupported | NotFound | EndOfFile | InvalidOffset.

Record File := mkFile {
  start_cluster : Z; active_cluster : Z; sector_offset : Z; f_size : Z; position : Z
}.

Record Directory := mkDir {
  dir_cluster : option Z; sector : Z; offset : nat; cluster_start : option Z
}.

Record OFileDirectory := mkO {
  dir_ent : DirectoryEntry; file : option File; dir : option Directory;
  pdir_ent : option DirectoryEntry
}.
Definition ofile_new (e : DirectoryEntry) (f : option File) (d : option Directory)
    : OFileDirectory := mkO e f d None.

(** [trait Read]: what the loaders need of an open file.  [read] takes the
    length of the caller's buffer and returns the bytes that filled it. *)
Class Read (F : Type) := {
  read : F -> nat -> res (result (Z * list Z) Error * F);
  seek : F -> Z -> res (result unit Error * F);
  get_size : F -> Z
}.

(** [get_short_name]; its closure [get_len] is one more than the position of
    the last byte that is not a space, or of the first when all are. *)
Fixpoint get_len (rev_vec : list Z) : nat :=
  match rev_vec with
  | [] => 0
  | [_] => 1
  | b :: rest => if negb (b =? 32) then length rev_vec else get_len rest
  end.
Definition get_short_name (input : list Z) : res (list Z) :=
  let base := take (get_len (reverse (take 8 input))) input in
  ext0 ← index input 8;
  let tail :=
    if negb (ext0 =? 32) then
      46 :: List.filter (fun b => negb (b =? 32))
              (take (get_len (reverse (bytes_at input 8 3))) (drop 8 input))
    else [] in
  let written := base ++ tail in
  if (length written <=? EFI_FAT_SHORT_NAME_LEN + 1)%nat
  then Done (written ++ replicate (EFI_FAT_SHORT_NAME_LEN + 1 - length written) 0)
  else Panic.

Section Device.
Context {D : Type} `{SectorRead D} (beyond : nat -> Z).

(** [SectorRead for Filesystem] *)
Definition fs_read (fs : Filesystem D) (sector : Z) : result (list Z) BlkError :=
  if last fs <? u64 (start fs + sector) then Err DEVICE_ERROR
  else read_sector (device fs) (u64 (start fs + sector)).

Definition new (dev : D) (start last part_id : Z) : Filesystem D :=
  mkFs dev start last part_id 0 0 Unknown 0 0 0 0 0 0 0 0 0 0.

(** Division panics on a zero divisor. *)
Definition div (x y : Z) : res Z := if y =? 0 then Panic else Done (x / y).
Definition rem (x y : Z) : res Z := if y =? 0 then Panic else Done (x mod y).

Definition FAT12_MAX : Z := 0xff5.
Definition FAT16_MAX : Z := 0xfff5.
Definition type_of_clusters (clusters : Z) : FatType :=
  if clusters <? FAT12_MAX then FAT12 else if clusters <? FAT16_MAX then FAT16 else FAT32.

Definition init (fs : Filesystem D) : res (result unit Error * Filesystem D) :=
  match fs_read fs 0 with
  | Err _ => Done (Err BlockError, fs)
  | Ok data =>
      let h := header_of data in
      let bps := h_bytes_per_sector h in
      let secs := if h_legacy_sectors h =? 0 then h_sectors h else h_legacy_sectors h in
      cls ← div secs (h_sectors_per_cluster h);
      let ty := type_of_clusters cls in
      let spf := match ty with
                 | FAT32 => h32_sectors_per_fat (header32_of data)
                 | _ => h_legacy_sectors_per_fat h
                 end in
      let rc := match ty with
                | FAT32 => h32_root_cluster (header32_of data)
                | _ => root_cluster fs
                end in
      rds ← match ty with
            | FAT12 | FAT16 => div (u32 (u32 (u16 (h_root_dir_count h * 32) + bps) - 1)) bps
            | _ => Done (root_dir_sectors fs)
            end;
      let ffs := h_reserved_sectors h in
      let fds := u32 (u32 (ffs + u32 (h_fat_count h * spf)) + rds) in
      let dsc := u32 (secs - fds) in
      dcc ← div dsc bps;
      Done (Ok tt,
        mkFs (device fs) (start fs) (last fs) (part_id fs) bps secs ty cls spf
          (h_sectors_per_cluster h) (h_fat_count h) rds ffs fds dsc dcc rc)
  end.

(** The 512-byte FAT sector that holds byte [fat_offset] of the FAT, and the
    offset in it. *)
Definition fat_position (fs : Filesystem D) (fat_offset : Z) : res (Z * Z) :=
  q ← div fat_offset (bytes_per_sector fs);
  r ← rem fat_offset (bytes_per_sector fs);
  Done (u32 (first_fat_sector fs + q), r).

Definition next_cluster (fs : Filesystem D) (cluster : Z) : res (result Z Error) :=
  match fat_type fs with
  | FAT12 =>
      '(fat_sector, offset) ← fat_position fs (u32 (cluster + cluster / 2));
      match fs_read fs fat_sector with
      | Err _ => Done (Err BlockError)
      | Ok data =>
          (** unaligned 16-bit read at [data.as_ptr() + offset], unchecked *)
          let byte (k : nat) :=
            if (k <? 512)%nat then nth k data 0 else beyond (k - 512)%nat in
          let raw := byte (Z.to_nat offset) + 256 * byte (S (Z.to_nat offset)) in
          let next := if cluster mod 2 =? 0 then Z.land raw 0xfff else Z.shiftr raw 4 in
          Done (if 0xff8 <=? next then Err EndOfFile else Ok next)
      end
  | FAT16 =>
      '(fat_sector, offset) ← fat_position fs (u32 (cluster * 2));
      match fs_read fs fat_sector with
      | Err _ => Done (Err BlockError)
      | Ok data =>
          let i := Z.to_nat (offset / 2) in
          if (i <? 256)%nat then
            let next := field data (2 * i) 2 in
            Done (if 0xfff8 <=? next then Err EndOfFile else Ok next)
          else Panic
      end
  | FAT32 =>
      '(fat_sector, offset) ← fat_position fs (u32 (cluster * 4));
      match fs_read fs fat_sector with
      | Err _ => Done (Err BlockError)
      | Ok data =>
          let i := Z.to_nat (offset / 4) in
          if (i <? 128)%nat then
            let next := Z.land (field data (4 * i) 4) 0x0fffffff in
            Done (if 0x0ffffff8 <=? next then Err EndOfFile else Ok next)
          else Panic
      end
  | Unknown => Done (Err Unsupported)
  end.

Definition first_sector_of_cluster (fs : Filesystem D) (cluster : Z) : Z :=
  u32 (u32 (u32 (cluster - 2) * sectors_per_cluster fs) + first_data_sector fs).

(** ** Directories *)

Definition get_sector (fs : Filesystem D) (d : Directory) : res (result Z Error * Directory) :=
  match dir_cluster d with
  | Some c =>
      if sectors_per_cluster fs <=? sector d then
        r ← next_cluster fs c;
        match r with
        | Ok c' =>
            let d := mkDir (Some c') 0 0 (cluster_start d) in
            Done (Ok (u32 (0 + first_sector_of_cluster fs c')), d)
        | Err e => Done (Err e, d)
        end
      else Done (Ok (u32 (sector d + first_sector_of_cluster fs c)), d)
  | None => Done (Ok (sector d), d)
  end.

(** [long_entry\[lfn_seq * 13..(lfn_seq + 1) * 13\]] filled from a long-name
    record: a range that does not fit the array panics, as does sequence 0. *)
Definition put_long_name (long_entry : list Z) (l : FatLongNameEntry) : res (list Z) :=
  let lfn_seq := usize (Z.land (seq_ l) 0x1f - 1) in
  let lo := usize (lfn_seq * 13) in
  let hi := usize (usize (lfn_seq + 1) * 13) in
  if (lo <=? hi) && (hi <=? Z.of_nat (length long_entry)) then
    Done (take (Z.to_nat lo) long_entry ++ (l_name l ++ l_name2 l ++ l_name3 l)
            ++ drop (Z.to_nat hi) long_entry)
  else Panic.

Definition entry_of (d : FatDirectory) (long_entry : list Z) : res DirectoryEntry :=
  short ← get_short_name (d_name d);
  Done (mkDE short (if Z.land (d_flags d) 0x10 =? 0x10 then Directory_ else File_)
          (d_size d) (Z.lor (u32 (Z.shiftl (d_cluster_high d) 16)) (d_cluster_low d))
          long_entry (d_flags d)).

(** The outcome of the [for i in self.offset..dirs.len()] loop over the
    records of a sector. *)
Inductive Scan :=
| ScanEnd
| ScanFound (e : DirectoryEntry) (next : nat)
| ScanMore (long_entry : list Z).

Fixpoint scan_records (records : list (list Z)) (i : nat) (long_entry : list Z) : res Scan :=
  match records with
  | [] => Done (ScanMore long_entry)
  | r :: records =>
      let d := directory_of r in
      let first := nth 0 (d_name d) 0 in
      if first =? 0 then Done ScanEnd
      else if first =? 0xe5 then scan_records records (S i) long_entry
      else if d_flags d =? 0x0f then
        long_entry ← put_long_name long_entry (long_name_of r);
        scan_records records (S i) long_entry
      else
        e ← entry_of d long_entry;
        Done (ScanFound e (S i))
  end.

Definition records_of (data : list Z) : list (list Z) :=
  map (fun i => bytes_at data (32 * i) 32) (seq 0 16).

Fixpoint next_entry_loop (fuel : nat) (fs : Filesystem D) (d : Directory) (long_entry : list Z)
    : res (result DirectoryEntry Error * Directory) :=
  match fuel with
  | O => OutOfFuel
  | S fuel =>
      '(rs, d) ← get_sector fs d;
      match rs with
      | Err e => Done (Err e, d)
      | Ok s =>
          match fs_read fs s with
          | Err _ => Done (Err BlockError, d)
          | Ok data =>
              r ← scan_records (drop (offset d) (records_of data)) (offset d) long_entry;
              match r with
              | ScanEnd => Done (Err EndOfFile, d)
              | ScanFound e next =>
                  Done (Ok e, mkDir (dir_cluster d) (sector d) next (cluster_start d))
              | ScanMore long_entry =>
                  next_entry_loop fuel fs
                    (mkDir (dir_cluster d) (u32 (sector d + 1)) 0 (cluster_start d)) long_entry
              end
          end
      end
  end.
Definition next_entry (fuel : nat) (fs : Filesystem D) (d : Directory)
    : res (result DirectoryEntry Error * Directory) :=
  next_entry_loop fuel fs d (replicate EFI_PATH_STRING_LENGTH 0).

Definition reset (d : Directory) : Directory := mkDir (cluster_start d) 0 0 (cluster_start d).

(** ** Names *)

(** The bytes before the first zero. *)
Fixpoint until_nul (bs : list Z) : list Z :=
  match bs with
  | [] => []
  | b :: bs => if b =? 0 then [] else b :: until_nul bs
  end.
Definition compare_short_name (nm : list Z) (de : DirectoryEntry) : bool :=
  bool_decide (until_nul (name de) = nm).

Definition compare_name (nm : list Z) (de : DirectoryEntry) : res bool :=
  long ← OsStr.from_u16_slice_with_nul beyond (long_name de);
  Done (compare_short_name nm de || OsStr.eq_str long nm).

(** ** Files *)

Definition get_file (cluster size : Z) : result File Error := Ok (mkFile cluster cluster 0 size 0).
Definition get_directory (cluster : Z) : result Directory Error :=
  Ok (mkDir (Some cluster) 0 0 (Some cluster)).

(** The step both [read] and [seek] take at the end of a cluster. *)
Definition advance_cluster (fs : Filesystem D) (f : File) : res (result unit Error * File) :=
  if sector_offset f =? sectors_per_cluster fs then
    r ← next_cluster fs (active_cluster f);
    Done (match r with
          | Err e => (Err e, f)
          | Ok c => (Ok tt, mkFile (start_cluster f) c 0 (f_size f) (position f))
          end)
  else Done (Ok tt, f).

Definition file_read (fs : Filesystem D) (f : File) (len : nat)
    : res (result (Z * list Z) Error * File) :=
  _ ← assert_ (len =? 512)%nat;
  if f_size f <=? position f then Done (Err EndOfFile, f)
  else
    '(r, f) ← advance_cluster fs f;
    match r with
    | Err e => Done (Err e, f)
    | Ok _ =>
        match fs_read fs (u64 (first_sector_of_cluster fs (active_cluster f) + sector_offset f)) with
        | Err _ => Done (Err BlockError, f)
        | Ok data =>
            let so := u64 (sector_offset f + 1) in
            if f_size f <? u32 (position f + 512) then
              Done (Ok (u32 (f_size f - position f), data),
                    mkFile (start_cluster f) (active_cluster f) so (f_size f) (f_size f))
            else
              Done (Ok (512, data),
                    mkFile (start_cluster f) (active_cluster f) so (f_size f) (u32 (position f + 512)))
        end
    end.

(** [while self.position != position] of [seek]. *)
Fixpoint seek_loop (fuel : nat) (fs : Filesystem D) (f : File) (pos : Z)
    : res (result unit Error * File) :=
  match fuel with
  | O => OutOfFuel
  | S fuel =>
      if position f =? pos then Done (Ok tt, f)
      else
        '(r, f) ← advance_cluster fs f;
        match r with
        | Err e => Done (Err e, f)
        | Ok _ =>
            seek_loop fuel fs
              (mkFile (start_cluster f) (active_cluster f) (u64 (sector_offset f + 1)) (f_size f)
                 (u32 (position f + 512))) pos
        end
  end.
(** 2^23 steps of 512 bytes go round the 32-bit position once. *)
Definition SEEK_FUEL : nat := Z.to_nat (2 ^ 23) + 1.
Definition file_seek (fuel : nat) (fs : Filesystem D) (f : File) (pos : Z)
    : res (result unit Error * File) :=
  if negb (pos mod 512 =? 0) then Done (Err InvalidOffset, f)
  else if f_size f <=? pos then Done (Err EndOfFile, f)
  else
    let f := if pos <? position f then mkFile (start_cluster f) (start_cluster f) 0 (f_size f) 0
             else f in
    seek_loop fuel fs f pos.
Definition file_get_size (f : File) : Z := f_size f.

(** ** Opening paths *)

Definition root_entry (cluster : Z) : DirectoryEntry :=
  mkDE (replicate (EFI_FAT_SHORT_NAME_LEN + 1) 0) Directory_ 0 cluster
    (replicate EFI_PATH_STRING_LENGTH 0) 0x30.
Definition root (fs : Filesystem D) : result OFileDirectory Error :=
  match fat_type fs with
  | FAT12 | FAT16 =>
      let root_directory_start := u32 (first_data_sector fs - root_dir_sectors fs) in
      Ok (ofile_new (root_entry 0) None (Some (mkDir None root_directory_start 0 None)))
  | FAT32 =>
      Ok (ofile_new (root_entry (root_cluster fs)) None
            (Some (mkDir (Some (root_cluster fs)) 0 0 (Some (root_cluster fs)))))
  | Unknown => Err Unsupported
  end.

(** [Result::unwrap] *)
Definition unwrap_ok {A E} (r : result A E) : res A :=
  match r with Ok a => Done a | Err _ => Panic end.

(** The loop of [get_parent_dir_ent]: "..". *)
Fixpoint parent_loop (fuel : nat) (fs : Filesystem D) (d : Directory)
    : res (result DirectoryEntry Error) :=
  match fuel with
  | O => OutOfFuel
  | S fuel' =>
      '(r, d) ← next_entry fuel fs d;
      match r with
      | Err e => Done (Err e)
      | Ok de =>
          b ← compare_name [0x2e; 0x2e] de;
          if (b : bool) then Done (Ok de) else parent_loop fuel' fs d
      end
  end.
Definition get_parent_dir_ent (fuel : nat) (fs : Filesystem D) (o : OFileDirectory)
    : res (result DirectoryEntry Error) :=
  match dir o with
  | None => Done (Err NotFound)
  | Some d => parent_loop fuel fs (reset d)
  end.

(** [str::find] of a one-byte character. *)
Fixpoint find_byte (c : Z) (s : list Z) : option nat :=
  match s with
  | [] => None
  | b :: s => if b =? c then Some 0%nat else S <$> find_byte c s
  end.
(** [path.find('/').or_else(|| path.find('\\'))] *)
Definition find_sep (s : list Z) : option nat :=
  match find_byte 0x2f s with Some i => Some i | None => find_byte 0x5c s end.

(** What the search for one component ends with. *)
Inductive Found :=
| Enter (cur : Directory) (ent : DirectoryEntry) (pdir : option DirectoryEntry)
| Stop (r : result OFileDirectory Error).

(** The entry whose name matched: a directory is entered, a file opened. *)
Definition take_entry (fs : Filesystem D) (de ent : DirectoryEntry) : res Found :=
  match file_type de with
  | Directory_ =>
      if cluster de =? 0 then
        r ← unwrap_ok (root fs);
        d ← unwrap (dir r);
        Done (Enter d (dir_ent r) None)
      else
        d ← unwrap_ok (get_directory (cluster de));
        Done (Enter d de (Some ent))
  | File_ =>
      f ← unwrap_ok (get_file (cluster de) (size de));
      Done (Stop (Ok (ofile_new de (Some f) None)))
  end.

(** The inner loop of [open]: the first entry named [sub]. *)
Fixpoint find_component (fuel : nat) (fs : Filesystem D) (sub : list Z) (cur : Directory)
    (ent : DirectoryEntry) : res Found :=
  match fuel with
  | O => OutOfFuel
  | S fuel' =>
      '(r, cur) ← next_entry fuel fs cur;
      match r with
      | Err EndOfFile => Done (Stop (Err NotFound))
      | Err e => Done (Stop (Err e))
      | Ok de =>
          b ← compare_name sub de;
          if (b : bool) then take_entry fs de ent else find_component fuel' fs sub cur ent
      end
  end.

(** The outer loop of [open]: one component per iteration. *)
Fixpoint open_loop (n fuel : nat) (fs : Filesystem D) (residual : list Z) (cur : Directory)
    (ent : DirectoryEntry) (pdir : option DirectoryEntry) : res (result OFileDirectory Error) :=
  match n with
  | O => OutOfFuel
  | S n =>
      if (length residual =? 0)%nat then Done (Ok (mkO ent None (Some cur) pdir))
      else
        let '(sub, residual) :=
          match find_sep residual with
          | None => (residual, [])
          | Some x => (take x residual, drop (x + 1) residual)
          end in
        if (length sub =? 0)%nat then Done (Ok (ofile_new ent None (Some cur)))
        else
          r ← find_component fuel fs sub cur ent;
          match r with
          | Stop r => Done r
          | Enter cur ent pdir => open_loop n fuel fs residual cur ent pdir
          end
  end.

Definition open_parent (fuel : nat) (fs : Filesystem D) (pfile_in : OFileDirectory)
    : res (result OFileDirectory Error) :=
  r ← get_parent_dir_ent fuel fs pfile_in;
  match r with
  | Err e => Done (Err e)
  | Ok pdir =>
      match file_type pdir with
      | Directory_ =>
          if cluster pdir =? 0 then r ← unwrap_ok (root fs); Done (Ok r)
          else
            d ← unwrap_ok (get_directory (cluster pdir));
            p ← unwrap (pdir_ent pfile_in);
            Done (Ok (ofile_new p None (Some d)))
      | File_ => Done (Err BlockError)
      end
  end.

Definition open (fuel : nat) (fs : Filesystem D) (pfile_in : OFileDirectory) (path : list Z)
    : res (result OFileDirectory Error) :=
  if bool_decide (path = [0x2e]) then Done (Ok pfile_in)
  else if bool_decide (path = [0x2e; 0x2e]) then open_parent fuel fs pfile_in
  else
    r ← unwrap_ok (root fs);
    let '(pfile, path) :=
      match find_sep path with
      | Some O => (r, drop 1 path)
      | _ => (pfile_in, path)
      end in
    match dir pfile with
    | None => Done (Err Unsupported)
    | Some d => open_loop (S (length path)) fuel fs path (reset d) (dir_ent pfile) None
    end.
End Device.

(** [SectorRead for Filesystem], and [Read for File] on its file system. *)
Lemma fs_read_length {D} `{SectorRead D} (fs : Filesystem D) s data :
  fs_read fs s = Ok data -> length data = 512%nat /\ bytes_ok data.
Proof. unfold fs_read. destruct (_ <? _); [done|]. apply read_sector_length. Qed.

#[global] Instance Filesystem_SectorRead {D} `{SectorRead D} : SectorRead (Filesystem D) :=
  {| read_sector := fs_read; read_sector_length := fs_read_length |}.

#[global] Instance File_Read {D} `{SectorRead D} (beyond : nat -> Z) : Read (Filesystem D * File) :=
  {| read '(fs, f) len := '(r, f) ← file_read beyond fs f len; Done (r, (fs, f));
     seek '(fs, f) pos := '(r, f) ← file_seek beyond SEEK_FUEL fs f pos; Done (r, (fs, f));
     get_size '(fs, f) := file_get_size f |}.
End Fat.
