(* ===== verification/FatDemo.v ===== *)
(** * Two small volumes

    Concrete disks on which the FAT theorems are exercised: a FAT32 volume with a
    file of two clusters and a sub-directory, and a FAT16 volume with a file in
    its root directory. *)

From S2P Require Import Prelude REfi Mem Part EfiStr Fat.
Import Fat.

Definition pad (bs : list Z) : list Z := bs ++ replicate (512 - length bs) 0.

Definition boot_sector (spc reserved fats root_count legacy legacy_spf total : Z) (rest : list Z)
    : list Z :=
  pad (replicate 11 0 ++ le_split 2 512 ++ [spc] ++ le_split 2 reserved ++ [fats] ++
       le_split 2 root_count ++ le_split 2 legacy ++ [0] ++ le_split 2 legacy_spf ++
       replicate 8 0 ++ le_split 4 total ++ rest).

Definition dir_record (nm : list Z) (flags cluster sz : Z) : list Z :=
  nm ++ [flags] ++ replicate 8 0 ++ le_split 2 (cluster / 65536) ++ replicate 4 0 ++
  le_split 2 cluster ++ le_split 4 sz.

(** "long name": the record holds 13 units, the rest of them padding. *)
Definition long_units : list Z :=
  [0x6c; 0x6f; 0x6e; 0x67; 0x20; 0x6e; 0x61; 0x6d; 0x65; 0; 0xffff; 0xffff; 0xffff].
Definition long_bytes : list Z := [0x6c; 0x6f; 0x6e; 0x67; 0x20; 0x6e; 0x61; 0x6d; 0x65].
Definition long_record (seq_no : Z) (units : list Z) : list Z :=
  [seq_no] ++ concat (map (le_split 2) (take 5 units)) ++ [0x0f; 0; 0] ++
  concat (map (le_split 2) (take 6 (drop 5 units))) ++ [0; 0] ++
  concat (map (le_split 2) (drop 11 units)).

(** "LONGNA~1", "SUB", "A.TXT", "." and "..". *)
Definition name_longna : list Z := [0x4c; 0x4f; 0x4e; 0x47; 0x4e; 0x41; 0x7e; 0x31; 32; 32; 32].
Definition name_sub : list Z := [0x53; 0x55; 0x42; 32; 32; 32; 32; 32; 32; 32; 32].
Definition name_a_txt : list Z := [0x41; 32; 32; 32; 32; 32; 32; 32; 0x54; 0x58; 0x54].
Definition name_dot : list Z := 0x2e :: replicate 10 32.
Definition name_dotdot : list Z := 0x2e :: 0x2e :: replicate 9 32.
Definition path_a_txt : list Z := [0x41; 0x2e; 0x54; 0x58; 0x54].
Definition path_sub : list Z := [0x53; 0x55; 0x42].

(** FAT32: the data starts at sector 548; cluster 2 is the root directory, 3
    the sub-directory, 4 and 6 the file. *)
Definition fat32_root_sector : list Z :=
  pad (dir_record (0xe5 :: replicate 10 32) 0x20 9 9 ++ long_record 0x41 long_units ++
       dir_record name_longna 0x20 4 700 ++ dir_record name_sub 0x10 3 0).
Definition fat32_sub_sector : list Z :=
  pad (dir_record name_dot 0x10 3 0 ++ dir_record name_dotdot 0x10 0 0 ++
       dir_record name_a_txt 0x20 5 100).
Definition fat32_table_sector : list Z :=
  pad (concat (map (le_split 4)
    [0x0ffffff8; 0x0fffffff; 0x0fffffff; 0x0fffffff; 6; 0x0fffffff; 0x0fffffff])).
Definition fat32_disk : Ramdisk := Eval vm_compute in list_to_map
  [ (0, boot_sector 1 1 1 0 0 0 70000 (le_split 4 547 ++ replicate 4 0 ++ le_split 4 2));
    (1, fat32_table_sector); (548, fat32_root_sector); (549, fat32_sub_sector);
    (550, replicate 512 0xaa); (552, replicate 512 0xbb) ].

(** FAT16: reserved sector 0, table at 1-32, root directory at 33. *)
Definition fat16_disk : Ramdisk := Eval vm_compute in list_to_map
  [ (0, boot_sector 1 1 1 16 8000 32 0 []);
    (1, pad (concat (map (le_split 2) [0xfff8; 0xffff; 0xffff])));
    (33, pad (dir_record name_a_txt 0x20 2 5)); (34, replicate 512 0xcc) ].

(** The volume after [init], which succeeds on both disks. *)
Definition mounted (d : Ramdisk) : option (Filesystem Ramdisk) :=
  match init (new d 0 100000 1) with Done (Ok _, fs) => Some fs | _ => None end.

Definition empty_fs : Filesystem Ramdisk := new (∅ : gmap Z (list Z)) 0 0 0.
Definition fat32_fs : Filesystem Ramdisk := Eval vm_compute in default empty_fs (mounted fat32_disk).
Definition fat16_fs : Filesystem Ramdisk := Eval vm_compute in default empty_fs (mounted fat16_disk).

Lemma fat32_mounted : mounted fat32_disk = Some fat32_fs.
Proof. vm_compute. reflexivity. Qed.
Lemma fat16_mounted : mounted fat16_disk = Some fat16_fs.
Proof. vm_compute. reflexivity. Qed.

(** Memory past a buffer reads as zero. *)
Definition zeros (_ : nat) : Z := 0.

(** The root directory lists the file under both names, then the
    sub-directory. *)
Definition names (r : res (result DirectoryEntry Error * Directory)) : option (list Z * Z * Directory) :=
  match r with Done (Ok e, d) => Some (until_nul (name e), cluster e, d) | _ => None end.
Example fat32_first_entry :
  match root fat32_fs with
  | Ok o => match dir o with
            | Some d => fst <$> names (next_entry zeros 3 fat32_fs d)
            | None => None
            end
  | Err _ => None
  end = Some (take 8 name_longna, 4).
Proof. vm_compute. reflexivity. Qed.

Definition opened (r : res (result OFileDirectory Error)) : option (Z * Z) :=
  match r with
  | Done (Ok o) => Some (cluster (dir_ent o), size (dir_ent o))
  | _ => None
  end.
Example fat32_open_long_name :
  match root fat32_fs with Ok o => opened (open zeros 9 fat32_fs o (0x2f :: long_bytes)) | Err _ => None end
  = Some (4, 700).
Proof. vm_compute. reflexivity. Qed.
Example fat32_open_nested :
  match root fat32_fs with
  | Ok o => opened (open zeros 9 fat32_fs o (0x5c :: path_sub ++ 0x5c :: path_a_txt))
  | Err _ => None
  end = Some (5, 100).
Proof. vm_compute. reflexivity. Qed.
