(* ===== verification/FatTable.v ===== *)
(** * The file allocation table

    The table is one little-endian number; entry [c] of a FAT of [w] bits is
    its [w] bits from bit [w * c].  [next_cluster] reads that entry with a
    single sector read. *)

From S2P Require Import Prelude REfi Mem Part EfiStr Fat FatDemo.
Import Fat.

(** ** Fields as digits of a number *)

Lemma le_combine_app a b : le_combine (a ++ b) = le_combine a + 2 ^ (8 * Z.of_nat (length a)) * le_combine b.
Proof.
  induction a as [|x a IH]; cbn [app le_combine length]; [norm_pow; lia|].
  rewrite IH, Nat2Z.inj_succ, Z.mul_succ_r, Z.pow_add_r by lia. change (2 ^ 8) with 256. lia.
Qed.

Lemma bytes_ok_take n bs : bytes_ok bs -> bytes_ok (take n bs).
Proof. apply Forall_take. Qed.

Lemma le_combine_take n bs : bytes_ok bs -> le_combine (take n bs) = le_combine bs mod 2 ^ (8 * Z.of_nat n).
Proof.
  intros Hb. destruct (decide (n <= length bs)%nat) as [Hn|Hn].
  - rewrite <- (take_drop n bs) at 2. rewrite le_combine_app, length_take_le by done.
    pose proof (le_combine_range _ (bytes_ok_take n bs Hb)) as Hr. rewrite length_take_le in Hr by done.
    rewrite Z.mul_comm, Z_mod_plus_full. symmetry. by apply Z.mod_small.
  - rewrite take_ge by lia. symmetry. apply Z.mod_small. pose proof (le_combine_range _ Hb).
    assert (2 ^ (8 * Z.of_nat (length bs)) <= 2 ^ (8 * Z.of_nat n)) by (apply Z.pow_le_mono_r; lia). lia.
Qed.

Lemma le_combine_drop n bs : bytes_ok bs -> le_combine (drop n bs) = le_combine bs / 2 ^ (8 * Z.of_nat n).
Proof.
  intros Hb. destruct (decide (n <= length bs)%nat) as [Hn|Hn].
  - rewrite <- (take_drop n bs) at 2. rewrite le_combine_app, length_take_le by done.
    pose proof (le_combine_range _ (bytes_ok_take n bs Hb)) as Hr. rewrite length_take_le in Hr by done.
    rewrite Z.mul_comm, Z_div_plus_full by lia. rewrite Z.div_small by done. lia.
  - rewrite drop_ge by lia. symmetry. apply Z.div_small. pose proof (le_combine_range _ Hb).
    assert (2 ^ (8 * Z.of_nat (length bs)) <= 2 ^ (8 * Z.of_nat n)) by (apply Z.pow_le_mono_r; lia). lia.
Qed.

Lemma field_digits bs off n : bytes_ok bs ->
  field bs off n = le_combine bs / 2 ^ (8 * Z.of_nat off) mod 2 ^ (8 * Z.of_nat n).
Proof.
  intros Hb. unfold field. rewrite le_combine_take, le_combine_drop by (try apply Forall_drop; done). done.
Qed.

(** A field of a sector is a field of the table. *)
Lemma drop_concat (tbl : list (list Z)) k data off :
  Forall (fun s => length s = 512%nat) tbl -> tbl !! k = Some data -> (off <= 512)%nat ->
  drop (512 * k + off) (concat tbl) = drop off data ++ concat (drop (S k) tbl).
Proof.
  intros Hl. revert k. induction Hl as [|s tbl Hs Hl IH]; intros k Hk Ho; [done|].
  destruct k as [|k]; cbn in Hk.
  - injection Hk as ->. rewrite Nat.mul_0_r, Nat.add_0_l. cbn [concat drop].
    rewrite drop_app, Hs. replace (off - 512)%nat with 0%nat by lia. by rewrite !drop_0.
  - cbn [concat]. rewrite drop_app, drop_ge by lia. cbn [app].
    change (drop (S (S k)) (s :: tbl)) with (drop (S k) tbl).
    rewrite <- (IH k Hk Ho). f_equal. lia.
Qed.

Lemma field_concat tbl k data off n :
  Forall (fun s => length s = 512%nat) tbl -> tbl !! k = Some data -> (off + n <= 512)%nat ->
  field data off n = field (concat tbl) (512 * k + off) n.
Proof.
  intros Hl Hk Ho. unfold field. rewrite (drop_concat tbl k data) by (done || lia).
  rewrite take_app_le; [done|]. rewrite length_drop, (proj1 (Forall_lookup _ _) Hl k data Hk). lia.
Qed.

Lemma pair_field data k : (S k < length data)%nat ->
  nth k data 0 + 256 * nth (S k) data 0 = field data k 2.
Proof.
  intros Hk. unfold field.
  destruct (lookup_lt_is_Some_2 data k) as [a Ha]; [lia|].
  destruct (lookup_lt_is_Some_2 data (S k)) as [b Hb]; [lia|].
  rewrite (drop_S data a k Ha), (drop_S data b (S k) Hb). cbn [take le_combine].
  rewrite !nth_lookup, Ha, Hb. cbn [default]. rewrite take_0. cbn. lia.
Qed.

(** ** The table *)

Section Table.
Context {D : Type} `{SectorRead D} (fs : Filesystem D).

(** The FAT read as a list of sectors. *)
Record fat_on (tbl : list (list Z)) : Prop := {
  ft_bps : bytes_per_sector fs = 512;
  ft_first : 0 <= first_fat_sector fs /\ first_fat_sector fs + Z.of_nat (length tbl) <= 2 ^ 32;
  ft_read : forall k data, tbl !! k = Some data ->
    fs_read fs (first_fat_sector fs + Z.of_nat k) = Ok data
}.

Lemma fat_sector_length tbl : fat_on tbl -> Forall (fun s => length s = 512%nat) tbl.
Proof.
  intros Ht. apply Forall_lookup. intros k s Hk. by apply (ft_read _ Ht), fs_read_length in Hk as [? _].
Qed.

Lemma fat_bytes_ok tbl : fat_on tbl -> bytes_ok (concat tbl).
Proof.
  intros Ht. apply Forall_concat, Forall_lookup. intros k s Hk.
  by apply (ft_read _ Ht), fs_read_length in Hk as [_ ?].
Qed.

(** The sector read of the byte at [off] of the table. *)
Lemma fat_position_read tbl off :
  fat_on tbl -> 0 <= off < 512 * Z.of_nat (length tbl) ->
  exists k data, off = 512 * Z.of_nat k + off mod 512 /\ tbl !! k = Some data /\
    fat_position fs off = Done (first_fat_sector fs + Z.of_nat k, off mod 512) /\
    fs_read fs (first_fat_sector fs + Z.of_nat k) = Ok data.
Proof.
  intros Ht Hoff. set (k := Z.to_nat (off / 512)).
  assert (Hk : Z.of_nat k = off / 512) by (subst k; mlia).
  destruct (lookup_lt_is_Some_2 tbl k) as [data Hd]; [mlia|].
  exists k, data. split; [mlia|]. split; [done|]. split; [|by apply (ft_read _ Ht)].
  unfold fat_position, div, rem. rewrite (ft_bps _ Ht). cbn [Z.eqb]. rstep.
  rewrite <- Hk, (wrap_small 32); [done|]. pose proof (ft_first _ Ht). mlia.
Qed.

(** Entry [c] of the table, [w] bits wide. *)
Definition fat_entry (tbl : list (list Z)) (w c : Z) : Z :=
  le_combine (concat tbl) / 2 ^ (w * c) mod 2 ^ w.

(** What an entry says: the next cluster or the end of the chain. *)
Definition fat_next (tbl : list (list Z)) (c : Z) : result Z Error :=
  match fat_type fs with
  | FAT12 => let e := fat_entry tbl 12 c in if 0xff8 <=? e then Err EndOfFile else Ok e
  | FAT16 => let e := fat_entry tbl 16 c in if 0xfff8 <=? e then Err EndOfFile else Ok e
  | FAT32 => let e := fat_entry tbl 32 c mod 2 ^ 28 in
             if 0x0ffffff8 <=? e then Err EndOfFile else Ok e
  | Unknown => Err Unsupported
  end.

(** The entry's bytes are in the table, and those of a 12-bit entry in one
    sector. *)
Definition entry_inside (tbl : list (list Z)) (c : Z) : Prop :=
  let n := 512 * Z.of_nat (length tbl) in
  match fat_type fs with
  | FAT12 => c + c / 2 + 1 < n /\ (c + c / 2) mod 512 <> 511
  | FAT16 => c * 2 < n
  | FAT32 => c * 4 < n
  | Unknown => True
  end.

Lemma field_entry tbl k data off n :
  fat_on tbl -> tbl !! k = Some data -> (off + n <= 512)%nat ->
  field data off n =
  le_combine (concat tbl) / 2 ^ (8 * (512 * Z.of_nat k + Z.of_nat off)) mod 2 ^ (8 * Z.of_nat n).
Proof.
  intros Ht Hk Ho. rewrite (field_concat tbl k) by (try done; by apply fat_sector_length).
  rewrite field_digits by (by apply fat_bytes_ok). do 3 f_equal. lia.
Qed.

Lemma raw_high_digits x m : 0 <= m ->
  Z.shiftr (x / 2 ^ m mod 2 ^ 16) 4 = x / 2 ^ (m + 4) mod 2 ^ 12.
Proof.
  intros Hm. rewrite Z.shiftr_div_pow2 by lia.
  rewrite Z.pow_add_r, <- Z.div_div by lia. generalize (x / 2 ^ m). intros y. mlia.
Qed.
End Table.

(** ** Properties *)

(** C7: [next_cluster] follows the allocation table: on a volume with
    512-byte sectors, for a cluster whose entry lies in the table (for FAT12, in
    one sector of it), it returns the cluster number the entry holds, or
    EndOfFile when the entry is an end-of-chain mark. *)
Theorem next_cluster_follows_fat {D} `{SectorRead D} beyond (fs : Filesystem D) tbl c :
  fat_on fs tbl -> 0 <= c < 2 ^ 30 -> entry_inside fs tbl c ->
  next_cluster beyond fs c = Done (fat_next fs tbl c).
Proof.
  intros Ht Hc Hin. unfold next_cluster, fat_next, entry_inside in *. destruct (fat_type fs); [done|..].
  - destruct Hin as [Hin Hs]. rewrite (wrap_small 32) by mlia.
    destruct (fat_position_read fs tbl (c + c / 2) Ht) as (k & data & Ho & Hk & -> & Hr); [mlia|].
    rstep. rewrite Hr. pose proof (fs_read_length _ _ _ Hr) as [Hl _].
    set (o := (c + c / 2) mod 512) in *. assert (0 <= o < 511) by (subst o; mlia).
    rewrite !(proj2 (Nat.ltb_lt _ _)) by lia. rewrite pair_field by lia.
    rewrite (field_entry fs tbl k) by (done || lia). rewrite Z2Nat.id by lia. rewrite <- Ho.
    unfold fat_entry. change (8 * Z.of_nat 2) with 16. f_equal.
    assert (E : (if c mod 2 =? 0
                 then Z.land (le_combine (concat tbl) / 2 ^ (8 * (c + c / 2)) mod 2 ^ 16) 0xfff
                 else Z.shiftr (le_combine (concat tbl) / 2 ^ (8 * (c + c / 2)) mod 2 ^ 16) 4)
                = le_combine (concat tbl) / 2 ^ (12 * c) mod 2 ^ 12); [|by rewrite E].
    destruct (Z.eqb_spec (c mod 2) 0) as [E|E].
    + change 0xfff with (Z.ones 12). rewrite Z.land_ones by lia.
      replace (8 * (c + c / 2)) with (12 * c) by mlia. generalize (le_combine (concat tbl) / 2 ^ (12 * c)).
      intros y. mlia.
    + rewrite raw_high_digits by mlia. by replace (8 * (c + c / 2) + 4) with (12 * c) by mlia.
  - rewrite (wrap_small 32) by mlia.
    destruct (fat_position_read fs tbl (c * 2) Ht) as (k & data & Ho & Hk & -> & Hr); [mlia|].
    rstep. rewrite Hr. rewrite (proj2 (Nat.ltb_lt _ _)) by mlia.
    rewrite (field_entry fs tbl k) by (done || mlia). unfold fat_entry. do 2 f_equal.
    all: replace (8 * (512 * Z.of_nat k + Z.of_nat (2 * Z.to_nat (c * 2 mod 512 / 2)))) with (16 * c) by mlia.
    all: done.
  - rewrite (wrap_small 32) by mlia.
    destruct (fat_position_read fs tbl (c * 4) Ht) as (k & data & Ho & Hk & -> & Hr); [mlia|].
    rstep. rewrite Hr. rewrite (proj2 (Nat.ltb_lt _ _)) by mlia.
    rewrite (field_entry fs tbl k) by (done || mlia). unfold fat_entry.
    change 0x0fffffff with (Z.ones 28). rewrite Z.land_ones by lia.
    replace (8 * (512 * Z.of_nat k + Z.of_nat (4 * Z.to_nat (c * 4 mod 512 / 4)))) with (32 * c) by mlia.
    done.
Qed.

Lemma next_cluster_follows_fat_witness :
  next_cluster zeros fat32_fs 4 = Done (Ok 6) /\ fat_next fat32_fs [fat32_table_sector] 6 = Err EndOfFile.
Proof.
  split; [|vm_compute; reflexivity].
  rewrite (next_cluster_follows_fat zeros fat32_fs [fat32_table_sector] 4).
  - vm_compute. reflexivity.
  - constructor; [reflexivity|cbn; lia|].
    intros [|k] data Hk; [|destruct k; discriminate]. injection Hk as <-. vm_compute. reflexivity.
  - lia.
  - cbn. lia.
Defined.
