(* ===== verification/FatFile.v ===== *)
(** * Files on a FAT volume: cluster chains, [read] and [seek]

    A file's contents are the sectors of the clusters of its chain, in order.
    The theorems relate every handle the code can reach from [get_file] by reads
    and seeks to a sector number of that sequence. *)

From S2P Require Import Prelude REfi Mem Part EfiStr Fat FatDemo.
Import Fat.

Section Chain.
Context {D : Type} `{SectorRead D} (beyond : nat -> Z) (fs : Filesystem D).

Definition spc : nat := Z.to_nat (sectors_per_cluster fs).

(** The clusters [cs], linked in the FAT, hold the sectors [datas]. *)
Record chain_data (cs : list Z) (datas : list (list Z)) : Prop := {
  cd_spc : 0 < sectors_per_cluster fs < 2 ^ 32;
  cd_link : forall q c c', cs !! q = Some c -> cs !! (S q) = Some c' ->
    next_cluster beyond fs c = Done (Ok c');
  cd_fits : forall q c, cs !! q = Some c ->
    first_sector_of_cluster fs c + sectors_per_cluster fs < 2 ^ 32;
  cd_sector : forall q so data, (so < spc)%nat -> datas !! (q * spc + so)%nat = Some data ->
    exists c, cs !! q = Some c /\
      fs_read fs (first_sector_of_cluster fs c + Z.of_nat so) = Ok data
}.

(** A file of [sz] bytes that starts at cluster [st]. *)
Record file_on (st sz : Z) (cs : list Z) (datas : list (list Z)) : Prop := {
  fo_chain : chain_data cs datas;
  fo_start : cs !! 0%nat = Some st;
  fo_size : 0 <= sz <= 2 ^ 32 - 512;
  fo_len : sz <= 512 * Z.of_nat (length datas) < sz + 512
}.

(** The handle stands before sector [k]. *)
Record file_at (st sz : Z) (cs : list Z) (f : File) (k : nat) : Prop := {
  fa_start : start_cluster f = st;
  fa_size : f_size f = sz;
  fa_pos : position f = Z.min (512 * Z.of_nat k) sz;
  fa_where : exists q, cs !! q = Some (active_cluster f) /\
    Z.of_nat k = Z.of_nat q * sectors_per_cluster fs + sector_offset f /\
    0 <= sector_offset f <= sectors_per_cluster fs
}.

Lemma first_sector_range c : 0 <= first_sector_of_cluster fs c < 2 ^ 32.
Proof. apply wrap_range. lia. Qed.

Lemma get_file_at st sz cs datas : file_on st sz cs datas ->
  exists f, get_file st sz = Ok f /\ file_at st sz cs f 0.
Proof.
  intros Hf. eexists. split; [done|]. destruct (fo_chain _ _ _ _ Hf), Hf.
  constructor; cbn; [done..|lia|]. exists 0%nat. split; [done|]. lia.
Qed.

(** Whatever cluster the handle stands in, the step at the end of a cluster
    brings it to the one that holds the next sector. *)
Lemma advance_cluster_spec st sz cs datas f k data :
  chain_data cs datas -> file_at st sz cs f k -> datas !! k = Some data ->
  exists f', advance_cluster beyond fs f = Done (Ok tt, f') /\ file_at st sz cs f' k /\
    sector_offset f' < sectors_per_cluster fs /\
    fs_read fs (first_sector_of_cluster fs (active_cluster f') + sector_offset f') = Ok data.
Proof.
  intros Hc [Hst Hsz Hpos (q & Hq & Hk & Hso)] Hd. pose proof (cd_spc _ _ Hc) as Hspc.
  unfold advance_cluster. destruct (Z.eqb_spec (sector_offset f) (sectors_per_cluster fs)) as [E|E].
  - destruct (cd_sector _ _ Hc (S q) 0 data) as (c & Hcs & Hr).
    { unfold spc in *. lia. }
    { rewrite <- Hd. f_equal. unfold spc in *. nia. }
    rewrite (cd_link _ _ Hc q _ c Hq Hcs). rstep. eexists. split; [done|].
    split; [|split; [cbn; lia|exact Hr]]. constructor; cbn; [done..|].
    exists (S q). split; [done|]. nia.
  - destruct (cd_sector _ _ Hc q (Z.to_nat (sector_offset f)) data) as (c & Hcs & Hr).
    { unfold spc in *. lia. }
    { rewrite <- Hd. f_equal. unfold spc in *. nia. }
    rewrite Hcs in Hq. injection Hq as ->. rewrite Z2Nat.id in Hr by lia.
    exists f. split; [done|]. split; [|split; [lia|done]].
    constructor; try done. exists q. done.
Qed.

(** The handle after one more sector. *)
Lemma file_at_next st sz cs datas f k p :
  chain_data cs datas -> file_at st sz cs f k -> sector_offset f < sectors_per_cluster fs ->
  p = Z.min (512 * Z.of_nat (S k)) sz ->
  file_at st sz cs (mkFile (start_cluster f) (active_cluster f) (u64 (sector_offset f + 1)) sz p) (S k).
Proof.
  intros Hc [Hst Hsz Hpos (q & Hq & Hk & Hso)] Hlt ->. pose proof (cd_spc _ _ Hc).
  rewrite (wrap_small 64) by (norm_pow; lia). constructor; cbn [start_cluster f_size position]; try done.
  exists q. cbn. split; [done|]. lia.
Qed.

(** [read] returns the bytes of sector [k] that are inside the file. *)
Lemma file_read_at st sz cs datas f k data :
  file_on st sz cs datas -> file_at st sz cs f k -> datas !! k = Some data ->
  exists f', file_read beyond fs f 512 =
      Done (Ok (Z.min 512 (sz - 512 * Z.of_nat k), data), f') /\ file_at st sz cs f' (S k).
Proof.
  intros Hf Hat Hd. destruct Hf as [Hc Hst Hsz Hlen].
  assert (Hk : (k < length datas)%nat) by (by apply lookup_lt_Some in Hd).
  unfold file_read. rstep. cbn [assert_ Nat.eqb]. rstep.
  rewrite (fa_size _ _ _ _ _ Hat), (proj2 (Z.leb_gt _ _)) by (rewrite (fa_pos _ _ _ _ _ Hat); lia).
  destruct (advance_cluster_spec _ _ _ _ _ _ _ Hc Hat Hd) as (f' & E & Hat' & Hlt & Hr).
  rewrite E. rstep.
  pose proof (fa_size _ _ _ _ _ Hat') as Hsz'. pose proof (fa_where _ _ _ _ _ Hat') as Hw'.
  assert (Hpos0 : position f' = 512 * Z.of_nat k) by (rewrite (fa_pos _ _ _ _ _ Hat'); lia).
  pose proof (first_sector_range (active_cluster f')). pose proof (cd_spc _ _ Hc).
  destruct Hw' as (q & Hq & Hkq & Hso).
  rewrite (wrap_small 64) by (norm_pow; lia). rewrite Hr, Hsz', Hpos0.
  rewrite !(wrap_small 32) by (norm_pow; lia).
  destruct (Z.ltb_spec sz (512 * Z.of_nat k + 512)) as [Hl|Hl];
    [rewrite Z.min_r by lia | rewrite Z.min_l by lia];
    (eexists; split; [reflexivity|]); (eapply file_at_next; [done..|lia]).
Qed.

Lemma file_read_eof st sz cs datas f k :
  file_on st sz cs datas -> file_at st sz cs f k -> (length datas <= k)%nat ->
  file_read beyond fs f 512 = Done (Err EndOfFile, f).
Proof.
  intros [Hc Hst Hsz Hlen] Hat Hk. unfold file_read. cbn [assert_ Nat.eqb]. rstep.
  by rewrite (fa_size _ _ _ _ _ Hat), (fa_pos _ _ _ _ _ Hat), (proj2 (Z.leb_le _ _)) by lia.
Qed.

(** The loop of [seek] walks forward sector by sector. *)
Lemma seek_loop_spec st sz cs datas fuel f k j :
  file_on st sz cs datas -> file_at st sz cs f k -> (k <= j)%nat -> (j - k < fuel)%nat ->
  512 * Z.of_nat j < sz ->
  exists f', seek_loop beyond fuel fs f (512 * Z.of_nat j) = Done (Ok tt, f') /\ file_at st sz cs f' j.
Proof.
  intros Hf. revert f k. induction fuel as [|fuel IH]; intros f k Hat Hkj Hfuel Hj; [lia|].
  destruct Hf as [Hc Hst Hsz Hlen] eqn:Hf'. cbn [seek_loop]. rewrite (fa_pos _ _ _ _ _ Hat).
  destruct (Z.eqb_spec (Z.min (512 * Z.of_nat k) sz) (512 * Z.of_nat j)) as [E|E].
  { exists f. split; [done|]. by replace j with k by lia. }
  destruct (lookup_lt_is_Some_2 datas k) as [data Hd]; [lia|].
  destruct (advance_cluster_spec _ _ _ _ _ _ _ Hc Hat Hd) as (f' & E' & Hat' & Hlt & _).
  rewrite E'. rstep. rewrite (fa_size _ _ _ _ _ Hat'). apply (IH _ (S k)); try lia.
  eapply file_at_next; [done..|]. rewrite (fa_pos _ _ _ _ _ Hat').
  rewrite (wrap_small 32) by (norm_pow; lia). lia.
Qed.

Lemma file_seek_at st sz cs datas fuel f k j :
  file_on st sz cs datas -> file_at st sz cs f k -> (k <= length datas)%nat ->
  (length datas < fuel)%nat -> 512 * Z.of_nat j < sz ->
  exists f', file_seek beyond fuel fs f (512 * Z.of_nat j) = Done (Ok tt, f') /\ file_at st sz cs f' j.
Proof.
  intros Hf Hat Hk Hfuel Hj. unfold file_seek.
  rewrite (Z.mul_comm 512), Z.mod_mul, Z.mul_comm by lia. cbn [negb Z.eqb].
  rewrite (fa_size _ _ _ _ _ Hat), (proj2 (Z.leb_gt _ _)) by lia.
  pose proof (fo_len _ _ _ _ Hf). rewrite (fa_pos _ _ _ _ _ Hat).
  destruct (Z.ltb_spec (512 * Z.of_nat j) (Z.min (512 * Z.of_nat k) sz)) as [Hb|Hb].
  - apply (seek_loop_spec st sz cs datas fuel _ 0); try done; try lia.
    destruct Hf as [[Hspc _ _ _] Hst Hsz _], Hat as [Hst' _ _ _].
    constructor; cbn; try done; [lia|]. exists 0%nat. rewrite Hst'. split; [done|]. lia.
  - apply (seek_loop_spec st sz cs datas fuel _ k); try done; lia.
Qed.

Lemma file_seek_error fuel f pos :
  (pos mod 512 <> 0 -> file_seek beyond fuel fs f pos = Done (Err InvalidOffset, f)) /\
  (pos mod 512 = 0 -> f_size f <= pos -> file_seek beyond fuel fs f pos = Done (Err EndOfFile, f)).
Proof.
  unfold file_seek. split.
  - intros E. by rewrite (proj2 (Z.eqb_neq _ _)) by done.
  - intros E Hp. by rewrite (proj2 (Z.eqb_eq _ _)), (proj2 (Z.leb_le _ _)) by done.
Qed.

(** ** Handles in use *)

(** One call on a file handle, with the fuel the [Read] instance gives [seek]. *)
Inductive file_step : File -> File -> Prop :=
| step_read f r f' : file_read beyond fs f 512 = Done (r, f') -> file_step f f'
| step_seek f pos r f' : 0 <= pos < 2 ^ 32 ->
    file_seek beyond SEEK_FUEL fs f pos = Done (r, f') -> file_step f f'.

Lemma file_len_fuel st sz cs datas : file_on st sz cs datas -> (length datas < SEEK_FUEL)%nat.
Proof.
  intros [_ _ Hsz Hlen]. unfold SEEK_FUEL. change (2 ^ 23) with 8388608.
  change (2 ^ 32) with 4294967296 in *. lia.
Qed.

Lemma file_step_at st sz cs datas f f' k :
  file_on st sz cs datas -> file_at st sz cs f k -> (k <= length datas)%nat -> file_step f f' ->
  exists k', file_at st sz cs f' k' /\ (k' <= length datas)%nat.
Proof.
  intros Hf Hat Hk Hs. pose proof (fa_size _ _ _ _ _ Hat) as Hsz.
  destruct Hs as [f r f' E|f pos r f' Hp E].
  - destruct (datas !! k) as [data|] eqn:Hd.
    + destruct (file_read_at _ _ _ _ _ _ _ Hf Hat Hd) as (f'' & E' & Hat').
      rewrite E' in E. injection E as <- <-. exists (S k). split; [done|].
      by apply lookup_lt_Some in Hd.
    + rewrite (file_read_eof _ _ _ _ _ _ Hf Hat (proj1 (lookup_ge_None _ _) Hd)) in E.
      injection E as <- <-. eauto.
  - destruct (file_seek_error SEEK_FUEL f pos) as [H1 H2].
    destruct (decide (pos mod 512 = 0)) as [Hm|Hm]; [|rewrite H1 in E by done; injection E as <- <-; eauto].
    destruct (decide (sz <= pos)) as [Hl|Hl].
    { rewrite H2 in E by (try done; lia). injection E as <- <-. eauto. }
    assert (Hj : pos = 512 * Z.of_nat (Z.to_nat (pos / 512))) by mlia.
    rewrite Hj in E. pose proof (fo_len _ _ _ _ Hf).
    destruct (file_seek_at _ _ _ _ SEEK_FUEL _ _ (Z.to_nat (pos / 512)) Hf Hat Hk) as (f'' & E' & Hat').
    { by eapply file_len_fuel. } { lia. }
    rewrite E' in E. injection E as <- <-. exists (Z.to_nat (pos / 512)). split; [done|lia].
Qed.

Lemma file_reachable_at st sz cs datas f f' k :
  file_on st sz cs datas -> file_at st sz cs f k -> (k <= length datas)%nat -> rtc file_step f f' ->
  exists k', file_at st sz cs f' k' /\ (k' <= length datas)%nat.
Proof.
  intros Hf Hat Hk Hs. revert k Hat Hk. induction Hs as [f|f g h Hfg Hgh IH]; intros k Hat Hk; [eauto|].
  destruct (file_step_at _ _ _ _ _ _ _ Hf Hat Hk Hfg) as (k' & Hat' & Hk'). eauto.
Qed.

(** Reading until the end of the file: the loop a client writes. *)
Fixpoint read_all (fuel : nat) (f : File) : res (result (list Z) Error) :=
  match fuel with
  | O => OutOfFuel
  | S fuel =>
      '(r, f) ← file_read beyond fs f 512;
      match r with
      | Err EndOfFile => Done (Ok [])
      | Err e => Done (Err e)
      | Ok (n, data) =>
          rest ← read_all fuel f;
          Done (match rest with Ok bs => Ok (take (Z.to_nat n) data ++ bs) | Err e => Err e end)
      end
  end.

Lemma datas_length cs datas k data : chain_data cs datas -> datas !! k = Some data -> length data = 512%nat.
Proof.
  intros Hc Hd. pose proof (cd_spc _ _ Hc). assert (spc <> 0)%nat by (unfold spc; lia).
  destruct (cd_sector _ _ Hc (k / spc) (k mod spc) data) as (c & _ & Hr).
  - by apply Nat.mod_upper_bound.
  - rewrite <- Hd. f_equal. rewrite Nat.mul_comm. symmetry. by apply Nat.div_mod.
  - by apply fs_read_length in Hr as [? _].
Qed.

Lemma concat_sectors_length cs datas : chain_data cs datas ->
  length (concat datas) = (512 * length datas)%nat.
Proof.
  intros Hc. assert (Hl : Forall (fun s => length s = 512%nat) datas).
  { apply Forall_lookup. intros k s Hk. by eapply datas_length. }
  clear Hc. induction Hl as [|s l Hs Hl IH]; cbn [concat length]; [lia|]. rewrite length_app. lia.
Qed.

Lemma concat_sectors_drop cs datas j : chain_data cs datas ->
  concat (drop j datas) = drop (512 * j) (concat datas).
Proof.
  intros Hc. assert (Hl : Forall (fun s => length s = 512%nat) datas).
  { apply Forall_lookup. intros k s Hk. by eapply datas_length. }
  clear Hc. revert j. induction Hl as [|s l Hs Hl IH]; intros j; [by rewrite drop_nil; cbn [concat]; rewrite drop_nil|].
  destruct j as [|j]; [by rewrite Nat.mul_0_r, !drop_0|].
  change (drop (S j) (s :: l)) with (drop j l). rewrite IH. cbn [concat].
  rewrite drop_app, (drop_ge s) by lia. cbn [app]. f_equal. lia.
Qed.

Lemma read_all_spec st sz cs datas fuel f k :
  file_on st sz cs datas -> file_at st sz cs f k -> (k <= length datas)%nat ->
  (length datas - k < fuel)%nat ->
  read_all fuel f = Done (Ok (take (Z.to_nat (sz - 512 * Z.of_nat k)) (concat (drop k datas)))).
Proof.
  intros Hf. revert f k. induction fuel as [|fuel IH]; intros f k Hat Hk Hfuel; [lia|]. cbn [read_all].
  destruct (datas !! k) as [data|] eqn:Hd.
  - destruct (file_read_at _ _ _ _ _ _ _ Hf Hat Hd) as (f' & E & Hat').
    pose proof (lookup_lt_Some _ _ _ Hd) as Hlt. pose proof (fo_len _ _ _ _ Hf).
    rewrite E. rstep. rewrite (IH f' (S k)) by (try done; lia). rstep.
    rewrite (drop_S datas data k Hd). cbn [concat].
    pose proof (datas_length _ _ _ _ (fo_chain _ _ _ _ Hf) Hd) as Hl.
    do 2 f_equal. rewrite take_app. f_equal.
    + destruct (decide (512 <= sz - 512 * Z.of_nat k)).
      * rewrite (take_ge data (Z.to_nat (Z.min _ _))), take_ge by lia. done.
      * f_equal. lia.
    + f_equal. lia.
  - apply lookup_ge_None in Hd. rewrite (file_read_eof _ _ _ _ _ _ Hf Hat Hd). rstep.
    rewrite drop_ge by done. cbn [concat]. by rewrite take_nil.
Qed.
End Chain.

(** ** Properties *)

(** C8: On a file whose chain holds [datas], every handle reached from
    [get_file] by reads and seeks stands before some sector [k]: [read] then
    returns the bytes of sector [k] inside the file and moves to [k + 1], reports
    EndOfFile exactly when the file is exhausted, and [seek] to any multiple of
    512 inside the file succeeds and puts the handle there, whether the target
    lies behind or ahead. *)
Theorem file_handle_correct {D} `{SectorRead D} beyond (fs : Filesystem D) st sz cs datas f0 f :
  file_on beyond fs st sz cs datas -> get_file st sz = Ok f0 -> rtc (file_step beyond fs) f0 f ->
  exists k, position f = Z.min (512 * Z.of_nat k) sz /\ (k <= length datas)%nat /\
    match datas !! k with
    | Some data => exists f',
        file_read beyond fs f 512 = Done (Ok (Z.min 512 (sz - 512 * Z.of_nat k), data), f') /\
        position f' = Z.min (512 * Z.of_nat (S k)) sz
    | None => file_read beyond fs f 512 = Done (Err EndOfFile, f)
    end /\
    forall j, 512 * Z.of_nat j < sz -> exists f' data n f'',
      file_seek beyond SEEK_FUEL fs f (512 * Z.of_nat j) = Done (Ok tt, f') /\
      position f' = 512 * Z.of_nat j /\ datas !! j = Some data /\
      file_read beyond fs f' 512 = Done (Ok (n, data), f'').
Proof.
  intros Hf H0 Hr. destruct (get_file_at _ _ _ _ _ _ Hf) as (f0' & E & Hat0).
  rewrite E in H0. injection H0 as ->.
  destruct (file_reachable_at _ _ _ _ _ _ _ _ _ Hf Hat0 (Nat.le_0_l _) Hr) as (k & Hat & Hk).
  exists k. split; [by eapply fa_pos|]. split; [done|]. split.
  - destruct (datas !! k) as [data|] eqn:Hd.
    + destruct (file_read_at _ _ _ _ _ _ _ _ _ Hf Hat Hd) as (f' & E' & Hat').
      exists f'. split; [done|]. by eapply fa_pos.
    + apply lookup_ge_None in Hd. by eapply file_read_eof.
  - intros j Hj. pose proof (fo_len _ _ _ _ _ _ Hf).
    destruct (file_seek_at _ _ _ _ _ _ SEEK_FUEL _ _ j Hf Hat Hk) as (f' & E' & Hat').
    { by eapply file_len_fuel. } { done. }
    destruct (lookup_lt_is_Some_2 datas j) as [data Hd]; [lia|].
    destruct (file_read_at _ _ _ _ _ _ _ _ _ Hf Hat' Hd) as (f'' & E'' & _).
    exists f', data, (Z.min 512 (sz - 512 * Z.of_nat j)), f''. split; [done|].
    split; [|done]. rewrite (fa_pos _ _ _ _ _ _ Hat'). lia.
Qed.

(** The file of the FAT32 volume: 700 bytes in clusters 4 and 6. *)
Lemma fat32_file_on :
  file_on zeros fat32_fs 4 700 [4; 6] [replicate 512 0xaa; replicate 512 0xbb].
Proof.
  constructor; [|done|lia|cbn; lia]. constructor.
  - cbn. lia.
  - intros [|q] c c' Hc Hc'; [|destruct q; discriminate]. injection Hc as <-. injection Hc' as <-.
    vm_compute. reflexivity.
  - intros [|[|q]] c Hc; [..|discriminate]; injection Hc as <-; vm_compute; reflexivity.
  - intros q so data Hso Hd. change (spc fat32_fs) with 1%nat in *.
    replace so with 0%nat in * by lia. rewrite Nat.mul_1_r, Nat.add_0_r in Hd.
    destruct q as [|[|q]]; [..|destruct q; discriminate]; injection Hd as <-;
      eexists; (split; [reflexivity | vm_compute; reflexivity]).
Qed.

Lemma file_handle_correct_witness : exists f',
  file_seek zeros SEEK_FUEL fat32_fs (mkFile 4 4 0 700 0) 512 = Done (Ok tt, f') /\ position f' = 512.
Proof.
  destruct (file_handle_correct zeros fat32_fs 4 700 [4; 6] [replicate 512 0xaa; replicate 512 0xbb]
              (mkFile 4 4 0 700 0) (mkFile 4 4 0 700 0)) as (k & _ & _ & _ & Hs).
  - apply fat32_file_on.
  - reflexivity.
  - apply rtc_refl.
  - destruct (Hs 1%nat) as (f' & data & n & f'' & E & Hp & _); [lia|]. exists f'. split; [exact E | exact Hp].
Defined.

(** C9: Reading a file from [get_file] until EndOfFile returns its [sz]
    bytes: the sectors of its cluster chain in order, cut at the size; after a
    seek to [512 * j] it returns the bytes from there on. *)
Theorem read_to_end_correct {D} `{SectorRead D} beyond (fs : Filesystem D) st sz cs datas f0 :
  file_on beyond fs st sz cs datas -> get_file st sz = Ok f0 ->
  let contents := take (Z.to_nat sz) (concat datas) in
  length contents = Z.to_nat sz /\
  read_all beyond fs (S (length datas)) f0 = Done (Ok contents) /\
  forall j, 512 * Z.of_nat j < sz -> exists f,
    file_seek beyond SEEK_FUEL fs f0 (512 * Z.of_nat j) = Done (Ok tt, f) /\
    read_all beyond fs (S (length datas)) f = Done (Ok (drop (512 * j) contents)).
Proof.
  intros Hf H0 contents. destruct (get_file_at _ _ _ _ _ _ Hf) as (f0' & E & Hat0).
  rewrite E in H0. injection H0 as ->.
  assert (Hl : length (concat datas) = (512 * length datas)%nat) by (by eapply concat_sectors_length, fo_chain).
  pose proof (fo_len _ _ _ _ _ _ Hf). split; [|split].
  - unfold contents. rewrite length_take, Hl. lia.
  - rewrite (read_all_spec _ _ _ _ _ _ _ _ 0 Hf Hat0) by lia. rewrite drop_0. do 3 f_equal. lia.
  - intros j Hj. destruct (file_seek_at _ _ _ _ _ _ SEEK_FUEL _ _ j Hf Hat0) as (f & E' & Hat).
    { lia. } { by eapply file_len_fuel. } { done. }
    exists f. split; [done|]. rewrite (read_all_spec _ _ _ _ _ _ _ _ j Hf Hat) by lia.
    unfold contents. rewrite skipn_firstn_comm. do 3 f_equal; [lia|].
    by eapply concat_sectors_drop, fo_chain.
Qed.

Lemma read_to_end_correct_witness :
  read_all zeros fat32_fs 3 (mkFile 4 4 0 700 0) = Done (Ok (replicate 512 0xaa ++ replicate 188 0xbb)).
Proof.
  destruct (read_to_end_correct zeros fat32_fs 4 700 [4; 6] [replicate 512 0xaa; replicate 512 0xbb]
              (mkFile 4 4 0 700 0)) as (_ & E & _).
  - apply fat32_file_on.
  - reflexivity.
  - exact E.
Defined.
