(* ===== verification/FatInit.v ===== *)
(** * Mounting a FAT volume and its short names

    [init] derives the volume's geometry from the boot sector; [get_short_name]
    turns the padded 8.3 name of a record into the name paths use. *)

From S2P Require Import Prelude REfi Mem Part EfiStr Fat FatDemo.
Import Fat.

(** ** Geometry *)

(** Little-endian words of the boot sector. *)
Definition byte (data : list Z) (off : nat) : Z := nth off data 0.
Definition word (data : list Z) (off : nat) : Z := byte data off + 256 * byte data (off + 1).
Definition dword (data : list Z) (off : nat) : Z := word data off + 65536 * word data (off + 2).

(** What the boot sector says (the BPB fields of the FAT specification), before any 32-bit
    arithmetic: the sectors of the volume, its type, the sectors of a table and of
    the root directory. *)
Definition total_sectors (data : list Z) : Z := if word data 19 =? 0 then dword data 32 else word data 19.
Definition fat_kind (clusters : Z) : FatType :=
  if clusters <? 4085 then FAT12 else if clusters <? 65525 then FAT16 else FAT32.
Definition volume_kind (data : list Z) : FatType := fat_kind (total_sectors data / byte data 13).
Definition table_sectors (data : list Z) : Z :=
  match volume_kind data with FAT32 => dword data 36 | _ => word data 22 end.

(** The sectors that hold [n] root entries of 32 bytes. *)
Definition root_sectors_for (bps n : Z) : Z := (n * 32 + bps - 1) / bps.

Lemma root_sectors_cover bps n : 0 < bps -> 0 <= n ->
  (root_sectors_for bps n - 1) * bps < n * 32 <= root_sectors_for bps n * bps.
Proof.
  intros Hb Hn. unfold root_sectors_for. pose proof (Z.div_mod (n * 32 + bps - 1) bps).
  pose proof (Z.mod_pos_bound (n * 32 + bps - 1) bps). nia.
Qed.

Definition root_dir_size (data : list Z) : Z :=
  match volume_kind data with FAT32 => 0 | _ => root_sectors_for (word data 11) (word data 17) end.
(** The tables follow the reserved sectors, the root directory of FAT12 and FAT16
    follows the tables, the clusters follow. *)
Definition tables_end (data : list Z) : Z := word data 14 + byte data 16 * table_sectors data.
Definition data_start (data : list Z) : Z := tables_end data + root_dir_size data.

Lemma take_drop_nth (data : list Z) off n : (off + S n <= length data)%nat ->
  take (S n) (drop off data) = byte data off :: take n (drop (S off) data).
Proof.
  intros Hl. destruct (lookup_lt_is_Some_2 data off) as [x Hx]; [lia|].
  rewrite (drop_S data x off Hx). cbn [take]. unfold byte. by rewrite (nth_lookup_Some data off 0 x Hx).
Qed.
Lemma field_byte data off : (off + 1 <= length data)%nat -> field data off 1 = byte data off.
Proof. intros Hl. unfold field. rewrite take_drop_nth by done. rewrite firstn_O. cbn [le_combine]. lia. Qed.
Lemma field_word data off : (off + 2 <= length data)%nat -> field data off 2 = word data off.
Proof.
  intros Hl. unfold field, word. rewrite !take_drop_nth, firstn_O by lia. cbn [le_combine].
  rewrite Nat.add_1_r. lia.
Qed.
Lemma field_dword data off : (off + 4 <= length data)%nat -> field data off 4 = dword data off.
Proof.
  intros Hl. unfold field, dword, word. rewrite !take_drop_nth, firstn_O by lia. cbn [le_combine].
  replace (off + 2 + 1)%nat with (S (S (S off))) by lia. replace (off + 2)%nat with (S (S off)) by lia.
  rewrite Nat.add_1_r. lia.
Qed.

(** The fields [init] uses are those words. *)
Lemma header_words data : length data = 512%nat ->
  header_of data = mkHeader (word data 11) (byte data 13) (word data 14) (byte data 16)
                     (word data 17) (word data 19) (word data 22) (dword data 32) /\
  header32_of data = mkHeader32 (dword data 36) (dword data 44).
Proof.
  intros Hl. unfold header_of, header32_of.
  by rewrite !(field_word data), !(field_byte data), !(field_dword data) by lia.
Qed.

Lemma field_range data off n : bytes_ok data -> 0 <= field data off n < 2 ^ (8 * Z.of_nat n).
Proof.
  intros Hb. unfold field. pose proof (le_combine_range (take n (drop off data))) as Hr.
  specialize (Hr ltac:(by apply Forall_take, Forall_drop)).
  assert (2 ^ (8 * Z.of_nat (length (take n (drop off data)))) <= 2 ^ (8 * Z.of_nat n)).
  { apply Z.pow_le_mono_r; [lia|]. rewrite length_take. lia. }
  lia.
Qed.

Lemma type_of_clusters_known n :
  type_of_clusters n = FAT12 \/ type_of_clusters n = FAT16 \/ type_of_clusters n = FAT32.
Proof. unfold type_of_clusters. destruct (_ <? _); [by left|]. destruct (_ <? _); auto. Qed.

Lemma div_nonzero x y : y <> 0 -> div x y = Done (x / y).
Proof. intros Hy. unfold div. by rewrite (proj2 (Z.eqb_neq _ _)) by done. Qed.

Section Init.
Context {D : Type} `{SectorRead D}.

(** The mounted volume of a boot sector. *)
Definition mounted (dev : D) (st la id : Z) (data : list Z) : Filesystem D :=
  let free := u32 (total_sectors data - data_start data) in
  {| device := dev; start := st; last := la; part_id := id;
     bytes_per_sector := word data 11; sectors := total_sectors data; fat_type := volume_kind data;
     clusters := total_sectors data / byte data 13;
     sectors_per_fat := table_sectors data; sectors_per_cluster := byte data 13; fat_count := byte data 16;
     root_dir_sectors := root_dir_size data; first_fat_sector := word data 14;
     first_data_sector := data_start data; data_sector_count := free;
     data_cluster_count := free / word data 11;
     root_cluster := match volume_kind data with FAT32 => dword data 44 | _ => 0 end |}.

Lemma byte_range data off : bytes_ok data -> 0 <= byte data off < 2 ^ 8.
Proof.
  intros Hb. unfold byte. destruct (data !! off) as [x|] eqn:Hx.
  - rewrite (nth_lookup_Some data off 0 x Hx). by apply (Forall_lookup_1 _ _ off _ Hb).
  - rewrite nth_overflow by (by apply lookup_ge_None). lia.
Qed.
Lemma word_range data off : bytes_ok data -> 0 <= word data off < 2 ^ 16.
Proof.
  intros Hb. unfold word. pose proof (byte_range data off Hb). pose proof (byte_range data (off + 1) Hb). lia.
Qed.
Lemma dword_range data off : bytes_ok data -> 0 <= dword data off < 2 ^ 32.
Proof.
  intros Hb. unfold dword. pose proof (word_range data off Hb). pose proof (word_range data (off + 2) Hb). lia.
Qed.
Lemma tables_nonneg data : bytes_ok data -> 0 <= byte data 16 * table_sectors data.
Proof.
  intros Hb. apply Z.mul_nonneg_nonneg; [by apply byte_range|].
  unfold table_sectors. destruct (volume_kind data); [by apply word_range..|by apply dword_range].
Qed.

(** [init] without wrap-around. *)
Lemma init_spec (dev : D) st la id data :
  fs_read (new dev st la id) 0 = Ok data ->
  byte data 13 <> 0 -> word data 11 <> 0 -> word data 17 < 2048 -> data_start data < 2 ^ 32 ->
  init (new dev st la id) = Done (Ok tt, mounted dev st la id data).
Proof.
  intros Hr Hspc Hbps Hcount Hstart. unfold init. rewrite Hr. cbv zeta.
  apply fs_read_length in Hr as [Hlen Hok]. destruct (header_words data Hlen) as [-> ->].
  cbn [h_bytes_per_sector h_sectors_per_cluster h_reserved_sectors h_fat_count h_root_dir_count
       h_legacy_sectors h_legacy_sectors_per_fat h_sectors h32_sectors_per_fat h32_root_cluster].
  pose proof (word_range data 14 Hok) as Hres. pose proof (word_range data 11 Hok) as Hb.
  pose proof (word_range data 17 Hok) as Hn. pose proof (tables_nonneg data Hok) as Hprod.
  fold (total_sectors data). rewrite (div_nonzero (total_sectors data)) by done. rstep.
  change (type_of_clusters (total_sectors data / byte data 13)) with (volume_kind data).
  assert (Hrds : (match volume_kind data with
            | FAT12 | FAT16 => div (u32 (u32 (u16 (word data 17 * 32) + word data 11) - 1)) (word data 11)
            | _ => Done (root_dir_sectors (new dev st la id))
            end) = Done (root_dir_size data) /\ 0 <= root_dir_size data).
  { unfold root_dir_size, root_sectors_for. rewrite div_nonzero by done.
    rewrite (wrap_small 16) by (norm_pow; lia).
    rewrite (wrap_small 32 (_ + _)), (wrap_small 32) by (norm_pow; lia).
    assert (0 <= (word data 17 * 32 + word data 11 - 1) / word data 11) by (apply Z.div_pos; lia).
    unfold volume_kind. destruct (type_of_clusters_known (total_sectors data / byte data 13)) as [E|[E|E]];
      unfold type_of_clusters, FAT12_MAX, FAT16_MAX in E; unfold fat_kind; rewrite E; split; (done || lia). }
  destruct Hrds as [-> Hrds0]. rstep.
  change (match volume_kind data with FAT32 => dword data 36 | _ => word data 22 end) with (table_sectors data).
  unfold data_start, tables_end in Hstart. rewrite (wrap_small 32 (byte data 16 * _)) by lia.
  rewrite (wrap_small 32 (word data 14 + _)), (wrap_small 32 (_ + _ + _)) by lia.
  rewrite div_nonzero by done. rstep. reflexivity.
Qed.
End Init.

(** ** Short names *)

Lemma get_len_space l : l <> [] -> get_len (32 :: l) = get_len l.
Proof. by destruct l. Qed.

Lemma get_len_trim bs k : bs <> [] -> List.last bs 32 <> 32 ->
  get_len (reverse (bs ++ replicate k 32)) = length bs.
Proof.
  intros Hne Hl. rewrite reverse_app.
  assert (Hrev : exists x l, reverse bs = x :: l /\ x <> 32).
  { destruct bs as [|b bs' _] using rev_ind; [done|]. exists b, (reverse bs').
    rewrite reverse_app. split; [done|]. by rewrite List.last_last in Hl. }
  destruct Hrev as (x & l & E & Hx).
  assert (Hk : forall k, get_len (replicate k 32 ++ x :: l) = get_len (x :: l)).
  { intros k'. induction k' as [|k' IH]; [done|].
    change (replicate (S k') 32 ++ x :: l) with (32 :: (replicate k' 32 ++ x :: l)).
    rewrite get_len_space; [done|]. by destruct k'. }
  rewrite reverse_replicate, E, Hk, <- (length_reverse bs), E. cbn [get_len length].
  destruct l; [done|]. by rewrite (proj2 (Z.eqb_neq _ _)) by done.
Qed.

(** A record's name field: base and extension, space padded. *)
Definition padded_name (base ext : list Z) : list Z :=
  (base ++ replicate (8 - length base) 32) ++ ext ++ replicate (3 - length ext) 32.
(** The name as paths spell it. *)
Definition dotted_name (base ext : list Z) : list Z :=
  base ++ match ext with [] => [] | _ => 46 :: ext end.

Lemma until_nul_app nm k : Forall (fun b => b <> 0) nm -> until_nul (nm ++ replicate k 0) = nm.
Proof.
  induction 1 as [|b nm Hb Hn IH]; cbn [app until_nul]; [by destruct k|].
  by rewrite (proj2 (Z.eqb_neq _ _)), IH by done.
Qed.

Lemma last_not_space ext : ext <> [] -> Forall (fun b => b <> 32) ext -> List.last ext 32 <> 32.
Proof.
  intros Hne Hf. destruct ext as [|b ext _] using rev_ind; [done|]. rewrite List.last_last.
  apply Forall_app in Hf as [_ Hf]. by apply Forall_inv in Hf.
Qed.

Lemma filter_no_space ext k : Forall (fun b => b <> 32) ext ->
  List.filter (fun b => negb (b =? 32)) (take (length ext) (ext ++ replicate k 32)) = ext.
Proof.
  intros Hf. rewrite take_app_length.
  induction Hf as [|b ext Hb Hf IH]; cbn [List.filter]; [done|].
  by rewrite (proj2 (Z.eqb_neq _ _)), IH by done.
Qed.

(** The two halves of a padded name. *)
Lemma padded_name_halves base ext : (length base <= 8)%nat -> (length ext <= 3)%nat ->
  take 8 (padded_name base ext) = base ++ replicate (8 - length base) 32 /\
  drop 8 (padded_name base ext) = ext ++ replicate (3 - length ext) 32.
Proof.
  intros Hb He. unfold padded_name.
  assert (Hl : length (base ++ replicate (8 - length base) 32) = 8%nat)
    by (rewrite length_app, length_replicate; lia).
  split; [by rewrite take_app_le, take_ge by lia|].
  rewrite drop_app, drop_ge by lia. by rewrite Hl, drop_0.
Qed.

Lemma get_short_name_spec base ext :
  (0 < length base <= 8)%nat -> List.last base 32 <> 32 ->
  (length ext <= 3)%nat -> Forall (fun b => b <> 32) ext ->
  get_short_name (padded_name base ext) =
  Done (dotted_name base ext ++ replicate (12 - length (dotted_name base ext)) 0).
Proof.
  intros Hb Hlast He Hext. destruct (padded_name_halves base ext) as [H8 Hd]; [lia..|].
  unfold get_short_name, index, bytes_at.
  assert (Hidx : forall i, padded_name base ext !! (8 + i)%nat = (ext ++ replicate (3 - length ext) 32) !! i).
  { intros i. by rewrite <- Hd, lookup_drop. }
  rewrite H8, Hd, (get_len_trim base) by (try done; by destruct base; [cbn in Hb; lia|]).
  assert (Hbase : take (length base) (padded_name base ext) = base).
  { transitivity (take (length base) (take 8 (padded_name base ext))).
    - by rewrite take_take, Nat.min_l by lia.
    - by rewrite H8, take_app_length. }
  rewrite Hbase. specialize (Hidx 0%nat). rewrite Nat.add_0_r in Hidx. rewrite Hidx.
  assert (H3 : take 3 (ext ++ replicate (3 - length ext) 32) = ext ++ replicate (3 - length ext) 32).
  { apply take_ge. rewrite length_app, length_replicate. lia. }
  rewrite H3. unfold dotted_name. destruct ext as [|x ext].
  - cbn [app lookup list_lookup replicate length Nat.sub unwrap]. rstep. cbn [negb Z.eqb]. rewrite !app_nil_r.
    by rewrite (proj2 (Nat.leb_le _ _)) by (unfold EFI_FAT_SHORT_NAME_LEN; lia).
  - cbn [app lookup list_lookup]. cbn [unwrap]. rstep. rewrite (proj2 (Z.eqb_neq x 32)) by (by apply Forall_inv in Hext).
    cbn [negb]. change (x :: ext ++ replicate ?k 32) with ((x :: ext) ++ replicate k 32).
    rewrite get_len_trim, filter_no_space by (try done; by apply last_not_space).
    rewrite (proj2 (Nat.leb_le _ _)); [done|]. rewrite length_app. unfold EFI_FAT_SHORT_NAME_LEN. cbn [length] in *. lia.
Qed.

(** ** Properties *)

(** C12: [init] of a new volume makes of the boot sector's bytes exactly the geometry
    they describe, when they are sound (sector and cluster sizes other than zero,
    fewer than 2048 root entries, a layout inside 32 bits): sector, cluster and table
    sizes and numbers, the type by the number of clusters, the tables after the
    reserved sectors, the root directory of FAT12 and FAT16 after the tables in
    the fewest sectors that hold its entries, the data after it, the root cluster of
    FAT32.  [root] then is the directory of that cluster, or the one right after the
    tables.  A zero sector or cluster size makes [init] panic, and a boot sector that
    cannot be read is a [BlockError]. *)
Theorem init_geometry {D} `{SectorRead D} (dev : D) st la id :
  match fs_read (new dev st la id) 0 with
  | Err _ => init (new dev st la id) = Done (Err BlockError, new dev st la id)
  | Ok data =>
    (byte data 13 = 0 \/ word data 11 = 0 -> init (new dev st la id) = Panic) /\
    (byte data 13 <> 0 -> word data 11 <> 0 -> word data 17 < 2048 -> data_start data < 2 ^ 32 ->
     let fs := mounted dev st la id data in
     init (new dev st la id) = Done (Ok tt, fs) /\
     (volume_kind data <> FAT32 ->
       (root_dir_size data - 1) * word data 11 < word data 17 * 32 <= root_dir_size data * word data 11) /\
     match root fs with
     | Ok o => file_type (dir_ent o) = Directory_ /\ file o = None /\
         dir o = Some (match volume_kind data with
                       | FAT32 => mkDir (Some (dword data 44)) 0 0 (Some (dword data 44))
                       | _ => mkDir None (tables_end data) 0 None
                       end)
     | Err _ => False
     end)
  end.
Proof.
  destruct (fs_read (new dev st la id) 0) as [data|e] eqn:Hr; [|unfold init; by rewrite Hr].
  destruct (fs_read_length _ _ _ Hr) as [Hlen Hok]. destruct (header_words data Hlen) as [Eh _]. split.
  { intros Hz. unfold init. rewrite Hr. cbv zeta. rewrite Eh. cbn [h_sectors_per_cluster h_bytes_per_sector].
    destruct (Z.eqb_spec (byte data 13) 0) as [E|E]; [rewrite E; reflexivity|]. destruct Hz as [?|Hz]; [done|].
    rewrite (div_nonzero _ (byte data 13)) by done. rstep. rewrite Hz.
    match goal with |- context [type_of_clusters ?c] =>
      destruct (type_of_clusters_known c) as [->|[->| ->]]; reflexivity end. }
  intros Hspc Hbps Hcount Hstart fs. split; [by apply init_spec|].
  pose proof (word_range data 14 Hok) as Hres. pose proof (word_range data 11 Hok) as Hb.
  pose proof (word_range data 17 Hok) as Hn. pose proof (tables_nonneg data Hok) as Hprod.
  assert (Hty := type_of_clusters_known (total_sectors data / byte data 13)).
  change (type_of_clusters (total_sectors data / byte data 13)) with (volume_kind data) in Hty.
  assert (Hrds : 0 <= root_dir_size data).
  { unfold root_dir_size, root_sectors_for. destruct (volume_kind data); try lia; apply Z.div_pos; lia. }
  assert (Et : u32 (data_start data - root_dir_size data) = tables_end data).
  { unfold data_start in *. rewrite wrap_small; unfold tables_end in *; lia. }
  split.
  - intros Hne. unfold root_dir_size. destruct (volume_kind data); try done; apply root_sectors_cover; lia.
  - unfold root, fs. cbn [mounted fat_type first_data_sector root_dir_sectors root_cluster]. rewrite Et.
    destruct Hty as [E|[E|E]]; rewrite E; done.
Qed.

(** The FAT16 volume: root directory at sector 33, data at sector 65. *)
Lemma init_geometry_witness : exists fs', init (new fat16_disk 0 100000 1) = Done (Ok tt, fs') /\
  fat_type fs' = FAT16 /\ first_data_sector fs' - root_dir_sectors fs' = 33.
Proof.
  pose proof (init_geometry fat16_disk 0 100000 1) as Hi.
  destruct (fs_read (new fat16_disk 0 100000 1) 0) as [data|] eqn:Hr; [|vm_compute in Hr; discriminate].
  vm_compute in Hr. injection Hr as <-. destruct Hi as [_ Hi]. eexists. split.
  - apply Hi; vm_compute; (discriminate || reflexivity).
  - split; vm_compute; reflexivity.
Defined.

(** [get_short_name] undoes the padding of 8.3 names: a record whose name
    is a base of 1 to 8 bytes and an extension of up to 3, space padded, gets
    the name base.ext (or base), zero padded, and [compare_short_name] then
    accepts exactly that name. *)
Theorem short_name_correct base ext de nm :
  (0 < length base <= 8)%nat -> List.last base 32 <> 32 -> Forall (fun b => b <> 0) base ->
  (length ext <= 3)%nat -> Forall (fun b => b <> 32 /\ b <> 0) ext ->
  get_short_name (padded_name base ext) = Done (name de) ->
  until_nul (name de) = dotted_name base ext /\ length (name de) = 12%nat /\
  (compare_short_name nm de = true <-> nm = dotted_name base ext).
Proof.
  intros Hb Hl H0 He Hext Hs.
  rewrite get_short_name_spec in Hs; try done; [|eapply Forall_impl; [done|]; cbn; tauto].
  injection Hs as Hs. assert (Hd : Forall (fun b => b <> 0) (dotted_name base ext)).
  { unfold dotted_name. apply Forall_app. split; [done|]. destruct ext; [constructor|].
    constructor; [done|]. eapply Forall_impl; [done|]. cbn; tauto. }
  assert (Hu : until_nul (name de) = dotted_name base ext) by (rewrite <- Hs; by apply until_nul_app).
  split_and!; [done| |].
  - rewrite <- Hs, length_app, length_replicate. unfold dotted_name. rewrite length_app.
    destruct ext; cbn [length] in *; lia.
  - unfold compare_short_name. rewrite Hu, bool_decide_eq_true. naive_solver.
Qed.

(** "A.TXT". *)
Lemma short_name_correct_witness :
  get_short_name name_a_txt = Done (path_a_txt ++ replicate 7 0) /\
  compare_short_name path_a_txt (mkDE (path_a_txt ++ replicate 7 0) File_ 0 0 [] 0) = true.
Proof.
  split; [reflexivity|].
  apply (short_name_correct [0x41] [0x54; 0x58; 0x54]
           (mkDE (path_a_txt ++ replicate 7 0) File_ 0 0 [] 0) path_a_txt).
  - cbn. lia.
  - discriminate.
  - repeat constructor; discriminate.
  - cbn. lia.
  - repeat constructor; discriminate.
  - reflexivity.
  - reflexivity.
Defined.
