(* ===== verification/FatDir.v ===== *)
(** * Directories on a FAT volume: listing and [open]

    A directory is the sequence of 32-byte records of its sectors.  [entries] is
    what the records mean, read off their bytes; [listing] is the same made with the
    code's functions on records.  [next_entry], which reads one sector at a time and
    carries long names across sector and cluster boundaries, enumerates the entries,
    and [open] resolves a path component by component against them. *)

From S2P Require Import Prelude REfi Mem Part EfiStr Fat FatDemo FatFile FatInit.
Import Fat.

(** ** The entries with the code's functions on records *)

Definition first_byte (r : list Z) : Z := nth 0 (d_name (directory_of r)) 0.
Definition is_end (r : list Z) : bool := first_byte r =? 0.
Definition no_long_name : list Z := replicate EFI_PATH_STRING_LENGTH 0.

(** The first entry and the records after it. *)
Fixpoint first_entry (records : list (list Z)) (long : list Z)
    : res (option (DirectoryEntry * list (list Z))) :=
  match records with
  | [] => Done None
  | r :: records =>
      if is_end r then Done None
      else if first_byte r =? 0xe5 then first_entry records long
      else if d_flags (directory_of r) =? 0x0f then
        long ← put_long_name long (long_name_of r); first_entry records long
      else e ← entry_of (directory_of r) long; Done (Some (e, records))
  end.

(** All entries: deleted records are skipped, long-name records give the next
    entry its long name, the end mark ends the directory. *)
Fixpoint listing (records : list (list Z)) (long : list Z) : res (list DirectoryEntry) :=
  match records with
  | [] => Done []
  | r :: records =>
      if is_end r then Done []
      else if first_byte r =? 0xe5 then listing records long
      else if d_flags (directory_of r) =? 0x0f then
        long ← put_long_name long (long_name_of r); listing records long
      else
        e ← entry_of (directory_of r) long;
        es ← listing records no_long_name;
        Done (e :: es)
  end.

Lemma listing_first records long :
  listing records long =
  (o ← first_entry records long;
   match o with
   | None => Done []
   | Some (e, rest) => es ← listing rest no_long_name; Done (e :: es)
   end).
Proof.
  revert long. induction records as [|r records IH]; intros long; cbn [listing first_entry]; [done|].
  destruct (is_end r); [done|]. destruct (first_byte r =? 0xe5); [apply IH|].
  destruct (_ =? 0x0f); [by destruct (put_long_name _ _) as [l| |]; rstep|].
  by destruct (entry_of _ _) as [e| |]; rstep.
Qed.

Lemma first_entry_shorter records long e rest :
  first_entry records long = Done (Some (e, rest)) -> (length rest < length records)%nat.
Proof.
  revert long. induction records as [|r records IH]; intros long; cbn [first_entry length]; [done|].
  destruct (is_end r); [done|]. destruct (first_byte r =? 0xe5).
  { intros E. specialize (IH _ E). lia. }
  destruct (_ =? 0x0f); intros E; res_inv; [|lia].
  match goal with E : first_entry _ _ = _ |- _ => specialize (IH _ E) end. lia.
Qed.

(** The scan of a sector is the first entry of the records that start there. *)
Lemma scan_records_spec a b i long :
  match scan_records a i long with
  | Done ScanEnd => first_entry (a ++ b) long = Done None
  | Done (ScanFound e n) => (i < n <= i + length a)%nat /\
      first_entry (a ++ b) long = Done (Some (e, drop (n - i) a ++ b))
  | Done (ScanMore l) => first_entry (a ++ b) long = first_entry b l
  | Panic => first_entry (a ++ b) long = Panic
  | OutOfFuel => first_entry (a ++ b) long = OutOfFuel
  end.
Proof.
  revert i long. induction a as [|r a IH]; intros i long; cbn [scan_records app first_entry length]; [done|].
  unfold is_end, first_byte. destruct (_ =? 0); [done|]. destruct (_ =? 0xe5).
  { specialize (IH (S i) long). destruct (scan_records a (S i) long) as [[|e n|l]| |]; try done.
    destruct IH as [Hn ->]. split; [lia|]. replace (n - i)%nat with (S (n - S i)) by lia. done. }
  destruct (_ =? 0x0f).
  { destruct (put_long_name _ _) as [l| |]; rstep; [|done..].
    specialize (IH (S i) l). destruct (scan_records a (S i) l) as [[|e n|l']| |]; try done.
    destruct IH as [Hn ->]. split; [lia|]. replace (n - i)%nat with (S (n - S i)) by lia. done. }
  destruct (entry_of _ _) as [e| |]; rstep; [|done..]. split; [lia|].
  replace (S i - i)%nat with 1%nat by lia. done.
Qed.

(** ** What a directory's records mean

    The meaning is given record by record in the terms of the FAT specification, at
    byte offsets, and does not use the code's functions. *)

(** A name without its trailing spaces. *)
Fixpoint trim_end (l : list Z) : list Z :=
  match l with
  | [] => []
  | b :: l => match trim_end l with
              | [] => if b =? 32 then [] else [b]
              | t => b :: t
              end
  end.
(** The short name of the 11 padded bytes: base, dot and extension, padded with NULs to
    12 bytes.  A base of spaces only keeps the first of them. *)
Definition short_name (bs : list Z) : list Z :=
  let base := match trim_end (take 8 bs) with [] => take 1 bs | t => t end in
  let ext := if nth 8 bs 0 =? 32 then [] else 46 :: List.filter (fun b => negb (b =? 32)) (drop 8 bs) in
  (base ++ ext) ++ replicate (12 - length (base ++ ext)) 0.

(** Unit [j] of the 13 of a long-name record. *)
Definition long_unit (r : list Z) (j : nat) : Z :=
  word r (if (j <? 5)%nat then 1 + 2 * j else if (j <? 11)%nat then 14 + 2 * (j - 5) else 28 + 2 * (j - 11)).
Definition sequence (r : list Z) : Z := byte r 0 mod 32.
(** The long name the records before an entry spell, [pending] being these with the
    last one first: unit [i] is in the last record of sequence [i / 13 + 1]. *)
Definition spelled (pending : list (list Z)) (i : nat) : Z :=
  match List.find (fun r => sequence r =? Z.of_nat (i / 13) + 1) pending with
  | Some r => long_unit r (i mod 13)
  | None => 0
  end.
Definition long_name_by (pending : list (list Z)) : list Z := map (spelled pending) (seq 0 260).

Definition meaning (pending : list (list Z)) (r : list Z) : DirectoryEntry :=
  {| name := short_name (take 11 r);
     file_type := if Z.testbit (byte r 11) 4 then Directory_ else File_;
     size := dword r 28; cluster := 65536 * word r 20 + word r 26;
     long_name := long_name_by pending; attr := byte r 11 |}.

Definition ends_here (r : list Z) : bool := byte r 0 =? 0.
Definition deleted (r : list Z) : bool := byte r 0 =? 0xe5.
Definition is_long (r : list Z) : bool := byte r 11 =? 0x0f.

(** The entries: nothing counts from the end mark on, deleted records are skipped,
    long-name records wait for the entry they name. *)
Fixpoint entries (pending records : list (list Z)) : list DirectoryEntry :=
  match records with
  | [] => []
  | r :: records =>
      if ends_here r then []
      else if deleted r then entries pending records
      else if is_long r then entries (r :: pending) records
      else meaning pending r :: entries [] records
  end.
(** The long-name records have sequences 1 to 20, which fit the 260 units. *)
Fixpoint numbered (records : list (list Z)) : bool :=
  match records with
  | [] => true
  | r :: records =>
      if ends_here r then true
      else if negb (deleted r) && is_long r then
        (1 <=? sequence r) && (sequence r <=? 20) && numbered records
      else numbered records
  end.
(** The 32-byte records of a directory's sectors. *)
Definition directory_records (datas : list (list Z)) : list (list Z) :=
  map (fun i => take 32 (drop (32 * i) (concat datas))) (seq 0 (16 * length datas)).

(** *** The code agrees *)

Lemma get_len_le l : (get_len l <= length l)%nat.
Proof.
  induction l as [|b l IH]; cbn [get_len]; [lia|]. destruct l; [cbn; lia|].
  destruct (negb _); cbn [length] in *; lia.
Qed.

Lemma get_len_cons b l : l <> [] -> get_len (b :: l) = if b =? 32 then get_len l else S (length l).
Proof. destruct l; [done|]. intros _. cbn [get_len length]. by destruct (b =? 32). Qed.

Lemma trim_end_snoc l x : trim_end (l ++ [x]) = if x =? 32 then trim_end l else l ++ [x].
Proof.
  induction l as [|b l IH]; cbn [trim_end app]; [by destruct (x =? 32)|]. rewrite IH.
  destruct (x =? 32); [done|]. by destruct l.
Qed.

Lemma take_get_len l : take (get_len (reverse l)) l = match trim_end l with [] => take 1 l | t => t end.
Proof.
  induction l as [|x l IH] using rev_ind; [done|]. rewrite reverse_snoc, trim_end_snoc.
  destruct (decide (l = [])) as [->|Hne]; [cbn; by destruct (x =? 32)|].
  rewrite get_len_cons by (intros E; apply (f_equal reverse) in E; by rewrite reverse_involutive in E).
  rewrite length_reverse. destruct (x =? 32).
  - rewrite take_app_le by (rewrite <- (length_reverse l); apply get_len_le). rewrite IH.
    destruct (trim_end l); [by destruct l|done].
  - rewrite take_ge by (rewrite length_app; cbn; lia). by destruct (l ++ [x]) eqn:E; [destruct l|].
Qed.

Lemma filter_get_len l : List.filter (fun b => negb (b =? 32)) (take (get_len (reverse l)) l) =
  List.filter (fun b => negb (b =? 32)) l.
Proof.
  induction l as [|x l IH] using rev_ind; [done|]. rewrite reverse_snoc.
  destruct (decide (l = [])) as [->|Hne]; [done|].
  rewrite get_len_cons by (intros E; apply (f_equal reverse) in E; by rewrite reverse_involutive in E).
  rewrite length_reverse. destruct (x =? 32) eqn:Ex.
  - rewrite take_app_le by (rewrite <- (length_reverse l); apply get_len_le).
    rewrite IH, List.filter_app. cbn [List.filter]. rewrite Ex. cbn. by rewrite app_nil_r.
  - by rewrite take_ge by (rewrite length_app; cbn; lia).
Qed.

Lemma filter_length_le (p : Z -> bool) l : (length (List.filter p l) <= length l)%nat.
Proof. induction l as [|x l IH]; cbn; [lia|]. destruct (p x); cbn; lia. Qed.

Lemma get_short_name_meaning bs : length bs = 11%nat -> get_short_name bs = Done (short_name bs).
Proof.
  intros Hl. unfold get_short_name, short_name, index, bytes_at.
  destruct (lookup_lt_is_Some_2 bs 8) as [x Hx]; [lia|]. rewrite Hx, (nth_lookup_Some bs 8 0 x Hx).
  cbn [unwrap]. rstep.
  assert (Hb : take (get_len (reverse (take 8 bs))) bs = match trim_end (take 8 bs) with [] => take 1 bs | t => t end).
  { pose proof (get_len_le (reverse (take 8 bs))) as Hle. rewrite length_reverse, length_take in Hle.
    transitivity (take (get_len (reverse (take 8 bs))) (take 8 bs)).
    - by rewrite take_take, Nat.min_l by lia.
    - rewrite take_get_len. by rewrite take_take. }
  rewrite Hb. rewrite (take_ge (drop 8 bs) 3), filter_get_len by (rewrite length_drop; lia).
  set (base := match trim_end (take 8 bs) with [] => take 1 bs | t => t end) in *.
  assert (Hbl : (length base <= 8)%nat).
  { rewrite <- Hb, length_take. pose proof (get_len_le (reverse (take 8 bs))) as Hle.
    rewrite length_reverse, length_take in Hle. lia. }
  pose proof (filter_length_le (fun b => negb (b =? 32)) (drop 8 bs)) as Hf. rewrite length_drop in Hf.
  rewrite (proj2 (Nat.leb_le _ _)).
  - by destruct (x =? 32).
  - unfold EFI_FAT_SHORT_NAME_LEN. rewrite length_app. destruct (x =? 32); cbn [negb length]; lia.
Qed.

(** A 32-byte record. *)
Definition record_ok (r : list Z) : Prop := length r = 32%nat /\ bytes_ok r.

Lemma cluster_words hi lo : 0 <= hi < 2 ^ 16 -> 0 <= lo < 2 ^ 16 ->
  Z.lor (u32 (Z.shiftl hi 16)) lo = 65536 * hi + lo.
Proof.
  intros Hh Hl. rewrite Z.shiftl_mul_pow2, wrap_small by (norm_pow; lia).
  pose proof (Z.add_lor_land (hi * 2 ^ 16) lo) as E. cut (Z.land (hi * 2 ^ 16) lo = 0); [lia|].
  apply Z.bits_inj'. intros n Hn. rewrite Z.land_spec, Z.bits_0.
  destruct (Z.ltb_spec n 16).
  - by rewrite Z.mul_pow2_bits_low.
  - rewrite <- (Z.mod_small lo (2 ^ 16)), (Z.mod_pow2_bits_high lo 16 n) by lia. apply andb_false_r.
Qed.

Lemma directory_bit f : (Z.land f 0x10 =? 0x10) = Z.testbit f 4.
Proof.
  assert (E : Z.land f 0x10 = if Z.testbit f 4 then 0x10 else 0).
  { apply Z.bits_inj'. intros n Hn. rewrite Z.land_spec. change 0x10 with (2 ^ 4).
    rewrite Z.pow2_bits_eqb by lia. destruct (Z.eqb_spec 4 n) as [<-|Hne].
    - rewrite andb_true_r. destruct (Z.testbit f 4) eqn:Ef; [by rewrite Z.pow2_bits_eqb|by rewrite Z.bits_0].
    - rewrite andb_false_r. destruct (Z.testbit f 4); [|by rewrite Z.bits_0].
      by rewrite Z.pow2_bits_eqb, (proj2 (Z.eqb_neq _ _)) by lia. }
  rewrite E. by destruct (Z.testbit f 4).
Qed.

Lemma first_byte_record r : first_byte r = byte r 0.
Proof. unfold first_byte, byte. cbn. by destruct r. Qed.

Lemma flags_record r : record_ok r -> d_flags (directory_of r) = byte r 11.
Proof. intros [Hl _]. cbn [directory_of d_flags]. apply field_byte. lia. Qed.

Lemma entry_of_meaning pending r : record_ok r ->
  entry_of (directory_of r) (long_name_by pending) = Done (meaning pending r).
Proof.
  intros [Hl Hb]. unfold entry_of. cbn [directory_of d_name d_flags d_size d_cluster_high d_cluster_low].
  change (bytes_at r 0 11) with (take 11 r).
  rewrite get_short_name_meaning by (rewrite length_take; lia). rstep. unfold meaning.
  rewrite !field_word, field_dword, field_byte, directory_bit by lia.
  by rewrite cluster_words by by apply word_range.
Qed.

Lemma length_long_name_by pending : length (long_name_by pending) = 260%nat.
Proof. unfold long_name_by. by rewrite length_map, length_seq. Qed.

Lemma lookup_long_name_by pending i : (i < 260)%nat -> long_name_by pending !! i = Some (spelled pending i).
Proof.
  intros Hi. unfold long_name_by. rewrite list_lookup_fmap, lookup_seq_lt by done. done.
Qed.

Lemma units_record r j : length r = 32%nat -> (j < 13)%nat ->
  (l_name (long_name_of r) ++ l_name2 (long_name_of r) ++ l_name3 (long_name_of r)) !! j = Some (long_unit r j).
Proof.
  intros Hl Hj. cbn [long_name_of l_name l_name2 l_name3]. unfold units_at, long_unit. cbn [seq map app].
  rewrite !field_word by lia. do 13 (destruct j as [|j]; [reflexivity|]). lia.
Qed.

Lemma spelled_cons r pending i :
  spelled (r :: pending) i = if sequence r =? Z.of_nat (i / 13) + 1 then long_unit r (i mod 13) else spelled pending i.
Proof. unfold spelled. cbn [List.find]. by destruct (_ =? _). Qed.

(** A long-name record goes to the thirteen units of its sequence. *)
Lemma put_units pending r q : length r = 32%nat -> sequence r = Z.of_nat q + 1 -> (q < 20)%nat ->
  take (13 * q) (long_name_by pending) ++
    (l_name (long_name_of r) ++ l_name2 (long_name_of r) ++ l_name3 (long_name_of r)) ++
    drop (13 * q + 13) (long_name_by pending) = long_name_by (r :: pending).
Proof.
  intros Hl Hs Hq. set (us := l_name _ ++ _).
  assert (Hus : length us = 13%nat) by reflexivity. pose proof (length_long_name_by pending) as Hp.
  apply list_eq_same_length with (n := 260%nat); [by rewrite length_long_name_by| |].
  { rewrite !length_app, length_take, length_drop, Hus, Hp. lia. }
  intros i x y Hi Hx Hy. rewrite lookup_long_name_by in Hy by done. injection Hy as <-.
  rewrite spelled_cons, Hs. pose proof (Nat.div_mod_eq i 13) as Ei. pose proof (Nat.mod_upper_bound i 13 ltac:(lia)) as Hm.
  set (a := (i / 13)%nat) in *. set (b := (i mod 13)%nat) in *. clearbody a b.
  destruct (Z.eqb_spec (Z.of_nat q + 1) (Z.of_nat a + 1)) as [E|E].
  - replace a with q in * by lia. rewrite lookup_app_r in Hx by (rewrite length_take; lia).
    rewrite length_take, Hp, lookup_app_l in Hx by lia. replace (i - (13 * q) `min` 260)%nat with b in Hx by lia.
    unfold us in Hx. rewrite units_record in Hx by done. by injection Hx.
  - destruct (decide (i < 13 * q)%nat).
    + rewrite lookup_app_l, lookup_take_lt, lookup_long_name_by in Hx by (rewrite ?length_take; lia). by injection Hx.
    + rewrite lookup_app_r, lookup_app_r in Hx by (rewrite ?length_take; lia). rewrite lookup_drop in Hx.
      rewrite length_take, Hp, Hus in Hx.
      replace (13 * q + 13 + (i - (13 * q) `min` 260 - 13))%nat with i in Hx by lia.
      rewrite lookup_long_name_by in Hx by lia. by injection Hx.
Qed.

Lemma put_long_name_meaning pending r : record_ok r ->
  put_long_name (long_name_by pending) (long_name_of r) =
  if (1 <=? sequence r) && (sequence r <=? 20) then Done (long_name_by (r :: pending)) else Panic.
Proof.
  intros [Hl Hb]. unfold put_long_name. rewrite length_long_name_by. cbn [long_name_of seq_].
  rewrite field_byte by lia. rewrite (Z.land_ones _ 5) by lia. change (byte r 0 mod 2 ^ 5) with (sequence r).
  assert (Hr : 0 <= sequence r < 32) by (apply Z.mod_pos_bound; lia).
  destruct (Z.leb_spec 1 (sequence r)) as [H1|H1]; cbn [andb].
  2: { replace (sequence r) with 0 by lia. reflexivity. }
  rewrite (wrap_small 64 (sequence r - 1)), (wrap_small 64 (_ * 13)) by (norm_pow; lia).
  rewrite (wrap_small 64 (_ + 1)), (wrap_small 64) by (norm_pow; lia).
  rewrite (proj2 (Z.leb_le _ _)) by lia. cbn [andb].
  destruct (Z.leb_spec (sequence r) 20) as [H20|H20].
  - rewrite (proj2 (Z.leb_le _ _)) by lia. f_equal. pose proof (put_units pending r (Z.to_nat (sequence r - 1)) Hl) as E.
    rewrite <- E by lia. f_equal; [f_equal; lia|]. f_equal. f_equal. lia.
  - by rewrite (proj2 (Z.leb_gt _ _)) by lia.
Qed.

Lemma no_long_name_by : no_long_name = long_name_by [].
Proof. vm_compute. reflexivity. Qed.

(** The listing the code's functions make is what the records mean. *)
Lemma listing_meaning records : Forall record_ok records -> forall pending,
  listing records (long_name_by pending) = if numbered records then Done (entries pending records) else Panic.
Proof.
  induction 1 as [|r records Hr _ IH]; intros pending; [done|]. cbn [listing numbered entries].
  unfold is_end. rewrite first_byte_record, (flags_record _ Hr). fold (ends_here r) (deleted r) (is_long r).
  destruct (ends_here r); [done|]. destruct (deleted r); cbn [negb andb]; [apply IH|].
  destruct (is_long r).
  - rewrite (put_long_name_meaning _ _ Hr). destruct (_ && _); rstep; [apply IH|done].
  - rewrite (entry_of_meaning _ _ Hr), no_long_name_by. rstep. rewrite IH. by destruct (numbered records).
Qed.

(** A scan that goes on does not pass the end mark. *)
Lemma scan_records_ends a b i long : Exists ends_here (a ++ b) ->
  match scan_records a i long with
  | Done (ScanFound e n) => Exists ends_here (drop (n - i) a ++ b)
  | Done (ScanMore l) => Exists ends_here b
  | _ => True
  end.
Proof.
  revert i long. induction a as [|r a IH]; intros i long He; cbn [scan_records app] in *; [done|].
  destruct (_ =? 0) eqn:E; [done|].
  assert (He' : Exists ends_here (a ++ b)).
  { apply Exists_cons in He as [He|He]; [|done]. unfold ends_here in He. rewrite <- first_byte_record in He. unfold first_byte in He. by rewrite E in He. }
  assert (Hrec : forall l, match scan_records a (S i) l with
    | Done (ScanFound e n) => Exists ends_here (drop (n - i) (r :: a) ++ b)
    | Done (ScanMore l') => Exists ends_here b
    | _ => True end).
  { intros l. specialize (IH (S i) l He'). pose proof (scan_records_spec a b (S i) l) as Hs.
    destruct (scan_records a (S i) l) as [[|e n|l']| |]; try done.
    destruct Hs as [Hn _]. by replace (n - i)%nat with (S (n - S i)) by lia. }
  destruct (_ =? 0xe5); [apply Hrec|]. destruct (_ =? 0x0f).
  { destruct (put_long_name _ _) as [l| |]; rstep; [apply Hrec|done..]. }
  destruct (entry_of _ _) as [e| |]; rstep; [|done..].
  by replace (S i - i)%nat with 1%nat by lia.
Qed.

(** ** Where the sectors are *)

Section Region.
Context {D : Type} `{SectorRead D} (beyond : nat -> Z) (fs : Filesystem D).

(** A directory lies on a cluster chain, or from a fixed sector on (the root
    directory of FAT12 and FAT16). *)
Inductive region := OnChain (cs : list Z) | FixedAt (base : Z).

Definition region_data (g : region) (datas : list (list Z)) : Prop :=
  match g with
  | OnChain cs => chain_data beyond fs cs datas
  | FixedAt base => 0 <= base /\ base + Z.of_nat (length datas) < 2 ^ 32 /\
      forall k data, datas !! k = Some data -> fs_read fs (base + Z.of_nat k) = Ok data
  end.

(** The handle stands in sector [k] of the region, before record [offset]; past
    the last record of a sector it has moved on to the next. *)
Definition dir_at (g : region) (d : Directory) (k : nat) : Prop :=
  (offset d <= 16)%nat /\
  match g with
  | OnChain cs => exists q c, dir_cluster d = Some c /\ cs !! q = Some c /\
      Z.of_nat k = Z.of_nat q * sectors_per_cluster fs + sector d /\
      0 <= sector d <= sectors_per_cluster fs /\
      (sector d = sectors_per_cluster fs -> offset d = 0%nat)
  | FixedAt base => dir_cluster d = None /\ sector d = base + Z.of_nat k
  end.

Definition records_from (datas : list (list Z)) (k o : nat) : list (list Z) :=
  drop o (concat (map records_of (drop k datas))).

(** The directory ends inside [rest], or with its chain. *)
Definition chain_ends (g : region) (datas : list (list Z)) : Prop :=
  match g with
  | OnChain cs => Z.of_nat (length datas) = Z.of_nat (length cs) * sectors_per_cluster fs /\
      forall c, cs !! (length cs - 1)%nat = Some c -> next_cluster beyond fs c = Done (Err EndOfFile)
  | FixedAt _ => False
  end.
Definition ends (g : region) (datas rest : list (list Z)) : Prop :=
  Exists ends_here rest \/ chain_ends g datas.

Lemma length_records_of data : length (records_of data) = 16%nat.
Proof. reflexivity. Qed.

Lemma records_from_sector datas k o data : datas !! k = Some data -> (o <= 16)%nat ->
  records_from datas k o = drop o (records_of data) ++ records_from datas (S k) 0.
Proof.
  intros Hd Ho. unfold records_from. rewrite (drop_S datas data k Hd), drop_0. cbn [map concat].
  rewrite drop_app, length_records_of. replace (o - 16)%nat with 0%nat by lia. by rewrite drop_0.
Qed.

(** The sectors of a region are sectors of the volume. *)
Lemma region_sectors g datas : region_data g datas -> Forall (fun d => length d = 512%nat /\ bytes_ok d) datas.
Proof.
  intros Hg. apply Forall_lookup. intros k data Hd. destruct g as [cs|base]; cbn [region_data] in Hg.
  - pose proof (cd_spc _ _ _ _ Hg). assert (spc fs <> 0)%nat by (unfold spc; lia).
    destruct (cd_sector _ _ _ _ Hg (k / spc fs) (k mod spc fs) data) as (c & _ & Hr);
      [by apply Nat.mod_upper_bound| |by apply fs_read_length in Hr].
    rewrite <- Hd. f_equal. rewrite Nat.mul_comm. symmetry. by apply Nat.div_mod.
  - destruct Hg as (_ & _ & Hr). by eapply fs_read_length, Hr.
Qed.

Lemma records_of_ok data : length data = 512%nat /\ bytes_ok data -> Forall record_ok (records_of data).
Proof.
  intros [Hl Hb]. unfold records_of. apply Forall_map, Forall_forall. intros i Hi. apply elem_of_seq in Hi.
  unfold record_ok, bytes_at. split; [rewrite length_take, length_drop; lia|by apply Forall_take, Forall_drop].
Qed.

Lemma region_records g datas k o : region_data g datas -> Forall record_ok (records_from datas k o).
Proof.
  intros Hg. unfold records_from. apply Forall_drop. apply region_sectors, (Forall_drop _ k) in Hg.
  induction Hg as [|data datas' Hd _ IH]; cbn [map concat]; [constructor|].
  apply Forall_app. split; [by apply records_of_ok|done].
Qed.

(** Cut sector by sector, the records are those of the directory. *)
Lemma directory_records_cons data datas : length data = 512%nat ->
  directory_records (data :: datas) = records_of data ++ directory_records datas.
Proof.
  intros Hl. unfold directory_records, records_of, bytes_at. cbn [length concat].
  replace (16 * S (length datas))%nat with (16 + 16 * length datas)%nat by lia.
  rewrite seq_app, map_app. f_equal.
  - apply map_ext_in. intros i Hi%in_seq. rewrite drop_app_le, take_app_le by (rewrite ?length_drop; lia). done.
  - change (seq (0 + 16) ?n) with (seq (16 + 0) n). rewrite <- (fmap_add_seq 16 0).
    change (fmap ?f ?l) with (map f l). rewrite map_map.
    apply map_ext. intros i. rewrite drop_app_ge by lia. f_equal. f_equal. lia.
Qed.

Lemma directory_records_spec g datas k o : region_data g datas ->
  drop (16 * k + o) (directory_records datas) = records_from datas k o.
Proof.
  intros Hg%region_sectors. rewrite <- drop_drop. unfold records_from. f_equal. revert k.
  induction Hg as [|data datas [Hl _] _ IH]; intros k;
    [change (directory_records []) with (@nil (list Z)); by rewrite !drop_nil|].
  rewrite directory_records_cons by done. destruct k as [|k].
  - specialize (IH 0%nat). rewrite !drop_0 in *. cbn [map concat]. by rewrite IH.
  - rewrite drop_app_ge by (rewrite length_records_of; lia). rewrite length_records_of.
    replace (16 * S k - 16)%nat with (16 * k)%nat by lia. apply IH.
Qed.

(** [get_sector] finds the sector the handle stands in, crossing to the next
    cluster if need be. *)
Lemma get_sector_spec g datas d k data :
  region_data g datas -> dir_at g d k -> datas !! k = Some data ->
  exists s d', get_sector beyond fs d = Done (Ok s, d') /\ fs_read fs s = Ok data /\
    dir_at g d' k /\ offset d' = offset d /\
    dir_at g (mkDir (dir_cluster d') (u32 (sector d' + 1)) 0 (cluster_start d')) (S k) /\
    (forall o, (o <= 16)%nat -> dir_at g (mkDir (dir_cluster d') (sector d') o (cluster_start d')) k).
Proof.
  intros Hg [Ho Hat] Hd. pose proof (lookup_lt_Some _ _ _ Hd) as Hlt. destruct g as [cs|base].
  - cbn [region_data] in Hg. pose proof (cd_spc _ _ _ _ Hg) as Hspc.
    destruct Hat as (q & c & Ec & Hq & Hk & Hs & Hoff). unfold get_sector. rewrite Ec.
    destruct (Z.leb_spec (sectors_per_cluster fs) (sector d)) as [Hl|Hl].
    + destruct (cd_sector _ _ _ _ Hg (S q) 0 data) as (c' & Hc' & Hr).
      { unfold spc. lia. } { rewrite <- Hd. f_equal. unfold spc. nia. }
      rewrite (cd_link _ _ _ _ Hg q c c' Hq Hc'). rstep. rewrite Z.add_0_r in Hr.
      pose proof (first_sector_range fs c'). rewrite Z.add_0_l, (wrap_small 32) by lia.
      eexists _, _. split; [reflexivity|]. split; [done|]. cbn [dir_at dir_cluster sector offset].
      rewrite (wrap_small 32) by lia.
      split; [|split; [rewrite Hoff by lia; done|split]].
      { split; [cbn; lia|]. exists (S q), c'. cbn. split_and!; try done; nia. }
      { split; [cbn; lia|]. exists (S q), c'. cbn. split_and!; try done; nia. }
      intros o Ho'. split; [done|]. exists (S q), c'. cbn. split_and!; try done; nia.
    + destruct (cd_sector _ _ _ _ Hg q (Z.to_nat (sector d)) data) as (c' & Hc' & Hr).
      { unfold spc. lia. } { rewrite <- Hd. f_equal. unfold spc. nia. }
      rewrite Hc' in Hq. injection Hq as ->. rewrite Z2Nat.id in Hr by lia.
      pose proof (first_sector_range fs c). pose proof (cd_fits _ _ _ _ Hg _ _ Hc').
      rewrite (wrap_small 32), Z.add_comm by lia.
      eexists _, d. split; [reflexivity|]. split; [done|]. cbn [dir_at dir_cluster sector offset].
      rewrite (wrap_small 32) by lia.
      split; [|split; [done|split]]; [| |intros o Ho']; (split; [cbn; lia|]); exists q, c; cbn; split_and!; try done; lia.
  - destruct Hat as [Ec Hs], Hg as (Hb & Hlen & Hr). unfold get_sector. rewrite Ec, Hs.
    eexists _, d. split; [reflexivity|]. split; [by apply Hr|]. unfold dir_at. cbn.
    rewrite (wrap_small 32) by lia. split_and!; try done; try lia.
Qed.

(** Past the last sector of a chain that ends there. *)
Lemma get_sector_end g datas d k :
  region_data g datas -> dir_at g d k -> (length datas <= k)%nat ->
  chain_ends g datas ->
  get_sector beyond fs d = Done (Err EndOfFile, d).
Proof.
  intros Hg [Ho Hat] Hk He. destruct g as [cs|base]; [|done].
  destruct Hat as (q & c & Ec & Hq & Hkq & Hs & _), He as [Hlen Hend].
  pose proof (cd_spc _ _ _ _ Hg) as Hspc. pose proof (lookup_lt_Some _ _ _ Hq) as Hql.
  assert (q = (length cs - 1)%nat /\ sector d = sectors_per_cluster fs) as [-> Es] by nia.
  unfold get_sector. rewrite Ec, (proj2 (Z.leb_le _ _)) by lia. by rewrite (Hend c Hq).
Qed.

Lemma no_more_records datas k : (length datas <= k)%nat -> records_from datas k 0 = [].
Proof. intros Hk. unfold records_from. by rewrite (drop_ge datas) by done. Qed.

(** [next_entry] from sector [k]: the first entry of the records that are left. *)
Lemma next_entry_loop_spec g datas fuel d k long :
  region_data g datas -> dir_at g d k -> (length datas - k < fuel)%nat -> (k <= length datas)%nat ->
  ends g datas (records_from datas k (offset d)) ->
  match first_entry (records_from datas k (offset d)) long with
  | Done None => exists d', next_entry_loop beyond fuel fs d long = Done (Err EndOfFile, d')
  | Done (Some (e, rest)) => exists d' k',
      next_entry_loop beyond fuel fs d long = Done (Ok e, d') /\ dir_at g d' k' /\
      (k' <= length datas)%nat /\ rest = records_from datas k' (offset d') /\ ends g datas rest
  | Panic => next_entry_loop beyond fuel fs d long = Panic
  | OutOfFuel => next_entry_loop beyond fuel fs d long = OutOfFuel
  end.
Proof.
  intros Hg. revert d k long. induction fuel as [|fuel IH]; intros d k long Hat Hfuel Hk He; [lia|].
  cbn [next_entry_loop]. destruct (datas !! k) as [data|] eqn:Hd.
  - destruct (get_sector_spec _ _ _ _ _ Hg Hat Hd) as (s & d' & E & Hr & Hat' & Hoff & Hnext & Hsame).
    rewrite E. rstep. rewrite Hr, Hoff. pose proof (proj1 Hat) as Ho.
    rewrite (records_from_sector datas k (offset d) data) in * by done.
    pose proof (scan_records_spec (drop (offset d) (records_of data)) (records_from datas (S k) 0)
                  (offset d) long) as Hscan.
    pose proof (scan_records_ends (drop (offset d) (records_of data)) (records_from datas (S k) 0)
                  (offset d) long) as Hend.
    pose proof (lookup_lt_Some _ _ _ Hd).
    destruct (scan_records _ _ _) as [[|e n|l]| |]; rstep.
    + rewrite Hscan. eauto.
    + destruct Hscan as [Hn ->]. rewrite length_drop, length_records_of in Hn.
      eexists _, k. split; [reflexivity|]. split; [apply Hsame; lia|]. split; [done|]. cbn [offset].
      rewrite drop_drop. replace (offset d + (n - offset d))%nat with n by lia.
      rewrite <- records_from_sector by (done || lia). split; [done|].
      destruct He as [He|He]; [left|by right]. rewrite (records_from_sector datas k n data) by (done || lia).
      specialize (Hend He). rewrite drop_drop in Hend.
      by replace (offset d + (n - offset d))%nat with n in Hend by lia.
    + rewrite Hscan. refine (IH _ (S k) l Hnext _ _ _); [lia..|]. cbn [offset].
      destruct He as [He|He]; [left; by apply Hend | by right].
    + by rewrite Hscan.
    + by rewrite Hscan.
  - apply lookup_ge_None in Hd. replace k with (length datas) in * by lia.
    assert (Hz : records_from datas (length datas) (offset d) = []).
    { unfold records_from. rewrite (drop_ge datas) by lia. cbn [map concat]. apply drop_nil. }
    rewrite Hz in *. cbn [first_entry]. destruct He as [He|He]; [by inversion He|].
    rewrite (get_sector_end _ _ _ _ Hg Hat (le_n _) He). rstep. eauto.
Qed.

(** The handle [d] has the entries [es] before it, and [fuel] is enough to
    read them. *)
Definition lists (fuel : nat) (d : Directory) (es : list DirectoryEntry) : Prop :=
  exists g datas k, region_data g datas /\ dir_at g d k /\ (k <= length datas)%nat /\
    let records := drop (16 * k + offset d) (directory_records datas) in
    ends g datas records /\ numbered records = true /\ es = entries [] records /\
    (length datas + length records < fuel)%nat.

Lemma lists_listing fuel d es : lists fuel d es ->
  exists g datas k, region_data g datas /\ dir_at g d k /\ (k <= length datas)%nat /\
    ends g datas (records_from datas k (offset d)) /\
    listing (records_from datas k (offset d)) no_long_name = Done es /\
    (length datas + length (records_from datas k (offset d)) < fuel)%nat.
Proof.
  intros (g & datas & k & Hg & Hat & Hk & He & Hn & -> & Hf). exists g, datas, k.
  rewrite (directory_records_spec _ _ _ _ Hg) in *. split_and!; try done.
  rewrite no_long_name_by, listing_meaning by by eapply region_records. by rewrite Hn.
Qed.

Lemma listing_lists fuel d es g datas k : region_data g datas -> dir_at g d k -> (k <= length datas)%nat ->
  ends g datas (records_from datas k (offset d)) ->
  listing (records_from datas k (offset d)) no_long_name = Done es ->
  (length datas + length (records_from datas k (offset d)) < fuel)%nat -> lists fuel d es.
Proof.
  intros Hg Hat Hk He Hl Hf. exists g, datas, k. cbv zeta. rewrite (directory_records_spec _ _ _ _ Hg).
  rewrite no_long_name_by, listing_meaning in Hl by by eapply region_records.
  destruct (numbered _); [|done]. injection Hl as <-. by split_and!.
Qed.

Lemma lists_next fuel d es : lists fuel d es -> exists d',
  match es with
  | [] => next_entry beyond fuel fs d = Done (Err EndOfFile, d')
  | e :: es' => next_entry beyond fuel fs d = Done (Ok e, d') /\ lists (fuel - 1) d' es'
  end.
Proof.
  intros (g & datas & k & Hg & Hat & Hk & He & Hl & Hf)%lists_listing. unfold next_entry.
  assert (Hfuel : (length datas - k < fuel)%nat) by lia.
  pose proof (next_entry_loop_spec g datas fuel d k no_long_name Hg Hat Hfuel Hk He) as Hn.
  rewrite listing_first in Hl. fold no_long_name.
  destruct (first_entry _ _) as [[[e rest]|]| |] eqn:Ef; cbn [mbind res_bind] in Hl; try done.
  - destruct Hn as (d' & k' & En & Hat' & Hk' & -> & He').
    destruct (listing _ _) as [es'| |] eqn:El; cbn [mbind res_bind] in Hl; try done. injection Hl as <-.
    exists d'. split; [done|]. apply (listing_lists _ _ _ g datas k'); try done.
    apply first_entry_shorter in Ef. lia.
  - injection Hl as <-. done.
Qed.

(** A directory from its start. *)
Lemma lists_start fuel g datas d : region_data g datas -> chain_ends g datas -> dir_at g d 0 -> offset d = 0%nat ->
  numbered (directory_records datas) = true -> (length datas + length (directory_records datas) < fuel)%nat ->
  lists fuel d (entries [] (directory_records datas)).
Proof.
  intros Hg He Hat Ho Hn Hf. exists g, datas, 0%nat. cbv zeta. rewrite Ho, drop_0.
  split_and!; try done; [lia|by right].
Qed.

Lemma lists_weaken n m d es : lists n d es -> (n <= m)%nat -> lists m d es.
Proof.
  intros (g & datas & k & Hg & Hat & Hk & He & Hn & Hl & Hf) Hnm.
  exists g, datas, k. cbv zeta in *. split_and!; try done. lia.
Qed.

Lemma lists_fuel n d es : lists n d es -> exists n', n = S n'.
Proof. intros (g & datas & k & Hf). destruct n; [exfalso; cbv zeta in Hf; lia | eauto]. Qed.

(** Enumerating a directory: the loop a client writes. *)
Fixpoint list_all (fuel : nat) (d : Directory) : res (result (list DirectoryEntry) Error) :=
  match fuel with
  | O => OutOfFuel
  | S fuel' =>
      '(r, d) ← next_entry beyond fuel fs d;
      match r with
      | Err EndOfFile => Done (Ok [])
      | Err e => Done (Err e)
      | Ok e =>
          es ← list_all fuel' d;
          Done (match es with Ok es => Ok (e :: es) | Err x => Err x end)
      end
  end.

Lemma list_all_listing g datas : region_data g datas -> forall fuel d k,
  dir_at g d k -> (k <= length datas)%nat -> ends g datas (records_from datas k (offset d)) ->
  (length datas + length (records_from datas k (offset d)) < fuel)%nat ->
  list_all fuel d = (es ← listing (records_from datas k (offset d)) no_long_name; Done (Ok es)).
Proof.
  intros Hg. induction fuel as [|fuel IH]; intros d k Hat Hk He Hf; [lia|].
  cbn [list_all]. rewrite listing_first. unfold next_entry. fold no_long_name.
  pose proof (next_entry_loop_spec g datas (S fuel) d k no_long_name Hg Hat ltac:(lia) Hk He) as Hn.
  destruct (first_entry _ _) as [[[e rest]|]| |] eqn:Ef.
  - destruct Hn as (d' & k' & -> & Hat' & Hk' & -> & He'). rstep. apply first_entry_shorter in Ef.
    rewrite (IH d' k' Hat' Hk' He') by lia. by destruct (listing _ _).
  - destruct Hn as (d' & ->). done.
  - by rewrite Hn.
  - by rewrite Hn.
Qed.

(** ** Opening paths *)

(** An entry has a name when its short name, up to the first NUL, or its long name, up
    to the first unit whose low byte is 0, spells it. *)
Fixpoint before (p : Z -> bool) (l : list Z) : list Z :=
  match l with
  | [] => []
  | x :: l => if p x then [] else x :: before p l
  end.
Definition low_nul (u : Z) : bool := u mod 256 =? 0.
Definition named (nm : list Z) (e : DirectoryEntry) : bool :=
  bool_decide (before (Z.eqb 0) (name e) = nm) ||
  bool_decide (before low_nul (long_name e) = OsStr.chars nm).
(** The first entry with a name; the long names looked at end inside their array. *)
Fixpoint finds (nm : list Z) (es : list DirectoryEntry) (o : option DirectoryEntry) : Prop :=
  match es with
  | [] => o = None
  | e :: es => existsb low_nul (long_name e) = true /\ if named nm e then o = Some e else finds nm es o
  end.

Lemma until_nul_before l : until_nul l = before (Z.eqb 0) l.
Proof. induction l as [|b l IH]; cbn [until_nul before]; [done|]. rewrite Z.eqb_sym. by rewrite IH. Qed.

Lemma before_up_to_nul l : existsb low_nul l = true -> up_to_nul l (before low_nul l).
Proof.
  induction l as [|x l IH]; cbn [existsb before]; [done|]. destruct (low_nul x) eqn:Ex; cbn [orb].
  - intros _. exists x, l. split; [done|]. split; [by apply Z.eqb_eq|constructor].
  - intros (z & rest & E & Hz & Hf)%IH. exists z, rest. rewrite E at 1. split; [done|]. split; [done|].
    constructor; [by apply Z.eqb_neq|done].
Qed.

Lemma compare_name_spec nm e : existsb low_nul (long_name e) = true -> compare_name beyond nm e = Done (named nm e).
Proof.
  intros Hn%before_up_to_nul. unfold compare_name. rewrite (up_to_nul_cut beyond _ _ Hn). rstep.
  unfold compare_short_name, named. by rewrite until_nul_before, eq_str_spec.
Qed.

Lemma find_component_spec fuel nm d ent es o :
  lists fuel d es -> finds nm es o ->
  find_component beyond fuel fs nm d ent =
  match o with None => Done (Stop (Err NotFound)) | Some e => take_entry fs e ent end.
Proof.
  revert fuel d. induction es as [|e es IH]; intros fuel d Hl Hm;
    destruct (lists_next _ _ _ Hl) as [d' Hn]; destruct (lists_fuel _ _ _ Hl) as [n ->];
    cbn [find_component finds] in *.
  - subst o. by rewrite Hn.
  - destruct Hn as [-> Hl'], Hm as [Hc Hm]. rstep. rewrite Nat.sub_succ, Nat.sub_0_r in Hl'.
    rewrite compare_name_spec by done. rstep. destruct (named nm e); [by subst o|by apply IH].
Qed.

(** Resolving a list of names from a directory. *)
Inductive resolves (fuel : nat) : Directory -> DirectoryEntry -> option DirectoryEntry ->
    list (list Z) -> result OFileDirectory Error -> Prop :=
| resolves_here d ent pd : resolves fuel d ent pd [] (Ok (mkO ent None (Some d) pd))
| resolves_missing d ent pd nm nms es :
    lists fuel d es -> finds nm es None ->
    resolves fuel d ent pd (nm :: nms) (Err NotFound)
| resolves_file d ent pd nm nms es e :
    lists fuel d es -> finds nm es (Some e) -> file_type e = File_ ->
    resolves fuel d ent pd (nm :: nms)
      (Ok (mkO e (Some (mkFile (cluster e) (cluster e) 0 (size e) 0)) None None))
| resolves_dir d ent pd nm nms es e r :
    lists fuel d es -> finds nm es (Some e) -> file_type e = Directory_ ->
    cluster e <> 0 ->
    resolves fuel (mkDir (Some (cluster e)) 0 0 (Some (cluster e))) e (Some ent) nms r ->
    resolves fuel d ent pd (nm :: nms) r
| resolves_root d ent pd nm nms es e o d' r :
    lists fuel d es -> finds nm es (Some e) -> file_type e = Directory_ ->
    cluster e = 0 -> root fs = Ok o -> dir o = Some d' ->
    resolves fuel d' (dir_ent o) None nms r ->
    resolves fuel d ent pd (nm :: nms) r.

(** A path: names without separators, joined by one kind of separator. *)
Definition is_sep (c : Z) : Prop := c = 0x2f \/ c = 0x5c.
Definition name_ok (nm : list Z) : Prop := nm <> [] /\ Forall (fun c => ~ is_sep c) nm.
Fixpoint join (sep : Z) (nms : list (list Z)) : list Z :=
  match nms with
  | [] => []
  | [nm] => nm
  | nm :: nms => nm ++ sep :: join sep nms
  end.

Lemma find_byte_none c s : Forall (fun b => b <> c) s -> find_byte c s = None.
Proof.
  induction 1 as [|b s Hb Hs IH]; cbn; [done|]. by rewrite (proj2 (Z.eqb_neq _ _)), IH by done.
Qed.

Lemma find_byte_app c a b : Forall (fun x => x <> c) a ->
  find_byte c (a ++ b) = (fun i => (length a + i)%nat) <$> find_byte c b.
Proof.
  induction 1 as [|x a Hx Ha IH]; cbn [app find_byte length]; [by destruct (find_byte c b)|].
  rewrite (proj2 (Z.eqb_neq _ _)), IH by done. by destruct (find_byte c b).
Qed.

Lemma name_no_byte c nm : is_sep c -> Forall (fun b => ~ is_sep b) nm -> Forall (fun b => b <> c) nm.
Proof. intros Hc Hn. eapply Forall_impl; [done|]. cbn. intros b Hb ->. done. Qed.

Lemma join_no_slash nms : Forall name_ok nms -> Forall (fun b => b <> 0x2f) (join 0x5c nms).
Proof.
  induction 1 as [|nm nms [_ Hn] Hns IH]; [constructor|].
  assert (Hb := name_no_byte 0x2f nm (or_introl eq_refl) Hn).
  cbn [join]. destruct nms; [done|]. apply Forall_app. split; [done|]. by constructor.
Qed.

(** The first separator of a path is the one after its first name. *)
Lemma find_sep_join sep nm nms : is_sep sep -> name_ok nm -> Forall name_ok nms ->
  find_sep (join sep (nm :: nms)) = match nms with [] => None | _ => Some (length nm) end.
Proof.
  intros Hs [_ Hn] Hns. unfold find_sep.
  assert (H1 := name_no_byte 0x2f nm (or_introl eq_refl) Hn).
  assert (H2 := name_no_byte 0x5c nm (or_intror eq_refl) Hn).
  destruct nms as [|nm' nms]; cbn [join]; [by rewrite !find_byte_none|].
  rewrite !find_byte_app by done. destruct Hs as [-> | ->]; cbn [find_byte Z.eqb].
  - cbn. by rewrite Nat.add_0_r.
  - rewrite find_byte_none by (by apply (join_no_slash (nm' :: nms))). cbn. by rewrite Nat.add_0_r.
Qed.

Lemma find_sep_absolute sep nms : is_sep sep -> Forall name_ok nms ->
  find_sep (sep :: join sep nms) = Some 0%nat.
Proof.
  intros [-> | ->] Hns; unfold find_sep; cbn [find_byte Z.eqb]; [done|].
  rewrite find_byte_none by (by apply join_no_slash). done.
Qed.

Lemma join_nonempty sep nm nms : name_ok nm -> join sep (nm :: nms) <> [].
Proof. intros [Hn _]. cbn. destruct nms; [done|]. by destruct nm. Qed.

Lemma join_length sep nm nms : (length (join sep nms) <= length (join sep (nm :: nms)))%nat /\
  (name_ok nm -> (length (join sep nms) < length (join sep (nm :: nms)))%nat).
Proof.
  cbn [join]. destruct nms as [|nm' nms]; [cbn; split; [lia|]; intros [Hn _]; by destruct nm; [|cbn; lia]|].
  rewrite length_app. cbn [length]. lia.
Qed.

(** One iteration of [open]'s outer loop. *)
Lemma open_loop_step n fuel sep nm nms d ent pd : is_sep sep -> name_ok nm -> Forall name_ok nms ->
  open_loop beyond (S n) fuel fs (join sep (nm :: nms)) d ent pd =
  (r ← find_component beyond fuel fs nm d ent;
   match r with
   | Stop r => Done r
   | Enter cur ent pdir => open_loop beyond n fuel fs (join sep nms) cur ent pdir
   end).
Proof.
  intros Hs Hn Hns. cbn [open_loop]. rewrite find_sep_join by done.
  destruct (join sep (nm :: nms)) as [|x l] eqn:E; [by apply join_nonempty in E|].
  rewrite <- E. clear E. replace (length _ =? 0)%nat with false
    by (pose proof (join_nonempty sep nm nms Hn); destruct (join sep (nm :: nms)); done).
  destruct Hn as [Hn _]. assert (Hl : (length nm =? 0)%nat = false) by (by destruct nm).
  destruct nms as [|nm' nms]; cbn [join]; [by rewrite Hl|].
  rewrite take_app_length, Hl. rewrite drop_app, drop_ge by lia. cbn [app].
  by replace (length nm + 1 - length nm)%nat with 1%nat by lia.
Qed.

Lemma open_loop_resolves n fuel sep nms d ent pd r :
  is_sep sep -> Forall name_ok nms -> (length (join sep nms) < n)%nat ->
  resolves fuel d ent pd nms r -> open_loop beyond n fuel fs (join sep nms) d ent pd = Done r.
Proof.
  intros Hs Hn Hlen Hr. revert n Hlen.
  induction Hr as [d ent pd|d ent pd nm nms es Hl Hm|d ent pd nm nms es e Hl Hm Ht
                  |d ent pd nm nms es e r Hl Hm Ht Hc Hr IH|d ent pd nm nms es e o d' r Hl Hm Ht Hc Ho Hd Hr IH];
    intros n Hlen; (destruct n as [|n]; [lia|]); [done|..];
    apply Forall_cons in Hn as [Hnm Hn]; rewrite open_loop_step by done;
    rewrite (find_component_spec _ _ _ _ _ _ Hl Hm); rstep; unfold take_entry; rewrite ?Ht.
  - done.
  - done.
  - rewrite (proj2 (Z.eqb_neq _ _)) by done. apply (IH Hn). destruct (join_length sep nm nms) as [_ Hj].
    specialize (Hj Hnm). lia.
  - rewrite (proj2 (Z.eqb_eq _ _)) by done. rewrite Ho. cbn [unwrap_ok]. rstep. rewrite Hd. cbn [unwrap]. rstep.
    apply (IH Hn). destruct (join_length sep nm nms) as [_ Hj]. specialize (Hj Hnm). lia.
Qed.
End Region.

(** ** Properties *)

(** C10: Calling [next_entry] until EndOfFile enumerates what the records of a
    directory mean: one entry per short record before the end mark (or the end of
    the cluster chain), in order, deleted records skipped, each with the short name,
    attributes, kind, cluster and size its bytes hold and with the long name that the
    long-name records before it spell, unit by unit, also when these or the
    directory itself cross sectors and clusters.  When one of the long-name records
    does not have a sequence from 1 to 20, the enumeration panics. *)
Theorem directory_listing_correct {D} `{SectorRead D} beyond (fs : Filesystem D) g datas d fuel :
  region_data beyond fs g datas -> dir_at fs g d 0 -> offset d = 0%nat ->
  let records := directory_records datas in
  ends beyond fs g datas records -> (length datas + length records < fuel)%nat ->
  list_all beyond fs fuel d = if numbered records then Done (Ok (entries [] records)) else Panic.
Proof.
  intros Hg Hat Ho records He Hf.
  pose proof (directory_records_spec beyond fs g datas 0 0 Hg) as E. rewrite drop_0 in E. fold records in E.
  rewrite E in *. rewrite (list_all_listing beyond fs g datas Hg fuel d 0) by (rewrite ?Ho; done || lia).
  rewrite Ho, no_long_name_by, listing_meaning by by eapply region_records. by destruct (numbered _).
Qed.

(** The root directory and the sub-directory of the FAT32 volume. *)
Lemma fat32_chain c data : next_cluster zeros fat32_fs c = Done (Err EndOfFile) ->
  first_sector_of_cluster fat32_fs c + 1 < 2 ^ 32 ->
  fs_read fat32_fs (first_sector_of_cluster fat32_fs c) = Ok data ->
  region_data zeros fat32_fs (OnChain [c]) [data] /\ chain_ends zeros fat32_fs (OnChain [c]) [data] /\
  dir_at fat32_fs (OnChain [c]) (mkDir (Some c) 0 0 (Some c)) 0.
Proof.
  intros Hn Hf Hr. split_and!; cbn.
  - constructor; [cbn; lia|by intros [|[|q]]| |].
    + intros [|q] c' Hc; [|destruct q; discriminate]. injection Hc as <-. exact Hf.
    + intros q so data' Hso Hd. change (spc fat32_fs) with 1%nat in *. replace so with 0%nat in * by lia.
      rewrite Nat.mul_1_r, Nat.add_0_r in Hd. destruct q as [|q]; [|destruct q; discriminate].
      injection Hd as <-. exists c. split; [done|]. by rewrite Z.add_0_r.
  - split; [reflexivity|]. intros c' Hc. injection Hc as <-. done.
  - split; [cbn; lia|]. exists 0%nat, c. cbn. split_and!; try done; lia.
Qed.

Definition entries_in (data : list Z) : list DirectoryEntry := entries [] (directory_records [data]).

Lemma directory_listing_correct_witness :
  match list_all zeros fat32_fs 18 (mkDir (Some 2) 0 0 (Some 2)) with
  | Done (Ok es) => map (fun e => (until_nul (name e), cluster e)) es
  | _ => []
  end = [(take 8 name_longna, 4); (path_sub, 3)].
Proof.
  destruct (fat32_chain 2 fat32_root_sector) as (Hg & He & Hat); [vm_compute; reflexivity..|].
  rewrite (directory_listing_correct zeros fat32_fs (OnChain [2]) [fat32_root_sector]
             (mkDir (Some 2) 0 0 (Some 2)) 18 Hg Hat).
  - vm_compute. reflexivity.
  - reflexivity.
  - right. exact He.
  - vm_compute. lia.
Defined.

(** C11: [open] resolves a path of names joined by one kind of separator the
    way its names resolve one after another, each against the listing of the
    directory reached so far: relative paths from the given directory rewound,
    absolute ones from the root rewound, a rewound directory being the handle before
    the first record of its first cluster (see [fat16_root_rewound] for a root
    without clusters); the result is the entry, its file or directory handle, or
    NotFound when a name is missing. *)
Theorem open_path_correct {D} `{SectorRead D} beyond (fs : Filesystem D) fuel pfile o d nms sep r
    (absolute : bool) :
  root fs = Ok o -> is_sep sep -> Forall name_ok nms ->
  dir (if absolute then o else pfile) = Some d ->
  join sep nms <> [0x2e] -> join sep nms <> [0x2e; 0x2e] ->
  resolves beyond fs fuel (mkDir (cluster_start d) 0 0 (cluster_start d)) (dir_ent (if absolute then o else pfile)) None nms r ->
  open beyond fuel fs pfile (if absolute then sep :: join sep nms else join sep nms) = Done r.
Proof.
  intros Ho Hs Hn Hd H1 H2 Hr. unfold open. destruct absolute.
  - rewrite !bool_decide_eq_false_2 by (destruct Hs as [-> | ->]; done).
    rewrite Ho. cbn [unwrap_ok]. rstep. rewrite find_sep_absolute by done. rewrite Hd.
    change (drop 1 (sep :: join sep nms)) with (join sep nms).
    apply open_loop_resolves; try done. lia.
  - rewrite !bool_decide_eq_false_2 by done. rewrite Ho. cbn [unwrap_ok]. rstep.
    assert (E : match find_sep (join sep nms) with
                | Some 0%nat => (o, drop 1 (join sep nms))
                | _ => (pfile, join sep nms)
                end = (pfile, join sep nms)).
    { destruct nms as [|nm nms]; [done|]. apply Forall_cons in Hn as [Hnm Hn].
      rewrite find_sep_join by done. destruct nms; [done|]. destruct Hnm as [Hnm _]. by destruct nm. }
    rewrite E, Hd. apply open_loop_resolves; try done. lia.
Qed.

(** "/SUB/A.TXT" on the FAT32 volume. *)
Lemma open_path_correct_witness : exists o r, root fat32_fs = Ok o /\
  open zeros 18 fat32_fs o (0x2f :: join 0x2f [path_sub; path_a_txt]) = Done r /\
  match r with Ok f => cluster (dir_ent f) = 5 /\ size (dir_ent f) = 100 | Err _ => False end.
Proof.
  destruct (fat32_chain 2 fat32_root_sector) as (Hg & He & Hat); [vm_compute; reflexivity..|].
  destruct (fat32_chain 3 fat32_sub_sector) as (Hg' & He' & Hat'); [vm_compute; reflexivity..|].
  set (d := mkDir (Some 2) 0 0 (Some 2)). set (o := ofile_new (root_entry 2) None (Some d)).
  exists o. eexists. split; [reflexivity|]. split.
  - refine (open_path_correct zeros fat32_fs 18 o o d [path_sub; path_a_txt] 0x2f _ true _ _ _ eq_refl _ _ _).
    + reflexivity.
    + left. reflexivity.
    + repeat constructor; unfold is_sep; try discriminate; intros [Hx|Hx]; discriminate.
    + discriminate.
    + discriminate.
    + eapply resolves_dir with (es := entries_in fat32_root_sector)
        (e := default (root_entry 0) (entries_in fat32_root_sector !! 1%nat)).
      * apply (lists_start _ _ _ (OnChain [2]) [fat32_root_sector] _ Hg He Hat); [reflexivity|vm_compute; reflexivity|vm_compute; lia].
      * vm_compute. repeat split.
      * vm_compute. reflexivity.
      * vm_compute. discriminate.
      * eapply resolves_file with (es := entries_in fat32_sub_sector)
          (e := default (root_entry 0) (entries_in fat32_sub_sector !! 2%nat)).
        { apply (lists_start _ _ _ (OnChain [3]) [fat32_sub_sector] _ Hg' He' Hat'); [reflexivity|vm_compute; reflexivity|vm_compute; lia]. }
        { vm_compute. repeat split. }
        { vm_compute. reflexivity. }
  - vm_compute. split; reflexivity.
Defined.

(** On FAT12 and FAT16 volumes, rewinding the root directory leaves it at
    sector 0 of the volume, the boot sector, and not at the root directory's
    first sector; [open] rewinds, so it searches the boot sector. *)
Theorem fat16_root_rewound {D} `{SectorRead D} beyond (fs : Filesystem D) :
  fat_type fs = FAT12 \/ fat_type fs = FAT16 ->
  exists o d, root fs = Ok o /\ dir o = Some d /\
    get_sector beyond fs d = Done (Ok (u32 (first_data_sector fs - root_dir_sectors fs)), d) /\
    get_sector beyond fs (reset d) = Done (Ok 0, reset d) /\
    forall fuel nm, name_ok nm ->
      open beyond fuel fs o (0x2f :: nm) =
      (r ← find_component beyond fuel fs nm (mkDir None 0 0 None) (root_entry 0);
       match r with
       | Stop r => Done r
       | Enter cur ent pdir => open_loop beyond (length nm) fuel fs [] cur ent pdir
       end).
Proof.
  intros Ht. assert (Hr : root fs = Ok (ofile_new (root_entry 0) None
    (Some (mkDir None (u32 (first_data_sector fs - root_dir_sectors fs)) 0 None)))).
  { unfold root. by destruct Ht as [-> | ->]. }
  eexists _, _. split; [exact Hr|]. split; [reflexivity|]. split; [reflexivity|]. split; [reflexivity|].
  intros fuel nm Hn. unfold open. rewrite Hr. cbn [unwrap_ok]. rstep.
  rewrite !bool_decide_eq_false_2 by done.
  assert (Hs : find_sep (0x2f :: nm) = Some 0%nat) by (apply (find_sep_absolute 0x2f [nm]); [by left|by constructor]).
  rewrite Hs. change (drop 1 (0x2f :: nm)) with nm. cbn [dir ofile_new].
  apply (open_loop_step beyond fs (length nm) fuel 0x2f nm []); [by left|done|constructor].
Qed.

(** The FAT16 volume: the root directory holds A.TXT, [open] does not find it. *)
Lemma fat16_root_rewound_witness : exists o d,
  root fat16_fs = Ok o /\ dir o = Some d /\
  (fst <$> names (next_entry zeros 3 fat16_fs d)) = Some (path_a_txt, 2) /\
  open zeros 40 fat16_fs o (0x2f :: path_a_txt) = Done (Err NotFound).
Proof.
  destruct (fat16_root_rewound zeros fat16_fs) as (o & d & Ho & Hd & _ & _ & Hopen).
  - right. reflexivity.
  - exists o, d. split; [exact Ho|]. split; [exact Hd|]. vm_compute in Ho. injection Ho as <-.
    cbn in Hd. injection Hd as <-. split; [vm_compute; reflexivity|].
    rewrite Hopen.
    + vm_compute. reflexivity.
    + split; [discriminate|]. repeat constructor; intros [Hx|Hx]; discriminate.
Defined.
