(* ===== verification/FileRead.v ===== *)
(** * What the loaders rely on in an open file

    The loaders are clients of [Fat.Read].  [reader] is the promise they are
    proved against: a handle stands before some sector of the file, reads move it
    on, seeks put it anywhere inside.  [File_reader] discharges it for the files
    of a FAT volume. *)

From S2P Require Import Prelude REfi Mem Part EfiStr Fat FatFile.

Section Reader.
Context {F : Type} `{Fat.Read F}.

(** A file of [sz] bytes in the sectors [datas]; [at_ f k]: the handle [f] stands
    before sector [k]. *)
Record reader (datas : list (list Z)) (sz : Z) (at_ : F -> nat -> Prop) : Prop := {
  rd_sector : forall k data, datas !! k = Some data -> length data = 512%nat /\ bytes_ok data;
  rd_bound : 0 <= sz <= 2 ^ 32 - 512;
  rd_len : sz <= 512 * Z.of_nat (length datas) < sz + 512;
  rd_size : forall f k, at_ f k -> Fat.get_size f = sz;
  rd_read : forall f k data, at_ f k -> datas !! k = Some data -> exists f',
    Fat.read f 512 = Done (Ok (Z.min 512 (sz - 512 * Z.of_nat k), data), f') /\ at_ f' (S k);
  rd_eof : forall f k, at_ f k -> (length datas <= k)%nat ->
    Fat.read f 512 = Done (Err Fat.EndOfFile, f);
  rd_seek : forall f k j, at_ f k -> 512 * Z.of_nat j < sz -> exists f',
    Fat.seek f (512 * Z.of_nat j) = Done (Ok tt, f') /\ at_ f' j;
  rd_seek_end : forall f k j, at_ f k -> sz <= 512 * Z.of_nat j ->
    Fat.seek f (512 * Z.of_nat j) = Done (Err Fat.EndOfFile, f)
}.

Lemma sectors_length (datas : list (list Z)) :
  (forall k data, datas !! k = Some data -> length data = 512%nat /\ bytes_ok data) ->
  length (concat datas) = (512 * length datas)%nat /\ bytes_ok (concat datas).
Proof.
  intros Hs. assert (Hf : Forall (fun d => length d = 512%nat /\ bytes_ok d) datas)
    by (apply Forall_lookup; eauto).
  clear Hs. induction Hf as [|d ds [Hd Hb] Hf [IHl IHb]]; cbn [concat length]; [done|].
  rewrite length_app. split; [lia|]. by apply Forall_app.
Qed.

Lemma reader_concat datas sz at_ : reader datas sz at_ ->
  length (concat datas) = (512 * length datas)%nat /\ bytes_ok (concat datas).
Proof. intros Hr. apply sectors_length, (rd_sector _ _ _ Hr). Qed.

Lemma reader_concat_drop datas sz at_ j : reader datas sz at_ ->
  length (concat (drop j datas)) = (512 * (length datas - j))%nat /\ bytes_ok (concat (drop j datas)).
Proof.
  intros Hr. rewrite <- length_drop. apply sectors_length. intros k data. rewrite lookup_drop.
  apply (rd_sector _ _ _ Hr).
Qed.
End Reader.

(** Deciding that concrete sectors are sectors. *)
Definition sector_check (d : list Z) : bool :=
  (length d =? 512)%nat && forallb (fun b => (0 <=? b) && (b <? 256)) d.
Lemma sector_check_ok datas : forallb sector_check datas = true ->
  forall k data, datas !! k = Some data -> length data = 512%nat /\ bytes_ok data.
Proof.
  intros Hc k data Hd. apply list_elem_of_lookup_2, list_elem_of_In in Hd.
  rewrite forallb_forall in Hc. specialize (Hc data Hd). apply andb_prop in Hc as [Hl Hb].
  split; [by apply Nat.eqb_eq|]. rewrite forallb_forall in Hb. apply Forall_forall. intros b Hin.
  apply list_elem_of_In in Hin. specialize (Hb b Hin). unfold is_byte. lia.
Qed.

(** Files of a FAT volume are readers: the handles reached from [get_file]. *)
Lemma File_reader {D} `{SectorRead D} beyond (fs : Fat.Filesystem D) st sz cs datas :
  file_on beyond fs st sz cs datas ->
  reader (H := Fat.File_Read beyond) datas sz
    (fun h k => exists f, h = (fs, f) /\ file_at fs st sz cs f k /\ (k <= length datas)%nat).
Proof.
  intros Hf. destruct Hf as [Hc Hst Hsz Hlen] eqn:Ef. constructor; try done.
  - intros k data Hd. pose proof (cd_spc _ _ _ _ Hc). assert (spc fs <> 0)%nat by (unfold spc; lia).
    destruct (cd_sector _ _ _ _ Hc (k / spc fs) (k mod spc fs) data) as (c & _ & Hr).
    + by apply Nat.mod_upper_bound.
    + rewrite <- Hd. f_equal. rewrite Nat.mul_comm. symmetry. by apply Nat.div_mod.
    + by apply Fat.fs_read_length in Hr.
  - intros h k (f & -> & Hat & _). apply (fa_size _ _ _ _ _ _ Hat).
  - intros h k data (f & -> & Hat & _) Hd.
    destruct (file_read_at _ _ _ _ _ _ _ _ _ Hf Hat Hd) as (f' & E & Hat').
    exists (fs, f'). cbn [Fat.read Fat.File_Read]. rewrite E. rstep. split; [done|].
    exists f'. split_and!; [done..|]. by apply lookup_lt_Some in Hd.
  - intros h k (f & -> & Hat & _) Hk. cbn [Fat.read Fat.File_Read].
    by rewrite (file_read_eof _ _ _ _ _ _ _ _ Hf Hat Hk).
  - intros h k j (f & -> & Hat & Hk) Hj.
    destruct (file_seek_at _ _ _ _ _ _ Fat.SEEK_FUEL _ _ j Hf Hat Hk) as (f' & E & Hat').
    { by eapply file_len_fuel. } { done. }
    exists (fs, f'). cbn [Fat.seek Fat.File_Read]. rewrite E. rstep. split; [done|].
    exists f'. split_and!; [done..|lia].
  - intros h k j (f & -> & Hat & _) Hj. cbn [Fat.seek Fat.File_Read].
    destruct (file_seek_error beyond fs Fat.SEEK_FUEL f (512 * Z.of_nat j)) as [_ E].
    rewrite E; [done|mlia|]. by rewrite (fa_size _ _ _ _ _ _ Hat).
Qed.
