(* ===== verification/BzImage.v ===== *)
(** * Booting Linux (src/bzimage.rs): data and operations

    A kernel is loaded by filling the "zero page" of boot parameters the
    hypervisor prepared and copying the kernel's sectors to memory.  The file is
    any [Fat.Read]; memory is explicit. *)

From S2P Require Import Prelude REfi Mem Part EfiStr Fat.

(** [str::trim_matches] with a predicate on the bytes of an ASCII text. *)
Fixpoint drop_while (p : Z -> bool) (l : list Z) : list Z :=
  match l with
  | [] => []
  | x :: l' => if p x then drop_while p l' else l
  end.
Definition trim_matches (p : Z -> bool) (l : list Z) : list Z :=
  reverse (drop_while p (reverse (drop_while p l))).
Definition is_nul (b : Z) : bool := b =? 0.

Module BzImage.
Inductive Error := FileError | KernelOld | MagicMissing | NotRelocatable.

Definition CMDLINE_START : Z := 0x4b000.
Definition CMDLINE_MAX_SIZE : Z := 0x10000.
Definition ZERO_PAGE_START : Z := 0x7000.
Definition KERNEL_LOCATION : Z := 0x200000.
Definition E820_RAM : Z := 1.

(** [E820Entry], packed: 20 bytes. *)
Definition E820_SIZE : Z := 20.
Definition e820_addr (m : memory) (e : Z) : Z := load64 m e.
Definition e820_size (m : memory) (e : Z) : Z := load64 m (e + 8).
Definition e820_type (m : memory) (e : Z) : Z := load32 m (e + 16).

Definition zero_page : MemoryRegion.t := MemoryRegion.new ZERO_PAGE_START 4096.

(** A read through [MemoryRegion::from_slice(&buf)]. *)
Definition buf_read (n : nat) (buf : list Z) (offset : nat) : res Z :=
  _ ← assert_ (offset + n <=? length buf)%nat;
  Done (le_combine (take n (drop offset buf))).

(** [for entry in e820_table]: [n] entries from [e]. *)
Fixpoint top_of_ram (n : nat) (m : memory) (e max_load_address top : Z) : Z :=
  match n with
  | O => top
  | S n =>
      let last := u64 (u64 (e820_addr m e + e820_size m e) - 1) in
      let top := if (e820_type m e =? E820_RAM) && ((top <? last) && (last <? max_load_address))
                 then last else top in
      top_of_ram n m (e + E820_SIZE) max_load_address top
  end.

Section Loader.
Context {F : Type} `{Fat.Read F}.

(** The operator [?] on a file operation. *)
Definition try_file {A B} (r : result A Fat.Error) (f : F) (m : memory)
    (k : A -> res (result B Error * F * memory)) : res (result B Error * F * memory) :=
  match r with Ok a => k a | Err _ => Done (Err FileError, f, m) end.

(** [while offset < f.get_size()]; the last sector goes through a buffer. *)
Fixpoint initrd_loop (fuel : nat) (m : memory) (f : F) (region : MemoryRegion.t) (offset : Z)
    : res (result unit Error * F * memory) :=
  match fuel with
  | O => OutOfFuel
  | S fuel =>
      if negb (offset <? Fat.get_size f) then Done (Ok tt, f, m)
      else
        let bytes_remaining := u32 (Fat.get_size f - offset) in
        if bytes_remaining <? 512 then
          '(r, f) ← Fat.read f 512;
          match r with
          | Err Fat.EndOfFile => Done (Ok tt, f, m)
          | Err _ => Done (Err FileError, f, m)
          | Ok (_, data) =>
              '(dst, len) ← MemoryRegion.as_slice region 1 offset bytes_remaining;
              Done (Ok tt, f, store_bytes m dst (take (Z.to_nat len) data))
          end
        else
          '(dst, len) ← MemoryRegion.as_slice region 1 offset 512;
          '(r, f) ← Fat.read f (Z.to_nat len);
          match r with
          | Err Fat.EndOfFile => Done (Ok tt, f, m)
          | Err _ => Done (Err FileError, f, m)
          | Ok (_, data) => initrd_loop fuel (store_bytes m dst data) f region (u32 (offset + 512))
          end
  end.

Definition load_initrd (fuel : nat) (m : memory) (f : F) : res (result unit Error * F * memory) :=
  limit ← MemoryRegion.read_u32 m zero_page 0x22c;
  let max_load_address := if limit =? 0 then 0x37ffffff else limit in
  e820_count ← MemoryRegion.read_u8 m zero_page 0x1e8;
  '(table, n) ← MemoryRegion.as_slice zero_page E820_SIZE 0x2d0 e820_count;
  let top := top_of_ram (Z.to_nat n) m table max_load_address 0 in
  let top := if max_load_address <? top then max_load_address else top in
  let initrd_address := u64 (top - Fat.get_size f) in
  let region := MemoryRegion.new initrd_address (Fat.get_size f) in
  '(r, f, m) ← initrd_loop fuel m f region 0;
  match r with
  | Err e => Done (Err e, f, m)
  | Ok _ =>
      m ← MemoryRegion.write_u32 m zero_page 0x218 (u32 initrd_address);
      m ← MemoryRegion.write_u32 m zero_page 0x21c (Fat.get_size f);
      Done (Ok tt, f, m)
  end.

Definition append_commandline (m : memory) (addition : list Z) : res (result unit Error * memory) :=
  '(cmdline, len) ← MemoryRegion.as_slice (MemoryRegion.new CMDLINE_START CMDLINE_MAX_SIZE) 1 0
                      CMDLINE_MAX_SIZE;
  limit ← MemoryRegion.read_u32 m zero_page 0x238;
  _ ← assert_ (limit <=? len);
  let orig_len := Z.of_nat (length (trim_matches is_nul (load_bytes m cmdline (Z.to_nat limit)))) in
  let add_len := Z.of_nat (length addition) in
  _ ← assert_ (orig_len <? len);
  let m := store8 m (cmdline + orig_len) 32 in
  _ ← assert_ (orig_len + 1 + add_len <=? len);
  let m := store_bytes m (cmdline + orig_len + 1) addition in
  _ ← assert_ (orig_len + 1 + add_len <? len);
  let m := store8 m (cmdline + orig_len + 1 + add_len) 0 in
  m ← MemoryRegion.write_u32 m zero_page 0x228 (u32 CMDLINE_START);
  m ← MemoryRegion.write_u32 m zero_page 0x238 (u32 (orig_len + add_len + 1));
  Done (Ok tt, m).

(** The last loop of [load_kernel]: sectors to memory until the end of file. *)
Fixpoint kernel_loop (fuel : nat) (m : memory) (f : F) (load_offset : Z)
    : res (result Z Error * F * memory) :=
  match fuel with
  | O => OutOfFuel
  | S fuel =>
      '(dst, len) ← MemoryRegion.as_slice (MemoryRegion.new load_offset 512) 1 0 512;
      '(r, f) ← Fat.read f (Z.to_nat len);
      match r with
      | Err Fat.EndOfFile => Done (Ok (u64 (KERNEL_LOCATION + 0x200)), f, m)
      | Err _ => Done (Err FileError, f, m)
      | Ok (_, data) => kernel_loop fuel (store_bytes m dst data) f (u64 (load_offset + 512))
      end
  end.

Definition header_start : nat := 0x1f1.

(** The checks on the setup header. *)
Definition check_setup (buf : list Z) : res (result unit Error) :=
  boot_flag ← buf_read 2 buf 0x1fe;
  if negb (boot_flag =? 0xaa55) then Done (Err MagicMissing)
  else
    magic ← buf_read 4 buf 0x202;
    if negb (magic =? 0x53726448) then Done (Err MagicMissing)
    else
      version ← buf_read 2 buf 0x206;
      if version <? 0x205 then Done (Err KernelOld)
      else
        relocatable ← buf_read 1 buf 0x234;
        if relocatable =? 0 then Done (Err NotRelocatable) else Done (Ok tt).

(** The setup header goes to the zero page, with the loader type and the
    kernel's place filled in. *)
Definition fill_zero_page (m : memory) (buf : list Z) : res memory :=
  header_len ← index buf 0x201;
  let header_end := (0x202 + Z.to_nat header_len)%nat in
  '(dst, len) ← MemoryRegion.as_slice zero_page 1 (Z.of_nat header_start) (Z.of_nat (header_end - header_start));
  _ ← assert_ (header_end <=? length buf)%nat;
  let m := store_bytes m dst (take (header_end - header_start) (drop header_start buf)) in
  m ← MemoryRegion.write_u8 m zero_page 0x210 0xff;
  MemoryRegion.write_u32 m zero_page 0x214 KERNEL_LOCATION.

Definition setup_bytes (buf : list Z) : res Z :=
  setup_sects ← index buf header_start;
  Done (((if setup_sects =? 0 then 4 else setup_sects) + 1) * 512).

Definition load_kernel (fuel : nat) (m : memory) (f : F) : res (result Z Error * F * memory) :=
  '(r, f) ← Fat.seek f 0;
  try_file r f m (fun _ =>
    '(r, f) ← Fat.read f 512;
    try_file r f m (fun '(_, lo) =>
      '(r, f) ← Fat.read f 512;
      try_file r f m (fun '(_, hi) =>
        let buf := lo ++ hi in
        c ← check_setup buf;
        match c with
        | Err e => Done (Err e, f, m)
        | Ok _ =>
            m ← fill_zero_page m buf;
            skip ← setup_bytes buf;
            '(r, f) ← Fat.seek f (u32 skip);
            try_file r f m (fun _ => kernel_loop fuel m f KERNEL_LOCATION)
        end))).
End Loader.
End BzImage.
