(* ===== verification/BzProps.v ===== *)
(** * Booting Linux: theorems *)

From S2P Require Import Prelude REfi Mem Part EfiStr Fat FatFile FileRead BzImage FatDemo.
Import BzImage.

(** ** Text *)

Lemma drop_while_none p l : Forall (fun x => p x = false) (option_list (head l)) -> drop_while p l = l.
Proof. destruct l as [|x l]; cbn; [done|]. intros Hf. by apply Forall_inv in Hf as ->. Qed.

Lemma drop_while_all p l l' : Forall (fun x => p x = true) l -> drop_while p (l ++ l') = drop_while p l'.
Proof. induction 1 as [|x l Hx Hl IH]; cbn; [done|]. by rewrite Hx. Qed.

(** A text between two runs of what is trimmed. *)
Definition trimmed (p : Z -> bool) (s : list Z) : Prop :=
  s = [] \/ (exists x l, s = x :: l /\ p x = false) /\ (exists l y, s = l ++ [y] /\ p y = false).

Lemma trim_matches_spec p a s b : Forall (fun x => p x = true) a -> Forall (fun x => p x = true) b ->
  trimmed p s -> trim_matches p (a ++ s ++ b) = s.
Proof.
  intros Ha Hb Hs. unfold trim_matches. rewrite drop_while_all by done.
  assert (Hr : Forall (fun x => p x = true) (reverse b)) by (by apply Forall_reverse).
  destruct Hs as [-> | [(x & l & -> & Hx) (l' & y & El & Hy)]].
  - rewrite app_nil_l. rewrite <- (app_nil_r b), drop_while_all by done. done.
  - rewrite (drop_while_none p ((x :: l) ++ b)) by (cbn; by repeat constructor).
    rewrite reverse_app, drop_while_all by done. rewrite El, reverse_snoc, drop_while_none.
    + rewrite reverse_cons, reverse_involutive. done.
    + by repeat constructor.
Qed.

(** ** Sectors to memory *)

Section Loops.
Context {F : Type} `{Fat.Read F} (datas : list (list Z)) (sz : Z) (at_ : F -> nat -> Prop).
Hypothesis (Hr : reader datas sz at_).

Lemma kernel_loop_spec fuel m f k off : at_ f k -> (k <= length datas)%nat ->
  (length datas - k < fuel)%nat -> 0 <= off -> off + 512 * Z.of_nat (S (length datas) - k) < 2 ^ 64 ->
  exists f', kernel_loop fuel m f off =
    Done (Ok 0x200200, f', store_bytes m off (concat (drop k datas))).
Proof.
  revert m f k off. induction fuel as [|fuel IH]; intros m f k off Hat Hk Hf Ho Hend; [lia|].
  cbn [kernel_loop]. rewrite MemoryRegion.as_slice_in by (cbn; lia). rstep.
  change (MemoryRegion.base (MemoryRegion.new off 512)) with off. rewrite Z.add_0_r.
  change (Z.to_nat 512) with 512%nat. destruct (datas !! k) as [data|] eqn:Hd.
  - pose proof (lookup_lt_Some _ _ _ Hd). destruct (rd_sector _ _ _ Hr _ _ Hd) as [Hl _].
    destruct (rd_read _ _ _ Hr f k data Hat Hd) as (f' & -> & Hat'). rstep.
    rewrite wrap_small by lia.
    destruct (IH (store_bytes m off data) f' (S k) (off + 512)) as (f'' & ->); [done|lia..|].
    exists f''. rewrite (drop_S datas data k Hd). cbn [concat]. rewrite store_bytes_app, Hl. done.
  - apply lookup_ge_None in Hd. rewrite (rd_eof _ _ _ Hr f k Hat Hd). rstep.
    exists f. by rewrite drop_ge by done.
Qed.

Lemma initrd_loop_spec fuel m f k base : at_ f k -> (k <= length datas)%nat ->
  (length datas - k < fuel)%nat -> 0 <= base -> base + sz < 2 ^ 64 ->
  exists f', initrd_loop fuel m f (MemoryRegion.new base sz) (512 * Z.of_nat k) =
      Done (Ok tt, f', store_bytes m (base + 512 * Z.of_nat k)
                         (take (Z.to_nat (sz - 512 * Z.of_nat k)) (concat (drop k datas)))) /\
    Fat.get_size f' = sz.
Proof.
  revert m f k. induction fuel as [|fuel IH]; intros m f k Hat Hk Hf Ho Hend; [lia|].
  pose proof (rd_len _ _ _ Hr) as Hlen. pose proof (rd_bound _ _ _ Hr) as Hb. norm_pow.
  cbn [initrd_loop]. rewrite (rd_size _ _ _ Hr f k Hat).
  destruct (Z.ltb_spec (512 * Z.of_nat k) sz) as [Hlt|Hge]; cbn [negb].
  2: { exists f. replace (Z.to_nat (sz - 512 * Z.of_nat k)) with 0%nat by lia. split; [done|].
       by eapply rd_size. }
  destruct (lookup_lt_is_Some_2 datas k) as [data Hd]; [lia|]. pose proof (lookup_lt_Some _ _ _ Hd).
  destruct (rd_sector _ _ _ Hr _ _ Hd) as [Hl _].
  destruct (rd_read _ _ _ Hr f k data Hat Hd) as (f' & Er & Hat').
  rewrite (drop_S datas data k Hd). cbn [concat]. rewrite (wrap_small 32 (sz - _)) by (norm_pow; lia).
  destruct (Z.ltb_spec (sz - 512 * Z.of_nat k) 512) as [Hlast|Hfull].
  - rewrite Er. rstep. rewrite MemoryRegion.as_slice_in by (cbn; norm_pow; lia). rstep.
    exists f'. rewrite take_app_le by lia. split; [done|]. by eapply rd_size.
  - rewrite MemoryRegion.as_slice_in by (cbn; norm_pow; lia). rstep.
    change (MemoryRegion.base (MemoryRegion.new base sz)) with base. change (Z.to_nat 512) with 512%nat.
    rewrite Er. rstep. rewrite (wrap_small 32) by (norm_pow; lia).
    replace (512 * Z.of_nat k + 512) with (512 * Z.of_nat (S k)) by lia.
    edestruct (IH (store_bytes m (base + 512 * Z.of_nat k) data) f' (S k)) as (f'' & -> & Hs); [done|lia..|].
    exists f''. split; [|done]. rewrite take_app_ge, store_bytes_app, Hl by lia. do 3 f_equal; [lia|].
    f_equal. lia.
Qed.
End Loops.

(** ** The zero page *)

Lemma zp_wf : MemoryRegion.wf zero_page.
Proof. repeat split; vm_compute; congruence. Qed.

Lemma zp_read n m off : (0 < n)%nat -> 0 <= off -> off + Z.of_nat n <= 4096 ->
  MemoryRegion.read n m zero_page off = Done (load n m (ZERO_PAGE_START + off)).
Proof. intros. apply MemoryRegion.read_in; [apply zp_wf|done..]. Qed.

Lemma zp_write n m off v : (0 < n)%nat -> 0 <= off -> off + Z.of_nat n <= 4096 ->
  MemoryRegion.write n m zero_page off v = Done (store n m (ZERO_PAGE_START + off) v).
Proof. intros. apply MemoryRegion.write_in; [apply zp_wf|done..]. Qed.

(** [x] is the last byte of a RAM entry of the table, below [limit]. *)
Definition usable (m : memory) (n : nat) (e limit x : Z) : Prop := exists i : nat, (i < n)%nat /\
  let ei := e + 20 * Z.of_nat i in
  e820_type m ei = E820_RAM /\ x = u64 (u64 (e820_addr m ei + e820_size m ei) - 1) /\ x < limit.

Lemma top_of_ram_spec n m limit e top : let r := top_of_ram n m e limit top in
  top <= r /\ (r = top \/ usable m n e limit r) /\ forall x, usable m n e limit x -> x <= r.
Proof.
  revert e top. induction n as [|n IH]; intros e top; cbn [top_of_ram].
  { split; [lia|]. split; [by left|]. intros x (i & Hi & _). lia. }
  cbv zeta. set (last := u64 (u64 (e820_addr m e + e820_size m e) - 1)).
  set (top1 := if (e820_type m e =? E820_RAM) && ((top <? last) && (last <? limit)) then last else top).
  destruct (IH (e + E820_SIZE) top1) as (H1 & H2 & H3).
  assert (Hshift : forall x, usable m n (e + E820_SIZE) limit x -> usable m (S n) e limit x).
  { intros x (i & Hi & Hx). exists (S i). split; [lia|].
    replace (e + 20 * Z.of_nat (S i)) with (e + E820_SIZE + 20 * Z.of_nat i) by (unfold E820_SIZE; lia). done. }
  assert (Htop : top <= top1 /\ (top1 = top \/ usable m (S n) e limit top1) /\
                 (e820_type m e = E820_RAM -> last < limit -> last <= top1)).
  { unfold top1. destruct (Z.eqb_spec (e820_type m e) E820_RAM); cbn [andb]; [|by split_and!; [lia|left|]].
    destruct (Z.ltb_spec top last); cbn [andb]; [|split_and!; [lia|by left|lia]].
    destruct (Z.ltb_spec last limit); [|split_and!; [lia|by left|lia]].
    split_and!; [lia| |lia]. right. exists 0%nat. split; [lia|]. rewrite Z.add_0_r. done. }
  destruct Htop as (T1 & T2 & T3). split; [lia|]. split.
  - destruct H2 as [->|H2]; [done|right; auto].
  - intros x (i & Hi & Hx). destruct i as [|i].
    + rewrite Z.add_0_r in Hx. destruct Hx as (Ht & -> & Hl). specialize (T3 Ht Hl). unfold last in T3. lia.
    + apply H3. exists i. split; [lia|].
      replace (e + E820_SIZE + 20 * Z.of_nat i) with (e + 20 * Z.of_nat (S i)) by (unfold E820_SIZE; lia). done.
Qed.

Lemma top_of_ram_greatest n m e limit top :
  usable m n e limit top -> (forall x, usable m n e limit x -> x <= top) ->
  top_of_ram n m e limit 0 = top /\ 0 <= top < limit.
Proof.
  intros Hu Hmax. destruct (top_of_ram_spec n m limit e 0) as (H1 & H2 & H3).
  pose proof (H3 top Hu) as Hle. destruct Hu as (i & _ & _ & Hx & Hlim).
  pose proof (wrap_range 64 (u64 (e820_addr m (e + 20 * Z.of_nat i) + e820_size m (e + 20 * Z.of_nat i)) - 1)).
  split; [|lia]. destruct H2 as [E|Hu']; [|specialize (Hmax _ Hu')]; lia.
Qed.

(** The limit the kernel's header gives, or the default. *)
Definition initrd_limit (m : memory) : Z :=
  let limit := load32 m (ZERO_PAGE_START + 0x22c) in if limit =? 0 then 0x37ffffff else limit.

(** C37: [load_initrd] puts the initial RAM disk right below the last byte of the
    highest RAM region of the E820 table that ends below the kernel's limit: if
    it fits there, away from the zero page, the file's bytes end up at
    [top - size], the zero page holds that address and the size, and no other
    byte of memory changes. *)
Theorem load_initrd_correct {F} `{Fat.Read F} datas sz (at_ : F -> nat -> Prop) fuel m f top :
  reader datas sz at_ -> at_ f 0%nat -> (length datas < fuel)%nat -> mem_ok m ->
  let count := load 1 m (ZERO_PAGE_START + 0x1e8) in
  let table := ZERO_PAGE_START + 0x2d0 in
  count <= 168 ->
  usable m (Z.to_nat count) table (initrd_limit m) top ->
  (forall x, usable m (Z.to_nat count) table (initrd_limit m) x -> x <= top) ->
  sz <= top -> top <= ZERO_PAGE_START \/ ZERO_PAGE_START + 4096 <= top - sz ->
  exists f' m', load_initrd fuel m f = Done (Ok tt, f', m') /\
    load_bytes m' (top - sz) (Z.to_nat sz) = take (Z.to_nat sz) (concat datas) /\
    load32 m' (ZERO_PAGE_START + 0x218) = top - sz /\
    load32 m' (ZERO_PAGE_START + 0x21c) = sz /\
    forall x, ~ (top - sz <= x < top) -> ~ (ZERO_PAGE_START + 0x218 <= x < ZERO_PAGE_START + 0x220) ->
      load8 m' x = load8 m x.
Proof.
  intros Hr Hat Hfuel Hm count table Hc Hu Hmax Hfit Haway.
  destruct (top_of_ram_greatest _ _ _ _ _ Hu Hmax) as [Etop Htop].
  assert (Hlim : initrd_limit m < 2 ^ 32).
  { unfold initrd_limit. pose proof (load_range 4 m (ZERO_PAGE_START + 0x22c) Hm). case_match; norm_pow; lia. }
  pose proof (load_range 1 m (ZERO_PAGE_START + 0x1e8) Hm) as Hc0. fold count in Hc0.
  pose proof (rd_bound _ _ _ Hr) as Hsz. norm_pow.
  unfold load_initrd, MemoryRegion.read_u32, MemoryRegion.read_u8. rewrite !zp_read by lia. rstep.
  fold count. fold (initrd_limit m). clearbody count.
  rewrite MemoryRegion.as_slice_in by (unfold zero_page, ZERO_PAGE_START, E820_SIZE; cbn; norm_pow; lia). rstep.
  change (MemoryRegion.base zero_page + 0x2d0) with table. rewrite Etop, (proj2 (Z.ltb_ge _ _)) by lia.
  rewrite (rd_size _ _ _ Hr f 0 Hat), (wrap_small 64 (top - sz)) by (norm_pow; lia).
  destruct (initrd_loop_spec datas sz at_ Hr fuel m f 0 (top - sz)) as (f' & E & Hs); [done|lia..|norm_pow; lia|].
  change (512 * Z.of_nat 0) with 0 in E. rewrite E. rstep. rewrite Z.add_0_r, Z.sub_0_r, drop_0 in *.
  unfold MemoryRegion.write_u32. rewrite zp_write by lia. rstep. rewrite zp_write by lia. rstep.
  rewrite Hs. eexists f', _. split; [done|].
  destruct (reader_concat _ _ _ Hr) as [Hl Hb]. pose proof (rd_len _ _ _ Hr).
  assert (Hlen : length (take (Z.to_nat sz) (concat datas)) = Z.to_nat sz) by (rewrite length_take; lia).
  unfold ZERO_PAGE_START in *. split_and!.
  - etransitivity; [apply load_bytes_ext; intros x Hx; rewrite !load8_store_out by (cbn; lia); done|].
    pose proof (load_bytes_store_bytes m (top - sz) (take (Z.to_nat sz) (concat datas))) as L.
    rewrite Hlen in L. apply L. by apply Forall_take.
  - rewrite load_store_out by (cbn; lia). rewrite load_store, wrap_small, Z.mod_small by (norm_pow; lia). done.
  - rewrite load_store. apply Z.mod_small. cbn. norm_pow. lia.
  - intros x Hx Hz. rewrite !load8_store_out by (cbn; lia). apply load8_store_bytes_out. lia.
Qed.

(** A machine with one megabyte of RAM at 1 MiB. *)
Definition one_ram : memory :=
  store32 (store64 (store64 (store 1 ∅ 0x71e8 1) 0x72d0 0x100000) 0x72d8 0x100000) 0x72e0 1.

Lemma one_ram_ok : mem_ok one_ram.
Proof. repeat apply mem_ok_store_bytes. apply map_Forall_empty. Qed.

Lemma one_ram_usable x : usable one_ram 1 0x72d0 (initrd_limit one_ram) x <-> x = 0x1fffff.
Proof.
  split.
  - intros (i & Hi & _ & Hx & _). replace i with 0%nat in Hx by lia. vm_compute in Hx. done.
  - intros ->. exists 0%nat. split; [lia|]. vm_compute. done.
Qed.

(** The 700-byte file of the FAT32 volume as a RAM disk. *)
Lemma load_initrd_correct_witness : exists f' m',
  load_initrd (H := Fat.File_Read zeros) 3 one_ram (fat32_fs, Fat.mkFile 4 4 0 700 0) = Done (Ok tt, f', m') /\
  load32 m' (ZERO_PAGE_START + 0x218) = 0x1ffd43 /\ load32 m' (ZERO_PAGE_START + 0x21c) = 700.
Proof.
  destruct (load_initrd_correct _ _ _ 3 one_ram (fat32_fs, Fat.mkFile 4 4 0 700 0) 0x1fffff
              (File_reader zeros fat32_fs _ _ _ _ fat32_file_on)) as (f' & m' & E & _ & E1 & E2 & _).
  - exists (Fat.mkFile 4 4 0 700 0). split; [reflexivity|]. split; [|cbn; lia].
    constructor; [reflexivity..|]. exists 0%nat. cbn. split; [reflexivity|lia].
  - cbn. lia.
  - exact one_ram_ok.
  - vm_compute. discriminate.
  - apply one_ram_usable. reflexivity.
  - intros x Hx. apply one_ram_usable in Hx. lia.
  - lia.
  - right. vm_compute. discriminate.
  - exists f', m'. split; [exact E|]. split; [exact E1 | exact E2].
Defined.

(** ** The command line *)

(** [append_commandline] appends a space and the addition to the command
    line [s] the hypervisor left (before the padding of NULs, within the length
    the zero page gives), terminates it, and records its place and length in the
    zero page; nothing else changes.  A line that does not fit in 64 KiB with
    its terminator is a panic. *)
Theorem append_commandline_correct m s pad addition :
  let limit := load32 m (ZERO_PAGE_START + 0x238) in
  let n := Z.of_nat (length s) in let k := Z.of_nat (length addition) in
  mem_ok m -> limit <= CMDLINE_MAX_SIZE -> trimmed is_nul s -> bytes_ok addition ->
  load_bytes m CMDLINE_START (Z.to_nat limit) = s ++ replicate pad 0 ->
  if decide (n + 1 + k < CMDLINE_MAX_SIZE) then
    exists m', append_commandline m addition = Done (Ok tt, m') /\
      load_bytes m' CMDLINE_START (length s + S (length addition) + 1) = s ++ (32 :: addition) ++ [0] /\
      load32 m' (ZERO_PAGE_START + 0x228) = CMDLINE_START /\
      load32 m' (ZERO_PAGE_START + 0x238) = n + k + 1 /\
      forall x, ~ (CMDLINE_START + n <= x <= CMDLINE_START + n + 1 + k) ->
        ~ (ZERO_PAGE_START + 0x228 <= x < ZERO_PAGE_START + 0x22c) ->
        ~ (ZERO_PAGE_START + 0x238 <= x < ZERO_PAGE_START + 0x23c) -> load8 m' x = load8 m x
  else append_commandline m addition = Panic.
Proof.
  intros limit n k Hm Hlim Ht Hb Hs. pose proof (load_range 4 m (ZERO_PAGE_START + 0x238) Hm) as Hl0.
  fold limit in Hl0. assert (Hn : n <= limit).
  { apply (f_equal (@length Z)) in Hs. rewrite length_load_bytes, length_app in Hs. lia. }
  assert (Htrim : trim_matches is_nul (load_bytes m CMDLINE_START (Z.to_nat limit)) = s).
  { rewrite Hs. apply (trim_matches_spec is_nul [] s (replicate pad 0)); [constructor|by apply Forall_replicate|done]. }
  unfold append_commandline. rewrite MemoryRegion.as_slice_in by (cbn; unfold CMDLINE_START, CMDLINE_MAX_SIZE; lia).
  rstep. change (MemoryRegion.base _ + 0) with CMDLINE_START. unfold MemoryRegion.read_u32. rewrite zp_read by lia.
  rstep. fold limit. rewrite Htrim. fold n k. clearbody limit. unfold CMDLINE_MAX_SIZE in *.
  rewrite (proj2 (Z.leb_le limit _)) by lia. cbn [assert_]. rstep.
  destruct (decide (n + 1 + k < 0x10000)) as [Hfit|Hfit].
  - rewrite (proj2 (Z.ltb_lt n _)), (proj2 (Z.leb_le (n + 1 + k) _)), (proj2 (Z.ltb_lt (n + 1 + k) _)) by lia.
    cbn [assert_]. rstep. unfold MemoryRegion.write_u32. rewrite zp_write by lia. rstep. rewrite zp_write by lia. rstep.
    set (a := CMDLINE_START + n).
    replace (store8 _ (a + 1 + k) 0) with (store_bytes m a ((32 :: addition) ++ [0])).
    2: { rewrite store_bytes_app. cbn [store_bytes length]. f_equal. lia. }
    assert (Ea : length ((32 :: addition) ++ [0]) = Z.to_nat (k + 2)) by (rewrite length_app; cbn; lia).
    eexists. split; [done|]. unfold ZERO_PAGE_START, CMDLINE_START in *. split_and!.
    + rewrite <- Nat.add_assoc, load_bytes_app. f_equal.
      * etransitivity; [apply load_bytes_ext; intros x Hx|].
        { rewrite !load8_store_out by (cbn; lia). apply load8_store_bytes_out. lia. }
        apply (f_equal (take (length s))) in Hs. rewrite take_app_length in Hs. etransitivity; [|exact Hs].
        replace (Z.to_nat limit) with (length s + (Z.to_nat limit - length s))%nat by lia.
        rewrite load_bytes_app. symmetry. apply take_app_length'. by rewrite length_load_bytes.
      * etransitivity; [apply load_bytes_ext; intros x Hx; rewrite !load8_store_out by (cbn; lia); done|].
        pose proof (load_bytes_store_bytes m a ((32 :: addition) ++ [0])) as L.
        rewrite length_app in L. apply L. apply Forall_app. split; [constructor; [unfold is_byte; lia|done]|].
        repeat constructor; lia.
    + rewrite load_store_out by (cbn; lia). rewrite load_store. reflexivity.
    + rewrite load_store, wrap_small, Z.mod_small by (cbn; norm_pow; lia). lia.
    + intros x H1 H2 H3. rewrite !load8_store_out by (cbn; lia). apply load8_store_bytes_out. lia.
  - destruct (Z.ltb_spec n 0x10000); cbn [assert_]; rstep; [|done].
    destruct (Z.leb_spec (n + 1 + k) 0x10000); cbn [assert_]; rstep; [|done].
    by rewrite (proj2 (Z.ltb_ge _ _)) by lia.
Qed.

(** "ro" followed by padding, and "quiet" added. *)
Definition ro_cmdline : memory := store_bytes (store32 ∅ 0x7238 8) 0x4b000 [0x72; 0x6f].
Lemma append_commandline_correct_witness : exists m',
  append_commandline ro_cmdline [0x71; 0x75; 0x69; 0x65; 0x74] = Done (Ok tt, m') /\
  load_bytes m' CMDLINE_START 9 = [0x72; 0x6f; 32; 0x71; 0x75; 0x69; 0x65; 0x74; 0].
Proof.
  destruct (append_commandline_correct ro_cmdline [0x72; 0x6f] 6 [0x71; 0x75; 0x69; 0x65; 0x74])
    as (m' & E & E1 & _).
  - repeat apply mem_ok_store_bytes. apply map_Forall_empty.
  - vm_compute. discriminate.
  - right. split; [exists 0x72, [0x6f]; split; reflexivity | exists [0x72], 0x6f; split; reflexivity].
  - repeat constructor; discriminate.
  - vm_compute. reflexivity.
  - exists m'. split; [exact E | exact E1].
Defined.

(** ** The kernel *)

(** Little-endian fields of the setup header. *)
Definition field (n : nat) (buf : list Z) (offset : nat) : Z := le_combine (take n (drop offset buf)).

(** The header of a relocatable kernel of boot protocol 2.5 or later. *)
Definition bootable (buf : list Z) : Prop :=
  field 2 buf 0x1fe = 0xaa55 /\ field 4 buf 0x202 = 0x53726448 /\
  0x205 <= field 2 buf 0x206 /\ field 1 buf 0x234 <> 0.

(** What is wrong with any other header: the marks are looked at first, then the
    protocol version, then the relocatable flag. *)
Definition refused (buf : list Z) (e : Error) : Prop :=
  let marked := field 2 buf 0x1fe = 0xaa55 /\ field 4 buf 0x202 = 0x53726448 in
  match e with
  | MagicMissing => ~ marked
  | KernelOld => marked /\ field 2 buf 0x206 < 0x205
  | NotRelocatable => marked /\ 0x205 <= field 2 buf 0x206 /\ field 1 buf 0x234 = 0
  | FileError => False
  end.

Lemma buf_read_in n buf offset : (offset + n <= length buf)%nat ->
  buf_read n buf offset = Done (field n buf offset).
Proof. intros Hl. unfold buf_read. by rewrite (proj2 (Nat.leb_le _ _)) by done. Qed.

Lemma check_setup_spec buf : (0x300 <= length buf)%nat -> exists c, check_setup buf = Done c /\
  match c with
  | Ok _ => bootable buf
  | Err e => ~ bootable buf /\ refused buf e
  end.
Proof.
  intros Hl. unfold check_setup, bootable. rewrite !buf_read_in by lia. rstep.
  destruct (Z.eqb_spec (field 2 buf 0x1fe) 0xaa55); cbn [negb]; rstep; [|eexists; split; [done|cbn; tauto]].
  destruct (Z.eqb_spec (field 4 buf 0x202) 0x53726448); cbn [negb]; rstep; [|eexists; split; [done|cbn; tauto]].
  destruct (Z.ltb_spec (field 2 buf 0x206) 0x205); rstep; [eexists; split; [done|cbn; split; [lia|tauto]]|].
  destruct (Z.eqb_spec (field 1 buf 0x234) 0); rstep; eexists; split; try done. cbn. tauto.
Qed.

(** The setup header in [buf] ends here. *)
Definition header_end (buf : list Z) : Z := 0x202 + nth 0x201 buf 0.
(** Sectors of the file before the kernel proper: the boot sector and the setup. *)
Definition setup_sectors (buf : list Z) : nat :=
  let n := nth 0x1f1 buf 0 in Z.to_nat ((if n =? 0 then 4 else n) + 1).

Lemma index_nth (buf : list Z) i : (i < length buf)%nat -> index buf i = Done (nth i buf 0).
Proof.
  intros Hi. apply index_Done. destruct (lookup_lt_is_Some_2 buf i Hi) as [x Hx].
  by rewrite (nth_lookup_Some buf i 0 x Hx).
Qed.

Lemma nth_byte buf i : bytes_ok buf -> is_byte (nth i buf 0).
Proof.
  intros Hb. destruct (buf !! i) as [x|] eqn:Hx.
  - rewrite (nth_lookup_Some buf i 0 x Hx). by apply (Forall_lookup_1 _ _ i _ Hb).
  - rewrite nth_overflow by (by apply lookup_ge_None). unfold is_byte. lia.
Qed.

Lemma fill_zero_page_spec m buf : length buf = 1024%nat -> bytes_ok buf ->
  exists m', fill_zero_page m buf = Done m' /\
    (forall x, 0x1f1 <= x < header_end buf -> x <> 0x210 -> ~ (0x214 <= x < 0x218) ->
       load8 m' (ZERO_PAGE_START + x) = nth (Z.to_nat x) buf 0) /\
    load8 m' (ZERO_PAGE_START + 0x210) = 0xff /\
    load32 m' (ZERO_PAGE_START + 0x214) = KERNEL_LOCATION /\
    (forall x, ~ (ZERO_PAGE_START + 0x1f1 <= x < ZERO_PAGE_START + 0x302) -> load8 m' x = load8 m x).
Proof.
  intros Hl Hb. unfold fill_zero_page. rewrite index_nth by lia. rstep.
  pose proof (nth_byte buf 0x201 Hb) as Hn. unfold is_byte in Hn.
  unfold header_end, header_start. set (len := nth 0x201 buf 0) in *. clearbody len.
  rewrite MemoryRegion.as_slice_in by (unfold zero_page, ZERO_PAGE_START; cbn -[Z.to_nat]; lia). rstep.
  rewrite (proj2 (Nat.leb_le _ _)) by lia. cbn [assert_]. rstep.
  change (MemoryRegion.base zero_page) with ZERO_PAGE_START.
  unfold MemoryRegion.write_u8, MemoryRegion.write_u32. rewrite zp_write by lia. rstep. rewrite zp_write by lia.
  eexists. split; [done|]. set (bs := take _ _). unfold ZERO_PAGE_START.
  assert (Hbs : length bs = Z.to_nat (len + 0x11)) by (unfold bs; rewrite length_take, length_drop; lia).
  split_and!.
  - intros x Hx H1 H2. rewrite !load8_store_out by (cbn; lia).
    replace (0x7000 + x) with (0x7000 + Z.of_nat 0x1f1 + Z.of_nat (Z.to_nat x - 0x1f1)) by lia.
    apply load8_store_bytes_in; [unfold bs; by apply Forall_take, Forall_drop|].
    unfold bs. rewrite lookup_take_lt, lookup_drop by lia.
    replace (0x1f1 + (Z.to_nat x - 0x1f1))%nat with (Z.to_nat x) by lia.
    destruct (lookup_lt_is_Some_2 buf (Z.to_nat x)) as [y Hy]; [lia|].
    by rewrite (nth_lookup_Some buf _ 0 y Hy).
  - rewrite load8_store_out by (cbn; lia). 
    pose proof (load_store 1 (store_bytes m (0x7000 + Z.of_nat 0x1f1) bs) (0x7000 + 0x210) 0xff) as L.
    unfold load in L. cbn [load_bytes le_combine] in L. rewrite Z.mul_0_r, Z.add_0_r in L. exact L.
  - rewrite load_store. reflexivity.
  - intros x Hx. rewrite !load8_store_out by (cbn; lia). apply load8_store_bytes_out. lia.
Qed.

Lemma setup_bytes_spec buf : length buf = 1024%nat -> bytes_ok buf ->
  setup_bytes buf = Done (512 * Z.of_nat (setup_sectors buf)) /\ (setup_sectors buf <= 256)%nat.
Proof.
  intros Hl Hb. unfold setup_bytes, setup_sectors, header_start. rewrite index_nth by lia. rstep.
  pose proof (nth_byte buf 0x1f1 Hb) as Hn. unfold is_byte in Hn.
  destruct (Z.eqb_spec (nth 0x1f1 buf 0) 0); (split; [f_equal|]; lia).
Qed.

(** The part of [load_kernel] before the checks. *)
Lemma load_kernel_head {F} `{Fat.Read F} datas sz (at_ : F -> nat -> Prop) fuel m f k lo hi rest :
  reader datas sz at_ -> at_ f k -> datas = lo :: hi :: rest ->
  let buf := lo ++ hi in
  length buf = 1024%nat /\ bytes_ok buf /\
  exists f', at_ f' 2%nat /\ load_kernel fuel m f =
    (c ← check_setup buf;
     match c with
     | Err e => Done (Err e, f', m)
     | Ok _ =>
         m ← fill_zero_page m buf;
         skip ← setup_bytes buf;
         '(r, f) ← Fat.seek f' (u32 skip);
         try_file r f m (fun _ => kernel_loop fuel m f KERNEL_LOCATION)
     end).
Proof.
  intros Hr Hat E buf.
  assert (H0 : datas !! 0%nat = Some lo) by (by rewrite E). assert (H1 : datas !! 1%nat = Some hi) by (by rewrite E).
  destruct (rd_sector _ _ _ Hr _ _ H0) as [Ll Bl]. destruct (rd_sector _ _ _ Hr _ _ H1) as [Lh Bh].
  split; [unfold buf; rewrite length_app; lia|]. split; [by apply Forall_app|].
  pose proof (rd_len _ _ _ Hr) as Hlen. assert (2 <= length datas)%nat by (rewrite E; cbn; lia).
  destruct (rd_seek _ _ _ Hr f k 0 Hat) as (f0 & E0 & A0); [lia|].
  destruct (rd_read _ _ _ Hr f0 0 lo A0 H0) as (f1 & E1 & A1).
  destruct (rd_read _ _ _ Hr f1 1 hi A1 H1) as (f2 & E2 & A2).
  exists f2. split; [done|]. change (512 * Z.of_nat 0) with 0 in E0. unfold load_kernel.
  rewrite E0. rstep. cbn [try_file]. rewrite E1. rstep. cbn [try_file]. rewrite E2. rstep. done.
Qed.

(** Files without two sectors. *)
Lemma load_kernel_short {F} `{Fat.Read F} datas sz (at_ : F -> nat -> Prop) fuel m f k :
  reader datas sz at_ -> at_ f k -> (length datas < 2)%nat ->
  exists f', load_kernel fuel m f = Done (Err FileError, f', m).
Proof.
  intros Hr Hat Hl. unfold load_kernel. pose proof (rd_len _ _ _ Hr) as Hlen.
  destruct (decide (0 < sz)) as [Hp|Hp].
  - destruct (rd_seek _ _ _ Hr f k 0 Hat) as (f0 & E0 & A0); [lia|].
    change (512 * Z.of_nat 0) with 0 in E0. rewrite E0. rstep. cbn [try_file].
    destruct datas as [|lo [|]]; [cbn in Hlen; lia| |cbn in Hl; lia].
    destruct (rd_read _ _ _ Hr f0 0 lo A0 eq_refl) as (f1 & -> & A1). rstep. cbn [try_file].
    rewrite (rd_eof _ _ _ Hr f1 1 A1 ltac:(cbn; lia)). rstep. cbn [try_file]. eauto.
  - pose proof (rd_seek_end _ _ _ Hr f k 0 Hat) as E0. change (512 * Z.of_nat 0) with 0 in E0.
    rewrite E0 by lia. rstep. cbn [try_file]. eauto.
Qed.

(** C36: [load_kernel] of a relocatable kernel of protocol 2.5 or later whose image
    extends past its setup sectors returns the 64-bit entry point and leaves the
    image's sectors at 2 MiB, the setup header in the zero page, marked with
    the loader type and the kernel's place, and other memory unchanged.  Memory is
    left alone when the header is not that of such a kernel: the error is
    [MagicMissing] without both marks, otherwise [KernelOld] before protocol 2.5,
    otherwise [NotRelocatable].  A file of fewer than two sectors, and a setup area
    as long as the file, are a [FileError]. *)
Theorem load_kernel_correct {F} `{Fat.Read F} datas sz (at_ : F -> nat -> Prop) fuel m f k :
  reader datas sz at_ -> at_ f k -> (length datas < fuel)%nat ->
  match datas with
  | lo :: hi :: _ =>
    let buf := lo ++ hi in let n := setup_sectors buf in
    let image := concat (drop n datas) in
    (bootable buf -> 512 * Z.of_nat n < sz -> exists f' m',
       load_kernel fuel m f = Done (Ok (KERNEL_LOCATION + 0x200), f', m') /\
       load_bytes m' KERNEL_LOCATION (length image) = image /\
       (forall x, 0x1f1 <= x < header_end buf -> x <> 0x210 -> ~ (0x214 <= x < 0x218) ->
          load8 m' (ZERO_PAGE_START + x) = nth (Z.to_nat x) buf 0) /\
       load8 m' (ZERO_PAGE_START + 0x210) = 0xff /\
       load32 m' (ZERO_PAGE_START + 0x214) = KERNEL_LOCATION /\
       (forall x, ~ (ZERO_PAGE_START + 0x1f1 <= x < ZERO_PAGE_START + 0x302) ->
          ~ (KERNEL_LOCATION <= x < KERNEL_LOCATION + Z.of_nat (length image)) -> load8 m' x = load8 m x)) /\
    (bootable buf -> sz <= 512 * Z.of_nat n -> exists f' m',
       load_kernel fuel m f = Done (Err FileError, f', m')) /\
    (~ bootable buf -> exists f' e, load_kernel fuel m f = Done (Err e, f', m) /\ refused buf e)
  | _ => exists f', load_kernel fuel m f = Done (Err FileError, f', m)
  end.
Proof.
  intros Hr Hat Hfuel. destruct datas as [|lo [|hi rest]];
    [by apply (load_kernel_short _ _ _ _ _ _ _ Hr Hat); cbn; lia..|].
  set (datas := lo :: hi :: rest) in *. intros buf n image.
  destruct (load_kernel_head datas sz at_ fuel m f k lo hi rest Hr Hat eq_refl) as (Hl & Hb & f2 & A2 & ->).
  fold buf. destruct (check_setup_spec buf) as (c & -> & Hc); [unfold buf in *; lia|]. rstep.
  destruct (fill_zero_page_spec m buf Hl Hb) as (m1 & E1 & Z1 & Z2 & Z3 & Z4).
  destruct (setup_bytes_spec buf Hl Hb) as [E2 Hn]. fold n in E2, Hn.
  pose proof (rd_len _ _ _ Hr). pose proof (rd_bound _ _ _ Hr). norm_pow.
  destruct c as [[]|e]; [|split_and!; [tauto..|intros _; destruct Hc; eauto]].
  rewrite E1. rstep. rewrite E2. rstep. rewrite wrap_small by (norm_pow; lia). split_and!; [| |tauto].
  - intros _ Hlt. destruct (rd_seek _ _ _ Hr f2 2 n A2 Hlt) as (f3 & -> & A3). rstep. cbn [try_file].
    destruct (kernel_loop_spec datas sz at_ Hr fuel m1 f3 n KERNEL_LOCATION) as (f4 & ->);
      [done|lia|lia|done|unfold KERNEL_LOCATION; norm_pow; lia|].
    destruct (reader_concat_drop datas sz at_ n Hr) as [Li Bi].
    change (store_bytes m1 KERNEL_LOCATION (concat (drop n datas))) with (store_bytes m1 KERNEL_LOCATION image).
    fold image in Li, Bi. eexists f4, _. split; [done|].
    assert (Hout : forall x, x < KERNEL_LOCATION ->
      load8 (store_bytes m1 KERNEL_LOCATION image) x = load8 m1 x) by (intros; apply load8_store_bytes_out; lia).
    pose proof (nth_byte buf 0x201 Hb) as Hh. unfold is_byte in Hh. unfold ZERO_PAGE_START in *.
    split_and!.
    + by apply load_bytes_store_bytes.
    + intros x Hx H2 H3. rewrite Hout; [by apply Z1|]. unfold header_end, KERNEL_LOCATION in *. lia.
    + rewrite Hout; [done|unfold KERNEL_LOCATION; lia].
    + etransitivity; [apply load_ext; intros x Hx; apply Hout; unfold KERNEL_LOCATION; lia|done].
    + intros x H2 H3. rewrite load8_store_bytes_out by lia. by apply Z4.
  - intros _ Hge. rewrite (rd_seek_end _ _ _ Hr f2 2 n A2 Hge). rstep. cbn [try_file]. eauto.
Qed.

(** A kernel of one setup sector and one image sector, as a list of sectors. *)
Definition tiny_lo : list Z := replicate 0x1f1 0 ++ [1] ++ replicate 12 0 ++ [0x55; 0xaa].
Definition tiny_hi : list Z :=
  pad ([0xeb; 0x34; 0x48; 0x64; 0x72; 0x53; 0x05; 0x02] ++ replicate 44 0 ++ [1]).
Definition tiny_kernel : list (list Z) := [tiny_lo; tiny_hi; replicate 512 0x90].

#[local] Instance tiny_Read : Fat.Read nat := {|
  Fat.read k _ :=
    Done (match tiny_kernel !! k with Some d => (Ok (512, d), S k) | None => (Err Fat.EndOfFile, k) end);
  Fat.seek k pos :=
    Done (if pos <? 1536 then (Ok tt, Z.to_nat (pos / 512)) else (Err Fat.EndOfFile, k));
  Fat.get_size _ := 1536
|}.

Lemma tiny_reader : reader tiny_kernel 1536 (fun f k => f = k).
Proof.
  constructor.
  - apply sector_check_ok. vm_compute. reflexivity.
  - lia.
  - cbn. lia.
  - done.
  - intros f k data -> Hd. exists (S k). cbn. rewrite Hd. split; [|done]. do 4 f_equal.
    apply lookup_lt_Some in Hd. cbn in Hd. lia.
  - intros f k -> Hk. cbn. by rewrite lookup_ge_None_2.
  - intros f k j -> Hj. exists j. cbn -[Z.mul]. rewrite (proj2 (Z.ltb_lt _ _)) by lia.
    split; [|done]. do 2 f_equal. mlia.
  - intros f k j -> Hj. cbn -[Z.mul]. by rewrite (proj2 (Z.ltb_ge _ _)) by lia.
Qed.

Lemma load_kernel_correct_witness : exists f' m',
  load_kernel 4 ∅ 0%nat = Done (Ok 0x200200, f', m') /\
  load_bytes m' KERNEL_LOCATION 512 = replicate 512 0x90.
Proof.
  destruct (load_kernel_correct tiny_kernel 1536 _ 4 ∅ 0%nat 0%nat tiny_reader) as [Hok _].
  - reflexivity.
  - cbn. lia.
  - destruct Hok as (f' & m' & E & E1 & _).
    + vm_compute. repeat split; discriminate.
    + vm_compute. reflexivity.
    + exists f', m'. split; [exact E | exact E1].
Defined.
