(* ===== verification/Loader.v ===== *)
(** * The boot loader configuration (src/loader.rs): data and operations

    The boot entry is found through two text files of the EFI partition.  Text is
    ASCII: [str::trim] removes the ASCII white space, [str::lines] splits at
    newlines. *)

From S2P Require Import Prelude REfi Mem Part EfiStr Fat BzImage.

(** ** Text *)

Definition NEWLINE : Z := 10.
Definition CARRIAGE_RETURN : Z := 13.

(** [char::is_whitespace] on ASCII. *)
Definition is_space (b : Z) : bool := (b =? 32) || ((9 <=? b) && (b <=? 13)).
Definition trim (l : list Z) : list Z := trim_matches is_space l.

(** [str::split] at newlines: at least one piece. *)
Fixpoint split_newlines (l : list Z) : list (list Z) :=
  match l with
  | [] => [[]]
  | x :: l =>
      if x =? NEWLINE then [] :: split_newlines l
      else match split_newlines l with
           | p :: ps => (x :: p) :: ps
           | [] => [[x]]
           end
  end.
Definition strip_cr (l : list Z) : list Z :=
  match last l with
  | Some b => if b =? CARRIAGE_RETURN then take (length l - 1) l else l
  | None => l
  end.
(** [str::lines]: an empty last piece is no line. *)
Definition lines (l : list Z) : list (list Z) :=
  let pieces := split_newlines l in
  map strip_cr (match last pieces with
                | Some [] => take (length pieces - 1) pieces
                | _ => pieces
                end).

Definition starts_with (key l : list Z) : bool := bool_decide (take (length key) l = key).

(** [buf\[at..at + src.len()\].copy_from_slice(src)] *)
Definition copy_into (buf : list Z) (pos : nat) (src : list Z) : res (list Z) :=
  _ ← assert_ (pos + length src <=? length buf)%nat;
  Done (take pos buf ++ src ++ drop (pos + length src) buf).

Module Loader.
Record LoaderConfig := mkConfig { bzimage_path : list Z; initrd_path : list Z; cmdline : list Z }.

Inductive Error := FileError | BzImageError.

(** "default", "linux", "options", "initrd" *)
Definition key_default : list Z := [0x64; 0x65; 0x66; 0x61; 0x75; 0x6c; 0x74].
Definition key_linux : list Z := [0x6c; 0x69; 0x6e; 0x75; 0x78].
Definition key_options : list Z := [0x6f; 0x70; 0x74; 0x69; 0x6f; 0x6e; 0x73].
Definition key_initrd : list Z := [0x69; 0x6e; 0x69; 0x74; 0x72; 0x64].

(** [if line.starts_with(key) { buf\[0..\] = line\[key.len()..\].trim() }] *)
Definition take_value (key line buf : list Z) : res (list Z) :=
  if starts_with key line then copy_into buf 0 (trim (drop (length key) line)) else Done buf.

Fixpoint default_lines (ls : list (list Z)) (entry_file_name : list Z) : res (list Z) :=
  match ls with
  | [] => Done entry_file_name
  | line :: ls =>
      entry_file_name ← take_value key_default line entry_file_name;
      default_lines ls entry_file_name
  end.

Fixpoint entry_lines (ls : list (list Z)) (c : LoaderConfig) : res LoaderConfig :=
  match ls with
  | [] => Done c
  | line :: ls =>
      bz ← take_value key_linux line (bzimage_path c);
      cmd ← take_value key_options line (cmdline c);
      rd ← take_value key_initrd line (initrd_path c);
      entry_lines ls (mkConfig bz rd cmd)
  end.

Definition ascii_strip (s : list Z) : list Z := trim_matches is_nul s.

Section Files.
Context {F : Type} `{Fat.Read F}.

Definition CONF_SIZE : nat := 4096.

(** The loop that fills [data]; the slice is taken before the file is read. *)
Fixpoint read_conf (fuel : nat) (f : F) (data : list Z) (offset : nat)
    : res (result (list Z) Fat.Error * F) :=
  match fuel with
  | O => OutOfFuel
  | S fuel =>
      _ ← assert_ (offset + 512 <=? length data)%nat;
      '(r, f) ← Fat.read f 512;
      match r with
      | Err Fat.EndOfFile => Done (Ok data, f)
      | Err e => Done (Err e, f)
      | Ok (_, sector) =>
          data ← copy_into data offset sector;
          read_conf fuel f data (offset + 512)
      end
  end.
(** At most eight sectors fit in [data]. *)
Definition CONF_FUEL : nat := 9.

Definition default_entry_file (f : F) : res (result (list Z) Fat.Error * F) :=
  _ ← assert_ (Fat.get_size f <=? Z.of_nat CONF_SIZE);
  '(r, f) ← read_conf CONF_FUEL f (replicate CONF_SIZE 0) 0;
  match r with
  | Err e => Done (Err e, f)
  | Ok conf =>
      name ← default_lines (lines conf) (replicate 260 0);
      Done (Ok name, f)
  end.

Definition parse_entry (f : F) : res (result LoaderConfig Fat.Error * F) :=
  _ ← assert_ (Fat.get_size f <=? Z.of_nat CONF_SIZE);
  '(r, f) ← read_conf CONF_FUEL f (replicate CONF_SIZE 0) 0;
  match r with
  | Err e => Done (Err e, f)
  | Ok conf =>
      c ← entry_lines (lines conf)
            (mkConfig (replicate 260 0) (replicate 260 0) (replicate 4096 0));
      Done (Ok c, f)
  end.
End Files.

(** "/loader/entries/" and "/loader/loader.conf" *)
Definition ENTRY_DIRECTORY : list Z :=
  [0x2f; 0x6c; 0x6f; 0x61; 0x64; 0x65; 0x72; 0x2f; 0x65; 0x6e; 0x74; 0x72; 0x69; 0x65; 0x73; 0x2f].
Definition LOADER_CONF : list Z :=
  [0x2f; 0x6c; 0x6f; 0x61; 0x64; 0x65; 0x72; 0x2f; 0x6c; 0x6f; 0x61; 0x64; 0x65; 0x72; 0x2e; 0x63; 0x6f;
   0x6e; 0x66].

Section Boot.
Context {D : Type} `{SectorRead D} (beyond : nat -> Z).
#[local] Existing Instance Fat.File_Read.

(** [fs.open(..)?.file.unwrap()]: a handle with its file system. *)
Definition open_file (fuel : nat) (fs : Fat.Filesystem D) (root : Fat.OFileDirectory) (path : list Z)
    : res (result (Fat.Filesystem D * Fat.File) Fat.Error) :=
  r ← Fat.open beyond fuel fs root path;
  match r with
  | Err e => Done (Err e)
  | Ok o => f ← unwrap (Fat.file o); Done (Ok (fs, f))
  end.

Definition default_entry_path (fuel : nat) (fs : Fat.Filesystem D) : res (result (list Z) Fat.Error) :=
  match Fat.root fs with
  | Err e => Done (Err e)
  | Ok root =>
      r ← open_file fuel fs root LOADER_CONF;
      match r with
      | Err e => Done (Err e)
      | Ok f =>
          '(r, _) ← default_entry_file (H := Fat.File_Read beyond) f;
          match r with
          | Err e => Done (Err e)
          | Ok name =>
              p ← copy_into (replicate 260 0) 0 ENTRY_DIRECTORY;
              p ← copy_into p (length ENTRY_DIRECTORY) (ascii_strip name);
              Done (Ok p)
          end
      end
  end.

(** The operator [?] with the conversions to [Error], beside memory. *)
Definition try_m {A B E} (to : Error) (m : memory) (r : result A E)
    (k : A -> res (result B Error * memory)) : res (result B Error * memory) :=
  match r with Ok a => k a | Err _ => Done (Err to, m) end.

(** [fuel] bounds the directory walks of [open], [sectors] the copying loops. *)
Definition load_default_entry (fuel sectors : nat) (m : memory) (fs : Fat.Filesystem D)
    : res (result Z Error * memory) :=
  p ← default_entry_path fuel fs;
  try_m FileError m p (fun p =>
  try_m FileError m (Fat.root fs) (fun root =>
  f ← open_file fuel fs root (ascii_strip p);
  try_m FileError m f (fun f =>
  '(e, _) ← parse_entry (H := Fat.File_Read beyond) f;
  try_m FileError m e (fun entry =>
  f ← open_file fuel fs root (ascii_strip (bzimage_path entry));
  try_m FileError m f (fun f =>
  '(j, _, m) ← BzImage.load_kernel (H := Fat.File_Read beyond) sectors m f;
  try_m BzImageError m j (fun jump_address =>
  '(r, m) ← (if bool_decide (ascii_strip (initrd_path entry) = []) then Done (Ok tt, m)
             else
               f ← open_file fuel fs root (ascii_strip (initrd_path entry));
               try_m FileError m f (fun f =>
                 '(r, _, m) ← BzImage.load_initrd (H := Fat.File_Read beyond) sectors m f;
                 try_m BzImageError m r (fun _ => Done (Ok tt, m))));
  match r with
  | Err e => Done (Err e, m)
  | Ok _ =>
      if bool_decide (ascii_strip (cmdline entry) = []) then Done (Ok jump_address, m)
      else
        '(r, m) ← BzImage.append_commandline m (ascii_strip (cmdline entry));
        try_m BzImageError m r (fun _ => Done (Ok jump_address, m))
  end)))))).
End Boot.
End Loader.
