(* ===== verification/PeFile.v ===== *)
(** * The PE loader over files (src/pe.rs): data, operations and safety

    The loader for images in a file of the [Fat.Read] interface.  Its accesses to
    the image's memory go through a [MemoryRegion].  The section table is read
    from a local array of 1024 bytes without a bounds check: [beyond] gives the
    memory after the array.

    The loops that write memory run in the monad [run], which keeps the memory
    whatever becomes of the run: after a panic or when the fuel is spent it is the
    memory the writes made until then have left. *)

From S2P Require Import Prelude REfi Mem Part EfiStr Fat FatFile FileRead BzImage.

Module PeFile.
Inductive Error := FileError | InvalidExecutable.

Record Loader (F : Type) := mkLoader { file : F; num_sections : Z; image_base : Z; image_size : Z }.
#[global] Arguments mkLoader {F}. #[global] Arguments file {F}. #[global] Arguments num_sections {F}.
#[global] Arguments image_base {F}. #[global] Arguments image_size {F}.

(** [Section], packed: 40 bytes. *)
Record Section_ := mkSection {
  name : list Z; virt_size : Z; virt_address : Z; raw_size : Z; raw_offset : Z
}.
Definition SECTION_SIZE : nat := 40.

(** A computation on memory: its outcome and the memory it leaves. *)
Definition run (A : Type) : Type := memory -> res A * memory.
#[global] Instance run_ret : MRet run := fun _ a m => (Done a, m).
#[global] Instance run_bind : MBind run := fun _ _ k c m =>
  match c m with
  | (Done a, m) => k a m
  | (Panic, m) => (Panic, m)
  | (OutOfFuel, m) => (OutOfFuel, m)
  end.
(** A computation that leaves memory alone. *)
Definition pure {A} (r : res A) : run A := fun m => (r, m).
Definition region_read (n : nat) (r : MemoryRegion.t) (offset : Z) : run Z :=
  fun m => (MemoryRegion.read n m r offset, m).
Definition region_write (n : nat) (r : MemoryRegion.t) (offset v : Z) : run unit := fun m =>
  match MemoryRegion.write n m r offset v with
  | Done m => (Done tt, m)
  | Panic => (Panic, m)
  | OutOfFuel => (OutOfFuel, m)
  end.
(** Bytes copied to a slice. *)
Definition put_bytes (dst : Z) (bs : list Z) : run unit := fun m => (Done tt, store_bytes m dst bs).

Section Pe.
Context {F : Type} `{Fat.Read F} (beyond : nat -> Z).

Definition new (f : F) : Loader F := mkLoader f 0 0 0.
Definition set_file (l : Loader F) (f : F) : Loader F :=
  mkLoader f (num_sections l) (image_base l) (image_size l).

(** The bytes at a pointer [offset] bytes into the array. *)
Definition array_bytes (data : list Z) (offset n : nat) : list Z :=
  map (fun i => if (i <? length data)%nat then nth i data 0 else beyond (i - length data)%nat) (seq offset n).
Definition section_of (bs : list Z) : Section_ :=
  let u32_at i := le_combine (take 4 (drop i bs)) in
  mkSection (take 8 bs) (u32_at 8%nat) (u32_at 12%nat) (u32_at 16%nat) (u32_at 20%nat).
Definition section_table (data : list Z) (offset n : nat) : list Section_ :=
  map (fun i => section_of (array_bytes data (offset + SECTION_SIZE * i) SECTION_SIZE)) (seq 0 n).

(** The header fields the loader uses, after its checks; the number of sections is
    already recorded when the last check fails. *)
Record Headers := mkHeaders {
  h_sections : Z; h_optional_size : Z; h_entry_point : Z; h_image_base : Z; h_image_size : Z;
  h_header_size : Z; h_pe_offset : Z
}.
Definition read_headers (data : list Z) : res (result Headers (option Z)) :=
  magic ← BzImage.buf_read 2 data 0;
  if negb (magic =? 0x5a4d) then Done (Err None)
  else
    pe_header_offset ← BzImage.buf_read 4 data 0x3c;
    if 512 <=? pe_header_offset then Done (Err None)
    else
      let pe_region := drop (Z.to_nat pe_header_offset) data in
      pe_magic ← BzImage.buf_read 4 pe_region 0;
      if negb (pe_magic =? 0x4550) then Done (Err None)
      else
        machine ← BzImage.buf_read 2 pe_region 4;
        if negb (machine =? 0x8664) then Done (Err None)
        else
          sections ← BzImage.buf_read 2 pe_region 6;
          optional_header_size ← BzImage.buf_read 2 pe_region 20;
          let optional_region := drop (Z.to_nat (24 + pe_header_offset)) data in
          optional_magic ← BzImage.buf_read 2 optional_region 0;
          if negb (optional_magic =? 0x20b) then
            Done (Err (Some sections))
          else
            entry_point ← BzImage.buf_read 4 optional_region 16;
            base ← BzImage.buf_read 8 optional_region 24;
            size ← BzImage.buf_read 4 optional_region 56;
            size_of_headers ← BzImage.buf_read 4 optional_region 60;
            Done (Ok (mkHeaders sections optional_header_size entry_point base size size_of_headers
                          pe_header_offset)).

(** [while header_offset < size_of_headers] *)
Fixpoint header_loop (fuel : nat) (f : F) (region : MemoryRegion.t) (header_offset size : Z)
    : run (result unit Error * F) :=
  match fuel with
  | O => pure OutOfFuel
  | S fuel =>
      if negb (header_offset <? size) then mret (Ok tt, f)
      else
        '(dst, len) ← pure (MemoryRegion.as_slice region 1 header_offset 512);
        '(r, f) ← pure (Fat.read f (Z.to_nat len));
        match r with
        | Err _ => mret (Err FileError, f)
        | Ok (_, data) =>
            _ ← put_bytes dst data;
            header_loop fuel f region (u64 (header_offset + 512)) size
        end
  end.

(** [for x in 0..section.virt_size] *)
Fixpoint zero_loop (n : nat) (region : MemoryRegion.t) (x virt_address : Z) : run unit :=
  match n with
  | O => mret tt
  | S n =>
      _ ← region_write 1 region (u64 (x + virt_address)) 0;
      zero_loop n region (x + 1) virt_address
  end.

(** [while section_offset < section_size] *)
Fixpoint data_loop (fuel : nat) (f : F) (region : MemoryRegion.t)
    (virt_address section_offset section_size : Z) : run (result unit Error * F) :=
  match fuel with
  | O => pure OutOfFuel
  | S fuel =>
      if negb (section_offset <? section_size) then mret (Ok tt, f)
      else
        let remaining_bytes := Z.min (u32 (section_size - section_offset)) 512 in
        '(r, f) ← pure (Fat.read f 512);
        match r with
        | Err _ => mret (Err FileError, f)
        | Ok (_, data) =>
            '(dst, len) ← pure (MemoryRegion.as_slice region 1 (u32 (virt_address + section_offset)) remaining_bytes);
            _ ← put_bytes dst (take (Z.to_nat len) data);
            data_loop fuel f region virt_address (u32 (section_offset + remaining_bytes)) section_size
        end
  end.

Definition section_size (s : Section_) : Z := Z.min (raw_size s) (virt_size s).

(** The first [for section in sections]. *)
Fixpoint sections_loop (fuel : nat) (f : F) (region : MemoryRegion.t) (ss : list Section_)
    : run (result unit Error * F) :=
  match ss with
  | [] => mret (Ok tt, f)
  | s :: ss =>
      _ ← zero_loop (Z.to_nat (virt_size s)) region 0 (virt_address s);
      if negb (raw_offset s mod 512 =? 0) then sections_loop fuel f region ss
      else
        '(r, f) ← pure (Fat.seek f (raw_offset s));
        match r with
        | Err _ => mret (Err FileError, f)
        | Ok _ =>
            '(r, f) ← data_loop fuel f region (virt_address s) 0 (section_size s);
            match r with
            | Err e => mret (Err e, f)
            | Ok _ => sections_loop fuel f region ss
            end
        end
  end.

(** [while block_offset < block_size]: the entries of a relocation block, which
    the code reads from the block's header on. *)
Fixpoint block_loop (fuel : nat) (region reloc : MemoryRegion.t)
    (offset page_rva block_size block_offset delta : Z) : run unit :=
  match fuel with
  | O => pure OutOfFuel
  | S fuel =>
      if negb (block_offset <? block_size) then mret tt
      else
        entry ← region_read 2 reloc (u64 (offset + block_offset));
        let entry_type := Z.shiftr entry 12 in
        let entry_offset := Z.land entry 0xfff in
        _ ← (if entry_type =? 10 then
               let location := u32 (page_rva + entry_offset) in
               value ← region_read 8 region location;
               region_write 8 region location (u64 (value + delta))
             else mret tt);
        block_loop fuel region reloc offset page_rva block_size (u32 (block_offset + 2)) delta
  end.

(** [while section_bytes_remaining > 0] *)
Fixpoint reloc_loop (fuel : nat) (region reloc : MemoryRegion.t) (offset remaining delta : Z) : run unit :=
  match fuel with
  | O => pure OutOfFuel
  | S fuel' =>
      if negb (0 <? remaining) then mret tt
      else
        page_rva ← region_read 4 reloc offset;
        block_size ← region_read 4 reloc (u64 (offset + 4));
        _ ← block_loop fuel region reloc offset page_rva block_size 0 delta;
        reloc_loop fuel' region reloc (u64 (offset + block_size)) (u32 (remaining - block_size)) delta
  end.

Definition RELOC : list Z := [0x2e; 0x72; 0x65; 0x6c; 0x6f; 0x63].

(** The second [for section in sections]. *)
Fixpoint relocs_loop (fuel : nat) (region : MemoryRegion.t) (ss : list Section_) (delta : Z) : run unit :=
  match ss with
  | [] => mret tt
  | s :: ss =>
      _ ← (if bool_decide (take 6 (name s) = RELOC) then
             '(l, len) ← pure (MemoryRegion.as_slice region 1 (virt_address s) (section_size s));
             reloc_loop fuel region (MemoryRegion.from_slice l len 1) 0 (section_size s) delta
           else mret tt);
      relocs_loop fuel region ss delta
  end.

(** [Loader::load] *)
Definition load (fuel : nat) (l : Loader F) (address : Z) : run (result (Z * Z) Error * Loader F) :=
  '(r, f) ← pure (Fat.read (file l) 512);
  match r with
  | Err _ => mret (Err FileError, set_file l f)
  | Ok (_, lo) =>
      '(r, f) ← pure (Fat.read f 512);
      match r with
      | Err _ => mret (Err FileError, set_file l f)
      | Ok (_, hi) =>
          let data := lo ++ hi in
          headers ← pure (read_headers data);
          match headers with
          | Err n =>
              mret (Err InvalidExecutable,
                    mkLoader f (default (num_sections l) n) (image_base l) (image_size l))
          | Ok h =>
              let table := 24 + h_pe_offset h + h_optional_size h in
              _ ← pure (assert_ (table <=? 1024));
              let ss := section_table data (Z.to_nat table) (Z.to_nat (h_sections h)) in
              let l := mkLoader f (h_sections h) (h_image_base h) (h_image_size h) in
              let region := MemoryRegion.new address (h_image_size h) in
              '(r, f) ← pure (Fat.seek f 0);
              match r with
              | Err _ => mret (Err FileError, set_file l f)
              | Ok _ =>
                  '(r, f) ← header_loop fuel f region 0 (h_header_size h);
                  match r with
                  | Err e => mret (Err e, set_file l f)
                  | Ok _ =>
                      '(r, f) ← sections_loop fuel f region ss;
                      match r with
                      | Err e => mret (Err e, set_file l f)
                      | Ok _ =>
                          _ ← relocs_loop fuel region ss (u64 (address - h_image_base h));
                          mret (Ok (u64 (address + h_entry_point h), h_image_size h), set_file l f)
                      end
                  end
              end
          end
      end
  end.
End Pe.
End PeFile.
