(* ===== verification/PeFileProps.v ===== *)
(** * The PE loader over files: safety

    Whatever the file holds and however the run ends, [PeFile.load] writes only
    the bytes from the load address on that the file's header declares as the
    image's size. *)

From S2P Require Import Prelude REfi Mem Part EfiStr Fat FatFile FileRead BzImage PeFile.
Import PeFile.

(** What the loader relies on of a file: a read never overfills its buffer. *)
Class BoundedReads (F : Type) `{Fat.Read F} : Prop :=
  bounded_read f n k data f' : Fat.read f n = Done (Ok (k, data), f') -> (length data <= n)%nat /\ bytes_ok data.

(** Files of a FAT volume keep it. *)
#[export] Instance File_bounded {D} `{SectorRead D} beyond :
  BoundedReads (H := Fat.File_Read beyond) (Fat.Filesystem D * Fat.File).
Proof.
  intros [fs f] n k data [fs' f'] E. cbn [Fat.read Fat.File_Read] in E. unbind E as [r f1] eqn E1.
  injection E as -> <- <-. unfold Fat.file_read in E1. unbind E1 as u eqn En.
  unfold assert_ in En. destruct (n =? 512)%nat eqn:En'; [|done]. apply Nat.eqb_eq in En' as ->.
  destruct (_ <=? _); [done|]. unbind E1 as [[u1|e] f2] eqn Ea; [|done].
  destruct (Fat.fs_read _ _) as [d|] eqn:Er; [|done].
  destruct (Fat.fs_read_length _ _ _ Er) as [Hl Hb].
  destruct (_ <? _); simplify_eq/=; split; (lia || done).
Qed.

(** Memory outside a region is left alone. *)
Definition only_in (r : MemoryRegion.t) (m m' : memory) : Prop :=
  forall x, x < MemoryRegion.base r \/ MemoryRegion.base r + MemoryRegion.length r <= x -> load8 m' x = load8 m x.

#[export] Instance only_in_refl r : Reflexive (only_in r).
Proof. by intros m x Hx. Qed.
#[export] Instance only_in_trans r : Transitive (only_in r).
Proof. intros m1 m2 m3 H1 H2 x Hx. rewrite H2 by done. by apply H1. Qed.

Lemma as_slice_only r off len dst n m bs : MemoryRegion.wf r -> 0 <= off -> 0 <= len -> off + len < 2 ^ 64 ->
  MemoryRegion.as_slice r 1 off len = Done (dst, n) -> Z.of_nat (length bs) <= len ->
  only_in r m (store_bytes m dst bs) /\ n = len.
Proof.
  intros (Hb & Hl & Hw) Ho Hn Hov E Hbs. unfold MemoryRegion.as_slice in E.
  rewrite Z.mul_1_r, (wrap_small 64 len), (wrap_small 64 (off + len)) in E by lia.
  unfold assert_ in E. destruct (off + len <=? _) eqn:El; [|done]. injection E as E1 E2. subst dst n.
  bool_to_prop. split; [|done].
  destruct bs as [|b bs]; [done|]. cbn [length] in Hbs. rewrite wrap_small by lia.
  intros x Hx. apply load8_store_bytes_out. cbn [length]. lia.
Qed.

(** A computation that leaves memory outside a region alone, however it ends. *)
Definition inside {A} (r : MemoryRegion.t) (c : run A) : Prop := forall m, only_in r m (c m).2.

Lemma inside_pure {A} r (x : res A) : inside r (pure x).
Proof. by intros m. Qed.
Lemma inside_ret {A} r (x : A) : inside r (mret x).
Proof. by intros m. Qed.
Lemma run_bind_eq {A B} (c : run A) (k : A -> run B) m :
  (c ≫= k) m = match c m with
               | (Done a, m) => k a m
               | (Panic, m) => (Panic, m)
               | (OutOfFuel, m) => (OutOfFuel, m)
               end.
Proof. reflexivity. Qed.
Lemma pure_bind_eq {A B} (x : res A) (k : A -> run B) m :
  (pure x ≫= k) m = match x with Done a => k a m | Panic => (Panic, m) | OutOfFuel => (OutOfFuel, m) end.
Proof. by destruct x. Qed.
Lemma inside_bind {A B} r (c : run A) (k : A -> run B) :
  inside r c -> (forall a m m', c m = (Done a, m') -> inside r (k a)) -> inside r (c ≫= k).
Proof.
  intros Hc Hk m. specialize (Hc m). rewrite run_bind_eq.
  destruct (c m) as [[a| |] m1] eqn:E; [|exact Hc..].
  etrans; [exact Hc|]. by eapply (Hk a).
Qed.
Lemma inside_pure_bind {A B} r (x : res A) (k : A -> run B) :
  (forall a, x = Done a -> inside r (k a)) -> inside r (pure x ≫= k).
Proof. intros Hk. apply inside_bind; [apply inside_pure|]. intros a m m' [= E _]. by apply Hk. Qed.
Lemma inside_read_bind {B} r n r' off (k : Z -> run B) :
  (forall a, inside r (k a)) -> inside r (region_read n r' off ≫= k).
Proof. intros Hk. apply inside_bind; [by intros m|]. intros a _ _ _. apply Hk. Qed.

Lemma inside_write n r off v : MemoryRegion.wf r -> (0 < n <= 8)%nat -> 0 <= off -> off + Z.of_nat n <= 2 ^ 64 ->
  inside r (region_write n r off v).
Proof.
  intros Hr Hn Ho Hov m. unfold region_write. destruct (decide (off + Z.of_nat n <= MemoryRegion.length r)).
  - rewrite MemoryRegion.write_in; [|done|lia..]. intros x Hx. cbn. apply load8_store_out. lia.
  - rewrite MemoryRegion.write_out; [done|lia..].
Qed.

(** A copy to a slice of the region. *)
Lemma inside_put_bytes r off len dst n bs : MemoryRegion.wf r -> 0 <= off -> 0 <= len -> off + len < 2 ^ 64 ->
  MemoryRegion.as_slice r 1 off len = Done (dst, n) -> Z.of_nat (length bs) <= len ->
  inside r (put_bytes dst bs).
Proof. intros Hr Ho Hn Hov E Hbs m. by apply (as_slice_only r off len dst n m bs). Qed.

Lemma as_slice_len r off len dst n : 0 <= len < 2 ^ 64 ->
  MemoryRegion.as_slice r 1 off len = Done (dst, n) -> n = len.
Proof. unfold MemoryRegion.as_slice. intros Hl E. unbind E as u eqn Eu. by injection E as _ <-. Qed.

(** Leave a test on the way: both sides stay inside. *)
Ltac inside_if := match goal with |- inside _ (if ?b then _ else _) => destruct b eqn:? end.

Section Loops.
Context {F : Type} `{BoundedReads F} (region : MemoryRegion.t) (Hr : MemoryRegion.wf region).

Lemma header_loop_inside fuel : forall f off size, 0 <= off -> off < size + 512 -> size < 2 ^ 32 ->
  inside region (header_loop fuel f region off size).
Proof.
  induction fuel as [|fuel IH]; intros f off size Ho Hs Hz; [apply inside_pure|]. cbn [header_loop].
  destruct (off <? size) eqn:El; cbn [negb]; [bool_to_prop|apply inside_ret].
  apply inside_pure_bind. intros [dst n] E1. pose proof (as_slice_len _ _ 512 _ _ ltac:(lia) E1) as ->.
  apply inside_pure_bind. intros [[[k data]|e] f1] E2; [|apply inside_ret].
  apply bounded_read in E2 as [E2 _]. apply inside_bind; [apply (inside_put_bytes _ off 512 _ 512); [done|lia|lia|lia|done|lia]|].
  intros _ _ _ _. rewrite wrap_small by lia. apply IH; lia.
Qed.

Lemma zero_loop_inside n : forall x va, 0 <= x -> 0 <= va -> x + Z.of_nat n < 2 ^ 33 -> va < 2 ^ 32 ->
  inside region (zero_loop n region x va).
Proof.
  induction n as [|n IH]; intros x va Hx Hv Hn Hva; cbn [zero_loop]; [apply inside_ret|].
  rewrite wrap_small by lia. apply inside_bind; [apply inside_write; [done|lia..]|].
  intros _ _ _ _. apply IH; lia.
Qed.

Lemma data_loop_inside fuel : forall f va off size, 0 <= off -> 0 <= size < 2 ^ 32 ->
  inside region (data_loop fuel f region va off size).
Proof.
  induction fuel as [|fuel IH]; intros f va off size Ho Hs; [apply inside_pure|]. cbn [data_loop].
  destruct (off <? size) eqn:El; cbn [negb]; [bool_to_prop|apply inside_ret].
  apply inside_pure_bind. intros [[[k data]|e] f1] _; [|apply inside_ret].
  rewrite (wrap_small 32 (size - off)) by lia. set (n := Z.min (size - off) 512).
  pose proof (wrap_range 32 (va + off)) as Hw.
  apply inside_pure_bind. intros [dst len] E1. pose proof (as_slice_len _ _ n _ _ ltac:(lia) E1) as ->.
  apply inside_bind.
  { apply (inside_put_bytes _ (u32 (va + off)) n _ n); [done|lia|lia|lia|done|rewrite length_take; lia]. }
  intros _ _ _ _. pose proof (wrap_range 32 (off + n)). apply IH; lia.
Qed.

(** The fields of a section are 32-bit words. *)
Definition section_ok (s : Section_) : Prop :=
  0 <= virt_size s < 2 ^ 32 /\ 0 <= virt_address s < 2 ^ 32 /\ 0 <= raw_size s < 2 ^ 32.

Lemma sections_loop_inside fuel ss : Forall section_ok ss -> forall f,
  inside region (sections_loop fuel f region ss).
Proof.
  induction 1 as [|s ss (Hv & Ha & Hz) _ IH]; intros f; cbn [sections_loop]; [apply inside_ret|].
  apply inside_bind; [apply zero_loop_inside; lia|]. intros _ _ _ _. inside_if; [apply IH|].
  apply inside_pure_bind. intros [[u|e] f1] _; [|apply inside_ret].
  apply inside_bind; [apply data_loop_inside; [lia|unfold section_size; lia]|].
  intros [[u2|e] f2] _ _ _; [apply IH|apply inside_ret].
Qed.

Lemma block_loop_inside fuel : forall reloc off page size i delta,
  inside region (block_loop fuel region reloc off page size i delta).
Proof.
  induction fuel as [|fuel IH]; intros reloc off page size i delta; [apply inside_pure|]. cbn [block_loop].
  inside_if; [apply inside_ret|]. apply inside_read_bind. intros entry.
  apply inside_bind; [|intros _ _ _ _; apply IH]. inside_if; [|apply inside_ret].
  apply inside_read_bind. intros v. pose proof (wrap_range 32 (page + Z.land entry 0xfff)).
  apply inside_write; [done|lia..].
Qed.

Lemma reloc_loop_inside fuel : forall reloc off remaining delta,
  inside region (reloc_loop fuel region reloc off remaining delta).
Proof.
  induction fuel as [|fuel IH]; intros reloc off remaining delta; [apply inside_pure|]. cbn [reloc_loop].
  inside_if; [apply inside_ret|]. apply inside_read_bind. intros page. apply inside_read_bind. intros size.
  apply inside_bind; [apply block_loop_inside|]. intros _ _ _ _. apply IH.
Qed.

Lemma relocs_loop_inside fuel ss delta : inside region (relocs_loop fuel region ss delta).
Proof.
  induction ss as [|s ss IH]; cbn [relocs_loop]; [apply inside_ret|].
  apply inside_bind; [|intros _ _ _ _; apply IH]. inside_if; [|apply inside_ret].
  apply inside_pure_bind. intros [l len] _. apply reloc_loop_inside.
Qed.

(** The loops fail only with file errors. *)
Lemma run_bind_Done {A B} (c : run A) (k : A -> run B) m b m' :
  (c ≫= k) m = (Done b, m') -> exists a m1, c m = (Done a, m1) /\ k a m1 = (Done b, m').
Proof. rewrite run_bind_eq. destruct (c m) as [[a| |] m1] eqn:E; [|done..]. eauto. Qed.

Lemma header_loop_error fuel : forall f off size m e f' m',
  header_loop fuel f region off size m = (Done (Err e, f'), m') -> e = FileError.
Proof.
  induction fuel as [|fuel IH]; intros f off size m e f' m' E; [done|]. cbn [header_loop] in E.
  destruct (_ <? _); [|done]. apply run_bind_Done in E as ([dst n] & m1 & _ & E).
  apply run_bind_Done in E as ([[[k data]|e1] f1] & m2 & _ & E); [|by injection E as <- <- <-].
  apply run_bind_Done in E as (? & m3 & _ & E). by eapply IH.
Qed.

Lemma data_loop_error fuel : forall f va off size m e f' m',
  data_loop fuel f region va off size m = (Done (Err e, f'), m') -> e = FileError.
Proof.
  induction fuel as [|fuel IH]; intros f va off size m e f' m' E; [done|]. cbn [data_loop] in E.
  destruct (_ <? _); [|done].
  apply run_bind_Done in E as ([[[k data]|e1] f1] & m1 & _ & E); [|by injection E as <- <- <-].
  apply run_bind_Done in E as ([dst n] & m2 & _ & E). apply run_bind_Done in E as (? & m3 & _ & E). by eapply IH.
Qed.

Lemma sections_loop_error fuel ss : forall f m e f' m',
  sections_loop fuel f region ss m = (Done (Err e, f'), m') -> e = FileError.
Proof.
  induction ss as [|s ss IH]; intros f m e f' m' E; [done|]. cbn [sections_loop] in E.
  apply run_bind_Done in E as (? & m1 & _ & E). destruct (_ =? _); [|by eapply IH, E].
  apply run_bind_Done in E as ([[u|e1] f1] & m2 & _ & E); [|by injection E as <- <- <-].
  apply run_bind_Done in E as ([[u2|e2] f2] & m3 & E3 & E); [by eapply IH|].
  injection E as <- <- <-. by eapply data_loop_error.
Qed.
End Loops.

(** ** The headers *)

Lemma le_prefix_range n bs : bytes_ok bs -> (n <= 8)%nat -> 0 <= le_combine (take n bs) < 2 ^ (8 * Z.of_nat n).
Proof.
  intros Hb Hn. assert (Ht : bytes_ok (take n bs)) by by apply Forall_take.
  apply le_combine_range in Ht. rewrite length_take in Ht. split; [lia|].
  eapply Z.lt_le_trans; [apply Ht|]. apply Z.pow_le_mono_r; lia.
Qed.

Lemma section_of_ok bs : bytes_ok bs -> section_ok (section_of bs).
Proof.
  intros Hb. assert (Hd : forall i, 0 <= le_combine (take 4 (drop i bs)) < 2 ^ 32).
  { intros i. apply (le_prefix_range 4); [by apply Forall_drop|lia]. }
  repeat split; apply Hd.
Qed.

Lemma section_table_ok beyond data offset n : bytes_ok data -> (forall i, is_byte (beyond i)) ->
  Forall section_ok (section_table beyond data offset n).
Proof.
  intros Hd Hb. apply Forall_map, Forall_true. intros i. apply section_of_ok. unfold array_bytes.
  apply Forall_map, Forall_true. intros j. destruct (_ <? _)%nat; [|apply Hb].
  destruct (nth_in_or_default j data 0) as [Hi| ->]; [|unfold is_byte; lia].
  by eapply Forall_forall, list_elem_of_In.
Qed.

Lemma buf_read_range n buf off v : bytes_ok buf -> (n <= 8)%nat -> BzImage.buf_read n buf off = Done v ->
  0 <= v < 2 ^ (8 * Z.of_nat n).
Proof.
  intros Hb Hn E. unfold BzImage.buf_read, assert_ in E. destruct (_ <=? _)%nat; [|done].
  injection E as <-. apply le_prefix_range; [by apply Forall_drop|done].
Qed.

Lemma read_headers_range data h : bytes_ok data -> read_headers data = Done (Ok h) ->
  0 <= h_image_size h < 2 ^ 32 /\ 0 <= h_header_size h < 2 ^ 32.
Proof.
  intros Hb E. unfold read_headers in E.
  repeat match type of E with
  | _ ≫= _ = _ => let v := fresh "v" in let H := fresh "H" in unbind E as v eqn H
  | (if ?b then _ else _) = _ => destruct b; [discriminate E|]
  end.
  injection E as <-. cbn [h_image_size h_header_size].
  split; match goal with H : BzImage.buf_read 4 ?b ?o = Done ?v |- 0 <= ?v < _ =>
    apply (buf_read_range 4 b o v); [by apply Forall_drop|lia|exact H] end.
Qed.

(** The first kilobyte of the file, as the loader reads it, and what its headers
    say, read at the offsets of the PE/COFF format. *)
Definition first_kilobyte {F} `{Fat.Read F} (f : F) : option (list Z) :=
  match Fat.read f 512 with
  | Done (Ok (_, lo), f) => match Fat.read f 512 with Done (Ok (_, hi), _) => Some (lo ++ hi) | _ => None end
  | _ => None
  end.
Definition word (n : nat) (data : list Z) (at_ : Z) : Z := le_combine (take n (drop (Z.to_nat at_) data)).
Definition pe_at (data : list Z) : Z := word 4 data 0x3c.
(** The marks of an x86-64 PE32+ image. *)
Definition executable (data : list Z) : bool :=
  (word 2 data 0 =? 0x5a4d) && (pe_at data <? 512) && (word 4 data (pe_at data) =? 0x4550) &&
  (word 2 data (pe_at data + 4) =? 0x8664) && (word 2 data (pe_at data + 24) =? 0x20b).
(** [SizeOfImage] and [AddressOfEntryPoint]. *)
Definition declared_size (data : list Z) : Z := word 4 data (pe_at data + 80).
Definition declared_entry (data : list Z) : Z := word 4 data (pe_at data + 40).

Lemma buf_read_word n data base off : bytes_ok data -> 0 <= base -> Z.of_nat off + base + Z.of_nat n <= 1024 ->
  length data = 1024%nat ->
  BzImage.buf_read n (drop (Z.to_nat base) data) off = Done (word n data (base + Z.of_nat off)).
Proof.
  intros Hb H0 Hle Hl. unfold BzImage.buf_read, word. rewrite length_drop, Hl.
  rewrite (proj2 (Nat.leb_le _ _)) by lia. rstep. rewrite drop_drop. by replace (Z.to_nat (base + Z.of_nat off)) with (Z.to_nat base + off)%nat by lia.
Qed.

Ltac of_nat_literals :=
  repeat match goal with
  | |- context [Z.of_nat ?n] => is_ground n; let v := eval vm_compute in (Z.of_nat n) in change (Z.of_nat n) with v
  end.

(** What the loader's checks make of a kilobyte. *)
Lemma read_headers_spec data : bytes_ok data -> length data = 1024%nat ->
  match read_headers data with
  | Done (Ok h) => executable data = true /\ h_image_size h = declared_size data /\
                   h_entry_point h = declared_entry data
  | Done (Err _) => executable data = false
  | _ => False
  end.
Proof.
  intros Hb Hl. assert (H0 : 0 <= pe_at data).
  { unfold pe_at, word. apply le_combine_range. by apply Forall_take, Forall_drop. }
  assert (Hw : forall n off, Z.of_nat off + Z.of_nat n <= 1024 -> BzImage.buf_read n data off = Done (word n data (Z.of_nat off))).
  { intros n off Ho. pose proof (buf_read_word n data 0 off Hb ltac:(lia) ltac:(lia) Hl) as E.
    change (drop (Z.to_nat 0) data) with data in E. by rewrite E. }
  unfold read_headers, executable. rewrite !Hw by lia. rstep. change (Z.of_nat 0) with 0.
  change (word 4 data (Z.of_nat 0x3c)) with (pe_at data).
  destruct (word 2 data 0 =? 0x5a4d); cbn [negb andb]; [|done].
  destruct (Z.leb_spec 512 (pe_at data)); [by rewrite (proj2 (Z.ltb_ge _ _)) by done|].
  rewrite (proj2 (Z.ltb_lt (pe_at data) 512)) by lia. cbn [andb].
  assert (Hp : forall n off, Z.of_nat off + Z.of_nat n <= 512 ->
    BzImage.buf_read n (drop (Z.to_nat (pe_at data)) data) off = Done (word n data (pe_at data + Z.of_nat off)))
    by (intros; apply buf_read_word; (done || lia)).
  assert (Ho : forall n off, Z.of_nat off + Z.of_nat n <= 488 ->
    BzImage.buf_read n (drop (Z.to_nat (24 + pe_at data)) data) off = Done (word n data (24 + pe_at data + Z.of_nat off)))
    by (intros; apply buf_read_word; (done || lia)).
  rewrite !Hp by lia. rstep. of_nat_literals. rewrite Z.add_0_r. destruct (_ =? 0x4550); cbn [negb andb]; [|done].
  destruct (word 2 data (pe_at data + 4) =? 0x8664); cbn [negb andb]; [|done].
  rewrite !Ho by lia. rstep. of_nat_literals. rewrite Z.add_0_r, !(Z.add_comm 24).
  destruct (_ =? 0x20b); cbn [negb andb]; [|done].
  cbn [h_image_size h_entry_point].
  unfold declared_size, declared_entry. rewrite <- !Z.add_assoc. done.
Qed.

(** C38: Whatever the file holds, and however the run ends - by returning an image or
    an error, by a panic, or not at all ([fuel] cuts a run short anywhere) - at its
    end memory differs from what it was at most in the [SizeOfImage] bytes from
    [address] on, the size the file's own header declares.  A file whose
    first kilobyte lacks one of the marks of an x86-64 PE32+ image, or cannot be
    read, leaves memory as it was and is rejected: with [InvalidExecutable] in the
    first case.  A run that succeeds returns the declared size and the address of
    the declared entry point. *)
Theorem load_stays_inside {F} `{BoundedReads F} beyond fuel l address m r m' :
  (forall i, is_byte (beyond i)) -> 0 <= address -> address + 2 ^ 32 <= 2 ^ 64 ->
  load beyond fuel l address m = (r, m') ->
  match first_kilobyte (file l) with
  | Some data => length data = 1024%nat ->
      if executable data then
        (forall x, x < address \/ address + declared_size data <= x -> load8 m' x = load8 m x) /\
        (forall a l', r = Done (Ok a, l') -> a = (u64 (address + declared_entry data), declared_size data)) /\
        (forall e l', r = Done (Err e, l') -> e = FileError)
      else m' = m /\ exists l', r = Done (Err InvalidExecutable, l')
  | None => m' = m /\ forall a l', r <> Done (Ok a, l')
  end.
Proof.
  intros Hb Ha Hov E. unfold load in E. unfold first_kilobyte. rewrite pure_bind_eq in E.
  destruct (Fat.read (file l) 512) as [[[[k1 lo]|e1] f1]| |] eqn:E1; [|by injection E as <- <-..].
  rewrite pure_bind_eq in E.
  destruct (Fat.read f1 512) as [[[[k2 hi]|e2] f2]| |] eqn:E2; [|by injection E as <- <-..].
  intros Hl. apply bounded_read in E1 as [_ Hlo]. apply bounded_read in E2 as [_ Hhi].
  assert (Hd : bytes_ok (lo ++ hi)) by by apply Forall_app. cbv zeta in E. rewrite pure_bind_eq in E.
  pose proof (read_headers_spec _ Hd Hl) as Hh. pose proof (read_headers_range (lo ++ hi)) as Hran.
  destruct (read_headers (lo ++ hi)) as [[h|n]| |]; [|rewrite Hh; injection E as <- <-; eauto|done..].
  destruct Hh as (-> & <- & <-). destruct (Hran h Hd eq_refl) as [Hi Hh].
  assert (Hr : MemoryRegion.wf (MemoryRegion.new address (h_image_size h))) by (unfold MemoryRegion.wf; cbn; lia).
  split.
  - match type of E with ?c m = _ => assert (Hin : inside (MemoryRegion.new address (h_image_size h)) c) end.
    { apply inside_pure_bind. intros _ _. apply inside_pure_bind. intros [[u|e] f3] _; [|apply inside_ret].
      apply inside_bind; [apply header_loop_inside; [done|lia..]|]. intros [[u2|e] f4] _ _ _; [|apply inside_ret].
      apply inside_bind; [apply sections_loop_inside; [done|by apply section_table_ok]|].
      intros [[u3|e] f5] _ _ _; [|apply inside_ret].
      apply inside_bind; [by apply relocs_loop_inside|]. intros _ _ _ _. apply inside_ret. }
    specialize (Hin m). rewrite E in Hin. exact Hin.
  - assert (Hres : forall v l', r = Done (v, l') ->
      match v with Ok a => a = (u64 (address + h_entry_point h), h_image_size h) | Err e => e = FileError end).
    { intros v l' ->. apply run_bind_Done in E as (_ & m1 & _ & E).
      apply run_bind_Done in E as ([[u|e] f3] & m2 & _ & E); [|by injection E as <- <- <-].
      apply run_bind_Done in E as ([[u2|e] f4] & m3 & E3 & E);
        [|apply header_loop_error in E3 as ->; by injection E as <- <- <-].
      apply run_bind_Done in E as ([[u3|e] f5] & m4 & E4 & E);
        [|apply sections_loop_error in E4 as ->; by injection E as <- <- <-].
      apply run_bind_Done in E as (_ & m5 & _ & E). by injection E as <- <- <-. }
    split; intros ? ?; apply Hres.
Qed.

(** An image of 1024 bytes with one section, in a file of three sectors. *)
Definition tiny_pe : list Z :=
  let m := store16 ∅ 0 0x5a4d in let m := store32 m 0x3c 0x40 in
  let m := store32 m 0x40 0x4550 in let m := store16 m 0x44 0x8664 in
  let m := store16 m 0x46 1 in let m := store16 m 0x54 112 in
  let m := store16 m 0x58 0x20b in let m := store32 m 0x68 0x210 in
  let m := store32 m 0x90 1024 in let m := store32 m 0x94 512 in
  let m := store_bytes m 0xc8 [0x2e; 0x74; 0x65; 0x78; 0x74] in
  let m := store32 m 0xd0 32 in let m := store32 m 0xd4 512 in
  let m := store32 m 0xd8 16 in let m := store32 m 0xdc 1024 in
  load_bytes (store_bytes m 1024 (replicate 16 0x90)) 0 1536.

Lemma tiny_pe_ok : bytes_ok tiny_pe.
Proof. apply load_bytes_ok. repeat apply mem_ok_store_bytes. apply map_Forall_empty. Qed.

(** A file with the given bytes, of which the handle is the sector number. *)
#[local] Instance bytes_file (bs : list Z) (size : Z) : Fat.Read nat := {|
  Fat.read k n :=
    _ ← assert_ (n =? 512)%nat;
    Done (if Z.of_nat k * 512 <? size then (Ok (512, take 512 (drop (512 * k) bs)), S k)
          else (Err Fat.EndOfFile, k));
  Fat.seek k pos := Done (if pos <? size then (Ok tt, Z.to_nat (pos / 512)) else (Err Fat.EndOfFile, k));
  Fat.get_size _ := size
|}.

Lemma bytes_file_bounded bs size : bytes_ok bs -> BoundedReads (H := bytes_file bs size) nat.
Proof.
  intros Hb f n k data f' E. cbn [Fat.read bytes_file] in E. unbind E as u eqn En.
  unfold assert_ in En. destruct (n =? 512)%nat eqn:E1; [|done]. apply Nat.eqb_eq in E1 as ->.
  destruct (_ <? _); [|done]. injection E as _ <- _. split; [rewrite length_take; lia|].
  by apply Forall_take, Forall_drop.
Qed.

(** The image whose section does not fit in the size its header declares: the
    loader panics on the way, with the image's memory partly written. *)
Definition overlong_pe : list Z :=
  take 0xd0 tiny_pe ++ le_split 4 600 ++ drop 0xd4 tiny_pe.

Lemma overlong_pe_ok : bytes_ok overlong_pe.
Proof.
  repeat apply Forall_app_2; [apply Forall_take, tiny_pe_ok|apply le_split_ok|apply Forall_drop, tiny_pe_ok].
Qed.

Lemma load_stays_inside_witness :
  (exists l' m',
    load (H := bytes_file tiny_pe 1536) (fun _ => 0) 3 (new 0%nat) 0x10000 ∅ = (Done (Ok (0x10210, 1024), l'), m') /\
    forall x, x < 0x10000 \/ 0x10400 <= x -> load8 m' x = 0) /\
  (exists m',
    load (H := bytes_file overlong_pe 1536) (fun _ => 0) 3 (new 0%nat) 0x10000 ∅ = (Panic, m') /\
    load8 m' 0x10000 = 0x4d /\ forall x, x < 0x10000 \/ 0x10400 <= x -> load8 m' x = 0).
Proof.
  split.
  - assert (C : match load (H := bytes_file tiny_pe 1536) (fun _ => 0) 3 (new 0%nat) 0x10000 ∅ with
                | (Done (r, _), _) => r = Ok (0x10210, 1024)
                | _ => False end) by (vm_compute; reflexivity).
    destruct (load _ _ _ _ _) as [[[r l']| |] m'] eqn:E; [|contradiction C..]. rewrite C in E |- *.
    exists l', m'. split; [reflexivity|].
    exact (proj1 (load_stays_inside (H0 := bytes_file_bounded _ _ tiny_pe_ok) (fun _ => 0) 3 (new 0%nat) 0x10000 ∅ _ _
              (fun _ => conj (Z.le_refl 0) eq_refl) ltac:(lia) ltac:(lia) E eq_refl)).
  - assert (C : match load (H := bytes_file overlong_pe 1536) (fun _ => 0) 3 (new 0%nat) 0x10000 ∅ with
                | (Panic, m') => load8 m' 0x10000 = 0x4d
                | _ => False end) by (vm_compute; reflexivity).
    destruct (load _ _ _ _ _) as [[| |] m'] eqn:E; [contradiction C| |contradiction C].
    exists m'. split; [reflexivity|]. split; [exact C|].
    exact (proj1 (load_stays_inside (H0 := bytes_file_bounded _ _ overlong_pe_ok) (fun _ => 0) 3 (new 0%nat) 0x10000 ∅ _ _
              (fun _ => conj (Z.le_refl 0) eq_refl) ltac:(lia) ltac:(lia) E eq_refl)).
Defined.

(** A relocation block of size 0 is never left. *)
Lemma zero_block_never_ends fuel : forall m region reloc remaining delta,
  MemoryRegion.wf reloc -> 8 <= MemoryRegion.length reloc -> 0 < remaining ->
  load32 m (MemoryRegion.base reloc + 4) = 0 -> remaining < 2 ^ 32 ->
  reloc_loop fuel region reloc 0 remaining delta m = (OutOfFuel, m).
Proof.
  induction fuel as [|fuel IH]; intros m region reloc remaining delta Hw Hl Hr H0 Hr'; [done|].
  cbn [reloc_loop]. rewrite (proj2 (Z.ltb_lt _ _)) by done. cbn [negb].
  rewrite run_bind_eq. unfold region_read at 1. rewrite MemoryRegion.read_in by (done || lia).
  rewrite run_bind_eq. unfold region_read at 1. rewrite (wrap_small 64 (0 + 4)), MemoryRegion.read_in by (done || lia).
  change (0 + 4) with 4. rewrite H0, run_bind_eq. cbn [block_loop Z.ltb Z.compare negb]. 
  change ((mret tt : run unit) m) with (@Done unit tt, m).
  rewrite Z.sub_0_r, (wrap_small 32 remaining) by lia. change (u64 (0 + 0)) with 0. by apply IH.
Qed.
