(* ===== verification/LoaderProps.v ===== *)
(** * The boot loader configuration: theorems *)

From S2P Require Import Prelude REfi Mem Part EfiStr Fat FatFile FileRead BzImage BzProps Loader.
Import Loader.

(** ** Lines *)

Definition unlines (ls : list (list Z)) : list Z := concat (map (fun l => l ++ [NEWLINE]) ls).

(** A line of text: no newline, no NUL, no carriage return at its end. *)
Definition line_ok (l : list Z) : Prop :=
  Forall (fun b => b <> NEWLINE /\ b <> 0) l /\ last l <> Some CARRIAGE_RETURN.

Lemma split_newlines_one l : Forall (fun b => b <> NEWLINE) l -> split_newlines l = [l].
Proof.
  induction 1 as [|b l Hb Hl IH]; cbn [split_newlines]; [done|].
  rewrite (proj2 (Z.eqb_neq _ _)) by done. by rewrite IH.
Qed.

Lemma split_newlines_cons l r : Forall (fun b => b <> NEWLINE) l ->
  split_newlines (l ++ NEWLINE :: r) = l :: split_newlines r.
Proof.
  induction 1 as [|b l Hb Hl IH]; cbn [split_newlines app]; [done|].
  rewrite (proj2 (Z.eqb_neq _ _)) by done. by rewrite IH.
Qed.

Lemma line_no_newline l : line_ok l -> Forall (fun b => b <> NEWLINE) l.
Proof. intros [Hl _]. eapply Forall_impl; [done|]. naive_solver. Qed.

Lemma strip_cr_id l : last l <> Some CARRIAGE_RETURN -> strip_cr l = l.
Proof.
  intros Hl. unfold strip_cr. destruct (last l) as [b|]; [|done].
  rewrite (proj2 (Z.eqb_neq _ _)); [done|congruence].
Qed.

(** Terminated lines and a last piece that is not empty. *)
Lemma lines_unlines ls tail : Forall line_ok ls -> Forall (fun b => b <> NEWLINE) tail -> tail <> [] ->
  last tail <> Some CARRIAGE_RETURN -> lines (unlines ls ++ tail) = ls ++ [tail].
Proof.
  intros Hls Ht Hne Hcr. assert (Hsp : split_newlines (unlines ls ++ tail) = ls ++ [tail]).
  { induction Hls as [|l ls Hl Hls IH]; cbn; [by apply split_newlines_one|].
    fold (unlines ls). rewrite <- !app_assoc. cbn [app].
    rewrite split_newlines_cons by (by apply line_no_newline). by rewrite IH. }
  unfold lines. rewrite Hsp, last_snoc. destruct tail as [|b tail]; [done|].
  rewrite map_app. cbn [map]. rewrite (strip_cr_id (b :: tail)) by done. f_equal.
  rewrite <- (map_id ls) at 2. apply map_ext_in. intros l Hl. apply strip_cr_id.
  apply list_elem_of_In in Hl. rewrite Forall_forall in Hls. by apply Hls.
Qed.

(** ** Reading the file *)

Lemma copy_into_front A n src pos : pos = length A -> (length src <= n)%nat ->
  copy_into (A ++ replicate n 0) pos src = Done (A ++ src ++ replicate (n - length src) 0).
Proof.
  intros -> Hn. unfold copy_into. rewrite length_app, length_replicate, (proj2 (Nat.leb_le _ _)) by lia.
  cbn [assert_]. rstep. rewrite take_app_length, drop_app_add, drop_replicate. done.
Qed.

Lemma conf_size : CONF_SIZE = (8 * 512)%nat.
Proof. reflexivity. Qed.

Section Conf.
Context {F : Type} `{Fat.Read F} (datas : list (list Z)) (sz : Z) (at_ : F -> nat -> Prop).
Hypothesis (Hr : reader datas sz at_).

(** What [data] holds when the file has been read. *)
Definition conf_data : list Z := concat datas ++ replicate (CONF_SIZE - 512 * length datas) 0.

Lemma read_conf_loop fuel f k : at_ f k -> (k <= length datas <= 8)%nat -> (8 - k < fuel)%nat ->
  let r := read_conf fuel f (concat (take k datas) ++ replicate (CONF_SIZE - 512 * k) 0) (512 * k) in
  if decide (length datas = 8)%nat then r = Panic else exists f', r = Done (Ok conf_data, f').
Proof.
  revert f k. induction fuel as [|fuel IH]; intros f k Hat Hk Hf; [lia|].
  cbv zeta. cbn [read_conf]. pose proof conf_size as Hcs.
  assert (Hlen : length (concat (take k datas)) = (512 * k)%nat).
  { destruct (sectors_length (take k datas)) as [-> _]; [|rewrite length_take; lia].
    intros i d Hd. apply lookup_take_Some in Hd as [Hd _]. by apply (rd_sector _ _ _ Hr i). }
  rewrite length_app, Hlen, length_replicate.
  destruct (decide (k = 8)%nat) as [->|Hk8].
  { rewrite decide_True, (proj2 (Nat.leb_gt _ _)) by lia. done. }
  rewrite (proj2 (Nat.leb_le _ _)) by lia. cbn [assert_]. rstep. destruct (datas !! k) as [d|] eqn:Hd.
  - pose proof (lookup_lt_Some _ _ _ Hd). destruct (rd_sector _ _ _ Hr _ _ Hd) as [Hl _].
    destruct (rd_read _ _ _ Hr f k d Hat Hd) as (f' & -> & Hat'). rstep.
    rewrite copy_into_front by lia. rstep.
    specialize (IH f' (S k) Hat'). rewrite (take_S_r datas k d Hd), concat_app in IH. cbn [concat] in IH.
    rewrite app_nil_r, <- app_assoc in IH. replace (512 * k + 512)%nat with (512 * S k)%nat by lia.
    replace (CONF_SIZE - 512 * k - length d)%nat with (CONF_SIZE - 512 * S k)%nat by lia. apply IH; lia.
  - apply lookup_ge_None in Hd. rewrite (rd_eof _ _ _ Hr f k Hat Hd). rstep.
    rewrite decide_False by lia. exists f. unfold conf_data. rewrite take_ge by done.
    by replace k with (length datas) by lia.
Qed.

Lemma read_conf_spec f : at_ f 0%nat -> sz <= 4096 ->
  let r := read_conf CONF_FUEL f (replicate CONF_SIZE 0) 0 in
  if decide (3584 < sz) then r = Panic else exists f', r = Done (Ok conf_data, f').
Proof.
  intros Hat Hsz. pose proof (rd_len _ _ _ Hr). pose proof conf_size as Hcs. cbv zeta.
  pose proof (read_conf_loop CONF_FUEL f 0 Hat) as L. cbv zeta in L.
  rewrite take_0, Nat.mul_0_r, Nat.sub_0_r in L. cbn [concat] in L. rewrite app_nil_l in L.
  unfold CONF_FUEL in *.
  destruct (decide (3584 < sz)), (decide (length datas = 8)%nat); try lia; apply L; lia.
Qed.
End Conf.

(** ** Keys and values *)

Fixpoint fill (key : list Z) (ls : list (list Z)) (buf : list Z) : res (list Z) :=
  match ls with
  | [] => Done buf
  | line :: ls => buf ← take_value key line buf; fill key ls buf
  end.

Lemma default_lines_fill ls buf : default_lines ls buf = fill key_default ls buf.
Proof.
  revert buf. induction ls as [|l ls IH]; intros buf; cbn [default_lines fill]; [done|].
  destruct (take_value _ l buf); rstep; done.
Qed.

Lemma entry_lines_fill ls c bz cmd rd :
  fill key_linux ls (bzimage_path c) = Done bz -> fill key_options ls (cmdline c) = Done cmd ->
  fill key_initrd ls (initrd_path c) = Done rd -> entry_lines ls c = Done (mkConfig bz rd cmd).
Proof.
  revert c. induction ls as [|l ls IH]; intros [p r o]; cbn [entry_lines fill bzimage_path cmdline initrd_path].
  { congruence. }
  intros H1 H2 H3. apply bind_Done in H1 as (p' & -> & H1). apply bind_Done in H2 as (o' & -> & H2).
  apply bind_Done in H3 as (r' & -> & H3). rstep. by apply IH.
Qed.

Lemma fill_none key ls buf : Forall (fun l => starts_with key l = false) ls -> fill key ls buf = Done buf.
Proof.
  induction 1 as [|l ls Hl Hls IH]; cbn [fill]; [done|]. unfold take_value. by rewrite Hl.
Qed.

Lemma fill_app key l1 l2 buf : fill key (l1 ++ l2) buf = (b ← fill key l1 buf; fill key l2 b).
Proof.
  revert buf. induction l1 as [|l l1 IH]; intros buf; cbn [fill app]; [done|].
  destruct (take_value key l buf); rstep; [apply IH|done..].
Qed.

(** [v] is the value of the only line with [key], or nothing without one. *)
Inductive value_of (key : list Z) (ls : list (list Z)) (v : list Z) : Prop :=
  | value_none : v = [] -> Forall (fun l => starts_with key l = false) ls -> value_of key ls v
  | value_some l1 l l2 : ls = l1 ++ l :: l2 -> v = trim (drop (length key) l) ->
      starts_with key l = true -> Forall (fun l => starts_with key l = false) (l1 ++ l2) ->
      value_of key ls v.

Lemma fill_value key ls v n : value_of key ls v -> (length v <= n)%nat ->
  fill key ls (replicate n 0) = Done (v ++ replicate (n - length v) 0).
Proof.
  intros Hv Hn. destruct Hv as [-> Hf|l1 l l2 -> -> Hl Hf].
  - rewrite fill_none by done. by rewrite Nat.sub_0_r.
  - apply Forall_app in Hf as [H1 H2]. rewrite fill_app, fill_none by done. rstep. cbn [fill].
    unfold take_value. rewrite Hl.
    pose proof (copy_into_front [] n (trim (drop (length key) l)) 0 eq_refl Hn) as E.
    rewrite !app_nil_l in E. rewrite E. rstep. by rewrite fill_none.
Qed.

Lemma value_of_tail key ls v tail : value_of key ls v -> starts_with key tail = false ->
  value_of key (ls ++ [tail]) v.
Proof.
  intros Hv Ht. destruct Hv as [-> Hf|l1 l l2 -> -> Hl Hf].
  - apply value_none; [done|]. apply Forall_app. by repeat constructor.
  - apply (value_some _ _ _ l1 l (l2 ++ [tail])); [by rewrite <- app_assoc|done..|].
    rewrite app_assoc. apply Forall_app. by repeat constructor.
Qed.

(** Trimming only removes. *)
Lemma Forall_drop_while (P : Z -> Prop) p l : Forall P l -> Forall P (drop_while p l).
Proof. induction 1 as [|x l Hx Hl IH]; cbn; [done|]. destruct (p x); [done|by constructor]. Qed.
Lemma Forall_trim (P : Z -> Prop) p l : Forall P l -> Forall P (trim_matches p l).
Proof. intros Hl. unfold trim_matches. by repeat (apply Forall_reverse, Forall_drop_while || apply Forall_drop_while). Qed.

Lemma no_nul_trimmed s : Forall (fun b => b <> 0) s -> trimmed is_nul s.
Proof.
  intros Hs. destruct s as [|x l] eqn:E; [by left|right]. rewrite <- E in *. split.
  - exists x, l. split; [done|]. subst. apply Forall_inv in Hs. by apply Z.eqb_neq.
  - destruct (exists_last (l := s)) as (l' & y & El); [by subst|]. exists l', y. split; [done|].
    rewrite El in Hs. apply Forall_app in Hs as [_ Hs]. apply Forall_inv in Hs. by apply Z.eqb_neq.
Qed.

Lemma value_of_no_nul key ls v : Forall line_ok ls -> value_of key ls v -> Forall (fun b => b <> 0) v.
Proof.
  intros Hls [-> _|l1 l l2 -> -> _ _]; [constructor|].
  apply Forall_app in Hls as [_ Hl]. apply Forall_inv in Hl as [Hl _].
  apply Forall_trim, Forall_drop. eapply Forall_impl; [done|]. naive_solver.
Qed.

Lemma ascii_strip_padded key ls v n : Forall line_ok ls -> value_of key ls v ->
  ascii_strip (v ++ replicate n 0) = v.
Proof.
  intros Hls Hv. apply (trim_matches_spec is_nul [] v (replicate n 0)); [constructor|by apply Forall_replicate|].
  by eapply no_nul_trimmed, value_of_no_nul.
Qed.

Lemma nul_starts_with b key n : b <> 0 -> starts_with (b :: key) (replicate n 0) = false.
Proof.
  intros Hb. apply bool_decide_eq_false_2. destruct n; cbn; [done|]. intros E. injection E. congruence.
Qed.

(** The lines of a configuration file of terminated lines, read and padded. *)
Lemma conf_lines datas ls z : Forall line_ok ls -> concat datas = unlines ls ++ replicate z 0 ->
  (length datas <= 7)%nat -> exists n, lines (conf_data datas) = ls ++ [replicate (S n) 0].
Proof.
  intros Hls Hc Hl. unfold conf_data. rewrite Hc, <- app_assoc, <- replicate_add.
  pose proof conf_size. destruct (z + (CONF_SIZE - 512 * length datas))%nat as [|n] eqn:E; [lia|].
  exists n. apply lines_unlines; [done|by apply Forall_replicate|done|].
  rewrite replicate_S_end, last_snoc. done.
Qed.

(** Trimming stops at a run of bytes that are kept. *)
Lemma drop_while_stops p X y k : p y = false ->
  exists X', drop_while p (X ++ replicate k y) = X' ++ replicate k y.
Proof.
  intros Hy. induction X as [|x X [X' IH]]; cbn [app drop_while].
  - exists []. apply drop_while_none. destruct k; by repeat constructor.
  - destruct (p x); [by exists X'|by exists (x :: X)].
Qed.
Lemma trim_stops p X y k : p y = false -> (k <= length (trim_matches p (X ++ replicate k y)))%nat.
Proof.
  intros Hy. destruct k as [|k]; [lia|]. unfold trim_matches.
  destruct (drop_while_stops p X y (S k) Hy) as [X' ->]. rewrite drop_while_none.
  - rewrite reverse_involutive, length_app, length_replicate. lia.
  - rewrite reverse_app, reverse_replicate. by repeat constructor.
Qed.

(** ** Properties *)

(** [parse_entry] finds what a boot entry says: in a file of terminated lines
    with at most one "linux", "initrd" and "options" line each, it returns the
    trimmed rest of those lines, as the later [ascii_strip] sees them, whatever
    the other lines and the order; files of more than 3584 bytes, though the
    assertion admits 4096, are a panic, because the buffer's next slice is taken
    before the end of the file is noticed. *)
Theorem parse_entry_correct {F} `{Fat.Read F} datas sz (at_ : F -> nat -> Prop) f ls z bz rd cmd :
  reader datas sz at_ -> at_ f 0%nat -> Forall line_ok ls -> concat datas = unlines ls ++ replicate z 0 ->
  value_of key_linux ls bz -> value_of key_initrd ls rd -> value_of key_options ls cmd ->
  (length bz <= 260)%nat -> (length rd <= 260)%nat -> (length cmd <= 4096)%nat -> sz <= 4096 ->
  if decide (3584 < sz) then parse_entry f = Panic
  else exists f' c, parse_entry f = Done (Ok c, f') /\
    ascii_strip (bzimage_path c) = bz /\ ascii_strip (initrd_path c) = rd /\ ascii_strip (cmdline c) = cmd.
Proof.
  intros Hr Hat Hls Hc Hbz Hrd Hcmd Lbz Lrd Lcmd Hsz. pose proof conf_size as Hcs.
  unfold parse_entry. rewrite (rd_size _ _ _ Hr f 0 Hat), (proj2 (Z.leb_le _ _)) by lia. cbn [assert_]. rstep.
  pose proof (read_conf_spec datas sz at_ Hr f Hat Hsz) as Hrc. cbv zeta in Hrc. pose proof (rd_len _ _ _ Hr).
  destruct (decide (3584 < sz)); [by rewrite Hrc|]. destruct Hrc as (f' & ->). rstep.
  destruct (conf_lines datas ls z Hls Hc) as (n' & ->); [lia|].
  assert (Hfill : forall b key v k, value_of (b :: key) ls v -> b <> 0 -> (length v <= k)%nat ->
    fill (b :: key) (ls ++ [replicate (S n') 0]) (replicate k 0) = Done (v ++ replicate (k - length v) 0)).
  { intros b key v k Hv Hb Hk. apply fill_value; [|done]. by apply value_of_tail, nul_starts_with. }
  erewrite entry_lines_fill by (cbn [bzimage_path initrd_path cmdline]; by apply Hfill).
  rstep. exists f'. eexists. split; [done|]. cbn [bzimage_path initrd_path cmdline].
  split_and!; by eapply ascii_strip_padded.
Qed.

(** "title x", "linux /k" and "options quiet", in one sector. *)
Definition demo_entry : list (list Z) :=
  [[0x74; 0x69; 0x74; 0x6c; 0x65; 32; 0x78]; [0x6c; 0x69; 0x6e; 0x75; 0x78; 32; 32; 0x2f; 0x6b];
   [0x6f; 0x70; 0x74; 0x69; 0x6f; 0x6e; 0x73; 9; 0x71; 0x75; 0x69; 0x65; 0x74; 32]].
Definition demo_sector : list Z := unlines demo_entry ++ replicate 479 0.

(** A file of one sector. *)
Definition sector_Read (sector : list Z) (sz : Z) : Fat.Read nat := {|
  Fat.read k _ :=
    Done (match k with O => (Ok (sz, sector), 1%nat) | S k => (Err Fat.EndOfFile, S k) end);
  Fat.seek k pos := Done (if pos <? sz then (Ok tt, 0%nat) else (Err Fat.EndOfFile, k));
  Fat.get_size _ := sz
|}.

Lemma sector_reader sector sz : sector_check sector = true -> 0 < sz <= 512 ->
  reader (H := sector_Read sector sz) [sector] sz (fun f k => f = k).
Proof.
  intros Hs Hz. constructor.
  - apply sector_check_ok. cbn. by rewrite Hs.
  - lia.
  - cbn. lia.
  - done.
  - intros f [|k] data -> Hd; [|done]. injection Hd as <-. exists 1%nat. cbn. split; [|done]. do 4 f_equal. lia.
  - intros f [|k] ->; cbn; [lia|done].
  - intros f k [|j] -> Hj; [|lia]. exists 0%nat. cbn. by rewrite (proj2 (Z.ltb_lt _ _)) by lia.
  - intros f k [|j] -> Hj; [lia|]. cbn -[Z.mul]. by rewrite (proj2 (Z.ltb_ge _ _)) by lia.
Qed.

Lemma demo_reader : reader (H := sector_Read demo_sector 33) [demo_sector] 33 (fun f k => f = k).
Proof. apply sector_reader; [vm_compute; reflexivity|lia]. Qed.

Lemma demo_lines_ok : Forall line_ok demo_entry.
Proof. repeat constructor; discriminate. Qed.

Lemma parse_entry_correct_witness : exists f' c, parse_entry (H := sector_Read demo_sector 33) 0%nat = Done (Ok c, f') /\
  ascii_strip (bzimage_path c) = [0x2f; 0x6b] /\ ascii_strip (initrd_path c) = [] /\
  ascii_strip (cmdline c) = [0x71; 0x75; 0x69; 0x65; 0x74].
Proof.
  refine (parse_entry_correct [demo_sector] 33 _ 0%nat demo_entry 479 [0x2f; 0x6b] []
            [0x71; 0x75; 0x69; 0x65; 0x74] demo_reader _ _ _ _ _ _ _ _ _ _).
  - reflexivity.
  - exact demo_lines_ok.
  - reflexivity.
  - eapply (value_some _ _ _ [_] _ [_]); [reflexivity..|]. repeat constructor.
  - apply value_none; [reflexivity|]. repeat constructor.
  - eapply (value_some _ _ _ [_; _] _ []); [reflexivity..|]. repeat constructor.
  - cbn. lia.
  - cbn. lia.
  - cbn. lia.
  - lia.
Defined.

(** [default_entry_file] returns the trimmed value of the one "default" line of
    a file of at most 3584 bytes whose lines are terminated; when the "default"
    line is the last and has no newline, the padding counts as part of the name,
    which no longer fits, and the result is a panic. *)
Theorem default_entry_file_correct {F} `{Fat.Read F} datas sz (at_ : F -> nat -> Prop) f ls z v :
  reader datas sz at_ -> at_ f 0%nat -> Forall line_ok ls -> sz <= 3584 ->
  (concat datas = unlines ls ++ replicate z 0 -> value_of key_default ls v -> (length v <= 260)%nat ->
   exists f' name, default_entry_file f = Done (Ok name, f') /\ ascii_strip name = v) /\
  (forall l, concat datas = unlines ls ++ l ++ replicate z 0 -> line_ok l ->
   Forall (fun l => starts_with key_default l = false) ls -> starts_with key_default l = true ->
   default_entry_file f = Panic).
Proof.
  intros Hr Hat Hls Hsz. pose proof conf_size as Hcs.
  unfold default_entry_file. rewrite (rd_size _ _ _ Hr f 0 Hat), (proj2 (Z.leb_le _ _)) by lia. cbn [assert_]. rstep.
  pose proof (read_conf_spec datas sz at_ Hr f Hat) as Hrc. cbv zeta in Hrc. pose proof (rd_len _ _ _ Hr).
  rewrite decide_False in Hrc by lia. destruct Hrc as (f' & ->); [lia|]. rstep. split.
  - intros Hc Hv Lv. destruct (conf_lines datas ls z Hls Hc) as (n' & ->); [lia|].
    rewrite default_lines_fill, (fill_value _ _ v) by (try done; by apply value_of_tail; [|apply nul_starts_with]).
    rstep. exists f'. eexists. split; [done|]. by eapply ascii_strip_padded.
  - intros l Hc Hl Hnone Hkey.
    assert (Hln : lines (conf_data datas) = ls ++ [l ++ replicate (z + (CONF_SIZE - 512 * length datas)) 0]).
    { unfold conf_data. rewrite Hc, <- !app_assoc, <- replicate_add.
      destruct (z + (CONF_SIZE - 512 * length datas))%nat as [|n] eqn:E; [lia|].
      apply lines_unlines; [done| |by destruct l|by rewrite replicate_S_end, app_assoc, last_snoc].
      apply Forall_app. split; [by apply line_no_newline|by apply Forall_replicate]. }
    assert (Hd : take (length key_default) l = key_default) by (by apply bool_decide_eq_true in Hkey).
    assert (Hlk : (length key_default <= length l)%nat).
    { apply (f_equal (@length Z)) in Hd. rewrite length_take in Hd. lia. }
    rewrite Hln, default_lines_fill, fill_app, fill_none by done. rstep. cbn [fill]. unfold take_value, starts_with.
    rewrite take_app_le, bool_decide_eq_true_2, drop_app_le by done. unfold copy_into.
    pose proof (trim_stops is_space (drop (length key_default) l) 0 (z + (CONF_SIZE - 512 * length datas)) eq_refl) as Ht.
    fold (trim (drop (length key_default) l ++ replicate (z + (CONF_SIZE - 512 * length datas)) 0)) in Ht.
    rewrite length_replicate, (proj2 (Nat.leb_gt _ _)) by lia. done.
Qed.

(** "default  arch" in one sector. *)
Definition demo_conf : list (list Z) := [key_default ++ [32; 32; 0x61; 0x72; 0x63; 0x68]].
Definition conf_sector : list Z := unlines demo_conf ++ replicate 498 0.

Lemma conf_reader : reader (H := sector_Read conf_sector 14) [conf_sector] 14 (fun f k => f = k).
Proof. apply sector_reader; [reflexivity|lia]. Qed.

Lemma default_entry_file_correct_witness : exists f' name,
  default_entry_file (H := sector_Read conf_sector 14) 0%nat = Done (Ok name, f') /\
  ascii_strip name = [0x61; 0x72; 0x63; 0x68].
Proof.
  refine (proj1 (default_entry_file_correct [conf_sector] 14 _ 0%nat demo_conf 498 [0x61; 0x72; 0x63; 0x68]
            conf_reader _ _ _) _ _ _).
  - reflexivity.
  - repeat constructor; discriminate.
  - lia.
  - reflexivity.
  - eapply (value_some _ _ _ [] _ []); [reflexivity..|]. constructor.
  - cbn. lia.
Defined.
