(* ===== verification/Alloc.v ===== *)
(** * The page allocator (src/efi/alloc.rs)

    [Allocator] keeps a fixed array of [MAX_ALLOCATIONS] slots; the slots in
    use form a singly linked list through [next_allocation], in address order,
    each slot carrying one UEFI memory descriptor.  Every method of
    [impl Allocator] is a definition of module [Alloc]; loops over the linked
    list run on fuel [S (length allocations)]. *)

From S2P Require Import Prelude REfi.

Module Alloc.

Definition PAGE_SIZE : Z := 4096.
#[global] Arguments PAGE_SIZE : simpl never.

Record MemoryDescriptor := mkMD {
  type_ : Z;
  physical_start : Z;
  virtual_start : Z;
  number_of_pages : Z;
  attribute : Z
}.

Record Allocation := mkAllocation {
  in_use : bool;
  next_allocation : option nat;
  descriptor : MemoryDescriptor
}.

Definition MAX_ALLOCATIONS : nat := Z.to_nat 32768.

Record Allocator := mkAllocator {
  allocations : list Allocation;
  key : Z;
  first_allocation : option nat
}.

Definition default_descriptor : MemoryDescriptor := mkMD 0 0 0 0 0.
Definition default_allocation : Allocation := mkAllocation false None default_descriptor.

(** [impl Default for Allocator] *)
Definition default : Allocator :=
  mkAllocator (replicate MAX_ALLOCATIONS default_allocation) 0 None.

(** [Allocator::new] *)
Definition new : Allocator := mkAllocator (allocations default) 0 None.

(** Field assignments *)
Definition set_type (t : Z) (d : MemoryDescriptor) : MemoryDescriptor :=
  mkMD t (physical_start d) (virtual_start d) (number_of_pages d) (attribute d).
Definition set_physical_start (p : Z) (d : MemoryDescriptor) : MemoryDescriptor :=
  mkMD (type_ d) p (virtual_start d) (number_of_pages d) (attribute d).
Definition set_virtual_start (v : Z) (d : MemoryDescriptor) : MemoryDescriptor :=
  mkMD (type_ d) (physical_start d) v (number_of_pages d) (attribute d).
Definition set_pages (n : Z) (d : MemoryDescriptor) : MemoryDescriptor :=
  mkMD (type_ d) (physical_start d) (virtual_start d) n (attribute d).
Definition set_attribute (x : Z) (d : MemoryDescriptor) : MemoryDescriptor :=
  mkMD (type_ d) (physical_start d) (virtual_start d) (number_of_pages d) x.
Definition set_in_use (b : bool) (a : Allocation) : Allocation :=
  mkAllocation b (next_allocation a) (descriptor a).
Definition set_next (n : option nat) (a : Allocation) : Allocation :=
  mkAllocation (in_use a) n (descriptor a).
Definition on_desc (f : MemoryDescriptor -> MemoryDescriptor) (a : Allocation) : Allocation :=
  mkAllocation (in_use a) (next_allocation a) (f (descriptor a)).
Definition set_key (k : Z) (s : Allocator) : Allocator :=
  mkAllocator (allocations s) k (first_allocation s).
Definition set_first (o : option nat) (s : Allocator) : Allocator :=
  mkAllocator (allocations s) (key s) o.

(** [self.allocations\[i\]], read and modified in place. *)
Definition slot (s : Allocator) (i : nat) : res Allocation := index (allocations s) i.
Definition modify (s : Allocator) (i : nat) (f : Allocation -> Allocation) : res Allocator :=
  x ← slot s i;
  Done (mkAllocator (<[i := f x]> (allocations s)) (key s) (first_allocation s)).

(** The fuel of a walk along the list. *)
Definition walk_fuel (s : Allocator) : nat := S (length (allocations s)).

(** [find_free_allocation]: the scan of the array from index [i]. *)
Fixpoint find_free_from (l : list Allocation) (i : nat) : nat :=
  match l with
  | [] => MAX_ALLOCATIONS
  | a :: l' => if in_use a then find_free_from l' (S i) else i
  end.
Definition find_free_allocation (s : Allocator) : nat :=
  find_free_from (allocations s) 0.

(** Lines 95-101 of [add_initial_allocation]: the last slot of the list. *)
Fixpoint find_last (fuel : nat) (s : Allocator) (cur : option nat) (last : nat) : res nat :=
  match fuel with
  | O => OutOfFuel
  | S fuel =>
      match cur with
      | None => Done last
      | Some c => a ← slot s c; find_last fuel s (next_allocation a) c
      end
  end.

(** The fields of a fresh slot filled in by [add_initial_allocation]. *)
Definition fill_slot (memory_type : MemoryType) (page_count address attributes : Z)
    (a : Allocation) : Allocation :=
  on_desc (set_attribute attributes)
    (on_desc (set_physical_start address)
      (on_desc (set_pages page_count)
        (on_desc (set_type (memory_type_u32 memory_type))
          (set_next None (set_in_use true a))))).

Definition add_initial_allocation (s : Allocator) (memory_type : MemoryType)
    (page_count address attributes : Z) : res (Status.t * Allocator) :=
  let s := set_key (usize (key s + 1)) s in
  match first_allocation s with
  | None =>
      s ← modify s 0%nat (fill_slot memory_type page_count address attributes);
      Done (Status.SUCCESS, set_first (Some 0%nat) s)
  | Some c =>
      last ← find_last (walk_fuel s) s (Some c) c;
      let next := find_free_allocation s in
      if (next =? MAX_ALLOCATIONS)%nat then Done (Status.OUT_OF_RESOURCES, s)
      else
        s ← modify s last (set_next (Some next));
        s ← modify s next (fill_slot memory_type page_count address attributes);
        Done (Status.SUCCESS, s)
  end.

(** The test of one descriptor in [find_free_memory] (lines 147-180). *)
Definition descriptor_fits (allocation_type : AllocateType) (page_count address : Z)
    (d : MemoryDescriptor) : bool :=
  if negb (type_ d =? memory_type_u32 ConventionalMemory) then false
  else
    let alloc_bottom := physical_start d in
    let alloc_top := u64 (alloc_bottom + u64 (PAGE_SIZE * number_of_pages d)) in
    match allocation_type with
    | AllocateAddress =>
        let req_bottom := address in
        let req_top := u64 (req_bottom + u64 (PAGE_SIZE * page_count)) in
        (alloc_bottom <=? req_bottom) && (req_top <=? alloc_top)
    | AllocateAnyPages =>
        (page_count <=? number_of_pages d) && (0x100000 <? physical_start d)
    | AllocateMaxAddress =>
        let req_bottom := physical_start d in
        let req_top := u64 (req_bottom + u64 (PAGE_SIZE * page_count)) in
        (page_count <=? number_of_pages d) && (req_top <=? address)
    end.

Fixpoint find_free_memory_loop (fuel : nat) (s : Allocator) (allocation_type : AllocateType)
    (page_count address : Z) (cur : option nat) : res (option nat) :=
  match fuel with
  | O => OutOfFuel
  | S fuel =>
      match cur with
      | None => Done None
      | Some c =>
          a ← slot s c;
          if descriptor_fits allocation_type page_count address (descriptor a)
          then Done (Some c)
          else find_free_memory_loop fuel s allocation_type page_count address
                 (next_allocation a)
      end
  end.

Definition find_free_memory (s : Allocator) (allocation_type : AllocateType)
    (page_count address : Z) : res (option nat) :=
  find_free_memory_loop (walk_fuel s) s allocation_type page_count address
    (first_allocation s).

Definition split_allocation (s : Allocator) (orig : nat) (pages : Z)
    : res (option nat * Allocator) :=
  let new := find_free_allocation s in
  if (new =? MAX_ALLOCATIONS)%nat then Done (None, s)
  else
    o ← slot s orig;
    s ← modify s new (fun a =>
          on_desc (set_attribute (attribute (descriptor o)))
            (on_desc (set_type (type_ (descriptor o)))
              (on_desc (set_pages (u64 (number_of_pages (descriptor o) - pages)))
                (set_next (next_allocation o) (set_in_use true a)))));
    s ← modify s orig (fun a => on_desc (set_pages pages) (set_next (Some new) a));
    o ← slot s orig;
    s ← modify s new (on_desc (set_physical_start
          (u64 (physical_start (descriptor o) + u64 (PAGE_SIZE * pages)))));
    Done (Some new, s).

(** Lines 291-297: mark the assigned slot. *)
Definition runtime_attribute (memory_type : MemoryType) : Z :=
  match memory_type with
  | RuntimeServicesCode | RuntimeServicesData => MEMORY_RUNTIME
  | _ => 0
  end.

Definition assign (s : Allocator) (assigned : nat) (memory_type : MemoryType)
    : res ((Status.t * Z) * Allocator) :=
  s ← modify s assigned (fun a =>
        on_desc (fun d => set_attribute (Z.lor (attribute d) (runtime_attribute memory_type)) d)
          (on_desc (set_type (memory_type_u32 memory_type)) a));
  a ← slot s assigned;
  Done ((Status.SUCCESS, physical_start (descriptor a)), s).

Definition out_of_resources (s : Allocator) : res ((Status.t * Z) * Allocator) :=
  Done ((Status.OUT_OF_RESOURCES, 0), s).

Definition allocate_pages (s : Allocator) (allocate_type : AllocateType)
    (memory_type : MemoryType) (page_count address : Z)
    : res ((Status.t * Z) * Allocator) :=
  dest ← find_free_memory s allocate_type page_count address;
  match dest with
  | None => out_of_resources s
  | Some dest =>
      let s := set_key (usize (key s + 1)) s in
      d ← slot s dest;
      if number_of_pages (descriptor d) =? page_count then
        s ← modify s dest (on_desc (set_type (memory_type_u32 memory_type)));
        d ← slot s dest;
        Done ((Status.SUCCESS, physical_start (descriptor d)), s)
      else
        match allocate_type with
        | AllocateAddress =>
            if physical_start (descriptor d) =? address then
              '(split, s) ← split_allocation s dest page_count;
              match split with
              | None => out_of_resources s
              | Some _ => assign s dest memory_type
              end
            else
              let pages := u64 (address - physical_start (descriptor d)) / PAGE_SIZE in
              '(split, s) ← split_allocation s dest pages;
              match split with
              | None => out_of_resources s
              | Some split =>
                  d2 ← slot s split;
                  if page_count <? number_of_pages (descriptor d2) then
                    '(second_split, s) ← split_allocation s split page_count;
                    match second_split with
                    | None => out_of_resources s
                    | Some _ => assign s split memory_type
                    end
                  else assign s split memory_type
              end
        | AllocateMaxAddress | AllocateAnyPages =>
            '(split, s) ← split_allocation s dest page_count;
            match split with
            | None => out_of_resources s
            | Some _ => assign s dest memory_type
            end
        end
  end.

(** The condition of the merge (lines 320-324). *)
Definition mergeable (current next : MemoryDescriptor) : bool :=
  (type_ current =? memory_type_u32 ConventionalMemory)
  && (type_ next =? memory_type_u32 ConventionalMemory)
  && (physical_start next =?
        u64 (physical_start current + u64 (number_of_pages current * PAGE_SIZE))).

Fixpoint merge_free_memory_loop (fuel : nat) (s : Allocator) (cur : option nat)
    : res Allocator :=
  match fuel with
  | O => OutOfFuel
  | S fuel =>
      match cur with
      | None => Done s
      | Some current =>
          c ← slot s current;
          match next_allocation c with
          | None => Done s
          | Some next =>
              n ← slot s next;
              if mergeable (descriptor c) (descriptor n) then
                s ← modify s current (on_desc (set_pages
                      (u64 (number_of_pages (descriptor c) + number_of_pages (descriptor n)))));
                n ← slot s next;
                s ← modify s current (set_next (next_allocation n));
                s ← modify s next (set_in_use false);
                merge_free_memory_loop fuel s (Some current)
              else merge_free_memory_loop fuel s (Some next)
          end
      end
  end.

Definition merge_free_memory (s : Allocator) : res Allocator :=
  merge_free_memory_loop (walk_fuel s) s (first_allocation s).

Fixpoint free_pages_loop (fuel : nat) (s : Allocator) (address : Z) (cur : option nat)
    : res (Status.t * Allocator) :=
  match fuel with
  | O => OutOfFuel
  | S fuel =>
      match cur with
      | None => Done (Status.NOT_FOUND, s)
      | Some c =>
          a ← slot s c;
          if address =? physical_start (descriptor a) then
            s ← modify s c (on_desc (set_type (memory_type_u32 ConventionalMemory)));
            s ← merge_free_memory s;
            Done (Status.SUCCESS, s)
          else free_pages_loop fuel s address (next_allocation a)
      end
  end.

Definition free_pages (s : Allocator) (address : Z) : res (Status.t * Allocator) :=
  free_pages_loop (walk_fuel s) s address (first_allocation s).

Fixpoint get_descriptor_count_loop (fuel : nat) (s : Allocator) (cur : option nat)
    (count : nat) : res nat :=
  match fuel with
  | O => OutOfFuel
  | S fuel =>
      match cur with
      | None => Done count
      | Some c =>
          a ← slot s c;
          get_descriptor_count_loop fuel s (next_allocation a) (S count)
      end
  end.

Definition get_descriptor_count (s : Allocator) : res nat :=
  get_descriptor_count_loop (walk_fuel s) s (first_allocation s) 0.

Fixpoint get_descriptors_loop (fuel : nat) (s : Allocator) (out : list MemoryDescriptor)
    (cur : option nat) (count : nat) : res (nat * list MemoryDescriptor) :=
  match fuel with
  | O => OutOfFuel
  | S fuel =>
      match cur with
      | None => Done (count, out)
      | Some c =>
          a ← slot s c;
          out ← update out count (descriptor a);
          get_descriptors_loop fuel s out (next_allocation a) (S count)
      end
  end.

(** [out] is the caller's slice; the filled slice is returned with the count. *)
Definition get_descriptors (s : Allocator) (out : list MemoryDescriptor)
    : res (nat * list MemoryDescriptor) :=
  n ← get_descriptor_count s;
  _ ← assert_ (n <=? length out)%nat;
  get_descriptors_loop (walk_fuel s) s out (first_allocation s) 0.

(** One pass of ['outer]: [true] when a descriptor starts at [d]'s address. *)
Fixpoint update_virtual_inner (fuel : nat) (s : Allocator) (d : MemoryDescriptor)
    (cur : option nat) : res (bool * Allocator) :=
  match fuel with
  | O => OutOfFuel
  | S fuel =>
      match cur with
      | None => Done (false, s)
      | Some c =>
          a ← slot s c;
          if physical_start (descriptor a) =? physical_start d then
            s ← modify s c (on_desc (set_virtual_start (virtual_start d)));
            Done (true, s)
          else update_virtual_inner fuel s d (next_allocation a)
      end
  end.

Fixpoint update_virtual_addresses (s : Allocator) (descriptors : list MemoryDescriptor)
    : res (Status.t * Allocator) :=
  match descriptors with
  | [] => Done (Status.SUCCESS, s)
  | d :: ds =>
      '(found, s) ← update_virtual_inner (walk_fuel s) s d (first_allocation s);
      if (found : bool) then update_virtual_addresses s ds
      else Done (Status.NOT_FOUND, s)
  end.

Definition get_map_key (s : Allocator) : Z := key s.

End Alloc.
