(* ===== verification/MemMap.v ===== *)
(** * The abstract memory map

    What the allocator promises: a memory map as the list of its regions, with
    [allocate], [free] and [merge] as functions on that list, and no linked
    list, slots or machine-width arithmetic.  [AllocRepr.v] proves that the
    methods of [Alloc] implement these functions. *)

From S2P Require Import Prelude REfi Alloc.
From Stdlib Require Import Sorting.Sorted.
Import Alloc.

(** Linear arithmetic on page-sized quantities. *)
Ltac page_lia := change PAGE_SIZE with 4096 in *; norm_pow; lia.

(** A memory map is the list of its regions; the virtual address of a
    descriptor is not part of a region, since splitting leaves in the new slot
    whatever the slot's previous user had there. *)
Module Map.
Record Region := mkRegion { rtype : Z; rstart : Z; rpages : Z; rattr : Z }.

#[export] Instance Region_eq_dec : EqDecision Region.
Proof. solve_decision. Defined.

Definition region_of (d : MemoryDescriptor) : Region :=
  mkRegion (type_ d) (physical_start d) (number_of_pages d) (attribute d).

(** First address past the region. *)
Definition rend (r : Region) : Z := rstart r + PAGE_SIZE * rpages r.

Definition CONVENTIONAL : Z := memory_type_u32 ConventionalMemory.

Definition fits (t : AllocateType) (n addr : Z) (r : Region) : bool :=
  (rtype r =? CONVENTIONAL) &&
  match t with
  | AllocateAddress => (rstart r <=? addr) && (addr + PAGE_SIZE * n <=? rend r)
  | AllocateAnyPages => (n <=? rpages r) && (0x100000 <? rstart r)
  | AllocateMaxAddress => (n <=? rpages r) && (rstart r + PAGE_SIZE * n <=? addr)
  end.

Definition lower (p : Z) (r : Region) : Region :=
  mkRegion (rtype r) (rstart r) p (rattr r).
Definition upper (p : Z) (r : Region) : Region :=
  mkRegion (rtype r) (rstart r + PAGE_SIZE * p) (rpages r - p) (rattr r).
Definition retype (t : Z) (r : Region) : Region :=
  mkRegion t (rstart r) (rpages r) (rattr r).
Definition assign (m : MemoryType) (r : Region) : Region :=
  mkRegion (memory_type_u32 m) (rstart r) (rpages r)
    (Z.lor (rattr r) (runtime_attribute m)).

(** The first element satisfying [p], with what precedes and follows it. *)
Fixpoint split_first {A} (p : A -> bool) (l : list A) : option (list A * A * list A) :=
  match l with
  | [] => None
  | x :: l' =>
      if p x then Some ([], x, l')
      else match split_first p l' with
           | Some (pre, y, post) => Some (x :: pre, y, post)
           | None => None
           end
  end.

(** Carving [n] pages off the front of the region between [pre] and [post]. *)
Definition carve_front (cap : nat) (m : MemoryType) (n : Z)
    (pre : list Region) (r : Region) (post : list Region) : (Status.t * Z) * list Region :=
  if (length (pre ++ r :: post) =? cap)%nat
  then ((Status.OUT_OF_RESOURCES, 0), pre ++ r :: post)
  else ((Status.SUCCESS, rstart r), pre ++ assign m (lower n r) :: upper n r :: post).

(** Carving [n] pages after the first [k] pages of the region. *)
Definition carve_middle (cap : nat) (m : MemoryType) (k n : Z)
    (pre : list Region) (r : Region) (post : list Region) : (Status.t * Z) * list Region :=
  if (length (pre ++ r :: post) =? cap)%nat
  then ((Status.OUT_OF_RESOURCES, 0), pre ++ r :: post)
  else
    let b := upper k r in
    if n <? rpages b then
      if (S (length (pre ++ r :: post)) =? cap)%nat
      then ((Status.OUT_OF_RESOURCES, 0), pre ++ lower k r :: b :: post)
      else ((Status.SUCCESS, rstart b),
            pre ++ lower k r :: assign m (lower n b) :: upper n b :: post)
    else ((Status.SUCCESS, rstart b), pre ++ lower k r :: assign m b :: post).

Definition allocate (cap : nat) (rs : list Region) (t : AllocateType) (m : MemoryType)
    (n addr : Z) : (Status.t * Z) * list Region :=
  match split_first (fits t n addr) rs with
  | None => ((Status.OUT_OF_RESOURCES, 0), rs)
  | Some (pre, r, post) =>
      if rpages r =? n
      then ((Status.SUCCESS, rstart r), pre ++ retype (memory_type_u32 m) r :: post)
      else match t with
           | AllocateAddress =>
               if rstart r =? addr then carve_front cap m n pre r post
               else carve_middle cap m ((addr - rstart r) / PAGE_SIZE) n pre r post
           | _ => carve_front cap m n pre r post
           end
  end.

(** Appending a region at the end of the map. *)
Definition add (cap : nat) (rs : list Region) (m : MemoryType) (n addr attr : Z)
    : Status.t * list Region :=
  match rs with
  | [] => (Status.SUCCESS, [mkRegion (memory_type_u32 m) addr n attr])
  | _ =>
      if (length rs =? cap)%nat then (Status.OUT_OF_RESOURCES, rs)
      else (Status.SUCCESS, rs ++ [mkRegion (memory_type_u32 m) addr n attr])
  end.

Definition mergeable (c n : Region) : bool :=
  (rtype c =? CONVENTIONAL) && (rtype n =? CONVENTIONAL) && (rstart n =? rend c).

Fixpoint merge_from (c : Region) (rs : list Region) : list Region :=
  match rs with
  | [] => [c]
  | n :: rs' =>
      if mergeable c n
      then merge_from (mkRegion (rtype c) (rstart c) (rpages c + rpages n) (rattr c)) rs'
      else c :: merge_from n rs'
  end.

Definition merge (rs : list Region) : list Region :=
  match rs with [] => [] | r :: rs' => merge_from r rs' end.

Definition free (rs : list Region) (addr : Z) : Status.t * list Region :=
  match split_first (fun r => addr =? rstart r) rs with
  | None => (Status.NOT_FOUND, rs)
  | Some (pre, r, post) => (Status.SUCCESS, merge (pre ++ retype CONVENTIONAL r :: post))
  end.

Definition region_ok (r : Region) : Prop :=
  0 <= rstart r /\ 0 <= rpages r /\ rend r < 2 ^ 64.
Definition before (r1 r2 : Region) : Prop := rend r1 <= rstart r2.

(** Regions within the address space, in address order, not overlapping. *)
Definition map_ok (rs : list Region) : Prop :=
  Forall region_ok rs /\ StronglySorted before rs.

Lemma split_first_Some {A} (p : A -> bool) l pre x post :
  split_first p l = Some (pre, x, post) <->
  l = pre ++ x :: post /\ p x = true /\ Forall (fun y => p y = false) pre.
Proof.
  revert pre x post. induction l as [|y l IH]; intros pre x post; cbn.
  { split; [done | by intros (H%app_cons_not_nil & _)]. }
  destruct (p y) eqn:E.
  - split; [intros [= <- <- <-]; auto|]. destruct pre as [|z pre]; intros (H & Hp & Hn);
      simplify_eq/=; [done | by inversion Hn; subst; congruence].
  - destruct pre as [|w pre].
    + split; [by destruct (split_first p l) as [[[? ?] ?]|] |].
      intros (H & Hp & _). simplify_eq/=. congruence.
    + specialize (IH pre x post).
      destruct (split_first p l) as [[[pre' z] post']|]; split.
      * intros [= <- <- <- <-]. destruct IH as [IH _]. destruct IH as (-> & ? & ?); auto.
      * intros (H & Hp & Hn). simplify_eq/=. inversion Hn; subst.
        destruct IH as [_ IH].
        assert (Heq : Some (pre', z, post') = Some (pre, x, post)) by auto. by simplify_eq.
      * done.
      * intros (H & Hp & Hn). simplify_eq/=. inversion Hn; subst.
        assert (None = Some (pre, x, post)) by (apply IH; auto). done.
Qed.

Lemma split_first_None {A} (p : A -> bool) l :
  split_first p l = None <-> Forall (fun y => p y = false) l.
Proof.
  induction l as [|y l IH]; cbn; [by split; auto|].
  destruct (p y) eqn:E; [split; [done|intros H; inversion H; congruence]|].
  destruct (split_first p l) as [[[? ?] ?]|]; split; intros H; try done.
  - inversion H; subst. by apply IH in H3.
  - constructor; [done|]. by apply IH.
Qed.

Lemma split_first_map {A B} (f : A -> B) (p : B -> bool) (l : list A) :
  split_first p (map f l) =
  match split_first (fun x => p (f x)) l with
  | Some (pre, x, post) => Some (map f pre, f x, map f post)
  | None => None
  end.
Proof.
  induction l as [|y l IH]; cbn; [done|]. destruct (p (f y)) eqn:E; cbn; [done|].
  rewrite IH. by destruct (split_first _ l) as [[[? ?] ?]|].
Qed.
(** ** Well-formed maps *)

Lemma StronglySorted_app {A} (R : A -> A -> Prop) l1 l2 :
  StronglySorted R (l1 ++ l2) <->
  StronglySorted R l1 /\ StronglySorted R l2 /\ Forall (fun x => Forall (R x) l2) l1.
Proof.
  induction l1 as [|x l1 IH]; cbn.
  - split; [intros; split_and!; auto; constructor | by intros (_ & ? & _)].
  - split.
    + intros [Hs Hf]%StronglySorted_inv. apply IH in Hs as (? & ? & ?).
      apply Forall_app in Hf as [? ?]. split_and!; auto. by constructor.
    + intros ([Hs Hf]%StronglySorted_inv & ? & [? ?]%Forall_cons).
      constructor; [by apply IH | by apply Forall_app].
Qed.

Lemma StronglySorted_cons {A} (R : A -> A -> Prop) x l :
  StronglySorted R (x :: l) <-> Forall (R x) l /\ StronglySorted R l.
Proof.
  split; [by intros [? ?]%StronglySorted_inv | intros [? ?]; by constructor].
Qed.

(** The regions [mid] lie, in order, within the bounds [lo, hi]. *)
Definition within (lo hi : Z) (mid : list Region) : Prop :=
  Forall (fun r => region_ok r /\ lo <= rstart r /\ rend r <= hi) mid /\
  StronglySorted before mid.

(** Replacing one region of a map by regions within its bounds keeps the map
    well formed: this is all that splitting, assigning and merging do. *)
Lemma map_ok_replace pre r mid post :
  map_ok (pre ++ r :: post) -> within (rstart r) (rend r) mid ->
  map_ok (pre ++ mid ++ post).
Proof.
  unfold map_ok, within, before. rewrite !Forall_app, !StronglySorted_app, !Forall_cons.
  rewrite StronglySorted_cons. rewrite !Forall_forall.
  intros [(Hp & Hr & Hq) (Sp & (Hrq & Sq) & Hpr)] (Hm & Sm).
  assert (Hrr : 0 <= rpages r) by apply Hr.
  split_and!; try done.
  - intros x Hx. by destruct (Hm x Hx).
  - intros x Hx. apply Forall_forall. intros y Hy. destruct (Hm x Hx) as (_ & _ & ?).
    specialize (Hrq y Hy). lia.
  - intros x Hx. specialize (Hpr x Hx). rewrite Forall_cons in Hpr. destruct Hpr as [Hxr Hxq].
    apply Forall_app. split; [|done]. apply Forall_forall. intros y Hy.
    destruct (Hm y Hy) as (_ & ? & _). lia.
Qed.

Lemma map_ok_middle pre r post : map_ok (pre ++ r :: post) -> region_ok r.
Proof. intros [Hf _]. rewrite Forall_app, Forall_cons in Hf. tauto. Qed.

(** The two-sided case: joining two adjacent regions. *)
Lemma map_ok_join pre r1 r2 post :
  map_ok (pre ++ r1 :: r2 :: post) -> mergeable r1 r2 = true ->
  map_ok (pre ++ mkRegion (rtype r1) (rstart r1) (rpages r1 + rpages r2) (rattr r1) :: post).
Proof.
  intros [Hf Hs] Hm. unfold mergeable in Hm. bool_to_prop.
  unfold map_ok in *. revert Hf Hs.
  rewrite !Forall_app, !Forall_cons, !StronglySorted_app, !StronglySorted_cons.
  rewrite !Forall_cons. intros (Hp & (H1a & H1b & H1c) & (H2a & H2b & H2c) & Hq)
    (Sp & ((_ & Hr1) & Hr2 & Sq) & Hpr).
  unfold region_ok, rend in *; cbn. split_and!; try done; try page_lia.
  - eapply Forall_impl; [exact Hr2|]. intros y. unfold before, rend; cbn. page_lia.
  - eapply Forall_impl; [exact Hpr|]. intros y. cbn. rewrite !Forall_cons.
    intros (? & _ & ?). split; done.
Qed.
End Map.
