(* ===== verification/MapSafety.v ===== *)
(** * What the memory map guarantees

    Theorems about the abstract operations of [Map]: well-formedness is kept,
    an allocation takes exactly the pages it returns and takes them from
    conventional memory, a failed one changes the type of no address, freeing
    gives the region back and leaves no two free neighbours unmerged, and an
    allocation followed by its release restores the map. *)

From S2P Require Import Prelude REfi Alloc MemMap.
From Stdlib Require Import Sorting.Sorted.
Import Alloc Map.

(** The type of the region an address lies in. *)
Definition contains (r : Region) (a : Z) : bool := (rstart r <=? a) && (a <? rend r).

Fixpoint type_at (rs : list Region) (a : Z) : option Z :=
  match rs with
  | [] => None
  | r :: rs' => if contains r a then Some (rtype r) else type_at rs' a
  end.

Lemma type_at_app rs1 rs2 a :
  type_at (rs1 ++ rs2) a =
  match type_at rs1 a with Some t => Some t | None => type_at rs2 a end.
Proof. induction rs1 as [|r rs1 IH]; cbn; [done|]. by destruct (contains r a). Qed.

(** Case analysis on the bounds tests of [type_at]. *)
Ltac cases_at :=
  unfold contains, rend in *; cbn [rstart rpages rtype rattr lower upper retype assign] in *;
  repeat match goal with
  | |- context [(?x <=? ?y)] => destruct (Z.leb_spec x y)
  | |- context [(?x <? ?y)] => destruct (Z.ltb_spec x y)
  end; cbn; try done; try page_lia.

Lemma type_at_outside_pre pre r post a :
  map_ok (pre ++ r :: post) -> rstart r <= a < rend r -> type_at pre a = None.
Proof.
  intros [_ Hs] Ha. apply StronglySorted_app in Hs as (_ & _ & Hpre).
  induction pre as [|q pre IH]; cbn; [done|]. apply Forall_cons in Hpre as [Hq Hpre].
  apply Forall_cons in Hq as [Hq _]. unfold before in Hq. rewrite IH by done.
  unfold contains. destruct (Z.ltb_spec a (rend q)); [lia|]. by rewrite andb_false_r.
Qed.

(** The type of an address after a region is replaced by others: inside the
    region the new ones decide, elsewhere nothing changes. *)
Lemma type_at_replace pre r mid post a :
  map_ok (pre ++ r :: post) ->
  (forall b, ~ (rstart r <= b < rend r) -> type_at mid b = None) ->
  (rstart r <= a < rend r -> is_Some (type_at mid a)) ->
  type_at (pre ++ mid ++ post) a =
  if contains r a then type_at mid a else type_at (pre ++ r :: post) a.
Proof.
  intros Hok Hout Hin. rewrite !type_at_app. cbn. unfold contains in *.
  destruct (Z.leb_spec (rstart r) a), (Z.ltb_spec a (rend r)); cbn;
    [|by rewrite Hout by lia..].
  rewrite (type_at_outside_pre _ _ _ _ Hok) by lia.
  by destruct (Hin ltac:(lia)) as [t ->].
Qed.

Lemma type_at_member pre r post a :
  map_ok (pre ++ r :: post) -> rstart r <= a < rend r ->
  type_at (pre ++ r :: post) a = Some (rtype r).
Proof.
  intros Hok Ha. rewrite type_at_app, (type_at_outside_pre _ _ _ _ Hok Ha). cbn.
  unfold contains. by rewrite (proj2 (Z.leb_le _ _)), (proj2 (Z.ltb_lt _ _)) by lia.
Qed.

Lemma type_at_within lo hi mid : within lo hi mid ->
  forall b, ~ (lo <= b < hi) -> type_at mid b = None.
Proof.
  intros [Hw _] b Hb. induction mid as [|q mid IH]; cbn; [done|].
  apply Forall_cons in Hw as [(Hq & ? & ?) Hw]. rewrite IH by done.
  unfold contains. destruct (Z.leb_spec (rstart q) b), (Z.ltb_spec b (rend q)); cbn; try done; lia.
Qed.

(** ** Carving a region *)

(** The outcome of an allocation inside the region [r]: [n] pages at [base]
    taken from it. *)
Definition carved (m : MemoryType) (n base : Z) (r : Region) (mid : list Region) : Prop :=
  rstart r <= base /\ base + PAGE_SIZE * n <= rend r /\
  within (rstart r) (rend r) mid /\
  (forall a, rstart r <= a < rend r ->
     type_at mid a = Some (if (base <=? a) && (a <? base + PAGE_SIZE * n)
                           then memory_type_u32 m else rtype r)).

Ltac sorted_list :=
  split;
  [ repeat apply Forall_cons_2; try apply Forall_nil_2; unfold region_ok, rend in *; cbn in *; page_lia
  | repeat (apply StronglySorted_cons; split; [repeat apply Forall_cons_2; try apply Forall_nil_2;
      unfold before, rend in *; cbn in *; page_lia|]); constructor ].

Lemma carved_whole m r : region_ok r ->
  forall t, t = retype (memory_type_u32 m) r \/ t = assign m r ->
  carved m (rpages r) (rstart r) r [t].
Proof.
  intros (H1 & H2 & H3) t Ht. unfold carved.
  assert (Hs : rstart t = rstart r) by (by destruct Ht as [->| ->]).
  assert (Hp : rpages t = rpages r) by (by destruct Ht as [->| ->]).
  assert (Hy : rtype t = memory_type_u32 m) by (by destruct Ht as [->| ->]).
  split_and!; [lia | unfold rend; lia | | ].
  - split; [apply Forall_cons_2, Forall_nil_2 | repeat constructor].
    unfold region_ok, rend in *. rewrite Hs, Hp. page_lia.
  - intros a Ha. cbn. unfold contains, rend in *. rewrite Hs, Hp, Hy. cases_at.
Qed.

Lemma carved_front m n r : region_ok r -> 0 <= n <= rpages r ->
  carved m n (rstart r) r [assign m (lower n r); upper n r].
Proof.
  intros (H1 & H2 & H3) Hn. unfold carved.
  split_and!; [lia | unfold rend; page_lia | sorted_list |].
  intros a Ha. cbn. cases_at.
Qed.

Lemma carved_after m k n base r mid : region_ok r -> 0 <= k <= rpages r ->
  carved m n base (upper k r) mid -> carved m n base r (lower k r :: mid).
Proof.
  intros (H1 & H2 & H3) Hk (Hb1 & Hb2 & (Hw & Hs) & Ht). unfold carved, rend in *.
  cbn [rstart rpages upper lower rtype] in *. split; [page_lia|]. split; [page_lia|]. split.
  - split.
    + apply Forall_cons_2; [unfold region_ok, rend in *; cbn; page_lia|].
      eapply Forall_impl; [exact Hw|]. intros q (? & ? & ?). unfold region_ok, rend in *; cbn in *. page_lia.
    + apply StronglySorted_cons. split; [|done]. eapply Forall_impl; [exact Hw|].
      intros q (? & ? & ?). unfold before, rend in *; cbn. page_lia.
  - intros a Ha. cbn. destruct (contains (lower k r) a) eqn:E; unfold contains, rend in E; cbn in E.
    + bool_to_prop. cases_at.
    + rewrite Ht; [done|]. apply andb_false_iff in E. destruct E; bool_to_prop; page_lia.
Qed.

(** ** Allocation *)

(** The pages of a request for an address end inside the address space (the
    other requests compare page counts first). *)
Definition aligned (rs : list Region) : Prop := Forall (fun r => (PAGE_SIZE | rstart r)) rs.

(** Where an allocation may be placed. *)
Definition placed (t : AllocateType) (rs : list Region) (n addr base : Z) : Prop :=
  match t with
  | AllocateAnyPages => 0x100000 < base
  | AllocateMaxAddress => base + PAGE_SIZE * n <= addr
  | AllocateAddress =>
      base <= addr < base + PAGE_SIZE /\ (aligned rs -> (PAGE_SIZE | addr) -> base = addr)
  end.

Definition same_types (rs rs' : list Region) : Prop := forall a, type_at rs' a = type_at rs a.

(** Every way [allocate] can end. *)
Inductive alloc_result (cap : nat) (rs : list Region) (t : AllocateType) (m : MemoryType)
    (n addr : Z) : (Status.t * Z) * list Region -> Prop :=
| alloc_none :
    Forall (fun r => fits t n addr r = false) rs ->
    alloc_result cap rs t m n addr ((Status.OUT_OF_RESOURCES, 0), rs)
| alloc_full rs' :
    (cap <= S (length rs))%nat -> map_ok rs' -> same_types rs rs' ->
    alloc_result cap rs t m n addr ((Status.OUT_OF_RESOURCES, 0), rs')
| alloc_carved pre r post mid base :
    rs = pre ++ r :: post -> fits t n addr r = true -> carved m n base r mid ->
    placed t rs n addr base ->
    alloc_result cap rs t m n addr ((Status.SUCCESS, base), pre ++ mid ++ post).

Lemma fits_conventional t n addr r : fits t n addr r = true -> rtype r = CONVENTIONAL.
Proof. unfold fits. intros H. bool_to_prop. done. Qed.

Lemma fits_front t n addr r : region_ok r -> 0 <= n -> fits t n addr r = true ->
  (t = AllocateAddress -> rstart r = addr) ->
  0 <= n <= rpages r /\ forall rs, placed t rs n addr (rstart r).
Proof.
  intros (H1 & H2 & H3) Hn Hf Ht. unfold fits, rend in *. bool_to_prop.
  destruct t; bool_to_prop; cbn; [split; [lia|done] .. |].
  specialize (Ht eq_refl). split; [page_lia|]. intros rs. split; [page_lia|]. done.
Qed.

Lemma fits_middle n addr r rs :
  region_ok r -> 0 <= n -> fits AllocateAddress n addr r = true -> r ∈ rs ->
  let k := (addr - rstart r) / PAGE_SIZE in
  0 <= k <= rpages r /\ n <= rpages r - k /\
  placed AllocateAddress rs n addr (rstart (upper k r)).
Proof.
  intros (H1 & H2 & H3) Hn Hf Hr k. unfold fits, rend in *. bool_to_prop.
  assert (Hk : PAGE_SIZE * k <= addr - rstart r < PAGE_SIZE * k + PAGE_SIZE).
  { subst k. change PAGE_SIZE with 4096. mlia. }
  cbn. split_and!; [page_lia..|].
  intros Hal Ha. unfold aligned in Hal. rewrite Forall_forall in Hal. specialize (Hal r Hr).
  destruct Hal as [x Hx], Ha as [y Hy]. page_lia.
Qed.

Lemma same_types_split pre r mid post :
  map_ok (pre ++ r :: post) -> within (rstart r) (rend r) mid ->
  (forall a, rstart r <= a < rend r -> type_at mid a = Some (rtype r)) ->
  same_types (pre ++ r :: post) (pre ++ mid ++ post).
Proof.
  intros Hok Hw Ht a. rewrite (type_at_replace _ r); [| done | | ].
  - destruct (contains r a) eqn:E; [|done]. unfold contains in E. bool_to_prop.
    by rewrite Ht, type_at_member by (try done; lia).
  - by apply type_at_within.
  - intros Ha. by rewrite Ht.
Qed.

Lemma allocate_results cap rs t m n addr :
  map_ok rs -> 0 <= n -> alloc_result cap rs t m n addr (allocate cap rs t m n addr).
Proof.
  intros Hok Hn. unfold allocate.
  destruct (split_first _ rs) as [[[pre r] post]|] eqn:E;
    [|by apply alloc_none, split_first_None].
  apply split_first_Some in E as (-> & Hfit & _).
  pose proof (map_ok_middle _ _ _ Hok) as Hr.
  assert (Hfront : (t = AllocateAddress -> rstart r = addr) ->
    alloc_result cap (pre ++ r :: post) t m n addr (carve_front cap m n pre r post)).
  { intros Ht. destruct (fits_front _ _ _ _ Hr Hn Hfit Ht) as [Hp Hpl].
    unfold carve_front. destruct (Nat.eqb_spec (length (pre ++ r :: post)) cap).
    - apply alloc_full; [lia | done | done].
    - apply (alloc_carved _ _ _ _ _ _ pre r post [assign m (lower n r); upper n r]); auto using carved_front. }
  destruct (Z.eqb_spec (rpages r) n) as [<-|Hneq].
  { assert (Hbase : placed t (pre ++ r :: post) (rpages r) addr (rstart r)).
    { unfold fits, rend in Hfit. bool_to_prop. destruct t; bool_to_prop; cbn; [lia..|].
      split; [page_lia|]. intros _ _. page_lia. }
    apply (alloc_carved _ _ _ _ _ _ pre r post [retype (memory_type_u32 m) r]);
      auto using carved_whole. }
  destruct t; [apply Hfront; done..|].
  destruct (Z.eqb_spec (rstart r) addr) as [Hs|Hs]; [by apply Hfront|].
  destruct (fits_middle n addr r (pre ++ r :: post) Hr Hn Hfit ltac:(set_solver)) as (Hk & Hnk & Hpl).
  unfold carve_middle. set (k := (addr - rstart r) / PAGE_SIZE) in *.
  destruct (Nat.eqb_spec (length (pre ++ r :: post)) cap); [apply alloc_full; [lia|done|done]|].
  assert (Hok2 : region_ok (upper k r)).
  { destruct Hr as (? & ? & ?). unfold region_ok, rend in *; cbn. page_lia. }
  destruct (Z.ltb_spec n (rpages (upper k r))) as [Hlt|Hge].
  - destruct (Nat.eqb_spec (S (length (pre ++ r :: post))) cap).
    + assert (Hw : within (rstart r) (rend r) [lower k r; upper k r]).
      { destruct Hr as (? & ? & ?). sorted_list. }
      apply alloc_full; [lia | |].
      * by apply (map_ok_replace _ _ [lower k r; upper k r] _ Hok).
      * apply (same_types_split _ _ [lower k r; upper k r]); try done.
        intros a Ha. cbn. cases_at.
    + apply (alloc_carved _ _ _ _ _ _ pre r post
               [lower k r; assign m (lower n (upper k r)); upper n (upper k r)]); try done.
      apply carved_after; try done. apply carved_front; [done | lia].
  - apply (alloc_carved _ _ _ _ _ _ pre r post [lower k r; assign m (upper k r)]); try done.
    apply carved_after; try done. cbn in Hge.
    replace n with (rpages (upper k r)) by (cbn; lia). apply carved_whole; auto.
Qed.

Lemma map_ok_allocate cap rs t m n addr :
  map_ok rs -> 0 <= n -> map_ok (allocate cap rs t m n addr).2.
Proof.
  intros Hok Hn. destruct (allocate_results cap rs t m n addr Hok Hn)
    as [|rs'|pre r post mid base -> Hf (_ & _ & Hw & _) _]; cbn; [done..|].
  by eapply map_ok_replace.
Qed.

(** What a successful allocation changes. *)
Lemma carved_types pre r post mid m n base :
  map_ok (pre ++ r :: post) -> carved m n base r mid -> forall a,
  type_at (pre ++ mid ++ post) a =
  if (base <=? a) && (a <? base + PAGE_SIZE * n) then Some (memory_type_u32 m)
  else type_at (pre ++ r :: post) a.
Proof.
  intros Hok (Hb1 & Hb2 & Hw & Ht) a. rewrite (type_at_replace _ r); [| done | | ].
  - destruct (contains r a) eqn:E; unfold contains in E.
    + bool_to_prop. rewrite Ht by lia. destruct (_ && _); [done|].
      by rewrite type_at_member by (try done; lia).
    + apply andb_false_iff in E. destruct (Z.leb_spec base a), (Z.ltb_spec a (base + PAGE_SIZE * n)); cbn; try done.
      destruct E; bool_to_prop; lia.
  - by apply type_at_within.
  - intros Ha. by rewrite Ht.
Qed.

(** ** Merging *)

Definition join (c n : Region) : Region :=
  mkRegion (rtype c) (rstart c) (rpages c + rpages n) (rattr c).

Lemma map_ok_merge_from pre c rs :
  map_ok (pre ++ c :: rs) -> map_ok (pre ++ merge_from c rs).
Proof.
  revert pre c. induction rs as [|n rs IH]; intros pre c Hok; cbn; [done|].
  destruct (mergeable c n) eqn:E.
  - apply IH. by apply map_ok_join with (r2 := n).
  - rewrite cons_middle, app_assoc. apply IH. by rewrite <- app_assoc.
Qed.

Lemma map_ok_merge rs : map_ok rs -> map_ok (merge rs).
Proof. destruct rs as [|r rs]; [done|]. apply (map_ok_merge_from []). Qed.

Lemma type_at_join c n rs a : region_ok c -> region_ok n -> mergeable c n = true ->
  type_at (join c n :: rs) a = type_at (c :: n :: rs) a.
Proof.
  intros (? & ? & ?) (? & ? & ?) Hm. unfold mergeable in Hm. bool_to_prop. cbn.
  unfold join. cases_at; congruence.
Qed.

Lemma same_types_merge_from c rs :
  Forall region_ok (c :: rs) -> same_types (c :: rs) (merge_from c rs).
Proof.
  revert c. induction rs as [|n rs IH]; intros c Hok a; cbn [merge_from]; [done|].
  apply Forall_cons in Hok as [Hc Hok]. pose proof Hok as [Hn Hrs]%Forall_cons.
  destruct (mergeable c n) eqn:E.
  - rewrite <- type_at_join by done. apply IH. constructor; [|done].
    destruct Hc as (? & ? & ?), Hn as (? & ? & ?). unfold mergeable in E. bool_to_prop.
    unfold region_ok, rend in *; cbn. page_lia.
  - cbn. destruct (contains c a); [done|]. by apply IH.
Qed.

Lemma same_types_merge rs : map_ok rs -> same_types rs (merge rs).
Proof. intros [Hok _]. destruct rs as [|r rs]; [done|]. by apply same_types_merge_from. Qed.

(** No free region is left next to another. *)
Definition coalesced (rs : list Region) : Prop :=
  forall pre c n post, rs = pre ++ c :: n :: post -> mergeable c n = false.

Lemma merge_from_coalesced c rs :
  coalesced (merge_from c rs) /\
  exists p tl, merge_from c rs = mkRegion (rtype c) (rstart c) p (rattr c) :: tl.
Proof.
  revert c. induction rs as [|n rs IH]; intros c; cbn.
  - split; [|destruct c; cbn; eauto]. intros [|? [|? ?]] ? ? ? [=].
  - destruct (mergeable c n) eqn:E.
    + apply (IH (join c n)).
    + destruct (IH n) as [Hc (p & tl & Heq)]. split; [|destruct c; cbn; eauto].
      rewrite Heq in *. intros [|q pre] c' n' post [=]; subst; [done|]. by eapply Hc.
Qed.

Lemma coalesced_merge rs : coalesced (merge rs).
Proof.
  destruct rs as [|r rs]; [intros [|? ?] ? ? ? [=] |]. apply merge_from_coalesced.
Qed.

(** Merging is idempotent: a coalesced map is left as it is. *)
Lemma merge_coalesced rs : coalesced rs -> merge rs = rs.
Proof.
  destruct rs as [|r rs]; [done|]. cbn. revert r.
  induction rs as [|n rs IH]; intros r Hc; cbn; [done|].
  rewrite (Hc [] r n rs) by done. f_equal. apply IH.
  intros pre c n' post E. apply (Hc (r :: pre) c n' post). by rewrite E.
Qed.

(** ** Release *)

Lemma map_ok_retype t pre r post :
  map_ok (pre ++ r :: post) -> map_ok (pre ++ retype t r :: post).
Proof.
  intros H. apply (map_ok_replace _ _ [retype t r] _ H).
  apply map_ok_middle in H. split; [|repeat constructor].
  repeat constructor; try apply H; unfold rend; cbn; lia.
Qed.

Lemma map_ok_free rs addr : map_ok rs -> map_ok (free rs addr).2.
Proof.
  intros Hok. unfold free. destruct (split_first _ rs) as [[[pre r] post]|] eqn:E; [|done].
  apply split_first_Some in E as (-> & _ & _). by apply map_ok_merge, map_ok_retype.
Qed.

Lemma free_types rs addr rs' : map_ok rs -> free rs addr = (Status.SUCCESS, rs') ->
  coalesced rs' /\
  exists r, r ∈ rs /\ rstart r = addr /\
    forall a, type_at rs' a = if contains r a then Some CONVENTIONAL else type_at rs a.
Proof.
  intros Hok. unfold free.
  destruct (split_first _ rs) as [[[pre r] post]|] eqn:E; [|done]. intros [= <-].
  apply split_first_Some in E as (-> & Ha & _). bool_to_prop.
  split; [apply coalesced_merge|]. exists r. split; [set_solver|]. split; [done|]. intros a.
  rewrite same_types_merge by (by apply map_ok_retype).
  change (pre ++ retype CONVENTIONAL r :: post) with (pre ++ [retype CONVENTIONAL r] ++ post).
  rewrite (type_at_replace pre r [retype CONVENTIONAL r] post a Hok); cbn; unfold contains, rend; cbn.
  - by destruct (_ && _).
  - intros b Hb. unfold rend in Hb.
    destruct (Z.leb_spec (rstart r) b), (Z.ltb_spec b (rstart r + PAGE_SIZE * rpages r)); cbn; try done; lia.
  - intros Hb. rewrite (proj2 (Z.leb_le _ _)), (proj2 (Z.ltb_lt _ _)) by (unfold rend in *; lia). eauto.
Qed.

(** ** Allocation and release *)

Definition nonempty (rs : list Region) : Prop := Forall (fun r => 0 < rpages r) rs.

Lemma mergeable_halves p r : rtype r = CONVENTIONAL -> mergeable (lower p r) (upper p r) = true.
Proof.
  intros Ht. unfold mergeable, rend; cbn. by rewrite Ht, !Z.eqb_refl.
Qed.

Lemma join_halves p r : join (lower p r) (upper p r) = r.
Proof. destruct r; unfold join, lower, upper; cbn. f_equal. lia. Qed.

(** Merging undoes a split, wherever it happened in the map. *)
Lemma merge_from_split c pre p r post :
  rtype r = CONVENTIONAL ->
  merge_from c (pre ++ lower p r :: upper p r :: post) = merge_from c (pre ++ r :: post).
Proof.
  intros Ht. revert c. induction pre as [|q pre IH]; intros c; cbn [app merge_from].
  - assert (E : mergeable c (lower p r) = mergeable c r) by done. rewrite E.
    destruct (mergeable c r) eqn:Hm.
    + unfold mergeable in Hm. bool_to_prop.
      assert (Hm2 : mergeable (join c (lower p r)) (upper p r) = true).
      { unfold mergeable, rend in *; cbn. rewrite !andb_true_iff, !Z.eqb_eq. split_and!; try done. lia. }
      unfold join in Hm2. rewrite Hm2. do 2 f_equal. cbn. lia.
    + rewrite mergeable_halves by done. fold (join (lower p r) (upper p r)). by rewrite join_halves.
  - by rewrite !IH.
Qed.

Lemma merge_split pre p r post : rtype r = CONVENTIONAL ->
  merge (pre ++ lower p r :: upper p r :: post) = merge (pre ++ r :: post).
Proof.
  intros Ht. destruct pre as [|q pre]; cbn [app merge]; [|by apply merge_from_split].
  cbn [merge_from]. rewrite mergeable_halves by done. fold (join (lower p r) (upper p r)).
  by rewrite join_halves.
Qed.

(** The regions before one of a well-formed map of non-empty regions start
    elsewhere. *)
Lemma starts_before pre r post : map_ok (pre ++ r :: post) -> nonempty pre ->
  forall x, rstart r <= x -> Forall (fun q => (x =? rstart q) = false) pre.
Proof.
  intros [_ Hs] Hne x Hx. apply StronglySorted_app in Hs as (_ & _ & Hpre).
  unfold nonempty in Hne. rewrite Forall_forall in *. intros q Hq.
  specialize (Hpre q Hq). apply Forall_cons in Hpre as [Hb _]. unfold before, rend in Hb.
  specialize (Hne q Hq). apply Z.eqb_neq. page_lia.
Qed.

Lemma free_found pre r post addr :
  Forall (fun q => (addr =? rstart q) = false) pre -> rstart r = addr ->
  free (pre ++ r :: post) addr = (Status.SUCCESS, merge (pre ++ retype CONVENTIONAL r :: post)).
Proof.
  intros Hpre Hs. unfold free.
  assert (E : split_first (fun q => addr =? rstart q) (pre ++ r :: post) = Some (pre, r, post)).
  { apply split_first_Some. split_and!; try done. by apply Z.eqb_eq. }
  by rewrite E.
Qed.

Lemma retype_assign m r : rtype r = CONVENTIONAL -> runtime_attribute m = 0 ->
  retype CONVENTIONAL (assign m r) = r.
Proof. intros Ht Hm. destruct r; unfold retype, assign; cbn in *. by rewrite Hm, Z.lor_0_r, Ht. Qed.

Lemma allocate_free cap rs t m n addr base rs' :
  map_ok rs -> nonempty rs -> aligned rs -> 0 <= n ->
  (t = AllocateAddress -> (PAGE_SIZE | addr)) -> runtime_attribute m = 0 ->
  allocate cap rs t m n addr = ((Status.SUCCESS, base), rs') ->
  free rs' base = (Status.SUCCESS, merge rs).
Proof.
  intros Hok Hne Hal Hn Haddr Hm. unfold allocate.
  destruct (split_first _ rs) as [[[pre r] post]|] eqn:E; [|done].
  apply split_first_Some in E as (-> & Hfit & _).
  pose proof (fits_conventional _ _ _ _ Hfit) as Ht.
  pose proof (starts_before pre r post Hok (proj1 (proj1 (Forall_app _ _ _) Hne))) as Hpre.
  pose proof (map_ok_middle _ _ _ Hok) as Hr.
  assert (Hrt : forall q, rtype q = CONVENTIONAL -> retype CONVENTIONAL q = q) by (intros []; cbn; by intros ->).
  assert (Hfront : carve_front cap m n pre r post = ((Status.SUCCESS, base), rs') ->
    free rs' base = (Status.SUCCESS, merge (pre ++ r :: post))).
  { unfold carve_front. destruct (_ =? _)%nat; [done|]. intros [= <- <-].
    rewrite free_found by (try apply Hpre; done || lia).
    rewrite retype_assign, merge_split by done. done. }
  destruct (Z.eqb_spec (rpages r) n) as [<-|Hneq].
  { intros [= <- <-]. rewrite free_found by (try apply Hpre; done || lia).
    do 3 f_equal. destruct r; cbn in *. by rewrite Ht. }
  destruct t; [exact Hfront..|].
  destruct (Z.eqb_spec (rstart r) addr) as [Hs|Hs]; [exact Hfront|].
  unfold carve_middle. set (k := (addr - rstart r) / PAGE_SIZE).
  assert (Hk : rstart r + PAGE_SIZE * k = addr /\ 0 < k).
  { unfold aligned in Hal. rewrite Forall_forall in Hal. destruct (Hal r) as [x Hx]; [set_solver|].
    destruct (Haddr eq_refl) as [y Hy]. unfold fits in Hfit. bool_to_prop.
    subst k. rewrite Hx, Hy. change PAGE_SIZE with 4096 in *. mlia. }
  assert (Hpre2 : Forall (fun q => (rstart r + PAGE_SIZE * k =? rstart q) = false) (pre ++ [lower k r])).
  { apply Forall_app. split; [apply Hpre; page_lia|]. apply Forall_cons_2, Forall_nil_2.
    apply Z.eqb_neq. cbn. page_lia. }
  destruct (_ =? _)%nat; [done|]. destruct (Z.ltb_spec n (rpages (upper k r))) as [Hlt|Hge].
  - destruct (_ =? _)%nat; [done|]. intros [= <- <-]. rewrite cons_middle, app_assoc.
    rewrite free_found by done. rewrite retype_assign by done.
    rewrite merge_split, <- app_assoc by done. cbn [app]. by rewrite merge_split.
  - intros [= <- <-]. rewrite cons_middle, app_assoc.
    rewrite free_found by done. rewrite retype_assign by done.
    rewrite <- app_assoc. cbn [app]. by rewrite merge_split.
Qed.
