(* ===== verification/AllocRepr.v ===== *)
(** * The allocator's linked list

    The representation predicate [repr s l ds]: the slots in use of [s] are
    exactly the indices [l], linked in that order from [first_allocation], and
    [ds] are their descriptors.  Each method of [Alloc] is given its effect on
    [l] and [ds]; the loops are shown to end within their fuel. *)

From S2P Require Import Prelude REfi Alloc MemMap.
Import Alloc.

(** [lseg als c l ds e]: following [next_allocation] from [c] visits the
    slots [l] with descriptors [ds] and ends at [e]. *)
Fixpoint lseg (als : list Allocation) (c : option nat) (l : list nat)
    (ds : list MemoryDescriptor) (e : option nat) : Prop :=
  match l, ds with
  | [], [] => c = e
  | i :: l, d :: ds =>
      c = Some i /\ exists a, als !! i = Some a /\ descriptor a = d /\
      lseg als (next_allocation a) l ds e
  | _, _ => False
  end.

Record repr (s : Allocator) (l : list nat) (ds : list MemoryDescriptor) : Prop := {
  repr_len : length (allocations s) = MAX_ALLOCATIONS;
  repr_chain : lseg (allocations s) (first_allocation s) l ds None;
  repr_nodup : NoDup l;
  repr_used : forall i a, allocations s !! i = Some a -> (in_use a = true <-> i ∈ l)
}.

Lemma lseg_length als c l ds e : lseg als c l ds e -> length l = length ds.
Proof.
  revert c ds. induction l as [|i l IH]; intros c [|d ds] H; cbn in *; try done.
  destruct H as (_ & a & _ & _ & H). by rewrite (IH _ _ H).
Qed.

Lemma lseg_app als c l1 l2 ds1 ds2 e : length l1 = length ds1 ->
  lseg als c (l1 ++ l2) (ds1 ++ ds2) e <->
  exists m, lseg als c l1 ds1 m /\ lseg als m l2 ds2 e.
Proof.
  revert c ds1. induction l1 as [|i l1 IH]; intros c [|d ds1] Hl; cbn in *; try done.
  - split; [eauto | by intros (m & -> & ?)].
  - split.
    + intros (-> & a & ? & ? & H). apply IH in H as (m & ? & ?); [eauto 10 | lia].
    + intros (m & (-> & a & ? & ? & ?) & ?). split; [done|].
      exists a. do 2 (split; [done|]). apply IH; [lia | eauto].
Qed.

Lemma lseg_insert als c l ds e i x :
  i ∉ l -> lseg als c l ds e -> lseg (<[i := x]> als) c l ds e.
Proof.
  revert c ds. induction l as [|j l IH]; intros c [|d ds] Hi H; cbn in *; try done.
  apply not_elem_of_cons in Hi as [Hij Hi]. destruct H as (-> & a & Ha & Hd & H).
  split; [done|]. exists a. rewrite list_lookup_insert_ne by done. auto.
Qed.

(** A chain is unaffected by changes to slots outside it. *)
Lemma lseg_frame als als' i k c l ds e :
  (forall j, j <> i -> j <> k -> als' !! j = als !! j) ->
  lseg als c l ds e -> i ∉ l -> k ∉ l -> lseg als' c l ds e.
Proof.
  intros Hother. revert c ds. induction l as [|j l IH]; intros c [|d ds] H Hi Hk;
    cbn in *; try done.
  apply not_elem_of_cons in Hi as [? ?], Hk as [? ?].
  destruct H as (-> & a & Hj & Hd & H). split; [done|]. exists a.
  rewrite Hother by done. auto.
Qed.

Lemma lseg_lookup_lt als c l ds e i :
  lseg als c l ds e -> i ∈ l -> (i < length als)%nat.
Proof.
  revert c ds. induction l as [|j l IH]; intros c [|d ds] H Hi; cbn in *;
    try done; [by apply elem_of_nil in Hi |].
  destruct H as (_ & a & Ha & _ & H).
  apply elem_of_cons in Hi as [->|Hi]; [by eapply lookup_lt_Some | eauto].
Qed.

(** A chain determines the descriptors on it. *)
Lemma lseg_unique als c l ds l' ds' : lseg als c l ds None -> lseg als c l' ds' None -> ds = ds'.
Proof.
  revert c ds l' ds'. induction l as [|i l IH]; intros c [|d ds] [|i' l'] [|d' ds'] H1 H2; cbn in *; try done.
  - by destruct H2 as [-> _].
  - by destruct H1 as [-> _].
  - destruct H1 as (-> & a & Ha & <- & H1), H2 as ([= <-] & a' & Ha' & <- & H2).
    rewrite Ha in Ha'. injection Ha' as <-. f_equal. by eapply IH.
Qed.

(** ** Free slots *)

Lemma find_free_from_spec als i :
  (find_free_from als i = MAX_ALLOCATIONS /\ Forall (fun a => in_use a = true) als) \/
  exists k a, find_free_from als i = (i + k)%nat /\ als !! k = Some a /\ in_use a = false.
Proof.
  revert i. induction als as [|a als IH]; intros i; cbn; [by left; auto|].
  destruct (in_use a) eqn:E.
  - destruct (IH (S i)) as [[-> ?]|(k & b & -> & ? & ?)]; [left; auto|].
    right. exists (S k), b. split; [lia | auto].
  - right. exists 0%nat, a. split; [lia | auto].
Qed.

Lemma bounded_nodup_length (l : list nat) n :
  NoDup l -> Forall (fun i => (i < n)%nat) l -> (length l <= n)%nat.
Proof.
  intros Hnd Hlt. rewrite <- (length_seq n 0). apply submseteq_length, NoDup_submseteq; [done|].
  intros x Hx. rewrite Forall_forall in Hlt. apply elem_of_seq. specialize (Hlt x Hx). lia.
Qed.

(** Either there is a free slot, found by the scan and not in the list, or
    the list fills the array. *)
Lemma find_free_spec s l ds : repr s l ds ->
  ((find_free_allocation s < MAX_ALLOCATIONS)%nat /\ (length l < MAX_ALLOCATIONS)%nat /\
   find_free_allocation s ∉ l) \/
  (find_free_allocation s = MAX_ALLOCATIONS /\ length l = MAX_ALLOCATIONS).
Proof.
  intros [Hlen Hch Hnd Hu]. unfold find_free_allocation.
  assert (Hlt : Forall (fun i => (i < MAX_ALLOCATIONS)%nat) l).
  { apply Forall_forall. intros i Hi. rewrite <- Hlen. eapply lseg_lookup_lt; eauto. }
  destruct (find_free_from_spec (allocations s) 0) as [[Hf Hall]|(k & a & Hf & Hk & Hfree)].
  - right. split; [done|]. apply Nat.le_antisymm; [by apply bounded_nodup_length|].
    rewrite <- (length_seq MAX_ALLOCATIONS 0).
    apply submseteq_length, NoDup_submseteq; [apply NoDup_seq|].
    intros i Hi%elem_of_seq. destruct (lookup_lt_is_Some_2 (allocations s) i) as [a Ha]; [lia|].
    apply (Hu i a Ha). rewrite Forall_forall in Hall. by eapply Hall, list_elem_of_lookup_2.
  - left. rewrite Hf. cbn. pose proof (lookup_lt_Some _ _ _ Hk).
    assert (k ∉ l) by (rewrite <- (Hu k a Hk); congruence).
    split; [lia|]. split; [|done].
    assert (S (length l) <= MAX_ALLOCATIONS)%nat; [|lia].
    apply (bounded_nodup_length (k :: l)); [by constructor|].
    constructor; [lia | done].
Qed.

Lemma find_free_eqb_max s l ds : repr s l ds ->
  ((find_free_allocation s =? MAX_ALLOCATIONS)%nat = true /\ length l = MAX_ALLOCATIONS) \/
  ((find_free_allocation s =? MAX_ALLOCATIONS)%nat = false /\
   (length l < MAX_ALLOCATIONS)%nat /\ find_free_allocation s ∉ l).
Proof.
  intros Hr. destruct (find_free_spec _ _ _ Hr) as [(?&?&?)|[-> ?]].
  - right. split; [apply Nat.eqb_neq; lia | auto].
  - left. by rewrite Nat.eqb_refl.
Qed.

(** ** Slots of the list *)

Lemma repr_slot s l1 i l2 ds1 d ds2 :
  length l1 = length ds1 -> repr s (l1 ++ i :: l2) (ds1 ++ d :: ds2) ->
  exists a, allocations s !! i = Some a /\ descriptor a = d /\ in_use a = true /\
    lseg (allocations s) (first_allocation s) l1 ds1 (Some i) /\
    lseg (allocations s) (next_allocation a) l2 ds2 None.
Proof.
  intros Hl [_ Hch Hnd Hu]. apply lseg_app in Hch as (m & H1 & -> & a & Ha & Hd & H2); [|done].
  exists a. split_and!; try done. apply (Hu i a Ha). set_solver.
Qed.

Lemma modify_Done s i a f : allocations s !! i = Some a ->
  modify s i f = Done (mkAllocator (<[i := f a]> (allocations s)) (key s) (first_allocation s)).
Proof. intros H. unfold modify, slot, index. by rewrite H. Qed.

Lemma slot_Done s i a : allocations s !! i = Some a -> slot s i = Done a.
Proof. intros H. unfold slot, index. by rewrite H. Qed.

#[export] Hint Rewrite @list_lookup_insert_eq using (rewrite ?length_insert; lia) : firmware.
#[export] Hint Rewrite @list_lookup_insert_ne using congruence : firmware.

(** Rewriting one slot of the list in place: the links are kept, the
    descriptor is replaced. *)
Lemma repr_update s l1 i l2 ds1 d ds2 a b d' :
  length l1 = length ds1 -> repr s (l1 ++ i :: l2) (ds1 ++ d :: ds2) ->
  allocations s !! i = Some a ->
  in_use b = in_use a -> next_allocation b = next_allocation a -> descriptor b = d' ->
  forall k, repr (mkAllocator (<[i := b]> (allocations s)) k (first_allocation s))
    (l1 ++ i :: l2) (ds1 ++ d' :: ds2).
Proof.
  intros Hl Hr Ha Hin Hn <- k.
  destruct (repr_slot _ _ _ _ _ _ _ Hl Hr) as (a' & Ha' & Hd & Hin' & H1 & H2).
  simplify_eq. destruct Hr as [Hlen Hch Hnd Hu].
  pose proof (lookup_lt_Some _ _ _ Ha).
  assert ((i ∉ l1) /\ (i ∉ l2)) as [Hi1 Hi2].
  { apply NoDup_app in Hnd as (_ & Hx & Hnd). apply NoDup_cons in Hnd as [? _].
    split; [|done]. intros ?. by apply (Hx i); [|left]. }
  split; cbn.
  - by rewrite length_insert.
  - apply lseg_app; [done|]. exists (Some i). split; [by apply lseg_insert|].
    split; [done|]. exists b. rewrite list_lookup_insert_eq by done.
    split_and!; [done|done|]. rewrite Hn. by apply lseg_insert.
  - done.
  - intros j c Hj. destruct (decide (i = j)) as [<-|Hne].
    + rewrite list_lookup_insert_eq in Hj by done. simplify_eq. rewrite Hin. eauto.
    + rewrite list_lookup_insert_ne in Hj by done. eauto.
Qed.

(** ** Splitting a slot *)

(** Splicing a fresh slot [k] after the slot [i] of the list. *)
Lemma repr_splice s als' l1 i l2 ds1 d ds2 a k ai ak di dk :
  length l1 = length ds1 -> repr s (l1 ++ i :: l2) (ds1 ++ d :: ds2) ->
  allocations s !! i = Some a -> k ∉ l1 ++ i :: l2 ->
  length als' = length (allocations s) ->
  als' !! i = Some ai -> als' !! k = Some ak ->
  (forall j, j <> i -> j <> k -> als' !! j = allocations s !! j) ->
  in_use ai = true -> next_allocation ai = Some k ->
  in_use ak = true -> next_allocation ak = next_allocation a ->
  descriptor ai = di -> descriptor ak = dk ->
  forall key, repr (mkAllocator als' key (first_allocation s))
    (l1 ++ i :: k :: l2) (ds1 ++ di :: dk :: ds2).
Proof.
  intros Hl Hr Ha Hk Hlen' Hai Hak Hother Hui Hni Huk Hnk <- <- key.
  destruct (repr_slot _ _ _ _ _ _ _ Hl Hr) as (a' & Ha' & Hd & Hin' & H1 & H2).
  simplify_eq. destruct Hr as [Hlen Hch Hnd Hu].
  assert ((i ∉ l1) /\ (i ∉ l2)) as [Hi1 Hi2].
  { apply NoDup_app in Hnd as (_ & Hx & Hnd). apply NoDup_cons in Hnd as [? _].
    split; [|done]. intros ?. by apply (Hx i); [|left]. }
  pose proof (fun c l ds e => lseg_frame (allocations s) als' i k c l ds e Hother) as Hfr.
  split; cbn.
  - congruence.
  - apply lseg_app; [done|]. exists (Some i). split; [apply Hfr; set_solver|].
    split; [done|]. exists ai. split_and!; [done..|]. rewrite Hni. split; [done|].
    exists ak. split_and!; [done..|]. rewrite Hnk. apply Hfr; set_solver.
  - apply NoDup_app in Hnd as (? & ? & Hnd). apply NoDup_cons in Hnd as [? ?].
    apply NoDup_app. split_and!; [done | set_solver |].
    apply NoDup_cons. split; [set_solver|]. apply NoDup_cons. set_solver.
  - intros j b Hj. destruct (decide (j = i)) as [->|Hji]; [set_solver|].
    destruct (decide (j = k)) as [->|Hjk]; [set_solver|].
    rewrite Hother in Hj by done. rewrite (Hu _ _ Hj). set_solver.
Qed.

(** [split_allocation] on the slot [i] of the list: out of slots, nothing
    changes; otherwise a fresh slot takes the upper part. *)
Lemma split_allocation_spec s l1 i l2 ds1 d ds2 p :
  length l1 = length ds1 -> repr s (l1 ++ i :: l2) (ds1 ++ d :: ds2) ->
  (length (l1 ++ i :: l2) = MAX_ALLOCATIONS /\ split_allocation s i p = Done (None, s)) \/
  ((length (l1 ++ i :: l2) < MAX_ALLOCATIONS)%nat /\
   exists k v s', split_allocation s i p = Done (Some k, s') /\
     key s' = key s /\
     repr s' (l1 ++ i :: k :: l2)
       (ds1 ++ set_pages p d ::
          mkMD (type_ d) (u64 (physical_start d + u64 (PAGE_SIZE * p))) v
            (u64 (number_of_pages d - p)) (attribute d) :: ds2)).
Proof.
  intros Hl Hr. unfold split_allocation.
  destruct (find_free_eqb_max _ _ _ Hr) as [[-> Hmax]|(-> & Hmax & Hk)]; [by left|].
  right. split; [done|].
  destruct (repr_slot _ _ _ _ _ _ _ Hl Hr) as (a & Ha & Hd & Hin & H1 & H2). subst d.
  set (k := find_free_allocation s) in *.
  assert (Hik : i <> k) by set_solver.
  pose proof (lookup_lt_Some _ _ _ Ha) as Hilt.
  assert (Hklt : (k < length (allocations s))%nat).
  { rewrite (repr_len _ _ _ Hr). destruct (find_free_spec _ _ _ Hr) as [(? & _)|[? ?]]; lia. }
  destruct (lookup_lt_is_Some_2 _ _ Hklt) as [b Hb].
  rewrite (slot_Done _ _ _ Ha); cbn.
  erewrite (modify_Done s k); [|exact Hb]; cbn.
  erewrite modify_Done; [|cbn; rewrite list_lookup_insert_ne by done; exact Ha]; cbn.
  erewrite slot_Done; [|cbn; apply list_lookup_insert_eq; by rewrite length_insert]; cbn.
  erewrite modify_Done; cbn;
    [|rewrite list_lookup_insert_ne by done; by apply list_lookup_insert_eq]; cbn.
  exists k, (virtual_start (descriptor b)). eexists. split; [reflexivity|].
  split; [reflexivity|].
  eapply repr_splice; [exact Hl | exact Hr | exact Ha | exact Hk | ..].
  - by rewrite !length_insert.
  - rewrite list_lookup_insert_ne by done. apply list_lookup_insert_eq.
    by rewrite length_insert.
  - apply list_lookup_insert_eq. by rewrite !length_insert.
  - intros j Hj1 Hj2. by rewrite !list_lookup_insert_ne by done.
  - done.
  - done.
  - done.
  - done.
  - done.
  - done.
Qed.

(** ** Walks along the list *)

Lemma walk_fuel_enough s l ds : repr s l ds -> (length l < walk_fuel s)%nat.
Proof.
  intros Hr. unfold walk_fuel. rewrite (repr_len _ _ _ Hr).
  destruct (find_free_spec _ _ _ Hr) as [(?&?&?)|[? ?]]; lia.
Qed.

(** The slot whose descriptor a [split_first] found. *)
Lemma slot_at_split {A} (l : list nat) (pre post : list A) x :
  length l = length (pre ++ x :: post) ->
  exists l1 i l2, l = l1 ++ i :: l2 /\ length l1 = length pre /\ l !! length pre = Some i.
Proof.
  intros Hlen. rewrite length_app in Hlen; cbn in Hlen.
  destruct (lookup_lt_is_Some_2 l (length pre)) as [i Hi]; [lia|].
  exists (take (length pre) l), i, (drop (S (length pre)) l).
  rewrite take_drop_middle by done. split_and!; [done | | done].
  rewrite length_take. lia.
Qed.

Lemma find_free_memory_loop_spec fuel s t n addr cur l ds :
  lseg (allocations s) cur l ds None -> (length l < fuel)%nat ->
  find_free_memory_loop fuel s t n addr cur =
  Done (match Map.split_first (descriptor_fits t n addr) ds with
        | Some (pre, _, _) => l !! length pre
        | None => None
        end).
Proof.
  revert cur l ds. induction fuel as [|fuel IH]; intros cur l ds H Hf; [lia|].
  destruct l as [|i l], ds as [|d ds]; cbn in H; try done.
  - by subst.
  - destruct H as (-> & a & Ha & Hd & H). subst d. cbn.
    rewrite (slot_Done _ _ _ Ha); cbn.
    destruct (descriptor_fits _ _ _ _); cbn; [done|].
    rewrite (IH _ l ds) by (cbn in *; eauto with lia).
    by destruct (Map.split_first _ ds) as [[[? ?] ?]|].
Qed.

Lemma find_last_spec fuel s cur l ds last :
  lseg (allocations s) cur l ds None -> (length l < fuel)%nat ->
  find_last fuel s cur last = Done (List.last l last).
Proof.
  revert cur l ds last. induction fuel as [|fuel IH]; intros cur l ds last H Hf; [lia|].
  destruct l as [|i l], ds as [|d ds]; cbn in H; try done.
  - by subst.
  - destruct H as (-> & a & Ha & Hd & H). subst d. cbn [find_last].
    rewrite (slot_Done _ _ _ Ha); cbn [mbind res_bind].
    rewrite (IH _ l ds) by (cbn in *; eauto with lia).
    f_equal. clear. revert i. by induction l as [|j l IH]; intros i; cbn; [|destruct l].
Qed.

Lemma get_descriptor_count_loop_spec fuel s cur l ds n :
  lseg (allocations s) cur l ds None -> (length l < fuel)%nat ->
  get_descriptor_count_loop fuel s cur n = Done (n + length ds)%nat.
Proof.
  revert cur l ds n. induction fuel as [|fuel IH]; intros cur l ds n H Hf; [lia|].
  destruct l as [|i l], ds as [|d ds]; cbn in H; try done.
  - subst. cbn. f_equal. lia.
  - destruct H as (-> & a & Ha & Hd & H). cbn. rewrite (slot_Done _ _ _ Ha); cbn.
    rewrite (IH _ l ds) by (cbn in *; eauto with lia). f_equal. lia.
Qed.

Lemma get_descriptor_count_spec s l ds : repr s l ds ->
  get_descriptor_count s = Done (length ds).
Proof.
  intros Hr. unfold get_descriptor_count.
  by rewrite (get_descriptor_count_loop_spec _ _ _ l ds)
    by eauto using repr_chain, walk_fuel_enough.
Qed.

Lemma get_descriptors_loop_spec fuel s cur l ds done out :
  lseg (allocations s) cur l ds None -> (length l < fuel)%nat ->
  (length ds <= length out)%nat ->
  get_descriptors_loop fuel s (done ++ out) cur (length done) =
  Done ((length done + length ds)%nat, done ++ ds ++ drop (length ds) out).
Proof.
  revert cur l ds done out. induction fuel as [|fuel IH]; intros cur l ds done out H Hf Ho; [lia|].
  destruct l as [|i l], ds as [|d ds]; cbn in H; try done.
  - subst. cbn. rewrite drop_0. do 2 f_equal. lia.
  - destruct H as (-> & a & Ha & Hd & H). subst d. cbn. rewrite (slot_Done _ _ _ Ha); cbn.
    destruct out as [|o out]; [cbn in Ho; lia|].
    rewrite update_lt by (rewrite length_app; cbn; lia). cbn.
    rewrite insert_app_r_alt, Nat.sub_diag by lia. cbn.
    rewrite (cons_middle (descriptor a) done out), app_assoc.
    replace (S (length done)) with (length (done ++ [descriptor a]))
      by (rewrite length_app; cbn; lia).
    rewrite (IH _ l ds) by (cbn in *; eauto with lia).
    rewrite length_app, <- app_assoc. cbn. do 2 f_equal. lia.
Qed.

(** [get_descriptors] fills the caller's slice with the map, in order. *)
Lemma get_descriptors_spec s l ds out : repr s l ds -> (length ds <= length out)%nat ->
  get_descriptors s out = Done (length ds, ds ++ drop (length ds) out).
Proof.
  intros Hr Ho. unfold get_descriptors. rewrite (get_descriptor_count_spec _ _ _ Hr); rstep.
  unfold assert_. rewrite (proj2 (Nat.leb_le _ _)) by lia. rstep.
  apply (get_descriptors_loop_spec _ _ _ l ds []); eauto using repr_chain, walk_fuel_enough.
Qed.

(** ** Unlinking the slot [k] after the slot [i] *)
Lemma repr_unlink s als' l1 i k l2 ds1 d1 d2 ds2 a b ai ak di :
  length l1 = length ds1 -> repr s (l1 ++ i :: k :: l2) (ds1 ++ d1 :: d2 :: ds2) ->
  allocations s !! i = Some a -> allocations s !! k = Some b ->
  length als' = length (allocations s) ->
  als' !! i = Some ai -> als' !! k = Some ak ->
  (forall j, j <> i -> j <> k -> als' !! j = allocations s !! j) ->
  in_use ai = in_use a -> next_allocation ai = next_allocation b ->
  in_use ak = false -> descriptor ai = di ->
  forall key, repr (mkAllocator als' key (first_allocation s))
    (l1 ++ i :: l2) (ds1 ++ di :: ds2).
Proof.
  intros Hl Hr Ha Hb Hlen' Hai Hak Hother Hui Hni Huk <- key.
  destruct (repr_slot _ _ _ _ _ _ _ Hl Hr) as (a' & Ha' & Hd & Hin' & H1 & H2).
  simplify_eq. destruct Hr as [Hlen Hch Hnd Hu].
  destruct H2 as (_ & b' & Hb' & Hd2 & H2). simplify_eq.
  pose proof Hnd as Hnd0.
  apply NoDup_app in Hnd as (Hn1 & Hx & Hnd). apply NoDup_cons in Hnd as [Hi Hnd].
  apply NoDup_cons in Hnd as [Hk Hnd].
  pose proof (fun c l ds e => lseg_frame (allocations s) als' i k c l ds e Hother) as Hfr.
  split; cbn.
  - congruence.
  - apply lseg_app; [done|]. exists (Some i). split; [apply Hfr; set_solver|].
    split; [done|]. exists ai. split_and!; [done..|]. rewrite Hni. apply Hfr; set_solver.
  - apply NoDup_app. split_and!; [done | set_solver |]. apply NoDup_cons. set_solver.
  - intros j c Hj. destruct (decide (j = i)) as [->|Hji]; [set_solver|].
    destruct (decide (j = k)) as [->|Hjk].
    + simplify_eq. rewrite Huk. split; [done|]. intros [?|Hin]%elem_of_app; [set_solver|].
      apply elem_of_cons in Hin as [?|?]; set_solver.
    + rewrite Hother in Hj by done. rewrite (Hu _ _ Hj). set_solver.
Qed.

(** ** Appending a slot *)
Lemma repr_append s l ds i a k b ai ak dk :
  repr s (l ++ [i]) ds -> allocations s !! i = Some a -> k ∉ l ++ [i] ->
  allocations s !! k = Some b ->
  in_use ai = in_use a -> next_allocation ai = Some k -> descriptor ai = descriptor a ->
  in_use ak = true -> next_allocation ak = None -> descriptor ak = dk ->
  forall key, repr (mkAllocator (<[k := ak]> (<[i := ai]> (allocations s))) key
    (first_allocation s)) ((l ++ [i]) ++ [k]) (ds ++ [dk]).
Proof.
  intros Hr Ha Hk Hb Hui Hni Hdi Huk Hnk <- key.
  assert (exists ds1 d, ds = ds1 ++ [d] /\ length l = length ds1) as (ds1 & d & -> & Hl).
  { pose proof (lseg_length _ _ _ _ _ (repr_chain _ _ _ Hr)) as Hlen.
    destruct ds as [|d ds1 _] using rev_ind.
    - rewrite length_app in Hlen; cbn in Hlen. lia.
    - rewrite !length_app in Hlen; cbn in Hlen. exists ds1, d. split; [done|lia]. }
  destruct (repr_slot _ _ _ _ _ _ _ Hl Hr) as (a' & Ha' & Hd & Hin' & H1 & H2). simplify_eq.
  pose proof (lookup_lt_Some _ _ _ Ha). pose proof (lookup_lt_Some _ _ _ Hb).
  rewrite <- !app_assoc. cbn. cbn in H2.
  eapply (repr_splice s _ l i [] ds1 (descriptor a) [] a k ai ak); try done.
  - by rewrite !length_insert.
  - rewrite list_lookup_insert_ne by set_solver. by apply list_lookup_insert_eq.
  - apply list_lookup_insert_eq. by rewrite length_insert.
  - intros j Hj1 Hj2. by rewrite !list_lookup_insert_ne by done.
  - congruence.
  - congruence.
Qed.
