(* ===== verification/AllocRefine.v ===== *)
(** * The allocator implements the memory map

    Functional refinement of [Alloc] by [Map]: on an allocator that
    represents a well-formed map, every method returns (no panic, no
    exhausted fuel) with the status, address and map the abstract operation
    gives. *)

From S2P Require Import Prelude REfi Alloc MemMap MapSafety AllocRepr.
From Stdlib Require Import Sorting.Sorted.
Import Alloc.

Abbreviation regions ds := (map Map.region_of ds).

(** The allocator [s] holds the well-formed memory map [rs]. *)
Definition holds (s : Allocator) (rs : list Map.Region) : Prop :=
  exists l ds, repr s l ds /\ rs = regions ds /\ Map.map_ok rs.

Lemma repr_set_key s l ds k : repr s l ds -> repr (set_key k s) l ds.
Proof. intros [? ? ? ?]. by split. Qed.

(** ** Requests that do not wrap *)

(** A request for pages at an address must end inside the address space; the
    other two kinds of request compare page counts before any arithmetic. *)
Definition request_ok (t : AllocateType) (n addr : Z) : Prop :=
  0 <= n /\ 0 <= addr /\ (t = AllocateAddress -> addr + PAGE_SIZE * n < 2 ^ 64).

Lemma fits_refines t n addr d :
  Map.region_ok (Map.region_of d) -> request_ok t n addr ->
  descriptor_fits t n addr d = Map.fits t n addr (Map.region_of d).
Proof.
  intros (H1 & H2 & H3) (Hn & Ha & Hov). unfold Map.rend in H3. cbn in *.
  unfold descriptor_fits, Map.fits, Map.CONVENTIONAL, Map.rend; cbn.
  destruct (type_ d =? _); cbn; [|done].
  destruct t; [done| |].
  - destruct (Z.leb_spec n (number_of_pages d)); cbn; [|done].
    rewrite (wrap_small 64 (PAGE_SIZE * n)), (wrap_small 64 (physical_start d + _)) by page_lia. done.
  - specialize (Hov eq_refl).
    rewrite (wrap_small 64 (PAGE_SIZE * number_of_pages d)) by page_lia.
    rewrite (wrap_small 64 (physical_start d + _)) by page_lia.
    rewrite (wrap_small 64 (PAGE_SIZE * n)), (wrap_small 64 (addr + _)) by page_lia. done.
Qed.

Lemma split_first_ext {A} (p q : A -> bool) l : Forall (fun x => p x = q x) l ->
  Map.split_first p l = Map.split_first q l.
Proof. induction 1 as [|x l Hx _ IH]; cbn; [done|]. by rewrite Hx, IH. Qed.

Lemma find_free_memory_spec s l ds t n addr :
  repr s l ds -> Map.map_ok (regions ds) -> request_ok t n addr ->
  find_free_memory s t n addr =
  Done (match Map.split_first (Map.fits t n addr) (regions ds) with
        | Some (pre, _, _) => l !! length pre
        | None => None
        end).
Proof.
  intros Hr [Hok _] Hreq. unfold find_free_memory.
  rewrite (find_free_memory_loop_spec _ _ _ _ _ _ l ds)
    by eauto using repr_chain, walk_fuel_enough.
  rewrite Map.split_first_map.
  rewrite (split_first_ext _ (fun d => Map.fits t n addr (Map.region_of d))).
  - destruct (Map.split_first _ ds) as [[[? ?] ?]|]; [|done]. by rewrite length_map.
  - rewrite Forall_map in Hok. eapply Forall_impl; [exact Hok|].
    intros d Hd. by apply fits_refines.
Qed.

(** ** Marking and splitting, on regions *)

Lemma assign_refines s l1 i l2 ds1 d ds2 m :
  length l1 = length ds1 -> repr s (l1 ++ i :: l2) (ds1 ++ d :: ds2) ->
  exists s' d', assign s i m = Done ((Status.SUCCESS, physical_start d), s') /\
    repr s' (l1 ++ i :: l2) (ds1 ++ d' :: ds2) /\
    Map.region_of d' = Map.assign m (Map.region_of d).
Proof.
  intros Hl Hr. destruct (repr_slot _ _ _ _ _ _ _ Hl Hr) as (a & Ha & <- & _).
  unfold assign. erewrite modify_Done by exact Ha. rstep.
  erewrite slot_Done by (cbn; apply list_lookup_insert_eq; by eapply lookup_lt_Some).
  rstep. do 2 eexists. split; [reflexivity|].
  split; [by eapply (repr_update s l1 i l2 ds1 (descriptor a) ds2 a) | done].
Qed.

(** What [split_allocation] does to the map, when the split point is inside
    the region. *)
Lemma split_refines s l1 i l2 ds1 d ds2 p :
  length l1 = length ds1 -> repr s (l1 ++ i :: l2) (ds1 ++ d :: ds2) ->
  Map.region_ok (Map.region_of d) -> 0 <= p <= number_of_pages d ->
  (length (regions (ds1 ++ d :: ds2)) = MAX_ALLOCATIONS /\
   split_allocation s i p = Done (None, s)) \/
  ((length (regions (ds1 ++ d :: ds2)) < MAX_ALLOCATIONS)%nat /\
   exists k s' d1 d2, split_allocation s i p = Done (Some k, s') /\
     repr s' (l1 ++ i :: k :: l2) (ds1 ++ d1 :: d2 :: ds2) /\
     Map.region_of d1 = Map.lower p (Map.region_of d) /\
     Map.region_of d2 = Map.upper p (Map.region_of d)).
Proof.
  intros Hl Hr (H1 & H2 & H3) Hp. unfold Map.rend in H3. cbn in *.
  rewrite length_map, <- (lseg_length _ _ _ _ _ (repr_chain _ _ _ Hr)).
  destruct (split_allocation_spec _ _ _ _ _ _ _ p Hl Hr) as [[? ?]|(? & k & v & s' & Hs & _ & Hr')];
    [by left|].
  right. split; [done|]. do 4 eexists. split; [exact Hs|]. split; [exact Hr'|].
  split; [done|]. unfold Map.region_of, Map.upper; cbn.
  rewrite (wrap_small 64 (PAGE_SIZE * p)), (wrap_small 64 (number_of_pages d - p)) by page_lia.
  by rewrite (wrap_small 64 (physical_start d + _)) by page_lia.
Qed.

(** ** allocate_pages *)

(** The concrete computation returns the abstract outcome. *)
Definition outcome {A} (c : res (A * Allocator)) (o : A * list Map.Region) : Prop :=
  exists s' l' ds', c = Done (o.1, s') /\ repr s' l' ds' /\ o.2 = regions ds'.

Section Allocate.
  Variables (s : Allocator) (l1 : list nat) (i : nat) (l2 : list nat).
  Variables (ds1 : list MemoryDescriptor) (d : MemoryDescriptor) (ds2 : list MemoryDescriptor).
  Hypothesis (Hl : length l1 = length ds1).
  Hypothesis (Hr : repr s (l1 ++ i :: l2) (ds1 ++ d :: ds2)).
  Hypothesis (Hok : Map.region_ok (Map.region_of d)).

Lemma carve_front_refines m n : 0 <= n <= number_of_pages d ->
    outcome
      ('(split, s') ← split_allocation s i n;
       match split with
       | None => out_of_resources s'
       | Some _ => assign s' i m
       end)
      (Map.carve_front MAX_ALLOCATIONS m n (regions ds1) (Map.region_of d) (regions ds2)).
  Proof.
    intros Hn. unfold Map.carve_front.
    replace (regions ds1 ++ Map.region_of d :: regions ds2) with (regions (ds1 ++ d :: ds2))
      by (by rewrite map_app).
    destruct (split_refines _ _ _ _ _ _ _ n Hl Hr Hok Hn)
      as [[-> ->]|(Hlt & k & s' & d1 & d2 & -> & Hr' & E1 & E2)]; rstep.
    - rewrite Nat.eqb_refl. do 3 eexists. split; [reflexivity|]. split; [exact Hr|done].
    - rewrite (proj2 (Nat.eqb_neq _ _)) by lia.
      destruct (assign_refines s' l1 i (k :: l2) ds1 d1 (d2 :: ds2) m Hl Hr')
        as (s2 & d1' & -> & Hr2 & E3).
      pose proof (f_equal Map.rstart E1) as Hst. cbn in Hst. rewrite Hst.
      do 3 eexists. split; [reflexivity|].
      split; [exact Hr2|]. cbn. rewrite map_app. cbn. by rewrite E3, E1, E2.
  Qed.

Lemma carve_middle_refines m k n : 0 <= k <= number_of_pages d -> 0 <= n ->
    outcome
      ('(split, s') ← split_allocation s i k;
       match split with
       | None => out_of_resources s'
       | Some split =>
           d2 ← slot s' split;
           if n <? number_of_pages (descriptor d2) then
             '(second_split, s'') ← split_allocation s' split n;
             match second_split with
             | None => out_of_resources s''
             | Some _ => assign s'' split m
             end
           else assign s' split m
       end)
      (Map.carve_middle MAX_ALLOCATIONS m k n (regions ds1) (Map.region_of d) (regions ds2)).
  Proof.
    intros Hk Hn. unfold Map.carve_middle.
    replace (regions ds1 ++ Map.region_of d :: regions ds2) with (regions (ds1 ++ d :: ds2))
      by (by rewrite map_app).
    destruct (split_refines _ _ _ _ _ _ _ k Hl Hr Hok Hk)
      as [[-> ->]|(Hlt & j & s' & d1 & d2 & -> & Hr' & E1 & E2)]; rstep.
    { rewrite Nat.eqb_refl. do 3 eexists. split; [reflexivity|]. split; [exact Hr|done]. }
    rewrite (proj2 (Nat.eqb_neq _ _)) by lia.
    rewrite cons_middle, app_assoc in Hr'.
    replace (ds1 ++ d1 :: d2 :: ds2) with ((ds1 ++ [d1]) ++ d2 :: ds2) in Hr'
      by (by rewrite <- app_assoc).
    assert (Hl' : length (l1 ++ [i]) = length (ds1 ++ [d1])) by (rewrite !length_app; cbn; lia).
    assert (Hlen : length (regions ((ds1 ++ [d1]) ++ d2 :: ds2)) =
                   S (length (regions (ds1 ++ d :: ds2)))).
    { rewrite !length_map, !length_app. cbn. lia. }
    destruct (repr_slot _ _ _ _ _ _ _ Hl' Hr') as (a & Ha & Ea & _).
    rewrite (slot_Done _ _ _ Ha); rstep. rewrite Ea.
    replace (number_of_pages d2) with (Map.rpages (Map.upper k (Map.region_of d)))
      by (rewrite <- E2; done).
    assert (Hst : Map.rstart (Map.upper k (Map.region_of d)) = physical_start d2)
      by (rewrite <- E2; done).
    assert (Hok2 : Map.region_ok (Map.region_of d2)).
    { rewrite E2. destruct Hok as (A & B & C). unfold Map.region_ok, Map.rend in *. cbn in *. page_lia. }
    destruct (Z.ltb_spec n (Map.rpages (Map.upper k (Map.region_of d)))) as [Hlt2|Hge].
    - assert (Hn2 : 0 <= n <= number_of_pages d2).
      { split; [done|]. rewrite <- E2 in Hlt2. cbn in Hlt2. lia. }
      destruct (split_refines _ _ _ _ _ _ _ n Hl' Hr' Hok2 Hn2)
        as [[Hfull ->]|(Hlt3 & k2 & s2 & e1 & e2 & -> & Hr2 & F1 & F2)]; rstep;
        rewrite Hlen in *.
      + rewrite (proj2 (Nat.eqb_eq _ _)) by done.
        do 3 eexists. split; [reflexivity|]. split; [exact Hr'|].
        cbn. rewrite !map_app. cbn. by rewrite E1, E2, <- app_assoc.
      + rewrite (proj2 (Nat.eqb_neq _ _)) by lia.
        destruct (assign_refines s2 _ _ _ _ e1 _ m Hl' Hr2) as (s3 & e1' & -> & Hr3 & F3).
        pose proof (f_equal Map.rstart F1) as Hst2. cbn in Hst2. rewrite Hst, Hst2.
        do 3 eexists. split; [reflexivity|]. split; [exact Hr3|]. cbn. rewrite !map_app. cbn.
        by rewrite F3, F1, F2, E1, E2, <- app_assoc.
    - destruct (assign_refines s' _ _ _ _ d2 _ m Hl' Hr') as (s3 & e1' & -> & Hr3 & F3).
      rewrite Hst. do 3 eexists. split; [reflexivity|]. split; [exact Hr3|]. cbn. rewrite !map_app. cbn.
      by rewrite F3, E1, E2, <- app_assoc.
  Qed.
End Allocate.

Lemma carve_pages (r : Map.Region) n addr :
  Map.fits AllocateAddress n addr r = true -> Map.region_ok r -> 0 <= n ->
  0 <= (addr - Map.rstart r) / PAGE_SIZE <= Map.rpages r.
Proof.
  intros Hf (H1 & H2 & H3) Hn. unfold Map.fits in Hf. bool_to_prop. unfold Map.rend in *.
  change PAGE_SIZE with 4096 in *. mlia.
Qed.

Lemma front_pages t (r : Map.Region) n addr :
  Map.fits t n addr r = true -> (t = AllocateAddress -> Map.rstart r = addr) ->
  0 <= n -> 0 <= n <= Map.rpages r.
Proof.
  intros Hf Ht Hn. unfold Map.fits in Hf. bool_to_prop. unfold Map.rend in *.
  destruct t; bool_to_prop; [lia..|]. specialize (Ht eq_refl). page_lia.
Qed.

Lemma allocate_pages_refines s l ds t m n addr :
  repr s l ds -> Map.map_ok (regions ds) -> request_ok t n addr ->
  outcome (allocate_pages s t m n addr)
    (Map.allocate MAX_ALLOCATIONS (regions ds) t m n addr).
Proof.
  intros Hr Hok Hreq. unfold allocate_pages, Map.allocate.
  rewrite (find_free_memory_spec _ _ _ _ _ _ Hr Hok Hreq); rstep.
  rewrite Map.split_first_map.
  destruct (Map.split_first _ ds) as [[[ds1 d] ds2]|] eqn:E.
  2:{ do 3 eexists. split; [reflexivity|]. split; [exact Hr|done]. }
  apply Map.split_first_Some in E as (-> & Hfit & _).
  destruct (slot_at_split l ds1 ds2 d) as (l1 & i & l2 & -> & Hl & Hi).
  { exact (lseg_length _ _ _ _ _ (repr_chain _ _ _ Hr)). }
  rewrite length_map, Hi.
  apply (repr_set_key _ _ _ (usize (key s + 1))) in Hr.
  set (s1 := set_key _ s) in *.
  destruct (repr_slot _ _ _ _ _ _ _ Hl Hr) as (a & Ha & <- & _).
  assert (Hd : Map.region_ok (Map.region_of (descriptor a))).
  { destruct Hok as [Hok _]. rewrite map_app, Forall_app in Hok.
    destruct Hok as [_ Hok]. by inversion Hok. }
  destruct Hreq as (Hn & Haddr & _).
  rewrite (slot_Done _ _ _ Ha); rstep. cbn [Map.region_of Map.rpages Map.rstart].
  destruct (Z.eqb_spec (number_of_pages (descriptor a)) n) as [Heq|Hneq].
  - erewrite modify_Done by exact Ha. rstep.
    erewrite slot_Done by (cbn; apply list_lookup_insert_eq; by eapply lookup_lt_Some).
    rstep. do 3 eexists. split; [reflexivity|].
    split; [by eapply (repr_update s1 l1 i l2 ds1 (descriptor a) ds2 a)|].
    cbn. by rewrite map_app.
  - assert (Hfront : forall t', Map.fits t' n addr (Map.region_of (descriptor a)) = true ->
      (t' = AllocateAddress -> physical_start (descriptor a) = addr) ->
      0 <= n <= number_of_pages (descriptor a)).
    { intros t' Ht' ?. by apply (front_pages t' _ n addr) in Ht'. }
    pose proof (carve_front_refines s1 l1 i l2 ds1 (descriptor a) ds2 Hl Hr Hd m n) as Hcf.
    destruct t; [apply Hcf; by eapply Hfront..|].
    destruct (Z.eqb_spec (physical_start (descriptor a)) addr) as [Hs|Hs].
    + apply Hcf. by eapply Hfront.
    + rewrite (wrap_small 64 (addr - _)).
      * apply (carve_middle_refines s1 l1 i l2); try done. by eapply carve_pages in Hfit.
      * destruct Hd as (? & ? & ?). unfold Map.fits, Map.rend in *. bool_to_prop.
        cbn in *. page_lia.
Qed.

(** ** add_initial_allocation *)
Lemma add_initial_allocation_refines s l ds m n addr attr :
  repr s l ds ->
  outcome (add_initial_allocation s m n addr attr)
    (Map.add MAX_ALLOCATIONS (regions ds) m n addr attr).
Proof.
  intros Hr. unfold add_initial_allocation, Map.add.
  apply (repr_set_key _ _ _ (usize (key s + 1))) in Hr. set (s1 := set_key _ s) in *.
  clearbody s1. pose proof (repr_chain _ _ _ Hr) as Hch.
  destruct l as [|i0 l], ds as [|d0 ds]; cbn in Hch; try done.
  - rewrite Hch. pose proof (repr_len _ _ _ Hr) as Hlen.
    destruct (lookup_lt_is_Some_2 (allocations s1) 0) as [a Ha]; [rewrite Hlen; unfold MAX_ALLOCATIONS; lia|].
    erewrite modify_Done by exact Ha. rstep.
    pose proof (lookup_lt_Some _ _ _ Ha) as Hlt.
    exists (mkAllocator (<[0%nat := fill_slot m n addr attr a]> (allocations s1)) (key s1) (Some 0%nat)),
      [0%nat], [descriptor (fill_slot m n addr attr a)]. split; [reflexivity|]. split; [|reflexivity]. split; cbn.
    + by rewrite length_insert.
    + split; [done|]. eexists. rewrite list_lookup_insert_eq by done. done.
    + apply NoDup_singleton.
    + intros j b Hj. rewrite list_elem_of_singleton. destruct (decide (j = 0%nat)) as [->|Hne].
      * rewrite list_lookup_insert_eq in Hj by done. by simplify_eq.
      * rewrite list_lookup_insert_ne in Hj by done.
        rewrite (repr_used _ _ _ Hr _ _ Hj). by rewrite elem_of_nil.
  - destruct Hch as (Hfst & _). rewrite Hfst.
    rewrite (find_last_spec _ s1 (Some i0) (i0 :: l) (d0 :: ds) i0)
      by (rewrite <- ?Hfst; eauto using repr_chain, walk_fuel_enough). rstep.
    destruct (exists_last (l := i0 :: l)) as (l' & i & El); [done|]. rewrite El in *.
    rewrite last_last.
    assert (Hlen : length (l' ++ [i]) = length (regions (d0 :: ds))).
    { rewrite length_map. exact (lseg_length _ _ _ _ _ (repr_chain _ _ _ Hr)). }
    cbn [map] in Hlen |- *. rewrite <- Hlen.
    destruct (find_free_eqb_max _ _ _ Hr) as [[-> ->]|(-> & Hmax & Hk)].
    { rewrite Nat.eqb_refl. do 3 eexists. split; [reflexivity|]. split; [exact Hr|done]. }
    rewrite (proj2 (Nat.eqb_neq _ _)) by lia.
    set (k := find_free_allocation s1) in *.
    assert (exists a, allocations s1 !! i = Some a) as [a Ha].
    { apply lookup_lt_is_Some_2. eapply lseg_lookup_lt; [exact (repr_chain _ _ _ Hr)|]. set_solver. }
    assert (exists b, allocations s1 !! k = Some b) as [b Hb].
    { apply lookup_lt_is_Some_2. rewrite (repr_len _ _ _ Hr).
      destruct (find_free_spec _ _ _ Hr) as [(? & _)|[? ?]]; lia. }
    erewrite modify_Done by exact Ha. rstep.
    erewrite modify_Done by (cbn; rewrite list_lookup_insert_ne by set_solver; exact Hb). rstep.
    do 3 eexists. split; [reflexivity|].
    split; [by eapply (repr_append s1 l' (d0 :: ds) i a k b)|]. cbn. by rewrite map_app.
Qed.

(** ** merge_free_memory *)

Lemma mergeable_refines d1 d2 : Map.region_ok (Map.region_of d1) ->
  mergeable d1 d2 = Map.mergeable (Map.region_of d1) (Map.region_of d2).
Proof.
  intros (H1 & H2 & H3). unfold mergeable, Map.mergeable, Map.rend in *; cbn in *.
  rewrite (Z.mul_comm (number_of_pages d1)).
  rewrite (wrap_small 64 (PAGE_SIZE * _)), (wrap_small 64 (_ + _)) by page_lia. done.
Qed.


Section Merge.
  Variables (s : Allocator) (l1 : list nat) (i k : nat) (l2 : list nat).
  Variables (ds1 : list MemoryDescriptor) (ds2 : list MemoryDescriptor).
  Variables (a b : Allocation).
  Hypothesis (Hl : length l1 = length ds1).
  Hypothesis (Hr : repr s (l1 ++ i :: k :: l2) (ds1 ++ descriptor a :: descriptor b :: ds2)).
  Hypothesis (Ha : allocations s !! i = Some a) (Hb : allocations s !! k = Some b).

  (** One merging iteration of the loop. *)
Lemma merge_step_refines p : exists s',
    (s ← modify s i (on_desc (set_pages p));
     n ← slot s k;
     s ← modify s i (set_next (next_allocation n));
     modify s k (set_in_use false)) = Done s' /\
    repr s' (l1 ++ i :: l2) (ds1 ++ set_pages p (descriptor a) :: ds2).
  Proof.
    assert (Hik : i <> k).
    { pose proof (repr_nodup _ _ _ Hr) as (_ & _ & [Hi _]%NoDup_cons)%NoDup_app. set_solver. }
    pose proof (lookup_lt_Some _ _ _ Ha). pose proof (lookup_lt_Some _ _ _ Hb).
    erewrite modify_Done by exact Ha. rstep.
    erewrite slot_Done by (cbn; rewrite list_lookup_insert_ne by done; exact Hb). rstep.
    erewrite modify_Done by (cbn; by apply list_lookup_insert_eq). rstep.
    erewrite modify_Done by (cbn; rewrite !list_lookup_insert_ne by done; exact Hb).
    eexists. split; [reflexivity|]. cbn [key first_allocation].
    eapply (repr_unlink s _ l1 i k l2 ds1 (descriptor a) (descriptor b) ds2 a b
      (set_next (next_allocation b) (on_desc (set_pages p) a)) (set_in_use false b)); try done.
    - cbn. by rewrite !length_insert.
    - cbn. rewrite list_lookup_insert_ne by done. apply list_lookup_insert_eq.
      by rewrite length_insert.
    - cbn. apply list_lookup_insert_eq. by rewrite !length_insert.
    - intros j ? ?. cbn. by rewrite !list_lookup_insert_ne by done.
  Qed.
End Merge.

Lemma merge_loop_refines fuel s l1 i l2 ds1 d ds2 :
  length l1 = length ds1 -> repr s (l1 ++ i :: l2) (ds1 ++ d :: ds2) ->
  Map.map_ok (regions (ds1 ++ d :: ds2)) -> (length l2 < fuel)%nat ->
  exists s' l' ds', merge_free_memory_loop fuel s (Some i) = Done s' /\ repr s' l' ds' /\
    regions ds' = regions ds1 ++ Map.merge_from (Map.region_of d) (regions ds2).
Proof.
  revert s l1 i l2 ds1 d ds2.
  induction fuel as [|fuel IH]; intros s l1 i l2 ds1 d ds2 Hl Hr Hok Hf; [lia|].
  destruct (repr_slot _ _ _ _ _ _ _ Hl Hr) as (a & Ha & <- & _ & _ & Hnext).
  cbn [merge_free_memory_loop]. rewrite (slot_Done _ _ _ Ha); rstep.
  destruct l2 as [|k l2], ds2 as [|d2 ds2]; cbn in Hnext; try done.
  { rewrite Hnext. do 3 eexists. split; [reflexivity|]. split; [exact Hr|]. by rewrite map_app. }
  destruct Hnext as (-> & b & Hb & <- & Hnext). rewrite (slot_Done _ _ _ Hb); rstep.
  rewrite map_app in Hok. cbn [map] in Hok. pose proof (Map.map_ok_middle _ _ _ Hok) as Hd.
  rewrite (mergeable_refines _ _ Hd). cbn [map Map.merge_from].
  destruct (Map.mergeable _ _) eqn:Hm.
  - pose proof (Map.map_ok_join _ _ _ _ Hok Hm) as Hok'.
    pose proof (Map.map_ok_middle _ _ _ Hok') as (_ & Hp1 & Hp2). unfold Map.rend in Hp2.
    cbn in Hp1, Hp2.
    set (p := u64 (number_of_pages (descriptor a) + number_of_pages (descriptor b))) in *.
    assert (Hp : p = number_of_pages (descriptor a) + number_of_pages (descriptor b)).
    { apply wrap_small. destruct Hd as (Hx & _). cbn in Hx. page_lia. }
    destruct (merge_step_refines s l1 i k l2 ds1 ds2 a b Hl Hr Ha Hb p) as (s' & Hrun & Hr').
    apply bind_Done in Hrun as (s1 & -> & Hrun); rstep.
    apply bind_Done in Hrun as (n1 & -> & Hrun); rstep.
    apply bind_Done in Hrun as (s2 & -> & Hrun); rstep. rewrite Hrun; rstep.
    destruct (IH s' l1 i l2 ds1 (set_pages p (descriptor a)) ds2 Hl Hr')
      as (s'' & l' & ds' & Hrun' & Hr'' & E).
    + rewrite map_app. cbn [map]. unfold Map.region_of at 2. cbn. by rewrite Hp.
    + cbn in Hf. lia.
    + do 3 eexists. split; [exact Hrun'|]. split; [exact Hr''|]. rewrite E.
      unfold Map.region_of at 2. cbn. by rewrite Hp.
  - rewrite (cons_middle i), app_assoc in Hr.
    rewrite (cons_middle (descriptor a)), app_assoc in Hr.
    assert (Hl' : length (l1 ++ [i]) = length (ds1 ++ [descriptor a]))
      by (rewrite !length_app, Hl; reflexivity).
    destruct (IH s (l1 ++ [i]) k l2 (ds1 ++ [descriptor a]) (descriptor b) ds2 Hl' Hr)
      as (s'' & l' & ds' & Hrun' & Hr'' & E).
    + rewrite !map_app, <- app_assoc. cbn. done.
    + cbn in Hf. lia.
    + do 3 eexists. split; [exact Hrun'|]. split; [exact Hr''|]. rewrite E.
      by rewrite map_app, <- app_assoc.
Qed.

Lemma merge_free_memory_refines s l ds :
  repr s l ds -> Map.map_ok (regions ds) ->
  exists s' l' ds', merge_free_memory s = Done s' /\ repr s' l' ds' /\
    regions ds' = Map.merge (regions ds).
Proof.
  intros Hr Hok. unfold merge_free_memory.
  pose proof (walk_fuel_enough _ _ _ Hr) as Hfuel.
  pose proof (repr_chain _ _ _ Hr) as Hch.
  destruct l as [|i l], ds as [|d ds]; try done.
  - cbn in Hch. rewrite Hch. do 3 eexists. split; [reflexivity|]. by split; [exact Hr|].
  - destruct Hch as (-> & _).
    apply (merge_loop_refines _ s [] i l [] d ds); auto. cbn in Hfuel. lia.
Qed.

(** ** free_pages *)
Lemma free_pages_loop_spec fuel s cur l ds addr :
  lseg (allocations s) cur l ds None -> (length l < fuel)%nat ->
  free_pages_loop fuel s addr cur =
  match Map.split_first (fun d => addr =? physical_start d) ds with
  | Some (pre, _, _) =>
      match l !! length pre with
      | Some c =>
          s ← modify s c (on_desc (set_type (memory_type_u32 ConventionalMemory)));
          s ← merge_free_memory s;
          Done (Status.SUCCESS, s)
      | None => Panic
      end
  | None => Done (Status.NOT_FOUND, s)
  end.
Proof.
  revert cur l ds. induction fuel as [|fuel IH]; intros cur l ds H Hf; [lia|].
  destruct l as [|i l], ds as [|d ds]; cbn in H; try done.
  - by subst.
  - destruct H as (-> & a & Ha & Hd & H). subst d. cbn [free_pages_loop].
    rewrite (slot_Done _ _ _ Ha); rstep. cbn [Map.split_first].
    destruct (addr =? _); [done|].
    rewrite (IH _ l ds) by (cbn in *; eauto with lia).
    by destruct (Map.split_first _ ds) as [[[? ?] ?]|].
Qed.


Lemma free_pages_refines s l ds addr :
  repr s l ds -> Map.map_ok (regions ds) ->
  outcome (free_pages s addr) (Map.free (regions ds) addr).
Proof.
  intros Hr Hok. unfold free_pages, Map.free.
  rewrite (free_pages_loop_spec _ _ _ l ds) by eauto using repr_chain, walk_fuel_enough.
  rewrite Map.split_first_map. cbn [Map.region_of Map.rstart].
  destruct (Map.split_first _ ds) as [[[ds1 d] ds2]|] eqn:E.
  2:{ do 3 eexists. split; [reflexivity|]. split; [exact Hr|done]. }
  apply Map.split_first_Some in E as (-> & Hfit & _).
  destruct (slot_at_split l ds1 ds2 d) as (l1 & i & l2 & -> & Hl & ->).
  { exact (lseg_length _ _ _ _ _ (repr_chain _ _ _ Hr)). }
  destruct (repr_slot _ _ _ _ _ _ _ Hl Hr) as (a & Ha & <- & _).
  erewrite modify_Done by exact Ha. rstep.
  edestruct (merge_free_memory_refines) as (s' & l' & ds' & -> & Hr' & E).
  { eapply (repr_update s l1 i l2 ds1 (descriptor a) ds2 a); done. }
  { rewrite map_app in *. cbn [map] in *. by apply (MapSafety.map_ok_retype Map.CONVENTIONAL) in Hok. }
  rstep. do 3 eexists. split; [reflexivity|]. split; [exact Hr'|].
  cbn [snd]. rewrite E. by rewrite map_app.
Qed.
