(* ===== verification/AllocSafety.v ===== *)
(** * Correctness of the page allocator

    Whatever is called, every method returns and leaves a sound list of slots;
    calls with arguments in range keep the map well formed; and the guarantees of
    [MapSafety.v] carried over to the methods. *)

From S2P Require Import Prelude REfi Alloc MemMap MapSafety AllocRepr AllocRefine.
From Stdlib Require Import Sorting.Sorted.
Import Alloc.

(** ** Updating virtual addresses leaves the regions alone *)

Lemma update_virtual_inner_spec fuel s d cur l1 l2 ds1 ds2 :
  length l1 = length ds1 -> repr s (l1 ++ l2) (ds1 ++ ds2) ->
  lseg (allocations s) cur l2 ds2 None -> (length l2 < fuel)%nat ->
  exists b s' ds', update_virtual_inner fuel s d cur = Done (b, s') /\
    repr s' (l1 ++ l2) ds' /\ regions ds' = regions (ds1 ++ ds2) /\
    b = existsb (fun e => physical_start e =? physical_start d) ds2.
Proof.
  revert s cur l1 l2 ds1 ds2.
  induction fuel as [|fuel IH]; intros s cur l1 l2 ds1 ds2 Hl Hr Hch Hf; [lia|].
  destruct l2 as [|i l2], ds2 as [|e ds2]; cbn in Hch; try done.
  - subst. do 3 eexists. by split_and!.
  - destruct Hch as (-> & a & Ha & <- & Hch). cbn [update_virtual_inner].
    rewrite (slot_Done _ _ _ Ha); rstep. cbn [existsb].
    destruct (physical_start (descriptor a) =? physical_start d); cbn [orb].
    + erewrite modify_Done by exact Ha. rstep. do 3 eexists. split; [reflexivity|].
      split; [by eapply (repr_update s l1 i l2 ds1 (descriptor a) ds2 a)|].
      split; [|done]. by rewrite !map_app.
    + rewrite (cons_middle i l1 l2), app_assoc in Hr |- *.
      rewrite (cons_middle (descriptor a) ds1 ds2), app_assoc in Hr |- *.
      assert (Hl' : length (l1 ++ [i]) = length (ds1 ++ [descriptor a]))
        by (rewrite !length_app, Hl; reflexivity).
      cbn in Hf. apply (IH s (next_allocation a) (l1 ++ [i]) l2 (ds1 ++ [descriptor a]) ds2); auto; lia.
Qed.

Lemma update_virtual_addresses_refines s l ds vs :
  repr s l ds ->
  exists st s' l' ds', update_virtual_addresses s vs = Done (st, s') /\ repr s' l' ds' /\
    regions ds' = regions ds.
Proof.
  revert s l ds. induction vs as [|v vs IH]; intros s l ds Hr; cbn [update_virtual_addresses].
  { do 4 eexists. by split_and!. }
  destruct (update_virtual_inner_spec (walk_fuel s) s v (first_allocation s) [] l [] ds)
    as (b & s' & ds' & -> & Hr' & E & _); eauto using repr_chain, walk_fuel_enough.
  rstep. destruct b; [|do 4 eexists; split_and!; [reflexivity|exact Hr'|done]].
  destruct (IH s' l ds' Hr') as (st & s'' & l'' & ds'' & -> & Hr'' & E').
  do 4 eexists. split_and!; [reflexivity | exact Hr'' | by rewrite E', E].
Qed.

(** ** The methods on states that hold a map *)

Lemma holds_new : holds Alloc.new [].
Proof.
  exists [], []. split; [|split; [done | split; constructor]]. split; cbn.
  - by rewrite length_replicate.
  - done.
  - constructor.
  - intros i a [-> _]%lookup_replicate. split; [done|]. by intros ?%elem_of_nil.
Qed.

Lemma holds_allocate s rs t m n addr : holds s rs -> request_ok t n addr ->
  exists s', allocate_pages s t m n addr = Done ((Map.allocate MAX_ALLOCATIONS rs t m n addr).1, s') /\
    holds s' (Map.allocate MAX_ALLOCATIONS rs t m n addr).2.
Proof.
  intros (l & ds & Hr & -> & Hok) Hreq.
  destruct (allocate_pages_refines s l ds t m n addr Hr Hok Hreq) as (s' & l' & ds' & E & Hr' & E').
  exists s'. split; [done|]. exists l', ds'. split_and!; try done.
  apply map_ok_allocate; [done | apply Hreq].
Qed.

Lemma holds_free s rs addr : holds s rs ->
  exists s', free_pages s addr = Done ((Map.free rs addr).1, s') /\ holds s' (Map.free rs addr).2.
Proof.
  intros (l & ds & Hr & -> & Hok).
  destruct (free_pages_refines s l ds addr Hr Hok) as (s' & l' & ds' & E & Hr' & E').
  exists s'. split; [done|]. exists l', ds'. split_and!; try done. by apply map_ok_free.
Qed.

Lemma map_ok_snoc rs r : Map.map_ok rs -> Map.region_ok r ->
  Forall (fun q => Map.rend q <= Map.rstart r) rs -> Map.map_ok (rs ++ [r]).
Proof.
  intros [Hf Hs] Hr Hb. split.
  - apply Forall_app. split; [done|]. by apply Forall_cons_2, Forall_nil_2.
  - apply Map.StronglySorted_app. split_and!; [done | repeat constructor |].
    eapply Forall_impl; [exact Hb|]. intros q Hq. by apply Forall_cons_2, Forall_nil_2.
Qed.

Lemma map_add_ok cap rs m n addr attr : Map.map_ok rs ->
  0 <= n -> 0 <= addr -> addr + PAGE_SIZE * n < 2 ^ 64 ->
  Forall (fun q => Map.rend q <= addr) rs -> Map.map_ok (Map.add cap rs m n addr attr).2.
Proof.
  intros Hok Hn Ha Hend Hb. unfold Map.add.
  assert (Map.map_ok (rs ++ [Map.mkRegion (memory_type_u32 m) addr n attr]))
    by (by apply map_ok_snoc).
  destruct rs as [|r rs]; [done|]. by destruct (_ =? _)%nat.
Qed.

Lemma holds_add s rs m n addr attr : holds s rs ->
  0 <= n -> 0 <= addr -> addr + PAGE_SIZE * n < 2 ^ 64 ->
  Forall (fun q => Map.rend q <= addr) rs ->
  exists s', add_initial_allocation s m n addr attr =
      Done ((Map.add MAX_ALLOCATIONS rs m n addr attr).1, s') /\
    holds s' (Map.add MAX_ALLOCATIONS rs m n addr attr).2.
Proof.
  intros (l & ds & Hr & -> & Hok) Hn Ha Hend Hb.
  destruct (add_initial_allocation_refines s l ds m n addr attr Hr) as (s' & l' & ds' & E & Hr' & E').
  exists s'. split; [done|]. exists l', ds'. split_and!; try done. by apply map_add_ok.
Qed.

Lemma holds_update_virtual s rs vs : holds s rs ->
  exists st s', update_virtual_addresses s vs = Done (st, s') /\ holds s' rs.
Proof.
  intros (l & ds & Hr & -> & Hok).
  destruct (update_virtual_addresses_refines s l ds vs Hr) as (st & s' & l' & ds' & E & Hr' & E').
  exists st, s'. split; [done|]. exists l', ds'. by split_and!.
Qed.

(** The regions of the map are those of the slots in use. *)
Lemma holds_in_use s rs (P : Map.Region -> Prop) : holds s rs ->
  (forall i a, allocations s !! i = Some a -> in_use a = true -> P (Map.region_of (descriptor a))) ->
  Forall P rs.
Proof.
  intros (l & ds & [Hlen Hch Hnd Hu] & -> & _) HP. apply Forall_map. clear Hnd Hlen.
  assert (Hin : forall i a, i ∈ l -> allocations s !! i = Some a -> P (Map.region_of (descriptor a))).
  { intros i a Hi Ha. apply (HP i a Ha), (Hu i a Ha), Hi. }
  clear HP Hu. revert ds Hch Hin. generalize (first_allocation s).
  induction l as [|i l IH]; intros c [|d ds] Hch Hin; cbn in Hch; try done.
  destruct Hch as (-> & a & Ha & <- & Hch). constructor.
  - apply (Hin i); [set_solver|done].
  - eapply IH; [exact Hch|]. intros j b Hj. apply Hin. set_solver.
Qed.

(** ** An example *)

(** A small map for the examples: 640 KiB of low memory and 2 MiB above. *)
Definition demo_map : list Map.Region :=
  [Map.mkRegion 7 0 160 MEMORY_WB; Map.mkRegion 7 0x200000 512 MEMORY_WB].

Definition demo : Allocator :=
  match add_initial_allocation Alloc.new ConventionalMemory 160 0 MEMORY_WB with
  | Done (_, s) =>
      match add_initial_allocation s ConventionalMemory 512 0x200000 MEMORY_WB with
      | Done (_, s) => s
      | _ => Alloc.new
      end
  | _ => Alloc.new
  end.

(** After the first of the two regions every slot in use ends below the second. *)
Lemma demo_first_ends s1 rs : holds s1 rs -> rs = [Map.mkRegion 7 0 160 MEMORY_WB] ->
  forall i a, allocations s1 !! i = Some a -> in_use a = true ->
    Map.rend (Map.region_of (descriptor a)) <= 0x200000.
Proof.
  intros H1 -> i a Ha Hu. destruct H1 as (l & ds & [Hlen Hch Hnd Hused] & Hds & _).
  assert (Hb : Map.rend (Map.mkRegion 7 0 160 MEMORY_WB) <= 0x200000) by (vm_compute; discriminate).
  apply (Hused i a Ha) in Hu. destruct l as [|j [|k l]], ds as [|d [|e ds]]; try done.
  - destruct Hch as (_ & b & Hb' & <- & _). apply list_elem_of_singleton in Hu as ->.
    rewrite Ha in Hb'. simplify_eq. injection Hds as Hds.
    unfold Map.rend, Map.region_of in *. cbn [Map.rstart Map.rpages] in *. congruence.
  - by destruct Hch as (_ & b & _ & _ & ?).
Qed.

Lemma demo_holds : holds demo demo_map.
Proof.
  unfold demo.
  destruct (holds_add Alloc.new [] ConventionalMemory 160 0 MEMORY_WB holds_new)
    as (s1 & E1 & H1); [lia | lia | page_lia | constructor |].
  rewrite E1. cbn in H1, E1.
  assert (Hb : Forall (fun q => Map.rend q <= 0x200000) [Map.mkRegion 7 0 160 MEMORY_WB])
    by (apply Forall_cons_2, Forall_nil_2; vm_compute; discriminate).
  destruct (holds_add s1 _ ConventionalMemory 512 0x200000 MEMORY_WB H1)
    as (s2 & E2 & H2); [lia | lia | page_lia | done |].
  rewrite E2. exact H2.
Qed.

(** ** Any calls whatever

    The services pass their callers' arguments on unchecked, and a request whose end
    wraps around can leave a map whose regions overlap ([allocate_address_overflow]).
    The list of slots, on which the methods walk, stays sound all the same. *)

Inductive call :=
| CAdd (m : MemoryType) (n addr attr : Z)
| CAllocate (t : AllocateType) (m : MemoryType) (n addr : Z)
| CFree (addr : Z)
| CUpdateVirtual (vs : list MemoryDescriptor).

Definition call_step (s : Allocator) (c : call) : res Allocator :=
  match c with
  | CAdd m n addr attr => '(_, s) ← add_initial_allocation s m n addr attr; Done s
  | CAllocate t m n addr => '(_, s) ← allocate_pages s t m n addr; Done s
  | CFree addr => '(_, s) ← free_pages s addr; Done s
  | CUpdateVirtual vs => '(_, s) ← update_virtual_addresses s vs; Done s
  end.
Fixpoint run_calls (s : Allocator) (cs : list call) : res Allocator :=
  match cs with
  | [] => Done s
  | c :: cs => s ← call_step s c; run_calls s cs
  end.

(** The calls that keep the map well formed: regions are added within the address
    space above those in use, and requests for an address end inside it. *)
Definition call_in_range (s : Allocator) (c : call) : Prop :=
  match c with
  | CAdd m n addr attr => 0 <= n /\ 0 <= addr /\ addr + PAGE_SIZE * n < 2 ^ 64 /\
      forall i a, allocations s !! i = Some a -> in_use a = true ->
        Map.rend (Map.region_of (descriptor a)) <= addr
  | CAllocate t m n addr => request_ok t n addr
  | _ => True
  end.
Fixpoint calls_in_range (s : Allocator) (cs : list call) : Prop :=
  match cs with
  | [] => True
  | c :: cs => call_in_range s c /\ forall s', call_step s c = Done s' -> calls_in_range s' cs
  end.

(** A method returns and leaves a sound list. *)
Definition returns {A} (c : res (A * Allocator)) : Prop :=
  exists r s l ds, c = Done (r, s) /\ repr s l ds.

Lemma returns_outcome {A} (c : res (A * Allocator)) o : outcome c o -> returns c.
Proof. intros (s & l & ds & E & Hr & _). by exists o.1, s, l, ds. Qed.

Lemma assign_returns s l1 i l2 ds1 d ds2 m :
  length l1 = length ds1 -> repr s (l1 ++ i :: l2) (ds1 ++ d :: ds2) -> returns (assign s i m).
Proof.
  intros Hl Hr. destruct (assign_refines s l1 i l2 ds1 d ds2 m Hl Hr) as (s' & d' & -> & Hr' & _).
  by do 4 eexists.
Qed.

Lemma split_returns s l1 i l2 ds1 d ds2 p (k : option nat -> Allocator -> res ((Status.t * Z) * Allocator)) :
  length l1 = length ds1 -> repr s (l1 ++ i :: l2) (ds1 ++ d :: ds2) -> returns (k None s) ->
  (forall j s' d1 d2, repr s' (l1 ++ i :: j :: l2) (ds1 ++ d1 :: d2 :: ds2) -> returns (k (Some j) s')) ->
  returns ('(split, s) ← split_allocation s i p; k split s).
Proof.
  intros Hl Hr H0 Hk.
  destruct (split_allocation_spec _ _ _ _ _ _ _ p Hl Hr) as [[_ ->]|(_ & j & v & s' & -> & _ & Hr')]; rstep; [done|].
  by eapply Hk.
Qed.

Lemma allocate_returns s l ds t m n addr : repr s l ds -> returns (allocate_pages s t m n addr).
Proof.
  intros Hr. unfold allocate_pages, find_free_memory.
  rewrite (find_free_memory_loop_spec _ _ _ _ _ _ l ds) by eauto using repr_chain, walk_fuel_enough. rstep.
  destruct (Map.split_first _ ds) as [[[ds1 d] ds2]|] eqn:E; [|by do 4 eexists].
  apply Map.split_first_Some in E as (-> & _ & _).
  destruct (slot_at_split l ds1 ds2 d) as (l1 & i & l2 & -> & Hl & ->).
  { exact (lseg_length _ _ _ _ _ (repr_chain _ _ _ Hr)). }
  apply (repr_set_key _ _ _ (usize (key s + 1))) in Hr. set (s1 := set_key _ s) in *.
  destruct (repr_slot _ _ _ _ _ _ _ Hl Hr) as (a & Ha & <- & _). rewrite (slot_Done _ _ _ Ha); rstep.
  destruct (_ =? n).
  { erewrite modify_Done by exact Ha. rstep.
    erewrite slot_Done by (cbn; apply list_lookup_insert_eq; by eapply lookup_lt_Some).
    rstep. do 4 eexists. split; [reflexivity|]. by eapply (repr_update s1 l1 i l2 ds1 (descriptor a) ds2 a). }
  assert (Hnone : forall s' l' ds', repr s' l' ds' -> returns (out_of_resources s')) by (intros; by do 4 eexists).
  assert (Hfront : returns ('(split, s) ← split_allocation s1 i n;
            match split with None => out_of_resources s | Some _ => assign s i m end)).
  { apply (split_returns s1 l1 i l2 ds1 (descriptor a) ds2 n _ Hl Hr); [by eapply Hnone|]. intros. by eapply assign_returns. }
  destruct t; [exact Hfront..|]. destruct (_ =? addr); [exact Hfront|].
  apply (split_returns s1 l1 i l2 ds1 (descriptor a) ds2 _ _ Hl Hr); [by eapply Hnone|]. intros k s' d1 d2 Hr'.
  rewrite (cons_middle i l1), app_assoc, (cons_middle d1 ds1), app_assoc in Hr'.
  assert (Hl' : length (l1 ++ [i]) = length (ds1 ++ [d1])) by (rewrite !length_app, Hl; reflexivity).
  destruct (repr_slot _ _ _ _ _ _ _ Hl' Hr') as (b & Hb & _). rewrite (slot_Done _ _ _ Hb); rstep.
  destruct (n <? _); [|by eapply assign_returns].
  eapply split_returns; [exact Hl'|exact Hr'|by eapply Hnone|]. intros. by eapply assign_returns.
Qed.

Lemma merge_loop_returns fuel s l1 i l2 ds1 d ds2 :
  length l1 = length ds1 -> repr s (l1 ++ i :: l2) (ds1 ++ d :: ds2) -> (length l2 < fuel)%nat ->
  exists s' l' ds', merge_free_memory_loop fuel s (Some i) = Done s' /\ repr s' l' ds'.
Proof.
  revert s l1 i l2 ds1 d ds2.
  induction fuel as [|fuel IH]; intros s l1 i l2 ds1 d ds2 Hl Hr Hf; [lia|].
  destruct (repr_slot _ _ _ _ _ _ _ Hl Hr) as (a & Ha & <- & _ & _ & Hnext).
  cbn [merge_free_memory_loop]. rewrite (slot_Done _ _ _ Ha); rstep.
  destruct l2 as [|k l2], ds2 as [|d2 ds2]; cbn in Hnext; try done.
  { rewrite Hnext. by do 3 eexists. }
  destruct Hnext as (-> & b & Hb & <- & _). rewrite (slot_Done _ _ _ Hb); rstep. cbn [length] in Hf.
  destruct (mergeable _ _).
  - set (p := u64 _). destruct (merge_step_refines s l1 i k l2 ds1 ds2 a b Hl Hr Ha Hb p) as (s' & Hrun & Hr').
    apply bind_Done in Hrun as (s1 & -> & Hrun); rstep. apply bind_Done in Hrun as (n1 & -> & Hrun); rstep.
    apply bind_Done in Hrun as (s2 & -> & Hrun); rstep. rewrite Hrun; rstep. eapply IH; [exact Hl|exact Hr'|lia].
  - rewrite (cons_middle i), app_assoc, (cons_middle (descriptor a)), app_assoc in Hr.
    eapply IH; [|exact Hr|lia]. by rewrite !length_app, Hl.
Qed.

Lemma free_returns s l ds addr : repr s l ds -> returns (free_pages s addr).
Proof.
  intros Hr. unfold free_pages.
  rewrite (free_pages_loop_spec _ _ _ l ds) by eauto using repr_chain, walk_fuel_enough.
  destruct (Map.split_first _ ds) as [[[ds1 d] ds2]|] eqn:E; [|by do 4 eexists].
  apply Map.split_first_Some in E as (-> & _ & _).
  destruct (slot_at_split l ds1 ds2 d) as (l1 & i & l2 & -> & Hl & ->).
  { exact (lseg_length _ _ _ _ _ (repr_chain _ _ _ Hr)). }
  destruct (repr_slot _ _ _ _ _ _ _ Hl Hr) as (a & Ha & <- & _). erewrite modify_Done by exact Ha. rstep.
  set (s1 := mkAllocator _ _ _).
  assert (Hr1 : repr s1 (l1 ++ i :: l2) (ds1 ++ set_type (memory_type_u32 ConventionalMemory) (descriptor a) :: ds2))
    by by eapply (repr_update s l1 i l2 ds1 (descriptor a) ds2 a).
  assert (Hm : exists s' l' ds', merge_free_memory s1 = Done s' /\ repr s' l' ds').
  { unfold merge_free_memory. pose proof (walk_fuel_enough _ _ _ Hr1) as Hfuel. pose proof (repr_chain _ _ _ Hr1) as Hch.
    destruct (l1 ++ i :: l2) as [|j l'] eqn:El, (ds1 ++ set_type _ _ :: ds2) as [|e ds'] eqn:Ed; try done; [by destruct l1|].
    destruct Hch as (-> & _). apply (merge_loop_returns _ s1 [] j l' [] e ds'); [done|done|cbn in Hfuel; lia]. }
  destruct Hm as (s' & l' & ds' & -> & Hr'). rstep. by do 4 eexists.
Qed.

Lemma call_returns s l ds c : repr s l ds -> exists s' l' ds', call_step s c = Done s' /\ repr s' l' ds'.
Proof.
  intros Hr. assert (Hret : forall {A} (m : res (A * Allocator)), returns m ->
    exists s' l' ds', ('(_, s) ← m; Done s) = Done s' /\ repr s' l' ds').
  { intros A m (r & s' & l' & ds' & -> & Hr'). rstep. by do 3 eexists. }
  destruct c; cbn [call_step]; apply Hret.
  - eapply returns_outcome, add_initial_allocation_refines, Hr.
  - by eapply allocate_returns.
  - by eapply free_returns.
  - destruct (update_virtual_addresses_refines s l ds vs Hr) as (st & s' & l' & ds' & -> & Hr' & _). by do 4 eexists.
Qed.

Lemma run_calls_returns cs s l ds : repr s l ds -> exists s' l' ds', run_calls s cs = Done s' /\ repr s' l' ds'.
Proof.
  revert s l ds. induction cs as [|c cs IH]; intros s l ds Hr; cbn [run_calls]; [by do 3 eexists|].
  destruct (call_returns s l ds c Hr) as (s' & l' & ds' & -> & Hr'). rstep. by eapply IH.
Qed.

Lemma call_holds s rs c s' : holds s rs -> call_in_range s c -> call_step s c = Done s' -> exists rs', holds s' rs'.
Proof.
  intros Hs Hc E. destruct c; cbn [call_step call_in_range] in *; unbind E as [r s2] eqn E2; injection E as <-.
  - destruct Hc as (Hn & Ha & Hend & Hin).
    destruct (holds_add s rs m n addr attr Hs Hn Ha Hend) as (s3 & E3 & H3); [by eapply holds_in_use|].
    rewrite E2 in E3. injection E3 as -> ->. eauto.
  - destruct (holds_allocate s rs t m n addr Hs Hc) as (s3 & E3 & H3). rewrite E2 in E3. injection E3 as -> ->. eauto.
  - destruct (holds_free s rs addr Hs) as (s3 & E3 & H3). rewrite E2 in E3. injection E3 as -> ->. eauto.
  - destruct (holds_update_virtual s rs vs Hs) as (st & s3 & E3 & H3). rewrite E2 in E3. injection E3 as -> ->. eauto.
Qed.

Lemma run_calls_hold cs s rs s' : holds s rs -> calls_in_range s cs -> run_calls s cs = Done s' -> exists rs', holds s' rs'.
Proof.
  revert s rs. induction cs as [|c cs IH]; intros s rs Hs Hc E; cbn [run_calls calls_in_range] in *; [simplify_eq; eauto|].
  unbind E as s2 eqn E2. destruct Hc as [Hc Hcs]. destruct (call_holds s rs c s2 Hs Hc E2) as [rs2 H2].
  exact (IH s2 rs2 H2 (Hcs s2 E2) E).
Qed.

Lemma get_descriptors_short s l ds out : repr s l ds -> (length out < length ds)%nat -> get_descriptors s out = Panic.
Proof.
  intros Hr Hout. unfold get_descriptors. rewrite (get_descriptor_count_spec _ _ _ Hr); rstep.
  unfold assert_. by rewrite (proj2 (Nat.leb_gt _ _)).
Qed.

Lemma demo_first s1 : call_step Alloc.new (CAdd ConventionalMemory 160 0 MEMORY_WB) = Done s1 ->
  forall i a, allocations s1 !! i = Some a -> in_use a = true ->
    Map.rend (Map.region_of (descriptor a)) <= 0x200000.
Proof.
  intros E. destruct (holds_add Alloc.new [] ConventionalMemory 160 0 MEMORY_WB holds_new)
    as (s2 & E2 & H2); [lia | lia | page_lia | constructor |].
  cbn [call_step] in E. rewrite E2 in E. injection E as <-. by eapply demo_first_ends.
Qed.

(** ** Properties *)

(** C2: Whatever calls are made on a new allocator, in any order and with any
    arguments, all of them return, and so does every further call of any method
    ([add_initial_allocation], [allocate_pages], [free_pages],
    [update_virtual_addresses]): no index is out of range and no walk runs out of fuel,
    because the slots in use are exactly those of the linked list, without
    repetition.  [get_descriptor_count] is the length of that list, and
    [get_descriptors] copies its descriptors to the front of a slice that is long
    enough and panics, its assertion, on a shorter one.  When moreover every region
    was added within the address space and above the regions in use, and no request
    for an address ran past the end of the address space, the list is a well-formed
    memory map: regions within the address space, in order, disjoint. *)
Theorem allocator_invariant cs : exists s l ds,
  run_calls Alloc.new cs = Done s /\ repr s l ds /\
  (forall c, exists s', call_step s c = Done s') /\
  get_descriptor_count s = Done (length ds) /\
  (forall out, get_descriptors s out =
     if (length ds <=? length out)%nat then Done (length ds, ds ++ drop (length ds) out) else Panic) /\
  (calls_in_range Alloc.new cs -> Map.map_ok (regions ds)).
Proof.
  destruct holds_new as (l0 & ds0 & Hr0 & _).
  destruct (run_calls_returns cs Alloc.new l0 ds0 Hr0) as (s & l & ds & E & Hr).
  exists s, l, ds. split_and!; [done|done|..].
  - intros c. destruct (call_returns s l ds c Hr) as (s' & _ & _ & ? & _). eauto.
  - by eapply get_descriptor_count_spec.
  - intros out. destruct (Nat.leb_spec (length ds) (length out)).
    + by eapply get_descriptors_spec.
    + by eapply get_descriptors_short.
  - intros Hc. destruct (run_calls_hold cs _ [] s holds_new Hc E) as (rs & l' & ds' & Hr' & -> & Hok).
    by rewrite (lseg_unique _ _ _ _ _ _ (repr_chain _ _ _ Hr) (repr_chain _ _ _ Hr')).
Qed.

(** The calls that fill the example, and a request whose end wraps. *)
Definition demo_calls : list call :=
  [CAdd ConventionalMemory 160 0 MEMORY_WB; CAdd ConventionalMemory 512 0x200000 MEMORY_WB].
Lemma allocator_invariant_witness :
  (exists s l ds, run_calls Alloc.new demo_calls = Done s /\ repr s l ds /\ Map.map_ok (regions ds)) /\
  (exists s, run_calls Alloc.new (demo_calls ++ [CAllocate AllocateAddress LoaderData (2 ^ 52) 0x200000]) = Done s /\
   exists s', call_step s (CFree 0x200000) = Done s').
Proof.
  split.
  - destruct (allocator_invariant demo_calls) as (s & l & ds & E & Hr & _ & _ & _ & Hok).
    exists s, l, ds. split; [exact E|]. split; [exact Hr|]. apply Hok. clear.
    split; [split_and!; [lia|lia|page_lia|]; intros i a [-> _]%lookup_replicate; done|].
    intros s1 E1. split; [|done]. split_and!; [lia|lia|page_lia|].
    by apply demo_first.
  - destruct (allocator_invariant (demo_calls ++ [CAllocate AllocateAddress LoaderData (2 ^ 52) 0x200000]))
      as (s & l & ds & E & _ & Hc & _). exists s. split; [exact E|]. apply Hc.
Defined.

(** C3: The linked-list allocator refines the abstract memory map: on a state
    that holds the map [rs], [allocate_pages], [free_pages] and
    [add_initial_allocation] return with the status and address the abstract
    operation gives and leave a state that holds the abstract result. *)
Theorem allocator_refines_map s rs : holds s rs ->
  (forall t m n addr, request_ok t n addr ->
     exists s', allocate_pages s t m n addr =
         Done ((Map.allocate MAX_ALLOCATIONS rs t m n addr).1, s') /\
       holds s' (Map.allocate MAX_ALLOCATIONS rs t m n addr).2) /\
  (forall addr, exists s', free_pages s addr = Done ((Map.free rs addr).1, s') /\
     holds s' (Map.free rs addr).2) /\
  (forall m n addr attr, 0 <= n -> 0 <= addr -> addr + PAGE_SIZE * n < 2 ^ 64 ->
     Forall (fun q => Map.rend q <= addr) rs ->
     exists s', add_initial_allocation s m n addr attr =
         Done ((Map.add MAX_ALLOCATIONS rs m n addr attr).1, s') /\
       holds s' (Map.add MAX_ALLOCATIONS rs m n addr attr).2).
Proof.
  intros Hs. split_and!; intros.
  - by apply holds_allocate.
  - by apply holds_free.
  - by apply holds_add.
Qed.

Lemma allocator_refines_map_witness : exists s',
  allocate_pages demo AllocateAddress LoaderData 16 0x210000 = Done ((Status.SUCCESS, 0x210000), s').
Proof.
  destruct (proj1 (allocator_refines_map demo demo_map demo_holds)
    AllocateAddress LoaderData 16 0x210000) as (s' & E & _).
  - unfold request_ok. split_and!; [lia | lia | intros _; page_lia].
  - exists s'. rewrite E. by vm_compute.
Defined.

(** The type of every address after pages [base], [n] went from free to [m]. *)
Definition taken (m : MemoryType) (n base : Z) (rs rs' : list Map.Region) : Prop := forall a,
  if (base <=? a) && (a <? base + PAGE_SIZE * n)
  then type_at rs a = Some Map.CONVENTIONAL /\ type_at rs' a = Some (memory_type_u32 m)
  else type_at rs' a = type_at rs a.

(** Both outcomes of an allocation, as its callers use them. *)
Lemma allocate_outcome s rs t m n addr : holds s rs -> request_ok t n addr -> exists s' rs',
  holds s' rs' /\
  ((exists base, allocate_pages s t m n addr = Done ((Status.SUCCESS, base), s') /\
      placed t rs n addr base /\ taken m n base rs rs') \/
   (allocate_pages s t m n addr = Done ((Status.OUT_OF_RESOURCES, 0), s') /\ same_types rs rs')).
Proof.
  intros Hs Hreq. destruct (holds_allocate s rs t m n addr Hs Hreq) as (s' & E & H2).
  pose proof Hs as (_ & _ & _ & _ & Hok).
  destruct (allocate_results MAX_ALLOCATIONS rs t m n addr Hok (proj1 Hreq))
    as [|rs' _ _ Hsame|pre r post mid b -> Hfit Hc Hpl]; cbn [fst snd] in *; exists s'; eexists; (split; [exact H2|]).
  - right. by split.
  - right. by split.
  - left. exists b. split; [done|]. split; [done|]. intros a.
    rewrite (carved_types _ _ _ _ _ _ _ Hok Hc). destruct (_ && _) eqn:Ea; [|done].
    split; [|done]. rewrite <- (fits_conventional _ _ _ _ Hfit).
    destruct Hc as (? & ? & _). bool_to_prop. apply type_at_member; [done | lia].
Qed.

(** C4: A successful [allocate_pages] hands out pages that were all
    conventional memory, marks exactly those with the requested type, changes
    the type of no other address, and places them where the request asked
    (above 1 MiB, below the limit, or at the address). *)
Theorem allocate_pages_takes_free_pages s rs t m n addr base s' :
  holds s rs -> request_ok t n addr ->
  allocate_pages s t m n addr = Done ((Status.SUCCESS, base), s') ->
  exists rs', holds s' rs' /\ placed t rs n addr base /\ taken m n base rs rs'.
Proof.
  intros Hs Hreq E.
  destruct (allocate_outcome s rs t m n addr Hs Hreq) as (s2 & rs' & H2 & [(b & E2 & Hp & Ht)|[E2 _]]);
    rewrite E in E2; simplify_eq; eauto.
Qed.

Lemma allocate_pages_takes_free_pages_witness : exists s' rs',
  allocate_pages demo AllocateAnyPages LoaderCode 3 0 = Done ((Status.SUCCESS, 0x200000), s') /\
  holds s' rs' /\ type_at rs' 0x202fff = Some 1.
Proof.
  assert (Hreq : request_ok AllocateAnyPages 3 0) by (split_and!; [lia | lia | discriminate]).
  destruct (holds_allocate demo demo_map AllocateAnyPages LoaderCode 3 0 demo_holds Hreq)
    as (s' & E & _).
  assert (E' : allocate_pages demo AllocateAnyPages LoaderCode 3 0 =
    Done ((Status.SUCCESS, 0x200000), s')) by (rewrite E; by vm_compute).
  destruct (allocate_pages_takes_free_pages demo demo_map AllocateAnyPages LoaderCode 3 0 0x200000 s'
    demo_holds Hreq E') as (rs' & H & _ & Ht).
  exists s', rs'. split; [exact E'|]. split; [exact H|]. specialize (Ht 0x202fff).
  replace ((0x200000 <=? 0x202fff) && (0x202fff <? 0x200000 + PAGE_SIZE * 3)) with true in Ht
    by (vm_compute; reflexivity). apply Ht.
Defined.

(** C5: A failed [allocate_pages] reports OUT_OF_RESOURCES and address 0,
    changes the type of no address, and fails only when no conventional region
    fits the request or fewer than two of the MAX_ALLOCATIONS slots are free. *)
Theorem allocate_pages_failure s rs t m n addr st base s' :
  holds s rs -> request_ok t n addr ->
  allocate_pages s t m n addr = Done ((st, base), s') -> st <> Status.SUCCESS ->
  st = Status.OUT_OF_RESOURCES /\ base = 0 /\
  (Forall (fun r => Map.fits t n addr r = false) rs \/ (MAX_ALLOCATIONS <= S (length rs))%nat) /\
  exists rs', holds s' rs' /\ same_types rs rs'.
Proof.
  intros Hs Hreq E Hne. destruct (holds_allocate s rs t m n addr Hs Hreq) as (s2 & E2 & H2).
  rewrite E in E2. pose proof Hs as (_ & _ & _ & _ & Hok).
  destruct (allocate_results MAX_ALLOCATIONS rs t m n addr Hok (proj1 Hreq))
    as [Hnone|rs' Hfull _ Hsame|]; cbn [fst snd] in *; simplify_eq.
  - split_and!; auto. by exists rs.
  - split_and!; auto. by exists rs'.
Qed.

Lemma allocate_pages_failure_witness : exists s',
  allocate_pages demo AllocateAddress LoaderCode 1 0x100000 = Done ((Status.OUT_OF_RESOURCES, 0), s') /\
  exists rs', holds s' rs' /\ same_types demo_map rs'.
Proof.
  assert (Hreq : request_ok AllocateAddress 1 0x100000)
    by (unfold request_ok; split_and!; [lia | lia | intros _; page_lia]).
  destruct (holds_allocate demo demo_map AllocateAddress LoaderCode 1 0x100000 demo_holds Hreq)
    as (s' & E & _).
  assert (E' : allocate_pages demo AllocateAddress LoaderCode 1 0x100000 =
    Done ((Status.OUT_OF_RESOURCES, 0), s')) by (rewrite E; by vm_compute).
  exists s'. split; [exact E'|].
  apply (allocate_pages_failure demo demo_map AllocateAddress LoaderCode 1 0x100000
    Status.OUT_OF_RESOURCES 0 s' demo_holds Hreq E'). vm_compute. discriminate.
Defined.

(** [free_pages] of an address where a region starts makes exactly that
    region conventional again and leaves no two adjacent conventional regions
    unmerged; at any other address it reports NOT_FOUND and changes nothing. *)
Theorem free_pages_correct s rs addr : holds s rs ->
  (Exists (fun r => Map.rstart r = addr) rs /\
   exists s' rs' r, free_pages s addr = Done (Status.SUCCESS, s') /\ holds s' rs' /\
     coalesced rs' /\ r ∈ rs /\ Map.rstart r = addr /\
     forall a, type_at rs' a = if contains r a then Some Map.CONVENTIONAL else type_at rs a) \/
  (Forall (fun r => Map.rstart r <> addr) rs /\
   exists s', free_pages s addr = Done (Status.NOT_FOUND, s') /\ holds s' rs).
Proof.
  intros Hs. destruct (holds_free s rs addr Hs) as (s' & E & Hs').
  pose proof Hs as (_ & _ & _ & _ & Hok). rewrite E. clear E.
  destruct (Map.free rs addr) as [st rs'] eqn:Ef. pose proof Ef as Ef'. unfold Map.free in Ef'.
  destruct (Map.split_first _ rs) as [[[pre r] post]|] eqn:Esp; simplify_eq.
  - left. destruct (free_types _ _ _ Hok Ef) as (Hc & q & Hq & Hst & Ht). split.
    + apply Exists_exists. eauto.
    + eauto 10.
  - right. apply Map.split_first_None in Esp. split; [|eauto].
    eapply Forall_impl; [exact Esp|]. intros q Hq. cbn in Hq. bool_to_prop. congruence.
Qed.

Lemma free_pages_correct_witness : exists s', free_pages demo 0x200000 = Done (Status.SUCCESS, s').
Proof.
  destruct (free_pages_correct demo demo_map 0x200000 demo_holds)
    as [(_ & s' & _ & _ & E & _) | (Hno & _)]; [eauto|].
  apply Forall_cons in Hno as [_ [Hno _]%Forall_cons]. done.
Defined.

(** C6: Freeing what was just allocated restores the map: on a page-aligned
    map of non-empty regions, [free_pages] of the address a successful
    non-runtime [allocate_pages] returned succeeds and gives back the original
    map with its free neighbours merged, the original itself when it had none. *)
Theorem allocate_then_free s rs t m n addr base s' :
  holds s rs -> nonempty rs -> aligned rs -> request_ok t n addr ->
  (t = AllocateAddress -> (PAGE_SIZE | addr)) -> runtime_attribute m = 0 ->
  allocate_pages s t m n addr = Done ((Status.SUCCESS, base), s') ->
  exists s'', free_pages s' base = Done (Status.SUCCESS, s'') /\
    holds s'' (Map.merge rs) /\ (coalesced rs -> Map.merge rs = rs).
Proof.
  intros Hs Hne Hal Hreq Haddr Hm E.
  destruct (holds_allocate s rs t m n addr Hs Hreq) as (s2 & E2 & H2).
  rewrite E in E2. destruct (Map.allocate _ rs t m n addr) as [r rs'] eqn:Ea.
  cbn in E2, H2. simplify_eq. pose proof Hs as (_ & _ & _ & _ & Hok).
  pose proof (allocate_free _ _ _ _ _ _ _ _ Hok Hne Hal (proj1 Hreq) Haddr Hm Ea) as Ef.
  destruct (holds_free s2 rs' base H2) as (s3 & E3 & H3). rewrite Ef in E3, H3.
  exists s3. split_and!; [done | done | apply merge_coalesced].
Qed.

Lemma allocate_then_free_witness : exists s' s'',
  allocate_pages demo AllocateAddress LoaderData 16 0x210000 = Done ((Status.SUCCESS, 0x210000), s') /\
  free_pages s' 0x210000 = Done (Status.SUCCESS, s'') /\ holds s'' demo_map.
Proof.
  assert (Hreq : request_ok AllocateAddress 16 0x210000)
    by (unfold request_ok; split_and!; [lia | lia | intros _; page_lia]).
  destruct (holds_allocate demo demo_map AllocateAddress LoaderData 16 0x210000 demo_holds Hreq)
    as (s' & E & _).
  assert (E' : allocate_pages demo AllocateAddress LoaderData 16 0x210000 =
    Done ((Status.SUCCESS, 0x210000), s')) by (rewrite E; by vm_compute).
  destruct (allocate_then_free demo demo_map AllocateAddress LoaderData 16 0x210000 0x210000 s')
    as (s'' & Ef & Hs & _); [apply demo_holds | | | done | | done | done |].
  - repeat apply Forall_cons_2; try apply Forall_nil_2; done.
  - repeat apply Forall_cons_2; try apply Forall_nil_2; [by exists 0 | by exists 512].
  - intros _. by exists 0x210.
  - exists s', s''. split_and!; [exact E' | exact Ef | exact Hs].
Defined.

(** [get_descriptors] writes the whole map, in order, to the front of the
    caller's slice and returns its length; a slice shorter than the map makes
    its assertion fail. *)
Theorem get_descriptors_is_map s rs out : holds s rs ->
  ((length rs <= length out)%nat ->
   exists ds, regions ds = rs /\ get_descriptor_count s = Done (length rs) /\
     get_descriptors s out = Done (length rs, ds ++ drop (length rs) out)) /\
  ((length out < length rs)%nat -> get_descriptors s out = Panic).
Proof.
  intros (l & ds & Hr & -> & _). rewrite length_map. split; intros Hout.
  - exists ds. split; [done|]. split; [by eapply get_descriptor_count_spec|].
    by eapply get_descriptors_spec.
  - unfold get_descriptors. rewrite (get_descriptor_count_spec _ _ _ Hr); rstep.
    unfold assert_. by rewrite (proj2 (Nat.leb_gt _ _)).
Qed.

Lemma get_descriptors_is_map_witness :
  get_descriptors demo [] = Panic /\ get_descriptor_count demo = Done 2%nat.
Proof.
  split.
  - apply (get_descriptors_is_map demo demo_map []); [apply demo_holds | cbn; lia].
  - destruct (proj1 (get_descriptors_is_map demo demo_map (replicate 2 default_descriptor)
      demo_holds)) as (ds & _ & E & _); [cbn; lia | exact E].
Defined.

(** The bound in [request_ok] is needed: for 2^52 pages at an address the
    end of the request wraps to its start, so [allocate_pages] reports SUCCESS
    for a 512-page region and leaves a map whose region claims 2^52 pages. *)
Theorem allocate_address_overflow :
  exists s' a, allocate_pages demo AllocateAddress LoaderData (2 ^ 52) 0x200000 =
      Done ((Status.SUCCESS, 0x200000), s') /\
    allocations s' !! 1%nat = Some a /\ in_use a = true /\
    number_of_pages (descriptor a) = 2 ^ 52 /\ ~ Map.region_ok (Map.region_of (descriptor a)).
Proof.
  set (r := allocate_pages _ _ _ _ _).
  assert (H : match r with
    | Done ((st, b), s') =>
        Status.eqb st Status.SUCCESS && (b =? 0x200000) &&
        match allocations s' !! 1%nat with
        | Some a => in_use a && (number_of_pages (descriptor a) =? 2 ^ 52)
        | None => false
        end
    | _ => false
    end = true) by (vm_compute; reflexivity).
  destruct r as [[[st b] s']| |]; [|done..]. bool_to_prop.
  destruct (allocations s' !! 1%nat) as [a|] eqn:Ea; [|done]. bool_to_prop.
  exists s', a. apply status_eqb_spec in H. subst. split_and!; try done.
  intros (Hs & _ & H'). unfold Map.rend, Map.region_of in *. cbn in *. page_lia.
Qed.
