(* ===== verification/AllocRoom.v ===== *)
(** * Room for allocations

    When an allocation for any pages succeeds: [spare rs p k] says that the map has
    a free region above 1 MiB of at least [p] pages and [k] unused slots.  Every
    allocation takes from it no more than its pages and one slot, so that a
    sequence of allocations succeeds when their sum fits. *)

From S2P Require Import Prelude REfi Alloc MemMap MapSafety AllocRepr AllocRefine AllocSafety.
Import Alloc.

Definition spare (rs : list Map.Region) (p : Z) (k : nat) : Prop :=
  (exists r, r ∈ rs /\ Map.rtype r = Map.CONVENTIONAL /\ 0x100000 < Map.rstart r /\ p <= Map.rpages r) /\
  (length rs + k <= MAX_ALLOCATIONS)%nat.

(** The region that has the pages, or what is left of it, is still there. *)
Lemma map_allocate_room rs m n p k : spare rs p (S k) -> 0 <= n < p ->
  let r := Map.allocate MAX_ALLOCATIONS rs AllocateAnyPages m n 0 in
  r.1.1 = Status.SUCCESS /\ spare r.2 (p - n) k.
Proof.
  intros [(q & Hq & Ht & Hs & Hp) Hk] Hn. unfold Map.allocate.
  destruct (Map.split_first _ rs) as [[[pre r] post]|] eqn:E.
  2:{ apply Map.split_first_None in E. eapply Forall_forall in E; [|exact Hq]. exfalso. revert E. unfold Map.fits.
      rewrite Ht, Z.eqb_refl, (proj2 (Z.leb_le _ _)), (proj2 (Z.ltb_lt _ _)) by lia. done. }
  apply Map.split_first_Some in E as (-> & Hfit & _). unfold Map.fits in Hfit. bool_to_prop.
  rewrite length_app in Hk. cbn [length] in Hk.
  assert (Hin : q = r \/ q ∈ pre \/ q ∈ post) by (rewrite elem_of_app, elem_of_cons in Hq; tauto).
  destruct (Z.eqb_spec (Map.rpages r) n).
  - split; [done|]. cbn [snd]. split; [|rewrite length_app; cbn [length]; lia].
    exists q. destruct Hin as [->|Hin]; [lia|]. split; [rewrite elem_of_app, elem_of_cons; tauto|].
    split_and!; [done|done|lia].
  - unfold Map.carve_front. rewrite (proj2 (Nat.eqb_neq _ _)) by (rewrite length_app; cbn [length]; lia).
    cbn [fst snd]. split; [done|]. split; [|rewrite length_app; cbn [length]; lia].
    destruct Hin as [<-|Hin].
    + exists (Map.upper n q). split; [rewrite elem_of_app, !elem_of_cons; tauto|].
      unfold Map.upper, PAGE_SIZE. cbn [Map.rtype Map.rstart Map.rpages]. split_and!; [done|lia|lia].
    + exists q. split; [rewrite elem_of_app, !elem_of_cons; tauto|]. split_and!; [done|done|lia].
Qed.

(** An allocator holds one map. *)
Lemma holds_unique a rs rs' : holds a rs -> holds a rs' -> rs = rs'.
Proof.
  intros (l & ds & H1 & -> & _) (l' & ds' & H2 & -> & _). f_equal.
  eapply lseg_unique; [apply (repr_chain _ _ _ H1)|apply (repr_chain _ _ _ H2)].
Qed.

(** With room for it, an allocation succeeds and takes from the room only its own
    pages. *)
Lemma allocate_in_room a rs m n p k : holds a rs -> spare rs p (S k) -> 0 <= n < p -> exists w a' rs',
  allocate_pages a AllocateAnyPages m n 0 = Done ((Status.SUCCESS, w), a') /\ holds a' rs' /\ spare rs' (p - n) k.
Proof.
  intros Ha Hr Hn. destruct (holds_allocate a rs AllocateAnyPages m n 0 Ha) as (a' & E & Ha').
  { unfold request_ok. split_and!; [lia|lia|done]. }
  destruct (map_allocate_room rs m n p k Hr Hn) as [Hst Hroom].
  destruct (Map.allocate _ rs _ m n 0) as [[st w] rs'] eqn:Em. cbn [fst snd] in *. subst st. eauto 10.
Qed.
