(* ===== verification/EfiFile.v ===== *)
(** * The EFI file protocol (src/efi/file.rs) and the C allocation shims
      (src/calloc.rs)

    The protocol hands the application pointers to the [proto] member of objects
    allocated page by page: [FileSystemWrapper] and [FileWrapper].  Their
    addresses are those the allocator gives; where the compiler puts [proto]
    inside them, and their sizes, are a parameter ([Layout]).  The objects are
    kept by address in two maps; the callers' strings and buffers are in
    memory. *)

From S2P Require Import Prelude REfi Mem Part EfiStr Fat Alloc.

(** ** src/calloc.rs *)
Module Calloc.

(** [malloc::<T>], [size] being [size_of::<T>()]. *)
Definition malloc (a : Alloc.Allocator) (size : Z) : res (result Z Status.t * Alloc.Allocator) :=
  '((status, address), a) ←
    Alloc.allocate_pages a AllocateAnyPages LoaderData
      (usize (usize (size + Alloc.PAGE_SIZE) - 1) / Alloc.PAGE_SIZE) 0;
  if negb (Status.eqb status Status.SUCCESS) then Done (Err Status.OUT_OF_RESOURCES, a)
  else Done (Ok address, a).

(** [free] gives the allocator the address of its own parameter [ptr], which
    lives at [slot] on the stack. *)
Definition free (a : Alloc.Allocator) (slot : Z) : res Alloc.Allocator :=
  '(_, a) ← Alloc.free_pages a slot;
  Done a.

(** [duplicate] of an object whose bytes are [d]. *)
Definition duplicate (m : memory) (a : Alloc.Allocator) (d : list Z)
    : res (result Z Status.t * memory * Alloc.Allocator) :=
  '(r, a) ← malloc a (Z.of_nat (length d));
  match r with
  | Err e => Done (Err e, m, a)
  | Ok t => Done (Ok t, store_bytes m t d, a)
  end.
End Calloc.

(** ** [core::str::from_utf8]: whether bytes are valid UTF-8 *)
Definition between (lo b hi : Z) : bool := (lo <=? b) && (b <=? hi).
Fixpoint is_utf8 (fuel : nat) (bs : list Z) : bool :=
  match fuel with
  | O => false
  | S fuel =>
      match bs with
      | [] => true
      | b0 :: r0 =>
          if between 0 b0 0x7f then is_utf8 fuel r0
          else match r0 with
          | [] => false
          | b1 :: r1 =>
              if between 0xc2 b0 0xdf && between 0x80 b1 0xbf then is_utf8 fuel r1
              else match r1 with
              | [] => false
              | b2 :: r2 =>
                  if (((b0 =? 0xe0) && between 0xa0 b1 0xbf)
                      || ((between 0xe1 b0 0xec || between 0xee b0 0xef) && between 0x80 b1 0xbf)
                      || ((b0 =? 0xed) && between 0x80 b1 0x9f))
                     && between 0x80 b2 0xbf then is_utf8 fuel r2
                  else match r2 with
                  | [] => false
                  | b3 :: r3 =>
                      (((b0 =? 0xf0) && between 0x90 b1 0xbf)
                       || (between 0xf1 b0 0xf3 && between 0x80 b1 0xbf)
                       || ((b0 =? 0xf4) && between 0x80 b1 0x8f))
                      && between 0x80 b2 0xbf && between 0x80 b3 0xbf && is_utf8 fuel r3
                  end
              end
          end
      end
  end.
Definition from_utf8 (bs : list Z) : option (list Z) :=
  if is_utf8 (S (length bs)) bs then Some bs else None.

Module EfiFile.

(** ** [FileInfo], packed: the offsets of its fields, and its size *)
Definition INFO_FILE_SIZE : Z := 8.
Definition INFO_PHYSICAL_SIZE : Z := 16.
Definition INFO_ATTRIBUTE : Z := 72.
Definition INFO_FILE_NAME : Z := 80.
Definition FILE_INFO_SIZE : Z := INFO_FILE_NAME + Z.of_nat Fat.EFI_PATH_STRING_LENGTH * 2.

(** r-efi/src/protocols/file.rs *)
Definition INFO_ID : Guid.t :=
  Guid.from_fields 0x09576e92 0x6d3f 0x11d2 0x8e 0x39 [0x00; 0xa0; 0xc9; 0x69; 0x72; 0x3b].

(** The long name, or the short one spread over its first units when there is
    none. *)
Definition info_name (de : Fat.DirectoryEntry) : res (list Z) :=
  u ← index (Fat.long_name de) 0;
  if u =? 0 then
    _ ← assert_ (Fat.EFI_FAT_SHORT_NAME_LEN + 1 <=? length (Fat.name de))%nat;
    _ ← assert_ (Fat.EFI_FAT_SHORT_NAME_LEN + 1 <=? length (Fat.long_name de))%nat;
    Done (take (Fat.EFI_FAT_SHORT_NAME_LEN + 1) (Fat.name de)
          ++ drop (Fat.EFI_FAT_SHORT_NAME_LEN + 1) (Fat.long_name de))
  else Done (Fat.long_name de).

(** Storing 16-bit units one after the other. *)
Fixpoint store_units (m : memory) (a : Z) (us : list Z) : memory :=
  match us with
  | [] => m
  | u :: us => store_units (store16 m a u) (a + 2) us
  end.

(** What [init] reports as file size. *)
Definition info_file_size (de : Fat.DirectoryEntry) : Z :=
  match Fat.file_type de with Fat.File_ => Fat.size de | Fat.Directory_ => 4096 end.

(** [FileInfo::init] on the structure at [info]: the size of the information,
    as a success or as what the caller should have had. *)
Definition info_init (beyond : nat -> Z) (m : memory) (info : Z) (de : Fat.DirectoryEntry) (max_size : Z)
    : res (result Z Z * memory) :=
  long_name ← info_name de;
  filename ← OsStr.from_u16_slice_with_nul beyond long_name;
  let name_len := length filename in
  let size := usize (INFO_FILE_NAME + (Z.of_nat name_len + 1) * 2) in
  if max_size <? size then Done (Err size, m)
  else
    _ ← assert_ (name_len <? Fat.EFI_PATH_STRING_LENGTH)%nat;
    let m := store_units m (info + INFO_FILE_NAME) filename in
    let m := store16 m (info + INFO_FILE_NAME + 2 * Z.of_nat name_len) 0 in
    let m := store64 m (info + INFO_ATTRIBUTE) (Fat.attr de) in
    let m := store64 m info size in
    let m := store64 m (info + INFO_FILE_SIZE) (info_file_size de) in
    let m := store64 m (info + INFO_PHYSICAL_SIZE) (info_file_size de) in
    Done (Ok size, m).

(** ** [read_file] *)
Section ReadFile.
Context {F : Type} `{Fat.Read F}.

(** [while bytes_remaining > 0]; [out] is what has been copied to the buffer. *)
Fixpoint read_file_loop (fuel : nat) (f : F) (bytes_remaining : Z) (out : list Z) (status : Status.t)
    : res (Status.t * list Z * F) :=
  match fuel with
  | O => OutOfFuel
  | S fuel =>
      if bytes_remaining <=? 0 then Done (status, out, f)
      else
        '(r, f) ← Fat.read f 512;
        match r with
        | Ok (bytes_read, data) =>
            let can_copy_bytes := if bytes_remaining <? bytes_read then bytes_remaining else bytes_read in
            _ ← assert_ (can_copy_bytes <=? Z.of_nat (length data));
            read_file_loop fuel f (bytes_remaining - can_copy_bytes)
              (out ++ take (Z.to_nat can_copy_bytes) data) status
        | Err Fat.EndOfFile =>
            Done (if (length out =? 0)%nat then Status.END_OF_FILE else Status.SUCCESS, out, f)
        | Err _ => read_file_loop fuel f bytes_remaining out Status.DEVICE_ERROR
        end
  end.

(** The result, the bytes written to the front of the buffer, the handle. *)
Definition read_file (fuel : nat) (f : F) (len : Z) : res (result Z Status.t * list Z * F) :=
  '(status, out, f) ← read_file_loop fuel f len [] Status.SUCCESS;
  Done (if Status.is_error status then Err status else Ok (Z.of_nat (length out)), out, f).
End ReadFile.

(** ** The wrappers *)

(** Sizes of the two structures and the offset of [proto] in each. *)
Record Layout := mkLayout {
  fs_wrapper_size : Z; fs_proto : Z; file_wrapper_size : Z; file_proto : Z
}.

Record FileWrapper := mkWrapper { fs_wrapper : Z; ofile : Fat.OFileDirectory }.

Record State (D : Type) := mkState {
  mem : memory;
  allocator : Alloc.Allocator;
  volumes : gmap Z (Fat.Filesystem D);
  files : gmap Z FileWrapper
}.
#[global] Arguments mkState {D}. #[global] Arguments mem {D}. #[global] Arguments allocator {D}.
#[global] Arguments volumes {D}. #[global] Arguments files {D}.

Section Protocol.
Context {D : Type} `{SectorRead D} (beyond : nat -> Z) (L : Layout).

Definition set_memory (s : State D) (m : memory) : State D :=
  mkState m (allocator s) (volumes s) (files s).
Definition set_allocator (s : State D) (a : Alloc.Allocator) : State D :=
  mkState (mem s) a (volumes s) (files s).
Definition set_ofile (s : State D) (w : Z) (fw : FileWrapper) (o : Fat.OFileDirectory) : State D :=
  mkState (mem s) (allocator s) (volumes s) (<[w := mkWrapper (fs_wrapper fw) o]> (files s)).

(** [container_of!] *)
Definition container_of (ptr offset : Z) : Z := usize (ptr - offset).

(** [FileSystemWrapper::new] *)
Definition new (s : State D) (fs : Fat.Filesystem D) : res (result Z Status.t * State D) :=
  '(r, a) ← Calloc.malloc (allocator s) (fs_wrapper_size L);
  match r with
  | Err e => Done (Err e, set_allocator s a)
  | Ok w => Done (Ok w, mkState (mem s) a (<[w := fs]> (volumes s)) (files s))
  end.

(** [create_file] on the volume at [self]. *)
Definition create_file (s : State D) (self : Z) (o : Fat.OFileDirectory)
    : res (result Z Status.t * State D) :=
  '(r, a) ← Calloc.malloc (allocator s) (file_wrapper_size L);
  match r with
  | Err e => Done (Err e, set_allocator s a)
  | Ok w => Done (Ok w, mkState (mem s) a (volumes s) (<[w := mkWrapper self o]> (files s)))
  end.

(** The bytes of the [HardDriveDevicePath] of a volume. *)
Definition hard_drive_device_path (fs : Fat.Filesystem D) : list Z :=
  [4; 1; 42; 0] ++ le_split 4 (Fat.part_id fs) ++ le_split 8 (Fat.start fs)
  ++ le_split 8 (u64 (Fat.last fs - Fat.start fs)) ++ le_split 8 0x5452415020494645 ++ le_split 8 0
  ++ [2; 2] ++ [0x7f; 0xff; 4; 0].
Definition get_hard_drive_device_path (s : State D) (self : Z) : res (result Z Status.t * State D) :=
  fs ← unwrap (volumes s !! self);
  '(r, m, a) ← Calloc.duplicate (mem s) (allocator s) (hard_drive_device_path fs);
  Done (r, mkState m a (volumes s) (files s)).

Definition filesystem_open_volumn (s : State D) (proto file : Z) : res (Status.t * State D) :=
  let wrapper := container_of proto (fs_proto L) in
  fs ← unwrap (volumes s !! wrapper);
  match Fat.root fs with
  | Err _ => Done (Status.DEVICE_ERROR, s)
  | Ok o =>
      '(res, s) ← create_file s wrapper o;
      match res with
      | Err err => Done (err, s)
      | Ok fw => Done (Status.SUCCESS, set_memory s (store64 (mem s) file (fw + file_proto L)))
      end
  end.

(** The path at [path_in] as UTF-8; a path that does not fit 256 bytes counts
    as empty. *)
Definition path_of (fuel : nat) (m : memory) (path_in : Z) : res (list Z) :=
  let unit_at (i : nat) := load16 m (path_in + 2 * Z.of_nat i) in
  len ← OsStr.char16_with_null_len fuel unit_at 0;
  '(r, path) ← Encoder.decode (map unit_at (seq 0 len)) (replicate 256 0);
  let path_len := match r with Ok n => n | Err _ => 0%nat end in
  _ ← assert_ (path_len <=? length path)%nat;
  unwrap (from_utf8 (take path_len path)).

(** What [open] makes of the file system's answer. *)
Definition open_status (e : Fat.Error) : Status.t :=
  match e with Fat.NotFound => Status.NOT_FOUND | _ => Status.DEVICE_ERROR end.

Definition open (fuel : nat) (s : State D) (file_in file_out path_in : Z) : res (Status.t * State D) :=
  wrapper ← unwrap (files s !! container_of file_in (file_proto L));
  fs ← unwrap (volumes s !! fs_wrapper wrapper);
  path ← path_of fuel (mem s) path_in;
  no_parent ← (if bool_decide (path = [0x2e; 0x2e]) then
                 r ← Fat.get_parent_dir_ent beyond fuel fs (ofile wrapper);
                 Done (match r with Err _ => true | Ok _ => false end)
               else Done false);
  '(out, s) ←
    (if (no_parent : bool) then Done (Err Status.INVALID_PARAMETER, s)
     else
       r ← Fat.open beyond fuel fs (ofile wrapper) path;
       match r with
       | Ok f => create_file s (fs_wrapper wrapper) f
       | Err e => Done (Err (open_status e), s)
       end);
  match out with
  | Ok w => Done (Status.SUCCESS, set_memory s (store64 (mem s) file_out (w + file_proto L)))
  | Err err => Done (err, s)
  end.

(** [close]; [slot] is where [free] finds its parameter on the stack. *)
Definition close (slot : Z) (s : State D) (proto : Z) : res (Status.t * State D) :=
  a ← Calloc.free (allocator s) slot;
  Done (Status.SUCCESS, set_allocator s a).

Definition delete : Status.t := Status.UNSUPPORTED.

(** The two arms of [read]. *)
Definition read_regular (fuel : nat) (s : State D) (w : Z) (fw : FileWrapper) (fs : Fat.Filesystem D)
    (size buf : Z) : res (Status.t * State D) :=
  f ← unwrap (Fat.file (ofile fw));
  '(r, out, (_, f)) ← read_file (H := Fat.File_Read beyond) fuel (fs, f) (load64 (mem s) size);
  let o := Fat.mkO (Fat.dir_ent (ofile fw)) (Some f) (Fat.dir (ofile fw)) (Fat.pdir_ent (ofile fw)) in
  let s := set_ofile s w fw o in
  let m := store_bytes (mem s) buf out in
  match r with
  | Ok bytes_read => Done (Status.SUCCESS, set_memory s (store64 m size bytes_read))
  | Err err => Done (err, set_memory s (store64 m size 0))
  end.

Definition read_directory (fuel : nat) (s : State D) (w : Z) (fw : FileWrapper) (fs : Fat.Filesystem D)
    (size buf : Z) : res (Status.t * State D) :=
  d ← unwrap (Fat.dir (ofile fw));
  '(r, d) ← Fat.next_entry beyond fuel fs d;
  let o := Fat.mkO (Fat.dir_ent (ofile fw)) (Fat.file (ofile fw)) (Some d) (Fat.pdir_ent (ofile fw)) in
  let s := set_ofile s w fw o in
  match r with
  | Err Fat.EndOfFile =>
      let m := store64 (mem s) buf 0 in
      let m := store64 m (buf + INFO_ATTRIBUTE) 0 in
      let m := store16 m (buf + INFO_FILE_NAME) 0 in
      Done (Status.SUCCESS, set_memory s (store64 m size 0))
  | Err _ => Done (Status.DEVICE_ERROR, s)
  | Ok de =>
      '(ret, m) ← info_init beyond (mem s) buf de (load64 (mem s) size);
      match ret with
      | Ok total_size => Done (Status.SUCCESS, set_memory s (store64 m size total_size))
      | Err need_size => Done (Status.BUFFER_TOO_SMALL, set_memory s (store64 m size need_size))
      end
  end.

Definition read (fuel : nat) (s : State D) (file size buf : Z) : res (Status.t * State D) :=
  let w := container_of file (file_proto L) in
  fw ← unwrap (files s !! w);
  fs ← unwrap (volumes s !! fs_wrapper fw);
  match Fat.file_type (Fat.dir_ent (ofile fw)) with
  | Fat.File_ => read_regular fuel s w fw fs size buf
  | Fat.Directory_ => read_directory fuel s w fw fs size buf
  end.

Definition write : Status.t := Status.UNSUPPORTED.
Definition get_position : Status.t := Status.UNSUPPORTED.
Definition set_position : Status.t := Status.SUCCESS.

Definition get_info (s : State D) (file guid info_size info : Z) : res (Status.t * State D) :=
  fw ← unwrap (files s !! container_of file (file_proto L));
  if bool_decide (load_bytes (mem s) guid 16 = Guid.as_bytes INFO_ID) then
    if load64 (mem s) info_size <? FILE_INFO_SIZE then
      Done (Status.BUFFER_TOO_SMALL, set_memory s (store64 (mem s) info_size FILE_INFO_SIZE))
    else
      '(ret, m) ← info_init beyond (mem s) info (Fat.dir_ent (ofile fw)) (load64 (mem s) info_size);
      match ret with
      | Ok total_size => Done (Status.SUCCESS, set_memory s (store64 m info_size total_size))
      | Err need_size => Done (Status.BUFFER_TOO_SMALL, set_memory s (store64 m info_size need_size))
      end
  else Done (Status.UNSUPPORTED, s).

Definition set_info : Status.t := Status.UNSUPPORTED.
Definition flush : Status.t := Status.UNSUPPORTED.
Definition open_ex : Status.t := Status.UNSUPPORTED.
Definition read_ex : Status.t := Status.UNSUPPORTED.
Definition write_ex : Status.t := Status.UNSUPPORTED.
Definition flush_ex : Status.t := Status.UNSUPPORTED.
End Protocol.
End EfiFile.
