(* ===== verification/FileProps.v ===== *)
(** * Theorems on the EFI file protocol *)

From S2P Require Import Prelude REfi Mem Part EfiStr Fat FatFile FileRead Alloc MemMap MapSafety AllocRepr AllocRefine AllocSafety AllocRoom EfiFile.
Import EfiFile.

(** ** [read_file] over a [reader] *)
Section ReadFile.
Context {F : Type} `{Fat.Read F} (datas : list (list Z)) (sz : Z) (at_ : F -> nat -> Prop).
Hypothesis Hr : reader datas sz at_.

(** What a read of [len] bytes from sector [k] on returns, and the sector it
    ends before. *)
Definition read_bytes (k : nat) (len : Z) : list Z :=
  take (Z.to_nat (Z.min len (sz - 512 * Z.of_nat k))) (concat (drop k datas)).
Definition read_end (k : nat) (len : Z) : nat :=
  Nat.min (length datas) (k + Z.to_nat ((len + 511) / 512)).

Lemma read_bytes_none k len : len <= 0 \/ (length datas <= k)%nat -> read_bytes k len = [].
Proof.
  intros Hk. pose proof (rd_len _ _ _ Hr). unfold read_bytes.
  replace (Z.to_nat _) with 0%nat; [done|]. lia.
Qed.

Lemma sector_in k data : datas !! k = Some data ->
  length data = 512%nat /\ 512 * Z.of_nat k < sz /\ (sz - 512 * Z.of_nat k <= 512 -> S k = length datas).
Proof.
  intros Hd. pose proof (rd_len _ _ _ Hr). pose proof (rd_sector _ _ _ Hr _ _ Hd) as [? _].
  apply lookup_lt_Some in Hd. split_and!; [done|lia|lia].
Qed.

Lemma concat_drop_sector k data : datas !! k = Some data ->
  concat (drop k datas) = data ++ concat (drop (S k) datas).
Proof. intros Hd. by rewrite (drop_S _ _ _ Hd). Qed.

(** One sector's step of the loop. *)
Lemma read_bytes_step k data len : datas !! k = Some data -> 0 < len ->
  let c := Z.min len (Z.min 512 (sz - 512 * Z.of_nat k)) in
  0 < c <= 512 /\
  read_bytes k len = take (Z.to_nat c) data ++ read_bytes (S k) (len - c) /\
  read_end k len = read_end (S k) (len - c).
Proof.
  intros Hd Hl c. assert (Hc : c = Z.min len (Z.min 512 (sz - 512 * Z.of_nat k))) by done. clearbody c.
  destruct (sector_in k data Hd) as (Hdl & Hk & Hlast).
  pose proof (lookup_lt_Some _ _ _ Hd). split; [lia|].
  destruct (decide (c = 512)) as [Ec|Ec].
  - split.
    + unfold read_bytes. rewrite (concat_drop_sector k data Hd), take_app.
      rewrite !(take_ge data) by lia. do 2 f_equal. lia.
    + unfold read_end. f_equal. replace (len + 511) with ((len - 512 + 511) + 1 * 512) by lia.
      rewrite Z.div_add by lia. assert (0 <= (len - 512 + 511) / 512) by (apply Z.div_pos; lia).
      rewrite Ec. lia.
  - assert (Hor : len <= c \/ S k = length datas) by lia.
    rewrite (read_bytes_none (S k)), app_nil_r by lia. split.
    + unfold read_bytes. rewrite (concat_drop_sector k data Hd), take_app_le by lia. f_equal. lia.
    + unfold read_end. assert (1 <= (len + 511) / 512) by (apply Z.div_le_lower_bound; lia).
      destruct Hor as [Ho|Ho]; [|lia]. assert (c = len) as -> by lia.
      rewrite (Z.div_small (len - len + 511)) by lia.
      assert ((len + 511) / 512 < 2) by (apply Z.div_lt_upper_bound; lia). lia.
Qed.

Lemma read_file_loop_spec fuel f k len out :
  at_ f k -> (k <= length datas)%nat -> 0 <= len -> (length datas - k < fuel)%nat -> exists f',
  read_file_loop fuel f len out Status.SUCCESS =
    Done (if (0 <? len) && (length (out ++ read_bytes k len) =? 0)%nat
          then Status.END_OF_FILE else Status.SUCCESS, out ++ read_bytes k len, f') /\
  at_ f' (read_end k len).
Proof.
  revert f k len out. induction fuel as [|fuel IH]; intros f k len out Hat Hk Hlen Hf; [lia|].
  cbn [read_file_loop]. destruct (len <=? 0) eqn:E0.
  { rewrite read_bytes_none, app_nil_r by lia. rewrite (proj2 (Z.ltb_ge 0 len)) by lia.
    exists f. split; [done|]. unfold read_end. replace len with 0 by lia.
    change (Z.to_nat ((0 + 511) / 512)) with 0%nat.
    replace (Nat.min _ _) with k; [done|lia]. }
  destruct (datas !! k) as [data|] eqn:Hd.
  - destruct (rd_read _ _ _ Hr f k data Hat Hd) as (f1 & -> & Hat1). rstep.
    destruct (read_bytes_step k data len Hd ltac:(lia)) as (Hc & Eb & Ee).
    destruct (sector_in k data Hd) as (Hdl & _ & _). apply lookup_lt_Some in Hd.
    set (c := Z.min len _) in *.
    replace (if len <? _ then len else _) with c by (destruct (Z.ltb_spec len (Z.min 512 (sz - 512 * Z.of_nat k))); lia).
    rewrite (proj2 (Z.leb_le c _)) by lia. cbn [assert_]. rstep.
    destruct (IH f1 (S k) (len - c) (out ++ take (Z.to_nat c) data)) as (f' & -> & Hat'); [done|lia..|].
    rewrite <- app_assoc, <- Eb, <- Ee in *. exists f'. split; [|done].
    assert (length (out ++ read_bytes k len) <> 0)%nat as ->%Nat.eqb_neq.
    { rewrite Eb, !length_app, length_take. lia. }
    by rewrite !andb_false_r.
  - apply lookup_ge_None in Hd. rewrite (rd_eof _ _ _ Hr f k Hat Hd). rstep.
    rewrite read_bytes_none, app_nil_r by lia. rewrite (proj2 (Z.ltb_lt 0 len)) by lia.
    exists f. split; [done|]. unfold read_end. replace (Nat.min _ _) with k; [done|lia].
Qed.

Lemma read_file_spec fuel f k len :
  at_ f k -> (k <= length datas)%nat -> 0 <= len -> (length datas - k < fuel)%nat -> exists f',
  read_file fuel f len =
    Done (if (0 <? len) && (length (read_bytes k len) =? 0)%nat then Err Status.END_OF_FILE
          else Ok (Z.of_nat (length (read_bytes k len))), read_bytes k len, f') /\
  at_ f' (read_end k len).
Proof.
  intros Hat Hk Hl Hf. destruct (read_file_loop_spec fuel f k len [] Hat Hk Hl Hf) as (f' & E & Hat').
  exists f'. split; [|done]. unfold read_file. rewrite E. rstep. by destruct (_ && _).
Qed.
End ReadFile.

(** A device that keeps failing keeps [read_file] in its loop: an error other
    than the end of the file neither ends the loop nor counts down. *)
Lemma read_file_stuck {F} `{Fat.Read F} (f : F) e len fuel :
  Fat.read f 512 = Done (Err e, f) -> e <> Fat.EndOfFile -> 0 < len -> read_file fuel f len = OutOfFuel.
Proof.
  intros Hf He Hl. unfold read_file. replace (read_file_loop fuel f len [] Status.SUCCESS) with (@OutOfFuel (Status.t * list Z * F)); [done|].
  symmetry. generalize Status.SUCCESS. induction fuel as [|fuel IH]; intros st; cbn [read_file_loop]; [done|].
  rewrite (proj2 (Z.leb_gt len 0)) by lia. rewrite Hf. rstep. destruct e; try done; apply IH.
Qed.

(** ** Objects in allocated pages *)

Definition LOADER_DATA : option Z := Some (memory_type_u32 LoaderData).

(** An allocation went from [rs] to [rs'] with [w]: pages that were free are the
    object's now, with its type, and nothing that was allocated has moved. *)
Definition fresh_as (t : MemoryType) (rs rs' : list Map.Region) (w size : Z) : Prop :=
  0x100000 < w /\
  (forall x, w <= x < w + size ->
     type_at rs x = Some Map.CONVENTIONAL /\ type_at rs' x = Some (memory_type_u32 t)) /\
  (forall x, type_at rs x <> Some Map.CONVENTIONAL -> type_at rs' x = type_at rs x).
Definition fresh : list Map.Region -> list Map.Region -> Z -> Z -> Prop := fresh_as LoaderData.

Lemma loader_not_free : LOADER_DATA <> Some Map.CONVENTIONAL.
Proof. by vm_compute. Qed.
Lemma fresh_loader rs rs' w size x : fresh rs rs' w size -> type_at rs x = LOADER_DATA ->
  type_at rs' x = LOADER_DATA.
Proof. intros (_ & _ & Hold) Hx. rewrite Hold by (rewrite Hx; apply loader_not_free). done. Qed.

Definition size_pages (size : Z) : Z := usize (usize (size + Alloc.PAGE_SIZE) - 1) / Alloc.PAGE_SIZE.

Lemma size_pages_nonneg size : 0 <= size_pages size.
Proof. apply Z.div_pos; [|done]. apply wrap_range. lia. Qed.

Lemma pages_outcome_as t a rs size : holds a rs -> 0 < size < 2 ^ 63 -> exists a' rs', holds a' rs' /\
  ((exists w, Alloc.allocate_pages a AllocateAnyPages t (size_pages size) 0 = Done ((Status.SUCCESS, w), a') /\
      fresh_as t rs rs' w size) \/
   (Alloc.allocate_pages a AllocateAnyPages t (size_pages size) 0 = Done ((Status.OUT_OF_RESOURCES, 0), a') /\
      same_types rs rs')).
Proof.
  intros Ha Hs. unfold size_pages, Alloc.PAGE_SIZE.
  rewrite (wrap_small 64 (size + _)) by mlia. rewrite wrap_small by mlia.
  set (n := (size + 4096 - 1) / 4096).
  assert (Hn : 0 <= n /\ size <= 4096 * n) by (subst n; split; [apply Z.div_pos; lia|
    pose proof (Z.mod_pos_bound (size + 4096 - 1) 4096); pose proof (Z.div_mod (size + 4096 - 1) 4096); lia]).
  destruct (allocate_outcome a rs AllocateAnyPages t n 0 Ha) as (a' & rs' & Ha' & Ho).
  { unfold request_ok. split_and!; [lia|lia|done]. }
  exists a', rs'. split; [done|]. destruct Ho as [(w & E & Hp & Ht)|(E & Hsame)]; [left|by right].
  exists w. split; [done|]. split; [exact Hp|]. unfold taken, Alloc.PAGE_SIZE in Ht. split.
  - intros x Hx. specialize (Ht x). rewrite (proj2 (Z.leb_le _ _)), (proj2 (Z.ltb_lt _ _)) in Ht by lia. exact Ht.
  - intros x Hx. specialize (Ht x). destruct (_ && _); [|done]. by destruct Ht.
Qed.

Lemma pages_outcome a rs size : holds a rs -> 0 < size < 2 ^ 63 -> exists a' rs', holds a' rs' /\
  ((exists w, Alloc.allocate_pages a AllocateAnyPages LoaderData (size_pages size) 0 = Done ((Status.SUCCESS, w), a') /\
      fresh rs rs' w size) \/
   (Alloc.allocate_pages a AllocateAnyPages LoaderData (size_pages size) 0 = Done ((Status.OUT_OF_RESOURCES, 0), a') /\
      same_types rs rs')).
Proof. apply pages_outcome_as. Qed.

Lemma malloc_outcome a rs size : holds a rs -> 0 < size < 2 ^ 63 -> exists a' rs', holds a' rs' /\
  ((exists w, Calloc.malloc a size = Done (Ok w, a') /\ fresh rs rs' w size) \/
   (Calloc.malloc a size = Done (Err Status.OUT_OF_RESOURCES, a') /\ same_types rs rs')).
Proof.
  intros Ha Hs. destruct (pages_outcome a rs size Ha Hs) as (a' & rs' & Ha' & Ho). exists a', rs'.
  split; [done|]. unfold Calloc.malloc. fold (size_pages size).
  destruct Ho as [(w & E & Hf)|[E Hsame]]; rewrite E; status_step; eauto.
Qed.

(** With room for it, an allocation of [size] bytes succeeds. *)
Lemma pages_in_room t a rs size p k : holds a rs -> 0 < size < 2 ^ 63 -> spare rs p (S k) -> size_pages size < p ->
  exists w a' rs', Alloc.allocate_pages a AllocateAnyPages t (size_pages size) 0 = Done ((Status.SUCCESS, w), a') /\
    holds a' rs' /\ fresh_as t rs rs' w size /\ spare rs' (p - size_pages size) k.
Proof.
  intros Ha Hs Hr Hp. destruct (allocate_in_room a rs t (size_pages size) p k Ha Hr) as (w & a' & rs' & E & Ha' & Hr').
  { split; [apply size_pages_nonneg|done]. }
  destruct (pages_outcome_as t a rs size Ha Hs) as (a2 & rs2 & Ha2 & [(w2 & E2 & Hf)|[E2 _]]); rewrite E in E2; simplify_eq.
  rewrite (holds_unique _ _ _ Ha2 Ha') in Hf. eauto 10.
Qed.

(** And what an allocation leaves of the room. *)
Lemma pages_room t a rs size st w a' p k : holds a rs -> 0 < size < 2 ^ 63 ->
  Alloc.allocate_pages a AllocateAnyPages t (size_pages size) 0 = Done ((st, w), a') ->
  spare rs p (S k) -> size_pages size < p ->
  st = Status.SUCCESS /\ forall rs', holds a' rs' -> spare rs' (p - size_pages size) k.
Proof.
  intros Ha Hs E Hr Hp. destruct (pages_in_room t a rs size p k Ha Hs Hr Hp) as (w2 & a2 & rs2 & E2 & Ha2 & _ & Hr2).
  rewrite E in E2. injection E2 as -> -> ->. split; [done|]. intros rs' Hrs'. by rewrite (holds_unique _ _ _ Hrs' Ha2).
Qed.

Lemma malloc_in_room a rs size p k : holds a rs -> 0 < size < 2 ^ 63 -> spare rs p (S k) -> size_pages size < p ->
  exists w a' rs', Calloc.malloc a size = Done (Ok w, a') /\ holds a' rs' /\ fresh rs rs' w size /\
    spare rs' (p - size_pages size) k.
Proof.
  intros Ha Hs Hr Hp. destruct (pages_in_room LoaderData a rs size p k Ha Hs Hr Hp) as (w & a' & rs' & E & Ho).
  exists w, a', rs'. unfold Calloc.malloc. fold (size_pages size). rewrite E. status_step. done.
Qed.

(** [free] frees, if anything, a region that starts at its stack slot. *)
Lemma free_outcome a rs slot : holds a rs -> type_at rs slot <> LOADER_DATA -> exists a' rs',
  Calloc.free a slot = Done a' /\ holds a' rs' /\
  (forall x, type_at rs x = LOADER_DATA -> type_at rs' x = LOADER_DATA).
Proof.
  intros Ha Hslot. destruct (holds_free a rs slot Ha) as (a' & E & Ha').
  exists a', (Map.free rs slot).2. unfold Calloc.free. rewrite E. rstep. split_and!; [done..|].
  intros x Hx. destruct (Map.free rs slot) as [st rs'] eqn:Ef. cbn [snd]. pose proof Ef as Ef'.
  unfold Map.free in Ef'. destruct (Map.split_first _ rs) as [[[pre r] post]|] eqn:Esp; simplify_eq; [|done].
  destruct Ha as (_ & _ & _ & _ & Hok).
  destruct (free_types _ _ _ Hok Ef) as (_ & q & Hq & Hst & Ht).
  rewrite Ht. destruct (contains q x) eqn:Ec; [|done]. exfalso. apply Hslot.
  apply list_elem_of_split in Hq as (l1 & l2 & ->). unfold contains in *. bool_to_prop.
  rewrite <- Hx. rewrite !type_at_member; [done|done| |done|]; unfold contains; lia.
Qed.

Section Invariant.
Context {D : Type} `{SectorRead D} (beyond : nat -> Z) (L : Layout).

Inductive Kind := KFile | KVolume.
Definition size_of (k : Kind) : Z := match k with KFile => file_wrapper_size L | KVolume => fs_wrapper_size L end.
(** An object of that kind lives at the address. *)
Definition object (s : State D) (k : Kind) (w : Z) : Prop :=
  match k with KFile => is_Some (files s !! w) | KVolume => is_Some (volumes s !! w) end.

(** Every object is in pages the allocator counts as [LoaderData], no two
    objects overlap, and every file's volume exists. *)
Record files_ok (s : State D) (rs : list Map.Region) : Prop := {
  fk_holds : holds (allocator s) rs;
  fk_owned : forall k w x, object s k w -> w <= x < w + size_of k -> type_at rs x = LOADER_DATA;
  fk_apart : forall k w k' w', object s k w -> object s k' w' -> (k, w) <> (k', w') ->
    w + size_of k <= w' \/ w' + size_of k' <= w;
  fk_volume : forall w fw, files s !! w = Some fw -> is_Some (volumes s !! fs_wrapper fw)
}.

Definition layout_ok : Prop := forall k, 0 < size_of k < 2 ^ 63.
Hypothesis HL : layout_ok.

(** Memory, and the contents of the objects, are free to change. *)
Lemma files_ok_same s s' rs : files_ok s rs -> allocator s' = allocator s ->
  volumes s' = volumes s -> (forall w, fs_wrapper <$> files s' !! w = fs_wrapper <$> files s !! w) ->
  files_ok s' rs.
Proof.
  intros [H1 H2 H3 H4] Ea Ev Ef.
  assert (Ho : forall k w, object s' k w -> object s k w).
  { intros [] w; cbn; rewrite ?Ev; [|done]. specialize (Ef w).
    destruct (files s' !! w), (files s !! w); try done; by intros [? ?]. }
  constructor; [by rewrite Ea|eauto..|].
  intros w fw Hw. specialize (Ef w). rewrite Hw in Ef. cbn in Ef.
  destruct (files s !! w) as [fw0|] eqn:E0; [|done]. injection Ef as ->. rewrite Ev. eauto.
Qed.

Lemma files_ok_types s rs rs' a : files_ok s rs -> holds a rs' ->
  (forall x, type_at rs x = LOADER_DATA -> type_at rs' x = LOADER_DATA) -> files_ok (set_allocator s a) rs'.
Proof. intros [H1 H2 H3 H4] Ha Ht. by constructor; eauto. Qed.

(** A fresh object joins the others. *)
Lemma files_ok_add s s' rs rs' k0 w0 : files_ok s rs -> holds (allocator s') rs' ->
  fresh rs rs' w0 (size_of k0) ->
  (forall k w, object s' k w -> object s k w \/ (k, w) = (k0, w0)) ->
  (forall w fw, files s' !! w = Some fw -> is_Some (volumes s' !! fs_wrapper fw)) ->
  files_ok s' rs' /\ ~ object s k0 w0.
Proof.
  intros [H1 H2 H3 H4] Ha Hfresh Ho Hv. pose proof Hfresh as (Hw & Hnew & _).
  assert (Happ : forall k w, object s k w -> w + size_of k <= w0 \/ w0 + size_of k0 <= w).
  { intros k w Hk. pose proof (HL k). pose proof (HL k0).
    destruct (decide (w + size_of k <= w0 \/ w0 + size_of k0 <= w)) as [|Hn]; [done|]. exfalso.
    pose proof (H2 k w (Z.max w w0) Hk ltac:(lia)) as E1.
    destruct (Hnew (Z.max w w0) ltac:(lia)) as [E2 _]. rewrite E1 in E2. by vm_compute in E2. }
  split.
  - constructor; [done| | |done].
    + intros k w x Hk Hx. destruct (Ho k w Hk) as [Hk'|[= -> ->]]; [|by apply Hnew].
      eapply fresh_loader; [done|]. by eapply H2.
    + intros k w k' w' Hk Hk' Hne.
      destruct (Ho k w Hk) as [?|[= -> ->]], (Ho k' w' Hk') as [?|[= -> ->]]; eauto; [|done].
      destruct (Happ _ _ ltac:(done)); auto.
  - intros Hk. pose proof (HL k0). pose proof (Happ k0 w0 Hk). lia.
Qed.
End Invariant.

(** ** The path a caller passes *)

(** The units of a path: ASCII, or three UTF-8 bytes, but no surrogate, and
    none whose low byte the string functions take for the terminator. *)
Definition path_unit (u : Z) : Prop :=
  0 < u <= 0x7f \/ (0x800 <= u < 2 ^ 16 /\ u mod 256 <> 0 /\ ~ (0xd800 <= u <= 0xdfff)).

(** The null-terminated string of these units at an address. *)
Definition string_at (m : memory) (a : Z) (us : list Z) : Prop :=
  (forall i u, us !! i = Some u -> load16 m (a + 2 * Z.of_nat i) = u) /\
  load16 m (a + 2 * Z.of_nat (length us)) = 0.

Lemma path_unit_low u : path_unit u -> u mod 256 <> 0.
Proof.
  intros Hu. destruct Hu as [Hu|(_ & Hu & _)]; [|done]. rewrite Z.mod_small; lia.
Qed.

Lemma path_unit_size u : path_unit u -> one_or_three u.
Proof. intros [?|(? & _)]; [left|right]; lia. Qed.

(** Units that do not fit make [decode] report it. *)
Lemma decode_unit_overflow ch pre rest : one_or_three ch -> (length rest < length (utf8 ch))%nat ->
  Encoder.decode_unit ch (length pre) (pre ++ rest) = Done (Err Encoder.BufferOverFlow, pre ++ rest).
Proof.
  intros Hch Hl. unfold Encoder.decode_unit, utf8 in *. rewrite length_app.
  destruct (Z.leb_spec ch 0x7f) as [H7|H7].
  - rewrite (proj2 (Nat.ltb_lt _ _)); [done|cbn in Hl; lia].
  - destruct Hch as [?|Hch]; [lia|]. rewrite (proj2 (Z.leb_gt _ _)) by lia.
    rewrite (proj2 (Nat.ltb_lt _ _)); [done|cbn in Hl; lia].
Qed.

Lemma decode_from_overflow cs pre rest : Forall one_or_three cs ->
  (length rest < length (utf8_all cs))%nat ->
  exists b, Encoder.decode_from cs (length pre) (pre ++ rest) = Done (Err Encoder.BufferOverFlow, b).
Proof.
  intros Hcs. revert pre rest. induction Hcs as [|ch cs Hch Hcs IH]; intros pre rest Hl; [cbn in Hl; lia|].
  cbn [Encoder.decode_from]. unfold utf8_all in *. cbn [map concat] in Hl. rewrite length_app in Hl.
  destruct (decide (length (utf8 ch) <= length rest)%nat).
  - rewrite decode_unit_spec by done. rstep. rewrite overlay_next, <- length_app. apply IH.
    rewrite length_drop. lia.
  - rewrite decode_unit_overflow by (try done; lia). rstep. eauto.
Qed.

(** What [decode] wrote is valid UTF-8. *)
Lemma between_true lo b hi : lo <= b <= hi -> between lo b hi = true.
Proof. intros Hb. unfold between. rewrite !(proj2 (Z.leb_le _ _)) by lia. done. Qed.
Lemma between_false lo b hi : b < lo \/ hi < b -> between lo b hi = false.
Proof. intros Hb. unfold between. apply andb_false_iff. rewrite !Z.leb_gt. lia. Qed.

Definition text_unit (u : Z) : Prop := 0 <= u <= 0x7f \/ (0x800 <= u < 2 ^ 16 /\ ~ (0xd800 <= u <= 0xdfff)).
Lemma path_text_unit u : path_unit u -> text_unit u.
Proof. unfold path_unit, text_unit. lia. Qed.

Lemma is_utf8_all us fuel : Forall text_unit us -> (length (utf8_all us) < fuel)%nat ->
  is_utf8 fuel (utf8_all us) = true.
Proof.
  intros Hus. revert fuel. induction Hus as [|u us Hu Hus IH]; intros fuel Hf;
    (destruct fuel as [|fuel]; [lia|]); [done|].
  unfold utf8_all in *. cbn [map concat] in *. rewrite length_app in Hf. unfold utf8 in *.
  destruct Hu as [Hu|(Hu & Hs)].
  - rewrite (proj2 (Z.leb_le u 0x7f)) in * by lia. cbn [app is_utf8 length] in *.
    rewrite between_true by lia. apply IH. lia.
  - rewrite (proj2 (Z.leb_gt u 0x7f)) in * by lia. cbn [app is_utf8 length] in *.
    assert (H0 : 0xe0 <= 0xe0 + u / 4096 <= 0xef) by mlia.
    assert (H1 : 0x80 <= 0x80 + u / 64 mod 64 <= 0xbf) by mlia.
    assert (H2 : 0x80 <= 0x80 + u mod 64 <= 0xbf) by mlia.
    rewrite (between_false 0), (between_false 0xc2) by lia. cbn [andb].
    rewrite (between_true 0x80 (0x80 + u mod 64)), andb_true_r by lia.
    replace (_ || _) with true; [apply IH; lia|]. symmetry.
    destruct (decide (u / 4096 = 0)) as [E0|E0].
    { rewrite E0. rewrite (between_true 0xa0); [done|]. mlia. }
    destruct (decide (u / 4096 = 13)) as [Ed|Ed].
    { rewrite Ed. rewrite (between_true 0x80 _ 0x9f); [by rewrite !orb_true_r|]. mlia. }
    rewrite (between_true 0x80 _ 0xbf), andb_true_r by lia.
    destruct (decide (u / 4096 < 13)).
    + rewrite (between_true 0xe1) by lia. by rewrite !orb_true_r.
    + rewrite (between_true 0xee) by lia. by rewrite !orb_true_r.
Qed.

Lemma path_of_spec m a us fuel : string_at m a us -> Forall path_unit us -> (length us < fuel)%nat ->
  path_of fuel m a = Done (if decide (length (utf8_all us) <= 256)%nat then utf8_all us else []).
Proof.
  intros [Hu Hz] Hus Hf. unfold path_of.
  rewrite (char16_len_spec _ us 0); [|done|by eapply Forall_impl, path_unit_low| |done].
  2: { intros i u [[_ Hi]|[-> <-]]%lookup_snoc_Some; [by apply Hu|done]. }
  rstep. rewrite Nat.add_0_l.
  replace (map _ (seq 0 (length us))) with us.
  2: { apply list_eq. intros i. rewrite list_lookup_fmap. destruct (us !! i) as [u|] eqn:E.
       - rewrite lookup_seq_lt by (by apply lookup_lt_Some in E).
         change (Some u = Some (load16 m (a + 2 * Z.of_nat i))). by rewrite (Hu i u E).
       - rewrite lookup_seq_ge by (by apply lookup_ge_None). done. }
  assert (H3 : Forall one_or_three us) by (eapply Forall_impl; [done|]; apply path_unit_size).
  unfold Encoder.decode. destruct (decide _) as [Hl|Hl].
  - pose proof (decode_from_spec us [] (replicate 256 0) H3) as E. cbn [app length Nat.add] in E.
    rewrite E by (by rewrite length_replicate). rstep. unfold overlay. cbn [app].
    rewrite (proj2 (Nat.leb_le _ _)) by (rewrite length_app; lia). cbn [assert_]. rstep.
    rewrite take_app_length. unfold from_utf8. by rewrite is_utf8_all by (eauto using Forall_impl, path_text_unit || lia).
  - destruct (decode_from_overflow us [] (replicate 256 0) H3) as (b & E).
    { rewrite length_replicate. lia. }
    cbn [app length] in E. rewrite E. rstep. done.
Qed.
