(* ===== verification/FileSafety.v ===== *)
(** * The EFI file protocol as a state machine

    The state of the protocol is the memory, the allocator and the objects.  The
    operations, and what the application may do meanwhile, are the steps; the
    invariant [files_ok] holds along every run.  The theorems say what [open],
    [read] and [get_info] do in such a state. *)

From S2P Require Import Prelude REfi Mem Part EfiStr Fat FatDemo FatTable FatFile FatDir FileRead Alloc MemMap MapSafety AllocRepr AllocRefine AllocSafety AllocRoom EfiFile FileProps.
Import EfiFile.

Section Steps.
Context {D : Type} `{SectorRead D} (beyond : nat -> Z) (L : Layout).
Hypothesis HL : layout_ok L.

(** The new object where [malloc] put it. *)
Lemma create_file_fresh (s : State D) rs self o w a' rs' : files_ok L s rs -> is_Some (volumes s !! self) ->
  Calloc.malloc (allocator s) (file_wrapper_size L) = Done (Ok w, a') -> holds a' rs' ->
  fresh rs rs' w (file_wrapper_size L) ->
  let s' := mkState (mem s) a' (volumes s) (<[w := mkWrapper self o]> (files s)) in
  create_file L s self o = Done (Ok w, s') /\ files_ok L s' rs' /\ files s !! w = None.
Proof.
  intros Hs Hv E Ha' Hfresh s'. unfold create_file. rewrite E. rstep. split; [done|].
  edestruct (files_ok_add L HL s s' rs rs' KFile w) as [Hok Hno]; try done.
  - intros [] w'; cbn; [|by left]. intros [fw Hfw].
    destruct (decide (w' = w)) as [->|]; [by right|]. rewrite lookup_insert_ne in Hfw by done. left. eauto.
  - cbn. intros w' fw Hfw. destruct (decide (w' = w)) as [->|].
    + rewrite lookup_insert_eq in Hfw. by injection Hfw as <-.
    + rewrite lookup_insert_ne in Hfw by done. by eapply (fk_volume _ _ _ Hs).
  - split; [done|]. cbn in Hno. by apply eq_None_not_Some.
Qed.

Lemma create_file_spec (s : State D) rs self o : files_ok L s rs -> is_Some (volumes s !! self) -> exists r s' rs',
  create_file L s self o = Done (r, s') /\ files_ok L s' rs' /\ mem s' = mem s /\ volumes s' = volumes s /\
  match r with
  | Ok w => files s !! w = None /\ files s' = <[w := mkWrapper self o]> (files s)
  | Err e => e = Status.OUT_OF_RESOURCES /\ files s' = files s
  end.
Proof.
  intros Hs Hv.
  destruct (malloc_outcome (allocator s) rs (file_wrapper_size L) (fk_holds _ _ _ Hs) (HL KFile))
    as (a' & rs' & Ha' & [(w & E & Hfresh)|[E Hsame]]).
  - destruct (create_file_fresh s rs self o w a' rs') as (E1 & Hok & Hno); [done..|]. eauto 10.
  - unfold create_file. rewrite E. rstep.
    exists (Err Status.OUT_OF_RESOURCES), (set_allocator s a'), rs'. split_and!; try done.
    eapply files_ok_types; [done..|]. intros x. by rewrite Hsame.
Qed.

(** With room for its object, a file is created. *)
Lemma create_file_in_room (s : State D) rs self o p k : files_ok L s rs -> is_Some (volumes s !! self) ->
  spare rs p (S k) -> size_pages (file_wrapper_size L) < p -> exists w a' rs',
  let s' := mkState (mem s) a' (volumes s) (<[w := mkWrapper self o]> (files s)) in
  create_file L s self o = Done (Ok w, s') /\ files_ok L s' rs' /\ files s !! w = None /\
  fresh rs rs' w (file_wrapper_size L) /\ spare rs' (p - size_pages (file_wrapper_size L)) k.
Proof.
  intros Hs Hv Hr Hp. destruct (malloc_in_room (allocator s) rs (file_wrapper_size L) p k (fk_holds _ _ _ Hs) (HL KFile) Hr Hp)
    as (w & a' & rs' & E & Ha' & Hf & Hr'). exists w, a', rs'.
  destruct (create_file_fresh s rs self o w a' rs') as (E1 & Hok & Hno); done.
Qed.

Lemma new_fresh (s : State D) rs fs w a' rs' : files_ok L s rs ->
  Calloc.malloc (allocator s) (fs_wrapper_size L) = Done (Ok w, a') -> holds a' rs' ->
  fresh rs rs' w (fs_wrapper_size L) ->
  let s' := mkState (mem s) a' (<[w := fs]> (volumes s)) (files s) in
  new L s fs = Done (Ok w, s') /\ files_ok L s' rs' /\ volumes s !! w = None.
Proof.
  intros Hs E Ha' Hfresh s'. unfold new. rewrite E. rstep. split; [done|].
  edestruct (files_ok_add L HL s s' rs rs' KVolume w) as [Hok Hno]; try done.
  - intros [] w'; cbn; [by left|]. intros [fw Hfw].
    destruct (decide (w' = w)) as [->|]; [by right|]. rewrite lookup_insert_ne in Hfw by done. left. eauto.
  - cbn. intros w' fw Hfw. pose proof (fk_volume _ _ _ Hs w' fw Hfw).
    destruct (decide (fs_wrapper fw = w)) as [->|]; [by rewrite lookup_insert_eq|by rewrite lookup_insert_ne].
  - split; [done|]. cbn in Hno. by apply eq_None_not_Some.
Qed.

Lemma new_spec (s : State D) rs fs : files_ok L s rs -> exists r s' rs',
  new L s fs = Done (r, s') /\ files_ok L s' rs' /\ mem s' = mem s /\ files s' = files s /\
  match r with
  | Ok w => volumes s !! w = None /\ volumes s' = <[w := fs]> (volumes s)
  | Err e => e = Status.OUT_OF_RESOURCES /\ volumes s' = volumes s
  end.
Proof.
  intros Hs.
  destruct (malloc_outcome (allocator s) rs (fs_wrapper_size L) (fk_holds _ _ _ Hs) (HL KVolume))
    as (a' & rs' & Ha' & [(w & E & Hfresh)|[E Hsame]]).
  - destruct (new_fresh s rs fs w a' rs') as (E1 & Hok & Hno); [done..|]. eauto 10.
  - unfold new. rewrite E. rstep.
    exists (Err Status.OUT_OF_RESOURCES), (set_allocator s a'), rs'. split_and!; try done.
    eapply files_ok_types; [done..|]. intros x. by rewrite Hsame.
Qed.

(** One step: an operation of the protocol that returned, a change of memory
    or an allocation by somebody else.  [close] frees nothing of ours as long as
    the stack is not in a [LoaderData] region. *)
Inductive file_step : State D -> State D -> Prop :=
| step_memory s m : file_step s (set_memory s m)
| step_allocate s t ty n addr r a : request_ok t n addr ->
    Alloc.allocate_pages (allocator s) t ty n addr = Done (r, a) -> file_step s (set_allocator s a)
| step_new s fs r s' : new L s fs = Done (r, s') -> file_step s s'
| step_device_path s w r s' : get_hard_drive_device_path s w = Done (r, s') -> file_step s s'
| step_open_volume s proto file st s' : filesystem_open_volumn L s proto file = Done (st, s') -> file_step s s'
| step_open fuel s file_in file_out path st s' :
    open beyond L fuel s file_in file_out path = Done (st, s') -> file_step s s'
| step_close slot s proto st s' : (forall rs, holds (allocator s) rs -> type_at rs slot <> LOADER_DATA) ->
    close slot s proto = Done (st, s') -> file_step s s'
| step_read fuel s file size buf st s' : read beyond L fuel s file size buf = Done (st, s') -> file_step s s'
| step_get_info s file guid size info st s' :
    get_info beyond L s file guid size info = Done (st, s') -> file_step s s'.

Lemma taken_keeps m n base rs rs' x : taken m n base rs rs' ->
  type_at rs x = LOADER_DATA -> type_at rs' x = LOADER_DATA.
Proof.
  intros Ht Hx. specialize (Ht x). destruct (_ && _); [|congruence]. destruct Ht as [Ht _].
  rewrite Hx in Ht. by vm_compute in Ht.
Qed.

Lemma files_ok_memory (s : State D) rs m : files_ok L s rs -> files_ok L (set_memory s m) rs.
Proof. intros Hs. by eapply files_ok_same. Qed.

Lemma files_ok_ofile (s : State D) rs w fw o : files_ok L s rs -> files s !! w = Some fw ->
  files_ok L (set_ofile s w fw o) rs.
Proof.
  intros Hs Hw. eapply files_ok_same; [done..|]. intros w'. cbn.
  destruct (decide (w' = w)) as [->|]; [by rewrite lookup_insert_eq, Hw|by rewrite lookup_insert_ne].
Qed.

Lemma files_ok_create (s : State D) rs self o r s' : files_ok L s rs -> is_Some (volumes s !! self) ->
  create_file L s self o = Done (r, s') -> exists rs', files_ok L s' rs'.
Proof.
  intros Hs Hv E. destruct (create_file_spec s rs self o Hs Hv) as (r2 & s2 & rs2 & E2 & Hs2 & _).
  rewrite E in E2. injection E2 as <- <-. eauto.
Qed.

Lemma files_ok_read (s : State D) rs fuel file size buf st s' : files_ok L s rs ->
  read beyond L fuel s file size buf = Done (st, s') -> files_ok L s' rs.
Proof.
  intros Hs E. unfold read in E. unbind E as fw0 eqn Ew. unbind E as fs eqn Ef.
  destruct (files s !! _) as [fw|] eqn:Hw; [|done]. cbn in Ew. injection Ew as <-.
  destruct (Fat.file_type _).
  - unfold read_regular in E. unbind E as f0 eqn E0. unbind E as [[r out] [? f]] eqn E1.
    destruct r; injection E as <- <-; by apply files_ok_memory, files_ok_ofile.
  - unfold read_directory in E. unbind E as d0 eqn E0. unbind E as [[de|e] d] eqn E1.
    + unbind E as [[n|n] m] eqn E2; injection E as <- <-; by apply files_ok_memory, files_ok_ofile.
    + destruct e; injection E as <- <-; try by apply files_ok_ofile.
      by apply files_ok_memory, files_ok_ofile.
Qed.

Lemma files_ok_get_info (s : State D) rs file guid size info st s' : files_ok L s rs ->
  get_info beyond L s file guid size info = Done (st, s') -> files_ok L s' rs.
Proof.
  intros Hs E. unfold get_info in E. unbind E as fw eqn Ew.
  destruct (bool_decide _); [|by injection E as <- <-].
  destruct (_ <? _); [injection E as <- <-; by apply files_ok_memory|].
  unbind E as [[n|n] m] eqn E2; injection E as <- <-; by apply files_ok_memory.
Qed.

Lemma files_ok_open (s : State D) rs fuel file_in file_out path st s' : files_ok L s rs ->
  open beyond L fuel s file_in file_out path = Done (st, s') -> exists rs', files_ok L s' rs'.
Proof.
  intros Hs E. unfold open in E. unbind E as fw0 eqn Ex. unbind E as fs eqn Ef.
  unbind E as p eqn Ep. unbind E as no_parent eqn En.
  destruct (files s !! _) as [fw|] eqn:Hw; [|done]. cbn in Ex. injection Ex as <-.
  unbind E as [out s1] eqn Ex. assert (Hs1 : exists rs1, files_ok L s1 rs1).
  { destruct no_parent; [injection Ex as <- <-; eauto|]. unbind Ex as [f|e] eqn Eo.
    - eapply files_ok_create; [done| |done]. by eapply (fk_volume _ _ _ Hs).
    - injection Ex as <- <-. eauto. }
  destruct Hs1 as [rs1 Hs1]. exists rs1.
  destruct out; injection E as <- <-; [by apply files_ok_memory|done].
Qed.

Lemma files_ok_volume (s : State D) rs proto file st s' : files_ok L s rs ->
  filesystem_open_volumn L s proto file = Done (st, s') -> exists rs', files_ok L s' rs'.
Proof.
  intros Hs E. unfold filesystem_open_volumn in E. unbind E as fs0 eqn Ex.
  destruct (volumes s !! _) as [fs|] eqn:Hv; [|done]. cbn in Ex. injection Ex as <-.
  destruct (Fat.root fs) as [o|]; [|injection E as <- <-; eauto].
  unbind E as [r s1] eqn Er.
  destruct (files_ok_create s rs (container_of proto (fs_proto L)) o r s1 Hs) as [rs1 Hs1]; [by rewrite Hv|done|].
  exists rs1. destruct r; injection E as <- <-; [by apply files_ok_memory|done].
Qed.

Lemma files_ok_device_path (s : State D) rs w r s' : files_ok L s rs ->
  get_hard_drive_device_path s w = Done (r, s') -> exists rs', files_ok L s' rs'.
Proof.
  intros Hs E. unfold get_hard_drive_device_path, Calloc.duplicate in E. unbind E as x eqn Ex.
  set (d := hard_drive_device_path x) in E.
  assert (Hd : length d = 46%nat) by done. clearbody d. rewrite Hd in E.
  destruct (malloc_outcome (allocator s) rs (Z.of_nat 46) (fk_holds _ _ _ Hs) ltac:(lia))
    as (a' & rs' & Ha' & [(w' & E' & Hfresh)|[E' Hsame]]); rewrite E' in E; injection E as <- <-.
  - exists rs'. apply (files_ok_memory (set_allocator s a')).
    eapply files_ok_types; [done..|]. intros y. by eapply fresh_loader.
  - exists rs'. apply (files_ok_memory (set_allocator s a')).
    eapply files_ok_types; [done..|]. intros y. by rewrite Hsame.
Qed.

Lemma file_step_ok s s' rs : files_ok L s rs -> file_step s s' -> exists rs', files_ok L s' rs'.
Proof.
  intros Hs Hstep. destruct Hstep as [s m|s t ty n addr r a Hreq E|s fs r s' E|s w r s' E
    |s p f st s' E|fuel s fi fo pa st s' E|slot s p st s' Hslot E|fuel s f sz b st s' E|s f g sz i st s' E].
  - exists rs. by apply files_ok_memory.
  - destruct (allocate_outcome _ _ t ty n addr (fk_holds _ _ _ Hs) Hreq)
      as (a' & rs' & Ha' & [(b & E' & _ & Ht)|[E' Hsame]]); rewrite E in E'; injection E' as -> ->;
      exists rs'; (eapply files_ok_types; [done..|]).
    + intros x. by eapply taken_keeps.
    + intros x. by rewrite Hsame.
  - destruct (new_spec s rs fs Hs) as (r2 & s2 & rs2 & E2 & Hs2 & _). rewrite E in E2. injection E2 as <- <-. eauto.
  - by eapply files_ok_device_path.
  - by eapply files_ok_volume.
  - by eapply files_ok_open.
  - unfold close in E. unbind E as a eqn Ex. injection E as <- <-.
    destruct (free_outcome _ rs slot (fk_holds _ _ _ Hs) (Hslot rs (fk_holds _ _ _ Hs)))
      as (a' & rs' & E' & Ha' & Ht). rewrite E' in Ex. injection Ex as <-. exists rs'.
    by eapply files_ok_types.
  - exists rs. by eapply files_ok_read.
  - exists rs. by eapply files_ok_get_info.
Qed.
End Steps.

(** [open] of a path other than "..": what the file system's answer leads to. *)
(** The path "..", in a directory without a parent entry. *)
Definition dotdot : list Z := [0x2e; 0x2e].
Definition orphan (path : list Z) (parent : result Fat.DirectoryEntry Fat.Error) : bool :=
  bool_decide (path = dotdot) && match parent with Err _ => true | Ok _ => false end.

Lemma open_cases {D} `{SectorRead D} beyond L (s : State D) fuel file_in file_out path_in us fw fs parent r :
  files s !! container_of file_in (file_proto L) = Some fw -> volumes s !! fs_wrapper fw = Some fs ->
  string_at (mem s) path_in us -> Forall path_unit us -> (length us < fuel)%nat ->
  let path := if decide (length (utf8_all us) <= 256)%nat then utf8_all us else [] in
  (path = dotdot -> Fat.get_parent_dir_ent beyond fuel fs (ofile fw) = Done parent) ->
  (orphan path parent = false -> Fat.open beyond fuel fs (ofile fw) path = Done r) ->
  open beyond L fuel s file_in file_out path_in =
    ('(out, s) ← (if orphan path parent then Done (Err Status.INVALID_PARAMETER, s)
                  else match r with
                       | Ok o => create_file L s (fs_wrapper fw) o
                       | Err e => Done (Err (open_status e), s)
                       end);
     match out with
     | Ok w => Done (Status.SUCCESS, set_memory s (store64 (mem s) file_out (w + file_proto L)))
     | Err err => Done (err, s)
     end).
Proof.
  intros Hw Hv Hstr Hus Hf path Hp Ho. unfold open. rewrite Hw. cbn [unwrap]. rstep.
  rewrite Hv. cbn [unwrap]. rstep. rewrite (path_of_spec _ _ us) by done. rstep. fold path.
  unfold orphan in *. change [0x2e; 0x2e] with dotdot. case_bool_decide as Hd; cbn [andb] in *.
  - rewrite (Hp Hd). rstep. destruct parent; [|done]. rewrite (Ho eq_refl). by destruct r.
  - rstep. rewrite (Ho eq_refl). by destruct r.
Qed.

Lemma open_resolves {D} `{SectorRead D} beyond L (s : State D) fuel file_in file_out path_in us fw fs r :
  files s !! container_of file_in (file_proto L) = Some fw -> volumes s !! fs_wrapper fw = Some fs ->
  string_at (mem s) path_in us -> Forall path_unit us -> (length us < fuel)%nat ->
  let path := if decide (length (utf8_all us) <= 256)%nat then utf8_all us else [] in
  path <> [0x2e; 0x2e] -> Fat.open beyond fuel fs (ofile fw) path = Done r ->
  open beyond L fuel s file_in file_out path_in =
    ('(out, s) ← match r with
                 | Ok o => create_file L s (fs_wrapper fw) o
                 | Err e => Done (Err (open_status e), s)
                 end;
     match out with
     | Ok w => Done (Status.SUCCESS, set_memory s (store64 (mem s) file_out (w + file_proto L)))
     | Err err => Done (err, s)
     end).
Proof.
  intros Hw Hv Hstr Hus Hf path Hp Ho.
  rewrite (open_cases beyond L s fuel file_in file_out path_in us fw fs (Err Fat.NotFound) r); try done.
  unfold orphan. fold path. by rewrite bool_decide_eq_false_2.
Qed.

(** The bytes a read of the sectors from [k] on returns are the file's. *)
Lemma read_bytes_contents {D} `{SectorRead D} beyond (fs : Fat.Filesystem D) st sz cs datas k len :
  file_on beyond fs st sz cs datas -> (k <= length datas)%nat ->
  read_bytes datas sz k len = take (Z.to_nat len) (drop (512 * k) (take (Z.to_nat sz) (concat datas))).
Proof.
  intros Hf Hk. unfold read_bytes. rewrite skipn_firstn_comm, take_take.
  rewrite (concat_sectors_drop _ _ _ _ k (fo_chain _ _ _ _ _ _ Hf)). f_equal. lia.
Qed.

(** [read] of an open file whose next sector is [k]. *)
Lemma read_regular_spec {D} `{SectorRead D} beyond (s : State D) fuel w size buf fw fs f st sz cs datas k :
  Fat.file (ofile fw) = Some f ->
  file_on beyond fs st sz cs datas -> file_at fs st sz cs f k -> (k <= length datas)%nat ->
  (length datas - k < fuel)%nat -> mem_ok (mem s) ->
  let n := load64 (mem s) size in
  let bytes := take (Z.to_nat n) (drop (512 * k) (take (Z.to_nat sz) (concat datas))) in
  size + 8 <= buf \/ buf + Z.of_nat (length bytes) <= size ->
  exists s' f',
    read_regular beyond fuel s w fw fs size buf =
      Done (if (0 <? n) && (length bytes =? 0)%nat then Status.END_OF_FILE else Status.SUCCESS, s') /\
    load_bytes (mem s') buf (length bytes) = bytes /\ load64 (mem s') size = Z.of_nat (length bytes) /\
    (forall x, (x < buf \/ buf + Z.of_nat (length bytes) <= x) -> (x < size \/ size + 8 <= x) ->
       load8 (mem s') x = load8 (mem s) x) /\
    allocator s' = allocator s /\ volumes s' = volumes s /\
    files s' = <[w := mkWrapper (fs_wrapper fw)
                  (Fat.mkO (Fat.dir_ent (ofile fw)) (Some f') (Fat.dir (ofile fw)) (Fat.pdir_ent (ofile fw)))]>
                (files s) /\
    file_at fs st sz cs f' (Nat.min (length datas) (k + Z.to_nat ((n + 511) / 512))).
Proof.
  intros Hfile Hon Hat Hk Hfuel Hmem n bytes Hdis.
  assert (Hn : 0 <= n < 2 ^ 64) by apply (load_range 8 _ _ Hmem).
  pose proof (File_reader _ _ _ _ _ _ Hon) as Hr.
  destruct (read_file_spec datas sz _ Hr fuel (fs, f) k n) as ((fs2 & f2) & E & f' & [= -> ->] & Hat' & _);
    [eauto|done|lia|done|].
  rewrite (read_bytes_contents _ _ _ _ _ _ _ _ Hon Hk) in E. fold bytes in E.
  assert (Hb : bytes_ok bytes /\ Z.of_nat (length bytes) < 2 ^ 64).
  { pose proof (reader_concat _ _ _ Hr) as [_ Hb]. split; [by apply Forall_take, Forall_drop, Forall_take|].
    unfold bytes. rewrite !length_take. lia. }
  destruct Hb as [Hb Hlen].
  unfold read_regular. rewrite Hfile. cbn [unwrap]. rstep. fold n. rewrite E. rstep.
  assert (Hnum : forall v, v = Z.of_nat (length bytes) -> let m := store64 (store_bytes (mem s) buf bytes) size v in
    load_bytes m buf (length bytes) = bytes /\ load64 m size = Z.of_nat (length bytes) /\
    forall x, (x < buf \/ buf + Z.of_nat (length bytes) <= x) -> (x < size \/ size + 8 <= x) ->
       load8 m x = load8 (mem s) x).
  { intros v -> m. unfold m. split_and!.
    - etransitivity; [|by apply load_bytes_store_bytes]. apply load_bytes_ext. intros x Hx.
      apply load8_store_out. lia.
    - etransitivity; [apply (load_store 8)|]. apply Z.mod_small. change (2 ^ (8 * Z.of_nat 8)) with (2 ^ 64). lia.
    - intros x H1 H2. rewrite load8_store_out by lia. by apply load8_store_bytes_out. }
  destruct (_ && _) eqn:Eb.
  - apply andb_true_iff in Eb as [_ Eb]. apply Nat.eqb_eq in Eb.
    destruct (Hnum 0 ltac:(lia)) as (H1 & H2 & H3). eexists _, f'. split; [done|]. split_and!; try done.
  - destruct (Hnum _ eq_refl) as (H1 & H2 & H3). eexists _, f'. split; [done|]. split_and!; try done.
Qed.

(** ** A concrete protocol state: the FAT32 volume mounted, its root open *)
Definition demo_layout : Layout := mkLayout 256 136 1024 16.
Definition demo_empty : State Ramdisk := mkState ∅ demo ∅ ∅.
Definition demo_root : Fat.OFileDirectory :=
  match Fat.root fat32_fs with Ok o => o | Err _ => Fat.ofile_new (Fat.root_entry 0) None None end.

Lemma demo_layout_ok : layout_ok demo_layout.
Proof. intros []; cbn; lia. Qed.
Lemma demo_empty_ok : files_ok demo_layout demo_empty demo_map.
Proof.
  constructor; [apply demo_holds|..].
  - intros [] w x [? Hw]; cbn in Hw; by rewrite lookup_empty in Hw.
  - intros [] w k' w' [? Hw]; cbn in Hw; by rewrite lookup_empty in Hw.
  - intros w fw Hw. cbn in Hw. by rewrite lookup_empty in Hw.
Qed.

Lemma demo_mounts : exists r s1 st s2,
  new demo_layout demo_empty fat32_fs = Done (r, s1) /\
  filesystem_open_volumn demo_layout s1 (0x200000 + 136) 0x5000 = Done (st, s2).
Proof.
  destruct (new_spec demo_layout demo_layout_ok demo_empty demo_map fat32_fs demo_empty_ok)
    as (r & s1 & rs1 & E1 & Hs1 & _ & _ & Hr).
  assert (Hr0 : r = Ok 0x200000).
  { destruct (holds_allocate demo demo_map AllocateAnyPages LoaderData 1 0 demo_holds) as (a' & Ea & _).
    { unfold request_ok. split_and!; [lia|lia|done]. }
    pose proof E1 as E. unfold new, Calloc.malloc in E. cbn [fs_wrapper_size demo_layout allocator demo_empty] in E.
    change (usize (usize (256 + Alloc.PAGE_SIZE) - 1) / Alloc.PAGE_SIZE) with 1 in E. rewrite Ea in E.
    assert (Em : (Map.allocate Alloc.MAX_ALLOCATIONS demo_map AllocateAnyPages LoaderData 1 0).1
                 = (Status.SUCCESS, 0x200000)) by (vm_compute; reflexivity).
    rewrite Em in E. injection E as <- <-. reflexivity. }
  subst r. destruct Hr as [_ Hv]. exists (Ok 0x200000), s1. unfold filesystem_open_volumn.
  change (container_of (0x200000 + 136) (fs_proto demo_layout)) with 0x200000.
  rewrite Hv, lookup_insert_eq. cbn [unwrap]. rstep.
  assert (Hroot : Fat.root fat32_fs = Ok demo_root) by reflexivity. rewrite Hroot.
  destruct (create_file_spec demo_layout demo_layout_ok s1 rs1 0x200000 demo_root Hs1)
    as (r2 & s2 & rs2 & E2 & _); [by rewrite Hv, lookup_insert_eq|].
  rewrite E2. rstep. destruct r2; eauto 10.
Qed.

(** A state with the volume at 0x200000 and its root directory open at
    0x201000, over an allocator that has given out these two pages. *)
Definition demo_pages : list Map.Region := Eval vm_compute in
  (Map.allocate Alloc.MAX_ALLOCATIONS demo_map AllocateAnyPages LoaderData 2 0).2.
Definition demo_open (m : memory) (a : Alloc.Allocator) : State Ramdisk :=
  mkState m a {[0x200000 := fat32_fs]} {[0x201000 := mkWrapper 0x200000 demo_root]}.
Lemma demo_allocated : exists a, holds a demo_pages.
Proof.
  destruct (holds_allocate demo demo_map AllocateAnyPages LoaderData 2 0 demo_holds) as (a & _ & Ha).
  { unfold request_ok. split_and!; [lia|lia|done]. }
  by exists a.
Qed.
Lemma demo_pages_loader x : 0x200000 <= x < 0x202000 -> type_at demo_pages x = LOADER_DATA.
Proof.
  intros Hx. unfold demo_pages. cbn [type_at]. unfold contains, Map.rend, Alloc.PAGE_SIZE.
  cbn [Map.rstart Map.rpages Map.rtype].
  rewrite (proj2 (Z.ltb_ge x (0 + _))), andb_false_r by lia.
  by rewrite (proj2 (Z.leb_le 2097152 x)), (proj2 (Z.ltb_lt x (2097152 + _))) by lia.
Qed.
Lemma demo_open_object m a k w : object (demo_open m a) k w ->
  (k, w) = (KFile, 0x201000) \/ (k, w) = (KVolume, 0x200000).
Proof.
  destruct k; cbn; intros [x Hx]; apply lookup_singleton_Some in Hx as [<- _]; auto.
Qed.
Lemma demo_open_ok m a : holds a demo_pages -> files_ok demo_layout (demo_open m a) demo_pages.
Proof.
  intros Ha. constructor; [done|..].
  - intros k w x Hk Hx. apply demo_pages_loader.
    destruct (demo_open_object _ _ _ _ Hk) as [[= -> ->]|[= -> ->]]; cbn in Hx; lia.
  - intros k w k' w' Hk Hk'.
    destruct (demo_open_object _ _ _ _ Hk) as [[= -> ->]|[= -> ->]],
      (demo_open_object _ _ _ _ Hk') as [[= -> ->]|[= -> ->]]; cbn; intros; try done; lia.
  - intros w fw Hw. cbn in Hw. apply lookup_singleton_Some in Hw as [<- <-]. by cbn.
Qed.

(** ** Properties *)

(** C13: The file protocol keeps its objects safe: along every run of its
    operations, memory changes and other allocations, every open file and every
    mounted volume lies in pages the allocator counts as allocated, no two
    objects overlap, and the volume of every open file exists. *)
Theorem file_protocol_invariant {D} `{SectorRead D} beyond L (s0 s : State D) rs0 :
  layout_ok L -> files_ok L s0 rs0 -> rtc (file_step beyond L) s0 s -> exists rs, files_ok L s rs.
Proof.
  intros HL Hs0 Hsteps. revert rs0 Hs0. induction Hsteps as [s|s s1 s2 Hstep _ IH]; intros rs0 Hs0; [eauto|].
  destruct (file_step_ok beyond L HL _ _ _ Hs0 Hstep) as [rs1 Hs1]. eauto.
Qed.

(** Mounting, then opening the volume. *)
Lemma file_protocol_invariant_witness : exists r s1 st s2 rs,
  new demo_layout demo_empty fat32_fs = Done (r, s1) /\
  filesystem_open_volumn demo_layout s1 (0x200000 + 136) 0x5000 = Done (st, s2) /\ files_ok demo_layout s2 rs.
Proof.
  destruct demo_mounts as (r & s1 & st & s2 & E1 & E2).
  destruct (file_protocol_invariant zeros demo_layout demo_empty s2 demo_map demo_layout_ok demo_empty_ok)
    as [rs Hrs].
  - eapply rtc_l; [by eapply step_new|]. eapply rtc_once. by eapply step_open_volume.
  - exists r, s1, st, s2, rs. split; [exact E1|]. split; [exact E2|exact Hrs].
Defined.

(** C14: [open] resolves the path of the caller's string against the open
    directory: on success a new object at an unused address holds the file, its
    protocol pointer is stored for the caller and nothing else changes.  Otherwise
    no file, volume or byte of memory changes, and the status says why: NOT_FOUND
    when the file system finds no such file, DEVICE_ERROR for any other error of the file
    system, OUT_OF_RESOURCES without memory for the object, INVALID_PARAMETER for
    ".." in a directory whose parent entry is not found.  A path of more than 256
    UTF-8 bytes is taken for the empty path, which opens the directory itself. *)
Theorem open_correct {D} `{SectorRead D} beyond L (s : State D) rs fuel file_in file_out path_in us fw fs parent r :
  layout_ok L -> files_ok L s rs ->
  files s !! container_of file_in (file_proto L) = Some fw -> volumes s !! fs_wrapper fw = Some fs ->
  string_at (mem s) path_in us -> Forall path_unit us -> (length us < fuel)%nat ->
  let path := if decide (length (utf8_all us) <= 256)%nat then utf8_all us else [] in
  (path = dotdot -> Fat.get_parent_dir_ent beyond fuel fs (ofile fw) = Done parent) ->
  (orphan path parent = false -> Fat.open beyond fuel fs (ofile fw) path = Done r) ->
  exists st s' rs', open beyond L fuel s file_in file_out path_in = Done (st, s') /\ files_ok L s' rs' /\
    volumes s' = volumes s /\
    if orphan path parent then st = Status.INVALID_PARAMETER /\ s' = s
    else match r with
    | Err Fat.NotFound => st = Status.NOT_FOUND /\ s' = s
    | Err _ => st = Status.DEVICE_ERROR /\ s' = s
    | Ok o =>
        (exists w, st = Status.SUCCESS /\ files s !! w = None /\
           files s' = <[w := mkWrapper (fs_wrapper fw) o]> (files s) /\
           mem s' = store64 (mem s) file_out (w + file_proto L)) \/
        (st = Status.OUT_OF_RESOURCES /\ files s' = files s /\ mem s' = mem s)
    end.
Proof.
  intros HL Hs Hw Hv Hstr Hus Hf path Hp Ho.
  rewrite (open_cases _ _ _ _ _ _ _ us fw fs parent r) by done. fold path.
  destruct (orphan path parent); [eexists _, _, rs; by rstep|]. destruct r as [o|e].
  - destruct (create_file_spec L HL s rs (fs_wrapper fw) o Hs) as (r & s1 & rs1 & E & Hs1 & Hm & Hvs & Hr);
      [by rewrite Hv|]. rewrite E. rstep. destruct r as [w|e].
    + eexists _, _, rs1. split; [done|]. split; [by apply files_ok_memory|]. split; [done|]. left. exists w.
      rewrite Hm. naive_solver.
    + eexists _, _, rs1. split; [done|]. split; [done|]. split; [done|]. right. naive_solver.
  - eexists _, _, rs. rstep. split; [done|]. split; [done|]. split; [done|]. by destruct e.
Qed.

(** The string "SUB" at 0x6000. *)
Definition demo_path : memory := store_units ∅ 0x6000 [0x53; 0x55; 0x42; 0].
Lemma open_correct_witness : exists a st s' rs',
  open zeros demo_layout 18 (demo_open demo_path a) 0x201010 0x5000 0x6000 = Done (st, s') /\
  files_ok demo_layout s' rs' /\ (st = Status.SUCCESS \/ st = Status.OUT_OF_RESOURCES).
Proof.
  destruct demo_allocated as [a Ha]. exists a.
  assert (Eo : exists o, Fat.open zeros 18 fat32_fs demo_root path_sub = Done (Ok o))
    by (eexists; vm_compute; reflexivity). destruct Eo as [o Eo].
  edestruct (open_correct zeros demo_layout (demo_open demo_path a) demo_pages 18 0x201010 0x5000 0x6000
    path_sub (mkWrapper 0x200000 demo_root) fat32_fs (Err Fat.NotFound) (Ok o)) as (st & s' & rs' & E & Hs' & _ & Hr).
  - apply demo_layout_ok.
  - by apply demo_open_ok.
  - vm_compute. reflexivity.
  - vm_compute. reflexivity.
  - split; [|vm_compute; reflexivity].
    intros [|[|[|i]]] u Hu; [vm_compute in Hu |- *; congruence..|]. destruct i; discriminate.
  - repeat constructor; cbn; lia.
  - cbn. lia.
  - vm_compute. discriminate.
  - intros _. exact Eo.
  - exists st, s', rs'. split; [exact E|]. split; [exact Hs'|].
    destruct Hr as [(w & Hst & _)|(Hst & _)]; [left|right]; exact Hst.
Defined.

(** C15: [read] of an open file copies to the caller's buffer the next bytes of the
    file, as many as the buffer takes and the file has, stores their number,
    reports END_OF_FILE exactly when there are none, and touches no other memory.
    The handle ends on a sector boundary: a read whose size is not a multiple of
    512 skips the rest of its last sector. *)
Theorem read_correct {D} `{SectorRead D} beyond L (s : State D) fuel file size buf fw fs f st sz cs datas k :
  files s !! container_of file (file_proto L) = Some fw -> volumes s !! fs_wrapper fw = Some fs ->
  Fat.file_type (Fat.dir_ent (ofile fw)) = Fat.File_ -> Fat.file (ofile fw) = Some f ->
  file_on beyond fs st sz cs datas -> file_at fs st sz cs f k -> (k <= length datas)%nat ->
  (length datas - k < fuel)%nat -> mem_ok (mem s) ->
  let n := load64 (mem s) size in
  let bytes := take (Z.to_nat n) (drop (512 * k) (take (Z.to_nat sz) (concat datas))) in
  size + 8 <= buf \/ buf + Z.of_nat (length bytes) <= size ->
  exists s' f',
    read beyond L fuel s file size buf =
      Done (if (0 <? n) && (length bytes =? 0)%nat then Status.END_OF_FILE else Status.SUCCESS, s') /\
    load_bytes (mem s') buf (length bytes) = bytes /\ load64 (mem s') size = Z.of_nat (length bytes) /\
    (forall x, (x < buf \/ buf + Z.of_nat (length bytes) <= x) -> (x < size \/ size + 8 <= x) ->
       load8 (mem s') x = load8 (mem s) x) /\
    allocator s' = allocator s /\ volumes s' = volumes s /\
    files s' = <[container_of file (file_proto L) := mkWrapper (fs_wrapper fw)
                  (Fat.mkO (Fat.dir_ent (ofile fw)) (Some f') (Fat.dir (ofile fw)) (Fat.pdir_ent (ofile fw)))]>
                (files s) /\
    file_at fs st sz cs f' (Nat.min (length datas) (k + Z.to_nat ((n + 511) / 512))).
Proof.
  intros Hw Hv Hty Hfile Hon Hat Hk Hfuel Hmem n bytes Hdis.
  unfold read. rewrite Hw. cbn [unwrap]. rstep. rewrite Hv. cbn [unwrap]. rstep. rewrite Hty.
  by apply (read_regular_spec beyond s fuel _ size buf fw fs f st sz cs datas k).
Qed.

(** Reading 600 bytes of the 700-byte file: the next read is at the end. *)
Definition demo_file : FileWrapper :=
  mkWrapper 0x200000 (Fat.mkO (Fat.mkDE (replicate 12 0) Fat.File_ 700 4 (replicate 260 0) 0x20)
    (Some (Fat.mkFile 4 4 0 700 0)) None None).
Definition demo_reading : State Ramdisk :=
  mkState (store64 ∅ 0x5000 600) demo {[ 0x200000 := fat32_fs ]} {[ 0x201000 := demo_file ]}.
Lemma read_correct_witness : exists s' f',
  read zeros demo_layout 3 demo_reading 0x201010 0x5000 0x6000 = Done (Status.SUCCESS, s') /\
  load64 (mem s') 0x5000 = 600 /\ file_at fat32_fs 4 700 [4; 6] f' 2.
Proof.
  destruct (read_correct zeros demo_layout demo_reading 3 0x201010 0x5000 0x6000 demo_file fat32_fs
    (Fat.mkFile 4 4 0 700 0) 4 700 [4; 6] [replicate 512 0xaa; replicate 512 0xbb] 0)
    as (s' & f' & E & _ & Hn & _ & _ & _ & _ & Hat).
  - vm_compute. reflexivity.
  - vm_compute. reflexivity.
  - reflexivity.
  - reflexivity.
  - apply fat32_file_on.
  - constructor; [reflexivity..|]. exists 0%nat. cbn. split; [reflexivity|]. lia.
  - cbn. lia.
  - cbn. lia.
  - apply mem_ok_store_bytes. intros x b Hx. by rewrite lookup_empty in Hx.
  - left. lia.
  - exists s', f'. split; [exact E|]. split; [exact Hn|exact Hat].
Defined.
