(* ===== verification/FileInfo.v ===== *)
(** * File information and directory reads of the EFI file protocol *)

From S2P Require Import Prelude REfi Mem Part EfiStr Fat FatDemo FatTable FatFile FatDir Alloc AllocSafety EfiFile FileProps FileSafety.
Import EfiFile.

(** The entry's name as the protocol reports it. *)
Record entry_named (beyond : nat -> Z) (de : Fat.DirectoryEntry) (nm : list Z) : Prop := {
  en_name : exists units, info_name de = Done units /\ OsStr.from_u16_slice_with_nul beyond units = Done nm;
  en_length : (length nm < Fat.EFI_PATH_STRING_LENGTH)%nat;
  en_units : Forall (fun u => 0 <= u < 2 ^ 16) nm;
  en_attr : 0 <= Fat.attr de < 2 ^ 64;
  en_size : 0 <= Fat.size de < 2 ^ 64
}.

Definition info_size_of (nm : list Z) : Z := INFO_FILE_NAME + 2 * (Z.of_nat (length nm) + 1).

(** The structure at [info] describes the entry. *)
Record info_at (m : memory) (info : Z) (de : Fat.DirectoryEntry) (nm : list Z) : Prop := {
  ia_size : load64 m info = info_size_of nm;
  ia_file_size : load64 m (info + INFO_FILE_SIZE) = info_file_size de;
  ia_physical_size : load64 m (info + INFO_PHYSICAL_SIZE) = info_file_size de;
  ia_attribute : load64 m (info + INFO_ATTRIBUTE) = Fat.attr de;
  ia_name : string_at m (info + INFO_FILE_NAME) nm
}.

Lemma load8_store_units_out m a us x : x < a \/ a + 2 * Z.of_nat (length us) <= x ->
  load8 (store_units m a us) x = load8 m x.
Proof.
  revert m a. induction us as [|u us IH]; intros m a Hx; cbn [store_units length] in *; [done|].
  rewrite IH by lia. apply load8_store_out. lia.
Qed.

Lemma load_store_units m a us i u : us !! i = Some u -> 0 <= u < 2 ^ 16 ->
  load16 (store_units m a us) (a + 2 * Z.of_nat i) = u.
Proof.
  revert m a i. induction us as [|v us IH]; intros m a i Hi Hu; [done|]. cbn [store_units].
  destruct i as [|i]; cbn in Hi.
  - injection Hi as ->. rewrite Z.mul_0_r, Z.add_0_r.
    etransitivity; [|etransitivity; [apply (load_store 2 m a u)|]].
    + apply load_ext. intros x Hx. apply load8_store_units_out. lia.
    + apply Z.mod_small. exact Hu.
  - rewrite <- (IH (store16 m a v) (a + 2) i) by done. f_equal. lia.
Qed.

(** A field written with [v] and not overwritten since. *)
Lemma load64_kept m m' a v : 0 <= v < 2 ^ 64 ->
  (forall x, a <= x < a + 8 -> load8 m' x = load8 (store64 m a v) x) -> load64 m' a = v.
Proof.
  intros Hv Hm. etransitivity; [apply (load_ext 8); exact Hm|]. etransitivity; [apply (load_store 8)|].
  by apply Z.mod_small.
Qed.

Ltac outside := repeat (rewrite load8_store_out by lia).

Lemma info_init_spec beyond m info de nm max_size : entry_named beyond de nm -> exists m',
  info_init beyond m info de max_size =
    (if max_size <? info_size_of nm then Done (Err (info_size_of nm), m) else Done (Ok (info_size_of nm), m')) /\
  info_at m' info de nm /\
  (forall x, x < info \/ info + info_size_of nm <= x -> load8 m' x = load8 m x).
Proof.
  intros [(units & En & Eu) Hlen Hun Hattr Hsize]. unfold info_init. rewrite En. rstep. rewrite Eu. rstep.
  assert (Hl : Z.of_nat (length nm) < 260) by (unfold Fat.EFI_PATH_STRING_LENGTH in Hlen; lia).
  assert (Hfs : 0 <= info_file_size de < 2 ^ 64) by (unfold info_file_size; destruct (Fat.file_type de); lia).
  rewrite (proj2 (Nat.ltb_lt _ _) Hlen). cbn [assert_]. rstep.
  replace (usize _) with (info_size_of nm).
  2: { unfold info_size_of, INFO_FILE_NAME. rewrite wrap_small by mlia. lia. }
  eexists. split; [done|].
  split; [constructor|]; unfold info_size_of, INFO_FILE_NAME, INFO_FILE_SIZE, INFO_PHYSICAL_SIZE, INFO_ATTRIBUTE in *.
  - eapply (load64_kept (store64 (store16 (store_units m (info + 80) nm) (info + 80 + 2 * Z.of_nat (length nm)) 0)
      (info + 72) (Fat.attr de))); [lia|]. intros x Hx. outside. done.
  - eapply load64_kept; [done|]. intros x Hx. by rewrite load8_store_out by lia.
  - eapply load64_kept; [done|]. done.
  - eapply load64_kept; [done|]. intros x Hx. outside. done.
  - split.
    + intros i u Hi. rewrite <- (load_store_units m (info + 80) nm i u Hi) by (by eapply Forall_lookup_1 in Hun).
      apply lookup_lt_Some in Hi. apply load_ext. intros x Hx. outside. done.
    + etransitivity; [|apply (load_store 2 (store_units m (info + 80) nm) (info + 80 + 2 * Z.of_nat (length nm)) 0)].
      apply load_ext. intros x Hx. outside. done.
  - intros x Hx. outside. apply load8_store_units_out. lia.
Qed.

(** The structure survives the store of the size. *)
Lemma info_at_ext m m' info de nm : info_at m info de nm -> (length nm < 260)%nat ->
  (forall x, info <= x < info + info_size_of nm -> load8 m' x = load8 m x) -> info_at m' info de nm.
Proof.
  unfold info_size_of, INFO_FILE_NAME. intros [H1 H2 H3 H4 [H5 H6]] Hl Hm.
  unfold INFO_FILE_SIZE, INFO_PHYSICAL_SIZE, INFO_ATTRIBUTE, INFO_FILE_NAME in *.
  assert (Hld : forall n a, info <= a -> a + Z.of_nat n <= info + (80 + 2 * (Z.of_nat (length nm) + 1)) ->
    load n m' a = load n m a) by (intros; apply load_ext; intros; apply Hm; lia).
  constructor; unfold INFO_FILE_SIZE, INFO_PHYSICAL_SIZE, INFO_ATTRIBUTE, INFO_FILE_NAME in *;
    try (rewrite Hld by lia; assumption).
  split; [|by rewrite Hld by lia]. intros i u Hi. rewrite Hld; [by apply H5|lia|].
  apply lookup_lt_Some in Hi. lia.
Qed.

(** Storing the size after the structure, in a cell outside it. *)
Lemma info_then_size m m' info cell de nm :
  info_at m' info de nm -> (length nm < 260)%nat ->
  (forall x, x < info \/ info + info_size_of nm <= x -> load8 m' x = load8 m x) ->
  cell + 8 <= info \/ info + info_size_of nm <= cell ->
  let m2 := store64 m' cell (info_size_of nm) in
  info_at m2 info de nm /\ load64 m2 cell = info_size_of nm /\
  forall x, (x < info \/ info + info_size_of nm <= x) -> (x < cell \/ cell + 8 <= x) -> load8 m2 x = load8 m x.
Proof.
  intros Hi Hl Hout Hd m2. unfold m2. split_and!.
  - apply (info_at_ext m'); [done|done|]. intros x Hx. apply load8_store_out. lia.
  - etransitivity; [apply (load_store 8)|]. apply Z.mod_small. unfold info_size_of, INFO_FILE_NAME. mlia.
  - intros x H1 H2. rewrite load8_store_out by lia. by apply Hout.
Qed.

(** [get_info] into a buffer that is large enough. *)
Lemma get_info_fills {D} beyond L (s : State D) file guid cell info fw nm :
  files s !! container_of file (file_proto L) = Some fw -> entry_named beyond (Fat.dir_ent (ofile fw)) nm ->
  cell + 8 <= info \/ info + info_size_of nm <= cell ->
  load_bytes (mem s) guid 16 = Guid.as_bytes INFO_ID -> 600 <= load64 (mem s) cell ->
  exists m, get_info beyond L s file guid cell info = Done (Status.SUCCESS, set_memory s m) /\
    info_at m info (Fat.dir_ent (ofile fw)) nm /\ load64 m cell = info_size_of nm /\
    forall x, (x < info \/ info + info_size_of nm <= x) -> (x < cell \/ cell + 8 <= x) ->
      load8 m x = load8 (mem s) x.
Proof.
  intros Hw Hn Hd Eg H6. pose proof (en_length _ _ _ Hn) as Hl. change Fat.EFI_PATH_STRING_LENGTH with 260%nat in Hl.
  unfold get_info. rewrite Hw. cbn [unwrap]. rstep. rewrite bool_decide_eq_true_2 by done.
  change FILE_INFO_SIZE with 600. rewrite (proj2 (Z.ltb_ge _ 600)) by done.
  destruct (info_init_spec beyond (mem s) info _ nm (load64 (mem s) cell) Hn) as (m' & -> & Hi & Hout).
  rewrite (proj2 (Z.ltb_ge _ _)) by (unfold info_size_of, INFO_FILE_NAME; lia). rstep.
  eexists. split; [done|]. by apply info_then_size.
Qed.

(** ** Properties *)

(** What a directory entry says of its file, read off the entry alone.  The name
    is made of the units before the first one whose low byte is 0, of the long name when
    there is one, and otherwise of the bytes of the short name (a short name of all
    12 bytes runs on into the empty long name). *)
Record entry_says (de : Fat.DirectoryEntry) (nm : list Z) : Prop := {
  es_short : length (Fat.name de) = 12%nat;
  es_long : length (Fat.long_name de) = 260%nat;
  es_name : if head (Fat.long_name de) is Some 0
            then up_to_nul (Fat.name de ++ drop 12 (Fat.long_name de)) nm
            else up_to_nul (Fat.long_name de) nm;
  es_units : Forall (fun u => 0 <= u < 2 ^ 16) nm;
  es_attr : 0 <= Fat.attr de < 2 ^ 64;
  es_size : 0 <= Fat.size de < 2 ^ 64
}.

Lemma entry_says_named beyond de nm : entry_says de nm -> entry_named beyond de nm.
Proof.
  intros [Hs Hl Hn Hu Ha Hz]. assert (Hlen : forall l : list Z, length l = 260%nat -> up_to_nul l nm -> (length nm < 260)%nat).
  { intros l E (z & rest & -> & _). rewrite length_app in E. cbn in E. lia. }
  assert (Hlong : (length nm < 260)%nat /\ exists units, info_name de = Done units /\ up_to_nul units nm).
  { unfold info_name. change (Fat.EFI_FAT_SHORT_NAME_LEN + 1)%nat with 12%nat. rewrite Hs, Hl. unfold index.
    destruct (Fat.long_name de) as [|x l] eqn:E; [done|]. cbn [lookup list_lookup unwrap head] in *. rstep.
    destruct (Z.eqb_spec x 0) as [->|Hx].
    - cbn [assert_ Nat.leb]. rstep. rewrite take_ge by lia. split; [|by eexists].
      eapply Hlen, Hn. rewrite length_app, length_drop, Hs. cbn [length] in *. lia.
    - assert (Hn' : up_to_nul (x :: l) nm) by (by destruct x). split; [by eapply Hlen, Hn'|by eexists]. }
  destruct Hlong as (Hlt & units & E & Hc). constructor; [|done..].
  exists units. split; [done|]. by apply up_to_nul_cut.
Qed.


(** An entry with the short name "A.B" and no long name. *)
Definition info_request : memory := store_bytes (store64 ∅ 0x5000 600) 0x7000 (Guid.as_bytes INFO_ID).
Definition short_entry : Fat.DirectoryEntry :=
  Fat.mkDE ([0x41; 0x2e; 0x42] ++ replicate 9 0) Fat.File_ 700 4 (replicate 260 0) 0x20.
Definition short_file : FileWrapper :=
  mkWrapper 0x200000 (Fat.mkO short_entry (Some (Fat.mkFile 4 4 0 700 0)) None None).

(** [read] of an open directory hands out its entries one after the other, as
    the directory's listing has them, then an empty one and size 0 at the end.  An
    entry that does not fit the caller's buffer is reported as BUFFER_TOO_SMALL
    with the size needed, but the directory has moved past it: the next read
    returns the entry after it. *)
Theorem directory_read_correct {D} `{SectorRead D} beyond L (s : State D) fuel file cell buf fw fs d es nm :
  files s !! container_of file (file_proto L) = Some fw -> volumes s !! fs_wrapper fw = Some fs ->
  Fat.file_type (Fat.dir_ent (ofile fw)) = Fat.Directory_ -> Fat.dir (ofile fw) = Some d ->
  lists beyond fs fuel d es ->
  (forall e, head es = Some e -> entry_named beyond e nm) ->
  cell + 8 <= buf \/ buf + info_size_of nm <= cell ->
  exists d' m st, read beyond L fuel s file cell buf =
    Done (st, mkState m (allocator s) (volumes s)
      (<[container_of file (file_proto L) := mkWrapper (fs_wrapper fw)
          (Fat.mkO (Fat.dir_ent (ofile fw)) (Fat.file (ofile fw)) (Some d') (Fat.pdir_ent (ofile fw)))]> (files s)))
    /\
    match es with
    | [] => st = Status.SUCCESS /\ load64 m cell = 0
    | e :: es' =>
        lists beyond fs (fuel - 1) d' es' /\ load64 m cell = info_size_of nm /\
        if load64 (mem s) cell <? info_size_of nm
        then st = Status.BUFFER_TOO_SMALL
        else st = Status.SUCCESS /\ info_at m buf e nm /\
          forall x, (x < buf \/ buf + info_size_of nm <= x) -> (x < cell \/ cell + 8 <= x) ->
            load8 m x = load8 (mem s) x
    end.
Proof.
  intros Hw Hv Hty Hdir Hls Hn Hdis. destruct (lists_next _ _ _ _ _ Hls) as (d' & Hnext).
  unfold read. rewrite Hw. cbn [unwrap]. rstep. rewrite Hv. cbn [unwrap]. rstep. rewrite Hty.
  unfold read_directory. rewrite Hdir. cbn [unwrap]. rstep. destruct es as [|e es'].
  { rewrite Hnext. rstep. eexists d', _, _. split; [done|]. split; [done|].
    etransitivity; [apply (load_store 8)|]. done. }
  specialize (Hn e eq_refl). destruct Hnext as [-> Hls']. rstep. cbn [mem set_ofile].
  destruct (info_init_spec beyond (mem s) buf e nm (load64 (mem s) cell) Hn) as (m' & -> & Hi & Hout).
  pose proof (en_length _ _ _ Hn) as Hl. change Fat.EFI_PATH_STRING_LENGTH with 260%nat in Hl.
  exists d'. destruct (_ <? _); rstep; eexists _, _; (split; [done|]); (split; [done|]).
  - split; [|done]. etransitivity; [apply (load_store 8)|]. apply Z.mod_small.
    unfold info_size_of, INFO_FILE_NAME. mlia.
  - destruct (info_then_size (mem s) m' buf cell e nm Hi Hl Hout Hdis) as (H1 & H2 & H3). done.
Qed.

(** The root directory of the FAT32 volume, read with a buffer of 16 bytes. *)
Lemma directory_read_correct_witness : exists d' s',
  read zeros demo_layout 18 (demo_open (store64 ∅ 0x5000 16) demo) 0x201010 0x5000 0x6000 =
    Done (Status.BUFFER_TOO_SMALL, s') /\ lists zeros fat32_fs 17 d' (drop 1 (entries_in fat32_root_sector)).
Proof.
  destruct (fat32_chain 2 fat32_root_sector) as (Hg & He & Hat); [vm_compute; reflexivity..|].
  destruct (directory_read_correct zeros demo_layout (demo_open (store64 ∅ 0x5000 16) demo) 18 0x201010 0x5000
    0x6000 (mkWrapper 0x200000 demo_root) fat32_fs (Fat.mkDir (Some 2) 0 0 (Some 2))
    (entries_in fat32_root_sector) long_bytes) as (d' & m & st & E & Hls & _ & Hst).
  - reflexivity.
  - vm_compute. reflexivity.
  - reflexivity.
  - reflexivity.
  - apply (lists_start _ _ _ (OnChain [2]) [fat32_root_sector] _ Hg He Hat); [reflexivity|vm_compute; reflexivity|vm_compute; lia].
  - intros e [= <-]. constructor.
    + eexists. split; vm_compute; reflexivity.
    + vm_compute. lia.
    + unfold long_bytes. repeat (apply Forall_cons_2; [lia|]). apply Forall_nil_2.
    + vm_compute. split; [discriminate|reflexivity].
    + vm_compute. split; [discriminate|reflexivity].
  - left. vm_compute. discriminate.
  - vm_compute in Hst. subst st. eexists d', _. split; [exact E|exact Hls].
Defined.
