(* ===== verification/Hob.v ===== *)
(** * Boot-time hand-off (src/pi/hob.rs, src/pi/hob_lib.rs, src/pi/fv.rs,
    src/pi/fv_lib.rs, src/efi/init.rs)

    The platform hands the firmware a list of HOBs in memory: records with a type
    and a length, the last of type [END_OF_HOB_LIST].  The allocator is filled
    from it, and the payload is found in a firmware volume it names. *)

From S2P Require Import Prelude REfi Mem Alloc.

Module Hob.
Definition RESOURCE_SYSTEM_MEMORY : Z := 0.

Definition HOB_TYPE_MEMORY_ALLOCATION : Z := 0x0002.
Definition HOB_TYPE_RESOURCE_DESCRIPTOR : Z := 0x0003.
Definition HOB_TYPE_FV : Z := 0x0005.
Definition HOB_TYPE_END_OF_HOB_LIST : Z := 0xffff.

(** [Header] *)
Definition type_ (m : memory) (h : Z) : Z := load16 m h.
Definition hob_length (m : memory) (h : Z) : Z := load16 m (h + 2).
(** [HandoffInfoTable] *)
Definition efi_end_of_hob_list (m : memory) (h : Z) : Z := load64 m (h + 48).
(** [MemoryAllocation] *)
Definition memory_base_address (m : memory) (h : Z) : Z := load64 m (h + 24).
Definition memory_length (m : memory) (h : Z) : Z := load64 m (h + 32).
Definition memory_type (m : memory) (h : Z) : Z := load32 m (h + 40).
(** [ResourceDescription] *)
Definition resource_type (m : memory) (h : Z) : Z := load32 m (h + 24).
Definition physical_start (m : memory) (h : Z) : Z := load64 m (h + 32).
Definition resource_length (m : memory) (h : Z) : Z := load64 m (h + 40).
(** [FirmwareVolume] *)
Definition fv_base_address (m : memory) (h : Z) : Z := load64 m (h + 8).
Definition fv_length (m : memory) (h : Z) : Z := load64 m (h + 16).

(** [hob_header as usize + header.length as usize] *)
Definition next (m : memory) (h : Z) : Z := usize (h + hob_length m h).

(** The [MemoryType] a HOB holds.  The code reads the enum from memory as it
    is; a number that is no [MemoryType] is undefined behaviour, [None] here. *)
Definition all_memory_types : list MemoryType :=
  [ReservedMemoryType; LoaderCode; LoaderData; BootServicesCode; BootServicesData; RuntimeServicesCode;
   RuntimeServicesData; ConventionalMemory; UnusableMemory; AcpiReclaimMemory; AcpiMemoryNvs;
   MemoryMappedIO; MemoryMappedIOPortSpace; PalCode; PersistentMemory].
Definition memory_type_of (v : Z) : option MemoryType :=
  List.find (fun t => memory_type_u32 t =? v) all_memory_types.

(** ** Filling the allocator: [initialize_memory] *)

(** The first loop: system memory. *)
Fixpoint resource_loop (fuel : nat) (m : memory) (h : Z) (a : Alloc.Allocator) : res Alloc.Allocator :=
  match fuel with
  | O => OutOfFuel
  | S fuel =>
      if type_ m h =? HOB_TYPE_RESOURCE_DESCRIPTOR then
        a ← (if resource_type m h =? RESOURCE_SYSTEM_MEMORY then
               '(_, a) ← Alloc.add_initial_allocation a ConventionalMemory
                           (resource_length m h / Alloc.PAGE_SIZE) (physical_start m h) MEMORY_WB;
               Done a
             else Done a);
        resource_loop fuel m (next m h) a
      else if type_ m h =? HOB_TYPE_END_OF_HOB_LIST then Done a
      else resource_loop fuel m (next m h) a
  end.

(** The second loop: what is allocated already. *)
Fixpoint allocation_loop (fuel : nat) (m : memory) (h : Z) (a : Alloc.Allocator) : res Alloc.Allocator :=
  match fuel with
  | O => OutOfFuel
  | S fuel =>
      if type_ m h =? HOB_TYPE_MEMORY_ALLOCATION then
        t ← unwrap (memory_type_of (memory_type m h));
        '(_, a) ← Alloc.allocate_pages a AllocateAddress t
                    (memory_length m h / Alloc.PAGE_SIZE) (memory_base_address m h);
        allocation_loop fuel m (next m h) a
      else if type_ m h =? HOB_TYPE_END_OF_HOB_LIST then Done a
      else allocation_loop fuel m (next m h) a
  end.

Definition initialize_memory (fuel : nat) (m : memory) (hob : Z) (a : Alloc.Allocator) : res Alloc.Allocator :=
  a ← resource_loop fuel m hob a;
  allocation_loop fuel m hob a.

(** ** Moving the list: [relocate_hob] *)

Definition get_hob_total_size (m : memory) (hob : Z) : Z := usize (efi_end_of_hob_list m hob - hob).

(** The new address of the list, 0 when there is no memory for it. *)
Definition relocate_hob (m : memory) (a : Alloc.Allocator) (hob : Z) : res (Z * memory * Alloc.Allocator) :=
  let total := get_hob_total_size m hob in
  '((status, new_hob), a) ← Alloc.allocate_pages a AllocateAnyPages BootServicesData
                              (usize (usize (total + Alloc.PAGE_SIZE) - 1) / Alloc.PAGE_SIZE) 0;
  if negb (Status.eqb status Status.SUCCESS) then Done (0, m, a)
  else
    let m := copy_bytes m hob new_hob (Z.to_nat total) in
    let m := store64 m (new_hob + 48) (usize (new_hob + total)) in
    Done (new_hob, m, a).
End Hob.

Module Fv.
Definition FVH_SIGNATURE : Z := 0x4856465f.
Definition FV_FILETYPE_APPLICATION : Z := 0x09.
Definition SECTION_PE32 : Z := 0x10.

(** [FirmwareVolumeHeader] *)
Definition signature (m : memory) (fv : Z) : Z := load32 m (fv + 40).
Definition header_length (m : memory) (fv : Z) : Z := load16 m (fv + 48).

(** The 24-bit sizes of files and sections. *)
Definition size24 (m : memory) (a : Z) : Z :=
  load8 m a + Z.shiftl (load8 m (a + 1)) 8 + Z.shiftl (load8 m (a + 2)) 16.

(** [FfsFileHeader] *)
Definition FFS_HEADER_SIZE : Z := 24.
Definition ffs_type (m : memory) (f : Z) : Z := load8 m (f + 18).
Definition ffs_size (m : memory) (f : Z) : Z := size24 m (f + 20).
(** [CommonSectionHeader] *)
Definition SECTION_HEADER_SIZE : Z := 4.
Definition section_size (m : memory) (s : Z) : Z := size24 m s.
Definition section_type (m : memory) (s : Z) : Z := load8 m (s + 3).

(** The result [(null, 0)]. *)
Definition no_image : Z * Z := (0, 0).

Fixpoint sections_loop (fuel : nat) (m : memory) (next_ptr sections_end ty : Z) : res (Z * Z) :=
  match fuel with
  | O => OutOfFuel
  | S fuel =>
      let current := Z.land (usize (next_ptr + 3)) 0xfffffffc in
      if sections_end <? current then Done no_image
      else
        let size := section_size m current in
        if size <? SECTION_HEADER_SIZE then Done no_image
        else
          let next := usize (current + size) in
          if sections_end <? next then Done no_image
          else if negb (section_type m current =? ty) then sections_loop fuel m next sections_end ty
          else Done (usize (current + SECTION_HEADER_SIZE), size - SECTION_HEADER_SIZE)
  end.
Definition get_image_from_sections (fuel : nat) (m : memory) (sections_address sections_length ty : Z)
    : res (Z * Z) :=
  sections_loop fuel m sections_address (usize (sections_address + sections_length)) ty.

Fixpoint files_loop (fuel : nat) (m : memory) (next_ptr fv_end file_ty section_ty : Z) : res (Z * Z) :=
  match fuel with
  | O => OutOfFuel
  | S fuel' =>
      let current := Z.land (usize (next_ptr + 7)) 0xfffffff8 in
      if fv_end <? current then Done no_image
      else
        let size := ffs_size m current in
        if size <? FFS_HEADER_SIZE + SECTION_HEADER_SIZE then Done no_image
        else
          let next := usize (current + size) in
          if fv_end <? next then Done no_image
          else if negb (ffs_type m current =? file_ty) then files_loop fuel' m next fv_end file_ty section_ty
          else
            '(image, n) ← get_image_from_sections fuel m (usize (current + FFS_HEADER_SIZE))
                            (size - FFS_HEADER_SIZE) section_ty;
            if negb (image =? 0) then Done (image, n) else files_loop fuel' m next fv_end file_ty section_ty
  end.
Definition get_image_from_fv (fuel : nat) (m : memory) (fv_base_address fv_length file_ty section_ty : Z)
    : res (Z * Z) :=
  let fv_end := u64 (fv_base_address + fv_length) in
  _ ← assert_ (signature m fv_base_address =? FVH_SIGNATURE);
  files_loop fuel m (usize (fv_base_address + header_length m fv_base_address)) fv_end file_ty section_ty.

(** [hobs] bounds the walk of the HOB list, [fuel] those of the volumes. *)
Fixpoint find_image_in_fv (hobs fuel : nat) (m : memory) (h : Z) : res (Z * Z) :=
  match hobs with
  | O => OutOfFuel
  | S hobs =>
      if Hob.type_ m h =? Hob.HOB_TYPE_FV then
        '(image, n) ← get_image_from_fv fuel m (Hob.fv_base_address m h) (Hob.fv_length m h)
                        FV_FILETYPE_APPLICATION SECTION_PE32;
        if negb (image =? 0) then Done (image, n) else find_image_in_fv hobs fuel m (Hob.next m h)
      else if Hob.type_ m h =? Hob.HOB_TYPE_END_OF_HOB_LIST then Done no_image
      else find_image_in_fv hobs fuel m (Hob.next m h)
  end.
(** [find_loader] of src/efi/init.rs *)
Definition find_loader := find_image_in_fv.
End Fv.
