(* ===== verification/HobProps.v ===== *)
(** * Boot-time hand-off: theorems

    HOB lists as lists of records, and the memory map the allocator holds after
    [initialize_memory]. *)

From S2P Require Import Prelude REfi Mem Alloc MemMap MapSafety AllocRepr AllocRefine AllocSafety Hob.
From Stdlib Require Import Sorting.Sorted.
Import Hob.

(** ** HOB lists *)

Inductive Record_ :=
| Resource (ty start len : Z)
| Allocated (t : MemoryType) (base len : Z)
| Volume (base len : Z)
| Other.

(** The record at [h]. *)
Definition record_at (m : memory) (h : Z) (r : Record_) : Prop :=
  match r with
  | Resource ty start len => type_ m h = HOB_TYPE_RESOURCE_DESCRIPTOR /\
      resource_type m h = ty /\ physical_start m h = start /\ resource_length m h = len
  | Allocated t base len => type_ m h = HOB_TYPE_MEMORY_ALLOCATION /\
      memory_type m h = memory_type_u32 t /\ memory_base_address m h = base /\ memory_length m h = len
  | Volume base len => type_ m h = HOB_TYPE_FV /\ fv_base_address m h = base /\ fv_length m h = len
  | Other => type_ m h <> HOB_TYPE_RESOURCE_DESCRIPTOR /\ type_ m h <> HOB_TYPE_MEMORY_ALLOCATION /\
      type_ m h <> HOB_TYPE_FV /\ type_ m h <> HOB_TYPE_END_OF_HOB_LIST
  end.

Fixpoint list_at (m : memory) (h : Z) (l : list Record_) : Prop :=
  match l with
  | [] => type_ m h = HOB_TYPE_END_OF_HOB_LIST
  | r :: l => record_at m h r /\ list_at m (next m h) l
  end.

(** The system memory and the allocations of a list, in pages. *)
Record Range := mkRange { r_base : Z; r_pages : Z }.
Definition r_end (r : Range) : Z := r_base r + Alloc.PAGE_SIZE * r_pages r.
Definition pages_of (base len : Z) : Range := mkRange base (len / Alloc.PAGE_SIZE).

Fixpoint ram_of (l : list Record_) : list Range :=
  match l with
  | [] => []
  | Resource ty start len :: l =>
      if ty =? RESOURCE_SYSTEM_MEMORY then pages_of start len :: ram_of l else ram_of l
  | _ :: l => ram_of l
  end.
Fixpoint allocs_of (l : list Record_) : list (MemoryType * Range) :=
  match l with
  | [] => []
  | Allocated t base len :: l => (t, pages_of base len) :: allocs_of l
  | _ :: l => allocs_of l
  end.

Lemma memory_type_of_u32 t : memory_type_of (memory_type_u32 t) = Some t.
Proof. by destruct t. Qed.

(** ** The two loops over the abstract map *)

Definition add_all (rs : list Map.Region) (ram : list Range) : list Map.Region :=
  foldl (fun rs r => (Map.add Alloc.MAX_ALLOCATIONS rs ConventionalMemory (r_pages r) (r_base r) MEMORY_WB).2) rs ram.
Definition take_all (rs : list Map.Region) (as_ : list (MemoryType * Range)) : list Map.Region :=
  foldl (fun rs '(t, r) =>
    (Map.allocate Alloc.MAX_ALLOCATIONS rs AllocateAddress t (r_pages r) (r_base r)).2) rs as_.

Definition range_ok (r : Range) : Prop := 0 <= r_base r /\ 0 <= r_pages r /\ r_end r < 2 ^ 64.
Definition follows (rs : list Map.Region) (r : Range) : Prop := Forall (fun q => Map.rend q <= r_base r) rs.

Lemma add_map_ok rs r : Map.map_ok rs -> range_ok r -> follows rs r ->
  Map.map_ok (Map.add Alloc.MAX_ALLOCATIONS rs ConventionalMemory (r_pages r) (r_base r) MEMORY_WB).2.
Proof. intros Hok (H1 & H2 & H3) Hf. by apply map_add_ok. Qed.

Lemma add_follows rs r r' : follows rs r' -> r_end r <= r_base r' -> 
  follows (Map.add Alloc.MAX_ALLOCATIONS rs ConventionalMemory (r_pages r) (r_base r) MEMORY_WB).2 r'.
Proof.
  intros Hf Hr. unfold Map.add, follows in *.
  assert (Hn : Forall (fun q => Map.rend q <= r_base r')
    [Map.mkRegion (memory_type_u32 ConventionalMemory) (r_base r) (r_pages r) MEMORY_WB])
    by (apply Forall_cons_2, Forall_nil_2; exact Hr).
  destruct rs as [|q rs]; [done|]. destruct (_ =? _)%nat; [done|]. by apply Forall_app.
Qed.

Lemma resource_loop_spec m l : forall fuel h s rs,
  list_at m h l -> (length l < fuel)%nat -> holds s rs ->
  Forall range_ok (ram_of l) -> StronglySorted (fun a b => r_end a <= r_base b) (ram_of l) ->
  Forall (follows rs) (ram_of l) ->
  exists s', resource_loop fuel m h s = Done s' /\ holds s' (add_all rs (ram_of l)).
Proof.
  induction l as [|r l IH]; intros [|fuel] h s rs Hl Hf Hs Hok Hsort Hfol; cbn [length] in Hf; try lia;
    cbn [resource_loop list_at] in *.
  { rewrite Hl. by exists s. }
  destruct Hl as [Hr Hl]. destruct r as [ty start len|t base len|base len|]; cbn [record_at] in Hr.
  - destruct Hr as (-> & Ht & Hp & Hlen). rewrite Hp, Hlen, Ht. cbn [Z.eqb Pos.eqb].
    cbn [ram_of] in *. destruct (ty =? RESOURCE_SYSTEM_MEMORY); [|apply IH; try done; lia].
    apply Forall_cons in Hok as [(H1 & H2 & H3) Hok]. apply Forall_cons in Hfol as [Hfo Hfol].
    apply StronglySorted_inv in Hsort as [Hsort Hlt].
    destruct (holds_add s rs ConventionalMemory (len / Alloc.PAGE_SIZE) start MEMORY_WB Hs H2 H1 H3 Hfo) as (s' & -> & Hs').
    rstep. apply (IH fuel _ s' _ Hl); [lia|exact Hs'|done..|].
    rewrite Forall_forall in *. intros r' Hr'. apply (add_follows rs (pages_of start len)); auto.
  - destruct Hr as (-> & _). apply IH; try done; lia.
  - destruct Hr as (-> & _). apply IH; try done; lia.
  - destruct Hr as (H1 & _ & _ & H2). rewrite (proj2 (Z.eqb_neq _ _)), (proj2 (Z.eqb_neq _ _)) by done. apply IH; try done; lia.
Qed.

Lemma allocation_loop_spec m l : forall fuel h s rs,
  list_at m h l -> (length l < fuel)%nat -> holds s rs ->
  Forall (fun a => range_ok a.2) (allocs_of l) ->
  exists s', allocation_loop fuel m h s = Done s' /\ holds s' (take_all rs (allocs_of l)).
Proof.
  induction l as [|r l IH]; intros [|fuel] h s rs Hl Hf Hs Hok; cbn [length] in Hf; try lia;
    cbn [allocation_loop list_at] in *.
  { rewrite Hl. by exists s. }
  destruct Hl as [Hr Hl]. destruct r as [ty start len|t base len|base len|]; cbn [record_at allocs_of] in *.
  - destruct Hr as (-> & _). apply IH; try done; lia.
  - destruct Hr as (-> & Ht & Hb & Hlen). rewrite Ht, Hb, Hlen, memory_type_of_u32. cbn [Z.eqb Pos.eqb unwrap]. rstep.
    apply Forall_cons in Hok as [(H1 & H2 & H3) Hok]. cbn in H1, H2, H3.
    destruct (holds_allocate s rs AllocateAddress t (len / Alloc.PAGE_SIZE) base Hs) as (s' & -> & Hs').
    { by split_and!. }
    destruct (Map.allocate _ rs AllocateAddress t (len / Alloc.PAGE_SIZE) base) as [[st b] rs'] eqn:E.
    cbn [fst snd] in *. rstep. cbn [take_all foldl]. destruct (IH fuel _ s' rs' Hl) as (s2 & -> & Hs2); [lia|done..|].
    exists s2. split; [done|]. unfold take_all in *. cbn [foldl r_pages r_base pages_of]. by rewrite E.
  - destruct Hr as (-> & _). apply IH; try done; lia.
  - destruct Hr as (_ & H1 & _ & H2). rewrite (proj2 (Z.eqb_neq _ _)), (proj2 (Z.eqb_neq _ _)) by done.
    apply IH; try done; lia.
Qed.

(** ** Carving the allocations out of the system memory *)

(** A conventional region of the map contains the whole range. *)
Definition inside (r : Range) (q : Map.Region) : Prop :=
  Map.rtype q = Map.CONVENTIONAL /\ Map.rstart q <= r_base r /\ r_end r <= Map.rend q.
Definition room (rs : list Map.Region) (r : Range) : Prop := exists q, q ∈ rs /\ inside r q.
Definition apart (a b : Range) : Prop := r_end a <= r_base b \/ r_end b <= r_base a.

Lemma room_replace pre q mid post r : room (pre ++ q :: post) r ->
  (inside r q -> exists q', q' ∈ mid /\ inside r q') -> room (pre ++ mid ++ post) r.
Proof.
  intros (p & Hp & Hr) Hq. apply elem_of_app in Hp as [Hp|Hp]; [exists p; set_solver|].
  apply elem_of_cons in Hp as [->|Hp]; [|exists p; set_solver].
  destruct (Hq Hr) as (q' & H' & Hr'). exists q'. set_solver.
Qed.

Lemma inside_fits r q : inside r q <-> Map.fits AllocateAddress (r_pages r) (r_base r) q = true.
Proof.
  unfold inside, Map.fits, r_end. rewrite !andb_true_iff, Z.eqb_eq, !Z.leb_le. tauto.
Qed.

(** What is left of a region when a range has been carved out of it. *)
Definition leaves (t : MemoryType) (r : Range) (q : Map.Region) (mid : list Map.Region) : Prop :=
  aligned mid /\ (length mid <= 3)%nat /\
  forall r', 0 < r_pages r' -> inside r' q -> apart r r' -> exists q', q' ∈ mid /\ inside r' q'.

Ltac region_arith :=
  unfold inside, apart, r_end, Map.rend in *;
  cbn [Map.rstart Map.rpages Map.rtype Map.lower Map.upper Map.retype Map.assign] in *; page_lia.

Lemma allocate_address_shape cap rs t r : Map.map_ok rs -> aligned rs -> (Alloc.PAGE_SIZE | r_base r) ->
  0 < r_pages r -> room rs r -> (S (length rs) < cap)%nat ->
  exists pre q post mid, rs = pre ++ q :: post /\ leaves t r q mid /\
    Map.allocate cap rs AllocateAddress t (r_pages r) (r_base r) = ((Status.SUCCESS, r_base r), pre ++ mid ++ post).
Proof.
  intros Hok Hal Hdiv Hn (q0 & Hq0 & Hin0) Hcap. unfold Map.allocate.
  destruct (Map.split_first _ rs) as [[[pre q] post]|] eqn:E.
  2: { apply Map.split_first_None in E. rewrite Forall_forall in E. specialize (E q0 Hq0).
       apply inside_fits in Hin0. congruence. }
  apply Map.split_first_Some in E as (-> & Hfit & _). apply inside_fits in Hfit as Hin.
  pose proof (Map.map_ok_middle _ _ _ Hok) as (Hq1 & Hq2 & Hq3).
  assert (Hqd : (Alloc.PAGE_SIZE | Map.rstart q)).
  { unfold aligned in Hal. rewrite Forall_forall in Hal. apply Hal. set_solver. }
  destruct Hqd as [x Hx], Hdiv as [y Hy]. destruct Hin as (Hc & Hlo & Hhi). exists pre, q, post.
  destruct (Z.eqb_spec (Map.rpages q) (r_pages r)) as [Hp|Hp].
  - exists [Map.retype (memory_type_u32 t) q]. split; [done|]. split.
    + split; [apply Forall_cons_2, Forall_nil_2; by exists x|]. split; [cbn; lia|].
      intros r' Hr' Hi Ha. exfalso. region_arith.
    + do 2 f_equal. f_equal. region_arith.
  - destruct (Z.eqb_spec (Map.rstart q) (r_base r)) as [Hs|Hs].
    + exists [Map.assign t (Map.lower (r_pages r) q); Map.upper (r_pages r) q]. split; [done|]. split.
      * split; [|split; [cbn; lia|]].
        { repeat apply Forall_cons_2; try apply Forall_nil_2; [by exists x|].
          exists (x + r_pages r). region_arith. }
        intros r' Hr' Hi Ha. exists (Map.upper (r_pages r) q). split; [set_solver|]. region_arith.
      * unfold Map.carve_front. rewrite (proj2 (Nat.eqb_neq _ _)) by lia. by rewrite Hs.
    + set (k := (r_base r - Map.rstart q) / Alloc.PAGE_SIZE).
      assert (Hk : Alloc.PAGE_SIZE * k = r_base r - Map.rstart q).
      { subst k. rewrite Hx, Hy, <- Z.mul_sub_distr_r, Z.div_mul by done. lia. }
      unfold Map.carve_middle. rewrite !(proj2 (Nat.eqb_neq _ _)) by lia. clearbody k.
      destruct (Z.ltb_spec (r_pages r) (Map.rpages (Map.upper k q))) as [Hlt|Hge].
      * exists [Map.lower k q; Map.assign t (Map.lower (r_pages r) (Map.upper k q)); Map.upper (r_pages r) (Map.upper k q)].
        split; [done|]. split.
        { split; [|split; [cbn; lia|]].
          - repeat apply Forall_cons_2; try apply Forall_nil_2;
              [by exists x | exists (x + k); region_arith | exists (x + k + r_pages r); region_arith].
          - intros r' Hr' Hi [Ha|Ha].
            + exists (Map.upper (r_pages r) (Map.upper k q)). split; [set_solver|]. region_arith.
            + exists (Map.lower k q). split; [set_solver|]. region_arith. }
        f_equal. f_equal. region_arith.
      * exists [Map.lower k q; Map.assign t (Map.upper k q)]. split; [done|]. split.
        { split; [|split; [cbn; lia|]].
          - repeat apply Forall_cons_2; try apply Forall_nil_2; [by exists x | exists (x + k); region_arith].
          - intros r' Hr' Hi [Ha|Ha]; [exfalso; region_arith|].
            exists (Map.lower k q). split; [set_solver|]. region_arith. }
        f_equal. f_equal. region_arith.
Qed.

Definition covers (r : Range) (a : Z) : bool := (r_base r <=? a) && (a <? r_end r).

Lemma alloc_success_types cap rs k t n addr b rs' : Map.map_ok rs ->
  alloc_result cap rs k t n addr ((Status.SUCCESS, b), rs') -> forall a,
  type_at rs' a = if (b <=? a) && (a <? b + Alloc.PAGE_SIZE * n) then Some (memory_type_u32 t) else type_at rs a.
Proof.
  intros Hok Hres a. remember ((Status.SUCCESS, b), rs') as o eqn:Eo.
  destruct Hres as [|?|pre q post mid base -> _ Hc _]; simplify_eq.
  by apply carved_types.
Qed.

Lemma allocate_address_step cap rs t r : Map.map_ok rs -> aligned rs -> (Alloc.PAGE_SIZE | r_base r) ->
  0 < r_pages r -> room rs r -> (S (length rs) < cap)%nat ->
  let rs' := (Map.allocate cap rs AllocateAddress t (r_pages r) (r_base r)).2 in
  Map.map_ok rs' /\ aligned rs' /\ (length rs' <= length rs + 2)%nat /\
  (forall r', 0 < r_pages r' -> room rs r' -> apart r r' -> room rs' r') /\
  (forall a, type_at rs' a = if covers r a then Some (memory_type_u32 t) else type_at rs a).
Proof.
  intros Hok Hal Hdiv Hn Hroom Hcap.
  destruct (allocate_address_shape cap rs t r Hok Hal Hdiv Hn Hroom Hcap)
    as (pre & q & post & mid & Ers & (Hma & Hml & Hmr) & E).
  pose proof (map_ok_allocate cap rs AllocateAddress t (r_pages r) (r_base r) Hok) as Hok'.
  pose proof (allocate_results cap rs AllocateAddress t (r_pages r) (r_base r) Hok) as Hres.
  rewrite E in *. cbn [snd] in *. split; [apply Hok'; lia|]. split; [|split; [|split]].
  - unfold aligned in *. subst rs. rewrite !Forall_app, Forall_cons in *. tauto.
  - subst rs. rewrite !length_app in *. cbn [length] in *. lia.
  - intros r' Hr' Hro Ha. subst rs. by apply (room_replace pre q); [|intros Hi; apply Hmr].
  - intros a. by apply (alloc_success_types _ _ _ _ _ _ _ _ Hok (Hres ltac:(lia))).
Qed.

Definition holder (as_ : list (MemoryType * Range)) (a : Z) : option (MemoryType * Range) :=
  List.find (fun x => covers x.2 a) as_.

Lemma take_all_types as_ : forall rs, Map.map_ok rs -> aligned rs ->
  Forall (fun x => (Alloc.PAGE_SIZE | r_base x.2) /\ 0 < r_pages x.2 /\ room rs x.2) as_ ->
  ForallOrdPairs (fun x y => apart x.2 y.2) as_ ->
  (length rs + 2 * length as_ < Alloc.MAX_ALLOCATIONS)%nat ->
  forall a, type_at (take_all rs as_) a =
    match holder as_ a with Some (t, _) => Some (memory_type_u32 t) | None => type_at rs a end.
Proof.
  induction as_ as [|[t r] as_ IH]; intros rs Hok Hal Hf Hp Hlen a; [done|].
  apply Forall_cons in Hf as [(Hd & Hn & Hr) Hf]. inversion Hp as [|? ? Hap Hp']; subst. cbn [length snd] in *.
  destruct (allocate_address_step Alloc.MAX_ALLOCATIONS rs t r Hok Hal Hd Hn Hr) as (Hok' & Hal' & Hl' & Hroom & Hty);
    [lia|].
  unfold take_all in *. cbn [foldl]. rewrite IH; [|done|done| |done|lia].
  - rewrite Hty. unfold holder. cbn [List.find snd]. destruct (covers r a) eqn:Ea; [|done].
    destruct (List.find _ as_) as [[t' r']|] eqn:E; [|done]. exfalso.
    apply List.find_some in E as [Hin Ea']. cbn in Ea'. apply list_elem_of_In in Hin.
    rewrite Forall_forall in Hap. specialize (Hap _ Hin). cbn in Hap.
    unfold covers, apart in *. bool_to_prop. lia.
  - rewrite Forall_forall in *. intros [t' r'] Hin. destruct (Hf _ Hin) as (H1 & H2 & H3). cbn [snd] in *.
    split_and!; [done..|]. apply Hroom; [done..|]. by apply (Hap (t', r')).
Qed.

Definition region_of_range (r : Range) : Map.Region := Map.mkRegion Map.CONVENTIONAL (r_base r) (r_pages r) MEMORY_WB.

Lemma add_all_app ram : forall rs, (length rs + length ram <= Alloc.MAX_ALLOCATIONS)%nat ->
  add_all rs ram = rs ++ map region_of_range ram.
Proof.
  induction ram as [|r ram IH]; intros rs Hl; cbn [length map] in *; [by rewrite app_nil_r|].
  unfold add_all in *. cbn [foldl].
  assert (E : (Map.add Alloc.MAX_ALLOCATIONS rs ConventionalMemory (r_pages r) (r_base r) MEMORY_WB).2 =
    rs ++ [region_of_range r]).
  { unfold Map.add. destruct rs as [|q rs]; [done|]. by rewrite (proj2 (Nat.eqb_neq _ _)) by lia. }
  rewrite E, IH by (rewrite length_app; cbn; lia). by rewrite <- app_assoc.
Qed.

Lemma ram_types ram a : type_at (map region_of_range ram) a =
  if existsb (fun r => covers r a) ram then Some Map.CONVENTIONAL else None.
Proof.
  induction ram as [|r ram IH]; cbn [map type_at existsb]; [done|].
  change (contains (region_of_range r) a) with (covers r a). by destruct (covers r a).
Qed.

(** What the list says of the machine: system memory in ascending, disjoint, page
    aligned pieces; allocations of whole pages, each inside one piece, apart from
    each other; few enough for the allocator's table. *)
Record sound_list (l : list Record_) : Prop := {
  sl_ram : Forall (fun r => range_ok r /\ (Alloc.PAGE_SIZE | r_base r)) (ram_of l);
  sl_sorted : StronglySorted (fun a b => r_end a <= r_base b) (ram_of l);
  sl_allocs : Forall (fun x => (Alloc.PAGE_SIZE | r_base x.2) /\ 0 < r_pages x.2 /\
    exists q, q ∈ ram_of l /\ r_base q <= r_base x.2 /\ r_end x.2 <= r_end q) (allocs_of l);
  sl_apart : ForallOrdPairs (fun x y => apart x.2 y.2) (allocs_of l);
  sl_few : (length (ram_of l) + 2 * length (allocs_of l) < Alloc.MAX_ALLOCATIONS)%nat
}.

(** The type the list gives an address. *)
Definition listed_type (l : list Record_) (a : Z) : option Z :=
  match holder (allocs_of l) a with
  | Some (t, _) => Some (memory_type_u32 t)
  | None => if existsb (fun r => covers r a) (ram_of l) then Some Map.CONVENTIONAL else None
  end.

(** The map the allocator is left with. *)
Definition listed_map (l : list Record_) : list Map.Region :=
  take_all (map region_of_range (ram_of l)) (allocs_of l).

Lemma initialize_memory_types m hob l fuel :
  list_at m hob l -> (length l < fuel)%nat -> sound_list l ->
  exists s, initialize_memory fuel m hob Alloc.new = Done s /\ holds s (listed_map l) /\
    forall a, type_at (listed_map l) a = listed_type l a.
Proof.
  intros Hl Hf [Hram Hsort Hal Hap Hfew]. unfold initialize_memory.
  rewrite Forall_forall in Hram.
  destruct (resource_loop_spec m l fuel hob Alloc.new [] Hl Hf holds_new) as (s1 & -> & Hs1);
    [rewrite Forall_forall; intros r Hr; by apply Hram|done|apply Forall_forall; intros; constructor|].
  rstep. rewrite add_all_app in Hs1 by (cbn; lia). rewrite app_nil_l in Hs1.
  destruct (allocation_loop_spec m l fuel hob s1 _ Hl Hf Hs1) as (s2 & -> & Hs2).
  { rewrite Forall_forall in *. intros x Hx. destruct (Hal x Hx) as ([y Hy] & Hn & q & Hq & H1 & H2).
    destruct (Hram q Hq) as [(Hq1 & Hq2 & Hq3) _]. unfold range_ok. lia. }
  exists s2. split; [done|]. split; [exact Hs2|]. intros a. unfold listed_type. rewrite <- ram_types.
  pose proof Hs1 as (_ & _ & _ & _ & Hok). apply take_all_types; [done| | |done|rewrite length_map; lia].
  - unfold aligned. apply Forall_map, Forall_forall. intros r Hr. by apply Hram.
  - rewrite Forall_forall in *. intros x Hx. destruct (Hal x Hx) as (Hd & Hn & q & Hq & H1 & H2).
    split_and!; [done..|]. exists (region_of_range q). split; [|by split_and!].
    apply list_elem_of_fmap. by exists q.
Qed.

(** ** Properties *)

(** C33: [initialize_memory] on a sound HOB list returns, and the allocator then holds
    exactly the memory map the list describes: an address inside an allocation
    has that allocation's type, any other address of system memory is
    conventional, and nothing else is in the map. *)
Theorem initialize_memory_correct m hob l fuel :
  list_at m hob l -> (length l < fuel)%nat -> sound_list l ->
  exists s rs, initialize_memory fuel m hob Alloc.new = Done s /\ holds s rs /\
    forall a, type_at rs a =
      match holder (allocs_of l) a with
      | Some (t, _) => Some (memory_type_u32 t)
      | None => if existsb (fun r => covers r a) (ram_of l) then Some Map.CONVENTIONAL else None
      end.
Proof.
  intros Hl Hf Hs. destruct (initialize_memory_types m hob l fuel Hl Hf Hs) as (s & H). by exists s, (listed_map l).
Qed.

(** A list of one megabyte at 1 MiB, with its first page in use, and an end. *)
Definition demo_hobs : memory :=
  let m := store64 (store64 (store16 (store16 ∅ 0x1000 3) 0x1002 48) 0x1020 0x100000) 0x1028 0x100000 in
  let m := store32 (store64 (store64 (store16 (store16 m 0x1030 2) 0x1032 48) 0x1048 0x100000) 0x1050 0x1000)
             0x1058 4 in
  store16 m 0x1060 0xffff.
Definition demo_list : list Record_ :=
  [Resource 0 0x100000 0x100000; Allocated BootServicesData 0x100000 0x1000].

Lemma demo_list_at : list_at demo_hobs 0x1000 demo_list.
Proof. vm_compute. repeat split. Qed.

Lemma demo_list_sound : sound_list demo_list.
Proof.
  constructor.
  - repeat constructor; try (vm_compute; congruence). exists 256. reflexivity.
  - repeat constructor.
  - apply Forall_cons_2, Forall_nil_2. split; [exists 256; reflexivity|]. split; [vm_compute; reflexivity|].
    exists (mkRange 0x100000 256). split; [|vm_compute; split; congruence].
    apply list_elem_of_singleton. reflexivity.
  - repeat constructor.
  - unfold Alloc.MAX_ALLOCATIONS. cbn -[Z.to_nat]. lia.
Qed.

Lemma initialize_memory_correct_witness : exists s rs,
  initialize_memory 3 demo_hobs 0x1000 Alloc.new = Done s /\ holds s rs /\
  type_at rs 0x100fff = Some 4 /\ type_at rs 0x101000 = Some 7 /\ type_at rs 0x200000 = None.
Proof.
  destruct (initialize_memory_correct demo_hobs 0x1000 demo_list 3 demo_list_at) as (s & rs & E & Hs & Ht).
  - cbn. lia.
  - exact demo_list_sound.
  - exists s, rs. split; [exact E|]. split; [exact Hs|]. rewrite !Ht. vm_compute. repeat split.
Defined.
