(* ===== verification/FvProps.v ===== *)
(** * Firmware volumes: theorems

    The walks over files and sections end on any contents and stay inside the
    volume; on a well-formed volume they find the first application image. *)

From S2P Require Import Prelude REfi Mem Alloc MemMap MapSafety AllocRepr AllocRefine AllocSafety Hob HobProps.
Import Fv.

(** [(p + n - 1) & !(n - 1)], for addresses below 4 GiB. *)
Definition align (n p : Z) : Z := (p + (n - 1)) / n * n.

Lemma align_land k p : 0 < k <= 31 -> 0 <= p -> p + (2 ^ k - 1) < 2 ^ 32 ->
  Z.land (usize (p + (2 ^ k - 1))) (Z.ldiff (Z.ones 32) (Z.ones k)) = align (2 ^ k) p.
Proof.
  intros Hk Hp Hb. assert (Hpk : 0 < 2 ^ k) by (apply Z.pow_pos_nonneg; lia).
  rewrite wrap_small by (norm_pow; lia). unfold align. set (x := p + (2 ^ k - 1)) in *.
  rewrite <- Z.shiftl_mul_pow2, <- Z.shiftr_div_pow2 by lia.
  apply Z.bits_inj'. intros n Hn. rewrite Z.land_spec, Z.ldiff_spec, Z.shiftl_spec by lia.
  rewrite !Z.testbit_ones by lia.
  destruct (Z.ltb_spec n k).
  - rewrite (Z.testbit_neg_r _ (n - k)) by lia. rewrite (proj2 (Z.leb_le 0 n)) by lia. cbn. by rewrite !andb_false_r.
  - rewrite Z.shiftr_spec, Z.sub_add by lia. rewrite !andb_false_r. cbn [negb]. rewrite andb_true_r.
    destruct (Z.ltb_spec n 32); [rewrite (proj2 (Z.leb_le 0 n)) by lia; apply andb_true_r|].
    rewrite andb_false_r, andb_false_r.
    rewrite <- (Z.mod_small x (2 ^ 32)) by lia. by rewrite Z.mod_pow2_bits_high by lia.
Qed.

Lemma align4_land p : 0 <= p -> p + 3 < 2 ^ 32 -> Z.land (usize (p + 3)) 0xfffffffc = align 4 p.
Proof. intros. by apply (align_land 2 p). Qed.
Lemma align8_land p : 0 <= p -> p + 7 < 2 ^ 32 -> Z.land (usize (p + 7)) 0xfffffff8 = align 8 p.
Proof. intros. by apply (align_land 3 p). Qed.

Lemma align_range n p : 0 < n -> p <= align n p < p + n.
Proof. intros Hn. unfold align. pose proof (Z.div_mod (p + (n - 1)) n). pose proof (Z.mod_pos_bound (p + (n - 1)) n). lia. Qed.

Lemma size24_range m a : mem_ok m -> 0 <= size24 m a < 2 ^ 24.
Proof.
  intros Hm. unfold size24. rewrite !Z.shiftl_mul_pow2 by lia.
  pose proof (load8_ok m a Hm). pose proof (load8_ok m (a + 1) Hm). pose proof (load8_ok m (a + 2) Hm).
  unfold is_byte in *. norm_pow. lia.
Qed.

(** ** Any contents *)

(** No image, or one inside [lo, hi). *)
Definition image_in (lo hi : Z) (r : Z * Z) : Prop :=
  r = no_image \/ (lo < r.1 /\ 0 <= r.2 /\ r.1 + r.2 <= hi).

Lemma sections_loop_ends m ty end_ : mem_ok m -> end_ + 8 < 2 ^ 32 -> forall fuel p,
  0 <= p <= end_ -> end_ - p < 4 * Z.of_nat fuel ->
  exists r, sections_loop fuel m p end_ ty = Done r /\ image_in p end_ r.
Proof.
  intros Hm He. induction fuel as [|fuel IH]; intros p Hp Hf; [lia|]. cbn [sections_loop].
  rewrite align4_land by lia. pose proof (align_range 4 p ltac:(lia)) as Ha. set (c := align 4 p) in *. clearbody c.
  destruct (Z.ltb_spec end_ c); [eexists; split; [done|by left]|].
  destruct (Z.ltb_spec (section_size m c) SECTION_HEADER_SIZE) as [|Hs]; [eexists; split; [done|by left]|].
  pose proof (size24_range m c Hm) as Hz. unfold section_size, SECTION_HEADER_SIZE in *. norm_pow.
  rewrite (wrap_small 64 (c + size24 m c)) by (norm_pow; lia).
  destruct (Z.ltb_spec end_ (c + size24 m c)); [eexists; split; [done|by left]|].
  destruct (section_type m c =? ty); cbn [negb].
  - eexists. split; [done|]. right. cbn. rewrite wrap_small by (norm_pow; lia). lia.
  - destruct (IH (c + size24 m c)) as (r & E & Hr); [lia..|]. exists r. split; [done|].
    destruct Hr as [->|Hr]; [by left|right; lia].
Qed.

Lemma files_loop_ends m fty sty end_ : mem_ok m -> end_ + 8 < 2 ^ 32 -> forall fuel p,
  0 <= p <= end_ -> end_ - p < 4 * Z.of_nat fuel ->
  exists r, files_loop fuel m p end_ fty sty = Done r /\ image_in p end_ r.
Proof.
  intros Hm He. induction fuel as [|fuel IH]; intros p Hp Hf; [lia|]. cbn [files_loop].
  rewrite align8_land by lia. pose proof (align_range 8 p ltac:(lia)) as Ha. set (c := align 8 p) in *. clearbody c.
  destruct (Z.ltb_spec end_ c); [eexists; split; [done|by left]|].
  destruct (Z.ltb_spec (ffs_size m c) (FFS_HEADER_SIZE + SECTION_HEADER_SIZE)) as [|Hs]; [eexists; split; [done|by left]|].
  pose proof (size24_range m (c + 20) Hm) as Hz. unfold ffs_size, FFS_HEADER_SIZE, SECTION_HEADER_SIZE in *.
  set (sz := size24 m (c + 20)) in *. clearbody sz. norm_pow.
  rewrite (wrap_small 64 (c + sz)) by (norm_pow; lia).
  destruct (Z.ltb_spec end_ (c + sz)); [eexists; split; [done|by left]|].
  assert (Hnext : exists r, files_loop fuel m (c + sz) end_ fty sty = Done r /\ image_in p end_ r).
  { destruct (IH (c + sz)) as (r & E & Hr); [lia..|]. exists r. split; [done|].
    destruct Hr as [->|Hr]; [by left|right; lia]. }
  destruct (ffs_type m c =? fty); cbn [negb]; [|done].
  unfold get_image_from_sections. rewrite (wrap_small 64 (c + 24)) by (norm_pow; lia).
  replace (c + 24 + (sz - 24)) with (c + sz) by lia. rewrite (wrap_small 64 (c + sz)) by (norm_pow; lia).
  destruct (sections_loop_ends m sty (c + sz) Hm ltac:(norm_pow; lia) (S fuel) (c + 24)) as ([img n] & -> & Hr); [lia..|].
  rstep. destruct (Z.eqb_spec img 0) as [->|Hi]; cbn [negb]; [done|].
  exists (img, n). split; [done|]. destruct Hr as [[= -> ->]|Hr]; [done|right; cbn in *; lia].
Qed.

(** A volume below 4 GiB, with room for the alignments: the masks of the walks
    clear the high half of a pointer (fv_lib.rs:26 and fv_lib.rs:75). *)
Definition below_4gib (base len : Z) : Prop := 0 <= base /\ 0 <= len /\ base + len + 2 ^ 17 < 2 ^ 32.
(** Such a volume with its signature. *)
Definition volume_ok (m : memory) (base len : Z) : Prop :=
  0 <= base /\ 0 <= len /\ base + len + 2 ^ 17 < 2 ^ 32 /\ signature m base = FVH_SIGNATURE.

Lemma get_image_from_fv_ends m base len fty sty fuel : mem_ok m -> volume_ok m base len ->
  len < 4 * Z.of_nat fuel ->
  exists r, get_image_from_fv fuel m base len fty sty = Done r /\ image_in base (base + len) r.
Proof.
  intros Hm (Hb & Hl & He & Hs) Hf. unfold get_image_from_fv. rewrite Hs, Z.eqb_refl. cbn [assert_]. rstep.
  pose proof (load_range 2 m (base + 48) Hm) as Hh. fold (header_length m base) in Hh.
  change (2 ^ (8 * Z.of_nat 2)) with 65536 in Hh. norm_pow.
  rewrite !wrap_small by (norm_pow; lia).
  destruct (decide (header_length m base <= len)) as [Hin|Hout].
  - destruct (files_loop_ends m fty sty (base + len) Hm ltac:(norm_pow; lia) fuel (base + header_length m base))
      as (r & -> & Hr); [lia..|].
    exists r. split; [done|]. destruct Hr as [->|Hr]; [by left|right; lia].
  - destruct fuel as [|fuel]; [lia|]. cbn [files_loop]. rewrite align8_land by (norm_pow; lia).
    pose proof (align_range 8 (base + header_length m base) ltac:(lia)). rewrite (proj2 (Z.ltb_lt _ _)) by lia.
    eexists. split; [done|by left].
Qed.

(** ** Well-formed volumes *)

Record Section_ := mkSection { s_type : Z; s_size : Z }.
Record File_ := mkFile { f_type : Z; f_size : Z; f_sections : list Section_ }.

(** The sections laid out from [p], each aligned to 4, up to [end_]. *)
Fixpoint sections_at (m : memory) (p end_ : Z) (l : list Section_) : Prop :=
  match l with
  | [] => end_ <= align 4 p
  | s :: l =>
      let c := align 4 p in
      section_size m c = s_size s /\ section_type m c = s_type s /\ SECTION_HEADER_SIZE <= s_size s /\
      c + s_size s <= end_ /\ sections_at m (c + s_size s) end_ l
  end.
(** The files, each aligned to 8, with their sections. *)
Fixpoint files_at (m : memory) (p end_ : Z) (l : list File_) : Prop :=
  match l with
  | [] => end_ <= align 8 p
  | f :: l =>
      let c := align 8 p in
      ffs_size m c = f_size f /\ ffs_type m c = f_type f /\
      FFS_HEADER_SIZE + SECTION_HEADER_SIZE <= f_size f /\ c + f_size f <= end_ /\
      sections_at m (c + FFS_HEADER_SIZE) (c + f_size f) (f_sections f) /\
      files_at m (c + f_size f) end_ l
  end.

(** Address and size of the body of the first section of a type. *)
Fixpoint find_section (ty p : Z) (l : list Section_) : option (Z * Z) :=
  match l with
  | [] => None
  | s :: l =>
      let c := align 4 p in
      if s_type s =? ty then Some (c + SECTION_HEADER_SIZE, s_size s - SECTION_HEADER_SIZE)
      else find_section ty (c + s_size s) l
  end.
(** The first file of a type with such a section. *)
Fixpoint find_file (fty sty p : Z) (l : list File_) : option (Z * Z) :=
  match l with
  | [] => None
  | f :: l =>
      let c := align 8 p in
      match (if f_type f =? fty then find_section sty (c + FFS_HEADER_SIZE) (f_sections f) else None) with
      | Some r => Some r
      | None => find_file fty sty (c + f_size f) l
      end
  end.

Lemma sections_loop_finds m ty end_ : mem_ok m -> end_ + 8 < 2 ^ 32 -> forall l fuel p,
  0 <= p <= end_ -> (length l < fuel)%nat -> sections_at m p end_ l ->
  sections_loop fuel m p end_ ty = Done (default no_image (find_section ty p l)).
Proof.
  intros Hm He. induction l as [|s l IH]; intros [|fuel] p Hp Hf Hl; cbn [length] in Hf; try lia;
    cbn [sections_loop sections_at find_section] in *.
  all: rewrite align4_land by lia; pose proof (align_range 4 p ltac:(lia)) as Ha; set (c := align 4 p) in *; clearbody c.
  all: pose proof (size24_range m c Hm) as Hz; unfold section_size, SECTION_HEADER_SIZE in *; norm_pow.
  - destruct (Z.ltb_spec end_ c); [done|]. destruct (Z.ltb_spec (size24 m c) 4); [done|].
    rewrite (wrap_small 64 (c + _)) by (norm_pow; lia). by rewrite (proj2 (Z.ltb_lt _ _)) by lia.
  - destruct Hl as (-> & -> & H4 & Hend & Hl). rewrite (proj2 (Z.ltb_ge end_ c)), (proj2 (Z.ltb_ge _ 4)) by lia.
    rewrite (wrap_small 64 (c + s_size s)), (proj2 (Z.ltb_ge end_ _)) by (norm_pow; lia).
    destruct (s_type s =? ty); cbn [negb default].
    + by rewrite wrap_small by (norm_pow; lia).
    + apply IH; [lia..|done].
Qed.

Lemma find_section_pos ty l m end_ : forall p r, 0 <= p -> sections_at m p end_ l -> find_section ty p l = Some r -> 0 < r.1.
Proof.
  induction l as [|s l IH]; intros p r Hp Hl Hr; cbn [find_section sections_at] in *; [done|].
  pose proof (align_range 4 p ltac:(lia)). destruct Hl as (_ & _ & H4 & _ & Hl). unfold SECTION_HEADER_SIZE in *.
  destruct (s_type s =? ty); [injection Hr as <-; cbn; lia|]. eapply (IH _ r); [|done..]. lia.
Qed.

Lemma files_loop_finds m fty sty end_ : mem_ok m -> end_ + 8 < 2 ^ 32 -> forall l fuel p,
  0 <= p <= end_ -> Forall (fun f => length (f_sections f) + length l < fuel)%nat l -> (length l < fuel)%nat ->
  files_at m p end_ l ->
  files_loop fuel m p end_ fty sty = Done (default no_image (find_file fty sty p l)).
Proof.
  intros Hm He. induction l as [|f l IH]; intros [|fuel] p Hp Hs Hf Hl; cbn [length] in *; try lia;
    cbn [files_loop files_at find_file] in *.
  all: rewrite align8_land by lia; pose proof (align_range 8 p ltac:(lia)) as Ha; set (c := align 8 p) in *; clearbody c.
  all: pose proof (size24_range m (c + 20) Hm) as Hz; unfold ffs_size, FFS_HEADER_SIZE, SECTION_HEADER_SIZE in *; norm_pow.
  - destruct (Z.ltb_spec end_ c); [done|]. destruct (Z.ltb_spec (size24 m (c + 20)) (24 + 4)); [done|].
    rewrite (wrap_small 64 (c + _)) by (norm_pow; lia). by rewrite (proj2 (Z.ltb_lt _ _)) by lia.
  - destruct Hl as (Ez & Et & H28 & Hend & Hsec & Hl). rewrite Ez, Et in *. apply Forall_cons in Hs as [Hs1 Hs].
    rewrite (proj2 (Z.ltb_ge end_ c)), (proj2 (Z.ltb_ge _ (24 + 4))) by lia.
    rewrite (wrap_small 64 (c + f_size f)), (proj2 (Z.ltb_ge end_ _)) by (norm_pow; lia).
    assert (Hrest : files_loop fuel m (c + f_size f) end_ fty sty =
      Done (default no_image (find_file fty sty (c + f_size f) l))).
    { apply IH; [lia| |lia|done]. eapply Forall_impl; [exact Hs|]. cbn. lia. }
    destruct (f_type f =? fty); cbn [negb]; [|done].
    unfold get_image_from_sections. rewrite (wrap_small 64 (c + 24)) by (norm_pow; lia).
    replace (c + 24 + (f_size f - 24)) with (c + f_size f) by lia. rewrite (wrap_small 64 (c + f_size f)) by (norm_pow; lia).
    rewrite (sections_loop_finds m sty (c + f_size f) Hm ltac:(norm_pow; lia) (f_sections f)) by (try done; lia).
    destruct (find_section sty (c + 24) (f_sections f)) as [[img n]|] eqn:E; cbn [default from_option id no_image]; rstep;
      cbn [Z.eqb negb]; [|done].
    apply (find_section_pos _ _ m (c + f_size f)) in E as Hi; [|lia|done]. cbn in Hi.
    by rewrite (proj2 (Z.eqb_neq _ _)) by lia.
Qed.

(** ** HOB lists *)

(** A HOB list walk handles one record: a volume, the end, or something else. *)
Lemma find_image_step hobs fuel m h r l : list_at m h (r :: l) ->
  find_image_in_fv (S hobs) fuel m h =
  match r with
  | Volume base len =>
      '(image, n) ← get_image_from_fv fuel m base len FV_FILETYPE_APPLICATION SECTION_PE32;
      if negb (image =? 0) then Done (image, n) else find_image_in_fv hobs fuel m (Hob.next m h)
  | _ => find_image_in_fv hobs fuel m (Hob.next m h)
  end.
Proof.
  intros [Hr _]. cbn [find_image_in_fv]. destruct r as [ty start len|t base len|base len|]; cbn [record_at] in Hr.
  - by destruct Hr as (-> & _).
  - by destruct Hr as (-> & _).
  - by destruct Hr as (-> & -> & ->).
  - destruct Hr as (_ & _ & H1 & H2). by rewrite !(proj2 (Z.eqb_neq _ _)) by done.
Qed.

(** ** Properties *)

(** C34: On a HOB list whose firmware volumes lie below 4 GiB, [find_image_in_fv] ends
    on any contents of the volumes, within a number of steps given by their lengths.
    An image it returns lies inside a volume of the list that carries the signature;
    it returns no image only when every volume carries it; and it ends by a panic,
    the assertion on the signature, only when a volume of the list lacks it. *)
Theorem find_image_ends m hob l fuel : mem_ok m -> list_at m hob l ->
  (forall base len, Volume base len ∈ l -> below_4gib base len /\ len < 4 * Z.of_nat fuel) ->
  match find_image_in_fv (S (length l)) fuel m hob with
  | Done r =>
      (r = no_image /\ forall base len, Volume base len ∈ l -> signature m base = FVH_SIGNATURE) \/
      exists base len, Volume base len ∈ l /\ signature m base = FVH_SIGNATURE /\
        base < r.1 /\ 0 <= r.2 /\ r.1 + r.2 <= base + len
  | Panic => exists base len, Volume base len ∈ l /\ signature m base <> FVH_SIGNATURE
  | OutOfFuel => False
  end.
Proof.
  intros Hm. revert hob. induction l as [|r l IH]; intros hob Hl Hv.
  { cbn [find_image_in_fv length list_at] in *. rewrite Hl. left. split; [done|]. by intros ? ? ?%elem_of_nil. }
  specialize (IH (Hob.next m hob) (proj2 Hl) (fun base len Hin => Hv base len (list_elem_of_further _ _ _ Hin))).
  cbn [length]. rewrite (find_image_step _ _ _ _ _ _ Hl).
  assert (Hrest : (forall base len, r = Volume base len -> signature m base = FVH_SIGNATURE) ->
    match find_image_in_fv (S (length l)) fuel m (Hob.next m hob) with
    | Done x =>
        (x = no_image /\ forall base len, Volume base len ∈ r :: l -> signature m base = FVH_SIGNATURE) \/
        exists base len, Volume base len ∈ r :: l /\ signature m base = FVH_SIGNATURE /\
          base < x.1 /\ 0 <= x.2 /\ x.1 + x.2 <= base + len
    | Panic => exists base len, Volume base len ∈ r :: l /\ signature m base <> FVH_SIGNATURE
    | OutOfFuel => False
    end).
  { intros Hr. destruct (find_image_in_fv _ _ _ _) as [x| |]; [|destruct IH as (b & n & Hin & Hs)|done].
    - destruct IH as [[-> Hall]|(b & n & Hin & Hs)]; [left|right].
      + split; [done|]. intros b n [E|Hin]%elem_of_cons; [by eapply Hr|by eapply Hall].
      + exists b, n. split; [by right|done].
    - exists b, n. split; [by right|done]. }
  destruct r as [| |base len|]; try by apply Hrest.
  destruct (Hv base len) as [Hb Hf]; [by left|].
  destruct (decide (signature m base = FVH_SIGNATURE)) as [Hs|Hs].
  - destruct (get_image_from_fv_ends m base len FV_FILETYPE_APPLICATION SECTION_PE32 fuel Hm) as ([img n] & -> & Hi);
      [by destruct Hb as (? & ? & ?)|done|].
    rstep. destruct (Z.eqb_spec img 0) as [->|Hne]; cbn [negb]; [apply Hrest; by intros ? ? [= <- <-]|].
    right. exists base, len. split; [by left|]. split; [done|]. destruct Hi as [[= -> ->]|Hi]; done.
  - unfold get_image_from_fv. rewrite (proj2 (Z.eqb_neq _ _)) by done. cbn [assert_]. rstep.
    exists base, len. split; [by left|done].
Qed.

(** A list with one volume of 256 bytes: a header, then a file with a raw
    section and a PE32 section. *)
Definition demo_volume : memory :=
  let m := store64 (store64 (store16 (store16 ∅ 0x1000 5) 0x1002 24) 0x1008 0x10000) 0x1010 0x100 in
  let m := store16 m 0x1018 0xffff in
  let m := store16 (store32 m 0x10028 FVH_SIGNATURE) 0x10030 0x48 in
  let m := store32 (store16 m 0x1005a FV_FILETYPE_APPLICATION) 0x1005c 0xb8 in
  store32 (store32 m 0x10060 0x19000006) 0x10068 0x10000098.
Definition demo_files : list File_ := [mkFile 9 0xb8 [mkSection 0x19 6; mkSection 0x10 0x98]].

Lemma demo_volume_list : list_at demo_volume 0x1000 [Volume 0x10000 0x100].
Proof. vm_compute. repeat split. Qed.

Lemma demo_volume_mem_ok : mem_ok demo_volume.
Proof. repeat apply mem_ok_store_bytes. apply map_Forall_empty. Qed.

Lemma demo_volume_ok base len : Volume base len ∈ [Volume 0x10000 0x100] ->
  below_4gib base len /\ len < 4 * Z.of_nat 65.
Proof. intros Hin. apply list_elem_of_singleton in Hin as [= -> ->]. unfold below_4gib. lia. Qed.

(** The same list, with the volume's signature erased. *)
Definition unsigned_volume : memory := store32 demo_volume 0x10028 0.
Lemma unsigned_volume_mem_ok : mem_ok unsigned_volume.
Proof. apply mem_ok_store_bytes, demo_volume_mem_ok. Qed.
Lemma unsigned_volume_list : list_at unsigned_volume 0x1000 [Volume 0x10000 0x100].
Proof. vm_compute. repeat split. Qed.

Lemma find_image_ends_witness :
  (find_image_in_fv 2 65 demo_volume 0x1000 = Done (0x1006c, 0x94) /\
   0x10000 < 0x1006c /\ 0x1006c + 0x94 <= 0x10100) /\
  (find_image_in_fv 2 65 unsigned_volume 0x1000 = Panic /\
   exists base len, Volume base len ∈ [Volume 0x10000 0x100] /\ signature unsigned_volume base <> FVH_SIGNATURE).
Proof.
  pose proof (find_image_ends _ _ _ 65 demo_volume_mem_ok demo_volume_list demo_volume_ok) as H1.
  pose proof (find_image_ends _ _ _ 65 unsigned_volume_mem_ok unsigned_volume_list demo_volume_ok) as H2.
  cbn [length] in H1, H2.
  assert (E1 : find_image_in_fv 2 65 demo_volume 0x1000 = Done (0x1006c, 0x94)) by (vm_compute; reflexivity).
  assert (E2 : find_image_in_fv 2 65 unsigned_volume 0x1000 = Panic) by (vm_compute; reflexivity).
  rewrite E1 in H1. rewrite E2 in H2. clear - E1 E2 H1 H2. split; split.
  - exact E1.
  - destruct H1 as [[H1 _]|(base & len & Hin & _ & H1 & _ & H3)].
    + unfold no_image in H1. injection H1 as H1 _. lia.
    + apply list_elem_of_singleton in Hin as [= -> ->]. split; [exact H1|exact H3].
  - exact E2.
  - exact H2.
Defined.

(** The first image of the volumes of a list, [files] being their files. *)
Fixpoint first_image (m : memory) (files : Z -> list File_) (l : list Record_) : option (Z * Z) :=
  match l with
  | [] => None
  | Volume base _ :: l =>
      match find_file FV_FILETYPE_APPLICATION SECTION_PE32 (base + header_length m base) (files base) with
      | Some r => Some r
      | None => first_image m files l
      end
  | _ :: l => first_image m files l
  end.

Lemma find_file_pos fty sty l m end_ : forall p r, 0 <= p -> files_at m p end_ l -> find_file fty sty p l = Some r -> 0 < r.1.
Proof.
  induction l as [|f l IH]; intros p r Hp Hl Hr; cbn [find_file files_at] in *; [done|].
  pose proof (align_range 8 p ltac:(lia)). destruct Hl as (_ & _ & H28 & _ & Hs & Hl).
  unfold FFS_HEADER_SIZE, SECTION_HEADER_SIZE in *.
  destruct (f_type f =? fty).
  - destruct (find_section sty _ (f_sections f)) eqn:E; [injection Hr as <-; eapply find_section_pos; [|exact Hs|exact E]; lia|].
    eapply (IH _ r); [|done..]. lia.
  - eapply (IH _ r); [|done..]. lia.
Qed.

(** A volume with its files, for walks of [fuel] steps. *)
Definition well_formed (m : memory) (fuel : nat) (fs : list File_) (base len : Z) : Prop :=
  volume_ok m base len /\ header_length m base <= len /\
  files_at m (base + header_length m base) (base + len) fs /\ (length fs < fuel)%nat /\
  Forall (fun f => length (f_sections f) + length fs < fuel)%nat fs.

Lemma find_image_finds m hob l hobs fuel files : mem_ok m -> (length l < hobs)%nat -> list_at m hob l ->
  (forall base len, Volume base len ∈ l -> well_formed m fuel (files base) base len) ->
  find_image_in_fv hobs fuel m hob = Done (default no_image (first_image m files l)).
Proof.
  intros Hm. revert hob hobs. induction l as [|r l IH]; intros hob [|hobs] Hf Hl Hv; cbn [length] in Hf; try lia.
  { cbn [find_image_in_fv length list_at first_image] in *. by rewrite Hl. }
  assert (Hrest : find_image_in_fv hobs fuel m (Hob.next m hob) = Done (default no_image (first_image m files l))).
  { apply IH; [lia|apply Hl|]. intros base len Hin. apply Hv. by right. }
  rewrite (find_image_step _ _ _ _ _ _ Hl). destruct r as [| |base len|]; try exact Hrest.
  destruct (Hv base len) as ((Hb & Hlen & He & Hs) & Hhl & Hfiles & Hf1 & Hf2); [by left|].
  pose proof (load_range 2 m (base + 48) Hm) as Hh. fold (header_length m base) in Hh. cbn [first_image].
  unfold get_image_from_fv. rewrite Hs, Z.eqb_refl. cbn [assert_]. rstep. norm_pow.
  rewrite !wrap_small by (norm_pow; lia).
  rewrite (files_loop_finds m _ _ (base + len) Hm ltac:(norm_pow; lia) (files base)) by (try done; lia).
  destruct (find_file _ _ _ (files base)) as [[img n]|] eqn:E; cbn [default from_option id no_image]; rstep;
    cbn [Z.eqb negb]; [|exact Hrest].
  apply (find_file_pos _ _ _ m (base + len)) in E as Hi; [|lia|done]. cbn in Hi.
  by rewrite (proj2 (Z.eqb_neq _ _)) by lia.
Qed.

(** The image lies in its volume. *)
Lemma find_section_in ty l m end_ : forall p r, sections_at m p end_ l -> find_section ty p l = Some r ->
  p < r.1 /\ 0 <= r.2 /\ r.1 + r.2 <= end_.
Proof.
  induction l as [|s l IH]; intros p r Hl Hr; cbn [find_section sections_at] in *; [done|].
  pose proof (align_range 4 p ltac:(lia)). destruct Hl as (_ & _ & H4 & Hend & Hl). unfold SECTION_HEADER_SIZE in *.
  destruct (s_type s =? ty); [injection Hr as <-; cbn; lia|]. destruct (IH _ r Hl Hr). lia.
Qed.

Lemma find_file_in fty sty l m end_ : forall p r, files_at m p end_ l -> find_file fty sty p l = Some r ->
  p < r.1 /\ 0 <= r.2 /\ r.1 + r.2 <= end_.
Proof.
  induction l as [|f l IH]; intros p r Hl Hr; cbn [find_file files_at] in *; [done|].
  pose proof (align_range 8 p ltac:(lia)). destruct Hl as (_ & _ & H28 & Hend & Hs & Hl).
  unfold FFS_HEADER_SIZE, SECTION_HEADER_SIZE in *.
  assert (Hrest : find_file fty sty (align 8 p + f_size f) l = Some r -> p < r.1 /\ 0 <= r.2 /\ r.1 + r.2 <= end_).
  { intros E. destruct (IH _ r Hl E). lia. }
  destruct (f_type f =? fty); [|by apply Hrest]. destruct (find_section sty _ (f_sections f)) eqn:E; [|by apply Hrest].
  injection Hr as <-. destruct (find_section_in _ _ _ _ _ _ Hs E). lia.
Qed.

Lemma first_image_in m fuel files l r : mem_ok m ->
  (forall base len, Volume base len ∈ l -> well_formed m fuel (files base) base len) -> first_image m files l = Some r ->
  exists base len, Volume base len ∈ l /\ base < r.1 /\ 0 <= r.2 /\ r.1 + r.2 <= base + len.
Proof.
  intros Hm. induction l as [|h l IH]; intros Hv E; [done|].
  assert (Hrest : first_image m files l = Some r -> exists base len, Volume base len ∈ h :: l /\ base < r.1 /\ 0 <= r.2 /\
    r.1 + r.2 <= base + len).
  { intros Er. destruct IH as (b & n & Hin & Hr); [intros; apply Hv; by right|done|]. exists b, n. split; [by right|exact Hr]. }
  destruct h as [| |base len|]; cbn [first_image] in E; try exact (Hrest E).
  destruct (find_file _ _ _ _) eqn:Ef; [|exact (Hrest E)]. injection E as ->.
  destruct (Hv base len ltac:(left)) as (_ & _ & Hfiles & _). pose proof (load_range 2 m (base + 48) Hm) as Hh.
  fold (header_length m base) in Hh. destruct (find_file_in _ _ _ _ _ _ _ Hfiles Ef).
  exists base, len. split; [left|lia].
Qed.

(** Equal bytes, equal volume. *)
Lemma sections_at_ext m m' end_ l : forall p, (forall x, p <= x < end_ -> load8 m' x = load8 m x) ->
  sections_at m p end_ l -> sections_at m' p end_ l.
Proof.
  induction l as [|s l IH]; intros p H Hl; cbn [sections_at] in *; [done|].
  pose proof (align_range 4 p ltac:(lia)). destruct Hl as (Hz & Ht & H4 & Hend & Hl). unfold SECTION_HEADER_SIZE in *.
  unfold section_size, section_type, size24 in *. split_and!; [|rewrite H by lia; done|done|done|].
  - rewrite !H by lia. done.
  - apply IH; [|done]. intros x Hx. apply H. lia.
Qed.

Lemma files_at_ext m m' end_ l : forall p, (forall x, p <= x < end_ -> load8 m' x = load8 m x) ->
  files_at m p end_ l -> files_at m' p end_ l.
Proof.
  induction l as [|f l IH]; intros p H Hl; cbn [files_at] in *; [done|].
  pose proof (align_range 8 p ltac:(lia)). destruct Hl as (Hz & Ht & H4 & Hend & Hs & Hl).
  unfold FFS_HEADER_SIZE, SECTION_HEADER_SIZE in *. split_and!; [| |done|done| |].
  - unfold ffs_size, size24 in *. rewrite !H by lia. done.
  - rewrite <- Ht. unfold ffs_type. apply H. lia.
  - eapply sections_at_ext; [|exact Hs]. intros x Hx. apply H. lia.
  - apply IH; [|done]. intros x Hx. apply H. lia.
Qed.

Lemma well_formed_ext m m' fuel fs base len : 50 <= len -> (forall x, base <= x < base + len -> load8 m' x = load8 m x) ->
  mem_ok m -> well_formed m fuel fs base len -> well_formed m' fuel fs base len /\ header_length m' base = header_length m base.
Proof.
  intros H50 H Hm ((Hb & Hlen & He & Hs) & Hh & Hf & Hl). pose proof (load_range 2 m (base + 48) Hm) as Hr.
  fold (header_length m base) in Hr. assert (E : header_length m' base = header_length m base).
  { unfold header_length. apply load_ext. intros x Hx. apply H. lia. }
  split; [|done]. unfold well_formed, volume_ok. rewrite E. split_and!; try done.
  - rewrite <- Hs. unfold signature. apply load_ext. intros x Hx. apply H. lia.
  - eapply files_at_ext; [|exact Hf]. intros x Hx. apply H. lia.
  - apply Hl.
  - apply Hl.
Qed.

Lemma first_image_ext m m' files l : (forall base len, Volume base len ∈ l -> header_length m' base = header_length m base) ->
  first_image m' files l = first_image m files l.
Proof.
  induction l as [|[| |base len|] l IH]; cbn [first_image]; intros H; [done|..]; try (apply IH; intros; eapply H; by right).
  rewrite (H base len ltac:(left)). destruct (find_file _ _ _ _); [done|]. apply IH. intros b n Hin. eapply H. by right.
Qed.

(** C35: On well-formed firmware volumes [find_image_in_fv] finds the payload: the body
    of the first PE32 section of the first application file that has one, in the
    order of the HOB list. *)
Theorem find_image_correct m hob l fuel files : mem_ok m -> list_at m hob l ->
  (forall base len, Volume base len ∈ l -> volume_ok m base len /\ header_length m base <= len /\
     files_at m (base + header_length m base) (base + len) (files base) /\
     (length (files base) < fuel)%nat /\
     Forall (fun f => length (f_sections f) + length (files base) < fuel)%nat (files base)) ->
  find_image_in_fv (S (length l)) fuel m hob = Done (default no_image (first_image m files l)).
Proof. intros Hm Hl Hv. by apply find_image_finds; [|lia|..]. Qed.

Lemma find_image_correct_witness : find_image_in_fv 2 65 demo_volume 0x1000 = Done (0x1006c, 0x94).
Proof.
  refine (find_image_correct demo_volume 0x1000 [Volume 0x10000 0x100] 65 (fun _ => demo_files)
            demo_volume_mem_ok demo_volume_list _).
  intros base len Hin. apply list_elem_of_singleton in Hin as [= -> ->].
  split; [unfold volume_ok; split_and!; [lia..|vm_compute; reflexivity]|]. split_and!; [vm_compute; discriminate|vm_compute; repeat split; discriminate|
    cbn; lia|]. repeat constructor; cbn; lia.
Defined.
