(* ===== verification/Services.v ===== *)
(** * Boot and runtime services (src/efi/mod.rs)

    The services an EFI application calls.  They take pointers, so they work on
    the firmware state: physical memory, the allocator, the handle database,
    the variables and the events (the statics of mod.rs, each behind a mutex
    that is taken and released inside one call).  A handle is the address of
    its entry in the handle table. *)

From S2P Require Import Prelude REfi Mem Variables HandleDb Events Alloc DevicePath.

Module Services.

Record Firmware := mkFw {
  mem : memory;
  allocator : Alloc.Allocator;
  handles : HandleDatabase.t;
  variables : VariableStore.t;
  events : EventInfo.t
}.

Definition set_memory (fw : Firmware) (m : memory) : Firmware :=
  mkFw m (allocator fw) (handles fw) (variables fw) (events fw).
Definition set_allocator (fw : Firmware) (a : Alloc.Allocator) : Firmware :=
  mkFw (mem fw) a (handles fw) (variables fw) (events fw).
Definition set_handles (fw : Firmware) (h : HandleDatabase.t) : Firmware :=
  mkFw (mem fw) (allocator fw) h (variables fw) (events fw).
Definition set_variables (fw : Firmware) (v : VariableStore.t) : Firmware :=
  mkFw (mem fw) (allocator fw) (handles fw) v (events fw).
Definition set_events (fw : Firmware) (e : EventInfo.t) : Firmware :=
  mkFw (mem fw) (allocator fw) (handles fw) (variables fw) e.

(** ** Strings *)

(** Low byte of the [i]-th code unit at [message]. *)
Definition char8_at (m : memory) (message : Z) (i : nat) : Z :=
  Z.land (load16 m (message + 2 * Z.of_nat i)) 0xff.

Fixpoint char16_size_loop (fuel : nat) (m : memory) (message : Z) (max_size : Z) (i : nat) : res nat :=
  match fuel with
  | O => OutOfFuel
  | S fuel =>
      if max_size <=? Z.of_nat i then Done i
      else
        let output := char8_at m message i in
        let i := S i in
        if output =? 0 then Done i else char16_size_loop fuel m message max_size i
  end.
Definition get_char16_size (fuel : nat) (m : memory) (message max_size : Z) : res nat :=
  char16_size_loop fuel m message max_size 0.

(** [char16_to_char8]: the bytes written to the output buffer, [n] being the
    smaller of the two sizes less [i]. *)
Fixpoint char8_bytes (m : memory) (in_message : Z) (i n : nat) : list Z :=
  match n with
  | O => []
  | S n =>
      let output := char8_at m in_message i in
      if output =? 0 then [output] else output :: char8_bytes m in_message (S i) n
  end.
Definition char16_to_char8 (m : memory) (in_message : Z) (in_size out_size : nat) : list Z :=
  char8_bytes m in_message 0 (Nat.min in_size out_size).

(** ** Variables *)

(** Overwriting the front of a local buffer. *)
Definition fill_buffer (n : nat) (bs : list Z) : list Z := bs ++ replicate (n - length bs) 0.

(** The name buffer both variable services build; [None] when the name is too
    long. *)
Definition name_buffer (fuel : nat) (m : memory) (var_name : Z) : res (option (list Z)) :=
  var_name_size ← get_char16_size fuel m var_name (2 ^ 64 - 1);
  if (VariableStore.MAX_VARIABLE_NAME <? var_name_size)%nat then Done None
  else Done (Some (fill_buffer VariableStore.MAX_VARIABLE_NAME
    (char16_to_char8 m var_name var_name_size VariableStore.MAX_VARIABLE_NAME))).

Definition get_variable (fuel : nat) (fw : Firmware) (var_name var_guid attributes size data : Z)
    : res (Status.t * Firmware) :=
  name ← name_buffer fuel (mem fw) var_name;
  match name with
  | None => Done (Status.UNSUPPORTED, fw)
  | Some name =>
      let guid := load_bytes (mem fw) var_guid 16 in
      '(status, var_attributes, var_size, var_data) ←
        VariableStore.get_variable (variables fw) name guid;
      if Status.eqb status Status.NOT_FOUND then Done (status, fw)
      else if load64 (mem fw) size <? var_size then
        Done (Status.BUFFER_TOO_SMALL, set_memory fw (store64 (mem fw) size var_size))
      else
        let m := store64 (mem fw) size var_size in
        bytes ← unwrap var_data;
        let m := store_bytes m data (take (Z.to_nat var_size) bytes) in
        let m := if negb (attributes =? 0) then store32 m attributes var_attributes else m in
        Done (Status.SUCCESS, set_memory fw m)
  end.

Definition get_next_variable_name : Status.t := Status.UNSUPPORTED.

Definition set_variable (fuel : nat) (fw : Firmware) (var_name var_guid attributes size data : Z)
    : res (Status.t * Firmware) :=
  name ← name_buffer fuel (mem fw) var_name;
  match name with
  | None => Done (Status.UNSUPPORTED, fw)
  | Some name =>
      let guid := load_bytes (mem fw) var_guid 16 in
      if VariableStore.MAX_VARIABLE_DATA <? size then Done (Status.UNSUPPORTED, fw)
      else
        let data_buffer :=
          if data =? 0 then None
          else Some (load_bytes (mem fw) data (Z.to_nat VariableStore.MAX_VARIABLE_DATA)) in
        '(status, vs) ← VariableStore.set_variable (variables fw) name guid attributes size data_buffer;
        Done (status, set_variables fw vs)
  end.

(** ** Memory services *)

(** [repr(C)] layout of [MemoryDescriptor]: 40 bytes, four of padding. *)
Definition DESCRIPTOR_SIZE : Z := 40.
Definition store_descriptor (m : memory) (a : Z) (d : Alloc.MemoryDescriptor) : memory :=
  let m := store32 m a (Alloc.type_ d) in
  let m := store64 m (a + 8) (Alloc.physical_start d) in
  let m := store64 m (a + 16) (Alloc.virtual_start d) in
  let m := store64 m (a + 24) (Alloc.number_of_pages d) in
  store64 m (a + 32) (Alloc.attribute d).
Definition load_descriptor (m : memory) (a : Z) : Alloc.MemoryDescriptor :=
  Alloc.mkMD (load32 m a) (load64 m (a + 8)) (load64 m (a + 16)) (load64 m (a + 24))
    (load64 m (a + 32)).
Fixpoint store_descriptors (m : memory) (a : Z) (ds : list Alloc.MemoryDescriptor) : memory :=
  match ds with
  | [] => m
  | d :: ds => store_descriptors (store_descriptor m a d) (a + DESCRIPTOR_SIZE) ds
  end.
Fixpoint load_descriptors (m : memory) (a : Z) (n : nat) : list Alloc.MemoryDescriptor :=
  match n with
  | O => []
  | S n => load_descriptor m a :: load_descriptors m (a + DESCRIPTOR_SIZE) n
  end.

Definition set_virtual_address_map (fw : Firmware) (map_size descriptor_size version descriptors : Z)
    : res (Status.t * Firmware) :=
  if descriptor_size =? 0 then Panic
  else
    let count := map_size / descriptor_size in
    if negb (version =? MEMORY_DESCRIPTOR_VERSION) then Done (Status.INVALID_PARAMETER, fw)
    else
      '(status, a) ← Alloc.update_virtual_addresses (allocator fw)
        (load_descriptors (mem fw) descriptors (Z.to_nat count));
      Done (status, set_allocator fw a).

Definition allocate_pages (fw : Firmware) (allocate_type : AllocateType) (memory_type : MemoryType)
    (pages address : Z) : res (Status.t * Firmware) :=
  '((status, new_address), a) ←
    Alloc.allocate_pages (allocator fw) allocate_type memory_type pages (load64 (mem fw) address);
  let fw := set_allocator fw a in
  if Status.eqb status Status.SUCCESS
  then Done (status, set_memory fw (store64 (mem fw) address new_address))
  else Done (status, fw).

Definition free_pages (fw : Firmware) (address : Z) : res (Status.t * Firmware) :=
  '(status, a) ← Alloc.free_pages (allocator fw) address;
  Done (status, set_allocator fw a).

Definition get_memory_map (fw : Firmware) (memory_map_size out key descriptor_size
    descriptor_version : Z) : res (Status.t * Firmware) :=
  count ← Alloc.get_descriptor_count (allocator fw);
  let map_size := usize (DESCRIPTOR_SIZE * Z.of_nat count) in
  if load64 (mem fw) memory_map_size <? map_size then
    Done (Status.BUFFER_TOO_SMALL, set_memory fw (store64 (mem fw) memory_map_size map_size))
  else
    '(count, ds) ← Alloc.get_descriptors (allocator fw) (load_descriptors (mem fw) out count);
    let m := store_descriptors (mem fw) out ds in
    let map_size := usize (DESCRIPTOR_SIZE * Z.of_nat count) in
    let m := store64 m memory_map_size map_size in
    let m := store32 m descriptor_version MEMORY_DESCRIPTOR_VERSION in
    let m := store64 m descriptor_size DESCRIPTOR_SIZE in
    let m := store64 m key (Alloc.get_map_key (allocator fw)) in
    Done (Status.SUCCESS, set_memory fw m).

(** The pages [allocate_pool] asks for, and the allocation itself. *)
Definition pool_pages (size : Z) : Z :=
  usize (usize (size + Alloc.PAGE_SIZE) - 1) / Alloc.PAGE_SIZE.
Definition pool_allocate (memory_type : MemoryType) (address : Z) (a : Alloc.Allocator) (size : Z)
    : res ((Status.t * Z) * Alloc.Allocator) :=
  Alloc.allocate_pages a AllocateAnyPages memory_type (pool_pages size) address.

Definition allocate_pool (fw : Firmware) (memory_type : MemoryType) (size address : Z)
    : res (Status.t * Firmware) :=
  '((status, new_address), a) ← pool_allocate memory_type address (allocator fw) size;
  let fw := set_allocator fw a in
  if Status.eqb status Status.SUCCESS
  then Done (status, set_memory fw (store64 (mem fw) address new_address))
  else Done (status, fw).

Definition free_pool (fw : Firmware) (ptr : Z) : res (Status.t * Firmware) := free_pages fw ptr.

Definition copy_mem (fw : Firmware) (dest source size : Z) : Firmware :=
  set_memory fw (copy_bytes (mem fw) source dest (Z.to_nat size)).
Definition set_mem (fw : Firmware) (buffer size val : Z) : Firmware :=
  set_memory fw (fill_bytes (mem fw) buffer (Z.to_nat size) val).

(** ** Services that are not provided *)

Definition get_time : Status.t := Status.UNSUPPORTED.
Definition set_time : Status.t := Status.UNSUPPORTED.
Definition get_wakeup_time : Status.t := Status.UNSUPPORTED.
Definition set_wakeup_time : Status.t := Status.UNSUPPORTED.
Definition convert_pointer : Status.t := Status.UNSUPPORTED.
Definition get_next_high_mono_count : Status.t := Status.UNSUPPORTED.
Definition update_capsule : Status.t := Status.UNSUPPORTED.
Definition query_capsule_capabilities : Status.t := Status.UNSUPPORTED.
Definition query_variable_info : Status.t := Status.UNSUPPORTED.
Definition raise_tpl (tpl : Z) : Z := 0.
Definition set_timer : Status.t := Status.UNSUPPORTED.
Definition wait_for_event : Status.t := Status.UNSUPPORTED.
Definition signal_event : Status.t := Status.UNSUPPORTED.
Definition close_event : Status.t := Status.UNSUPPORTED.
Definition check_event : Status.t := Status.UNSUPPORTED.
Definition reinstall_protocol_interface : Status.t := Status.UNSUPPORTED.
Definition uninstall_protocol_interface : Status.t := Status.SUCCESS.
Definition register_protocol_notify : Status.t := Status.UNSUPPORTED.
Definition install_configuration_table : Status.t := Status.UNSUPPORTED.
Definition exit : Status.t := Status.UNSUPPORTED.
Definition unload_image : Status.t := Status.UNSUPPORTED.
Definition exit_boot_services (fw : Firmware) (map_key : Z) : Status.t * Firmware :=
  (Status.SUCCESS, fw).
Definition get_next_monotonic_count : Status.t := Status.UNSUPPORTED.
Definition stall : Status.t := Status.UNSUPPORTED.
Definition set_watchdog_timer : Status.t := Status.SUCCESS.
Definition connect_controller : Status.t := Status.UNSUPPORTED.
Definition disconnect_controller : Status.t := Status.UNSUPPORTED.
Definition close_protocol : Status.t := Status.SUCCESS.
Definition open_protocol_information : Status.t := Status.UNSUPPORTED.
Definition protocols_per_handle : Status.t := Status.UNSUPPORTED.
Definition uninstall_multiple_protocol_interfaces_real : Status.t := Status.UNSUPPORTED.
Definition install_multiple_protocol_interfaces : Status.t := Status.UNSUPPORTED.
Definition uninstall_multiple_protocol_interfaces : Status.t := Status.UNSUPPORTED.
Definition calculate_crc32 : Status.t := Status.SUCCESS.
Definition image_unload : Status.t := Status.UNSUPPORTED.

(** ** Events and protocols *)

Section Protocols.
(** Addresses of the handle and event tables, and the size of an event slot. *)
Context (handle_table : Z) (event_address : nat -> Z).

(** [size_of::<ProtocolHandle>()]: 16 bytes and 32 protocols of 24. *)
Definition HANDLE_SIZE : Z := 784.

Definition handle_ptr (h : HandleDatabase.Handle) : Z :=
  match h with
  | HandleDatabase.Entry i => handle_table + HANDLE_SIZE * Z.of_nat i
  | _ => 0
  end.
(** What a pointer value denotes as a handle. *)
Definition handle_at (m : memory) (a : Z) : HandleDatabase.Handle :=
  if a =? 0 then HandleDatabase.Null
  else if (handle_table <=? a) && (a <? handle_table + HANDLE_SIZE * 32)
          && ((a - handle_table) mod HANDLE_SIZE =? 0)
  then HandleDatabase.Entry (Z.to_nat ((a - handle_table) / HANDLE_SIZE))
  else HandleDatabase.Foreign (load32 m a).

Definition guid_at (m : memory) (a : Z) : Guid.t :=
  Guid.mk (load_bytes m a 4) (load_bytes m (a + 4) 2) (load_bytes m (a + 6) 2)
    (load8 m (a + 8)) (load8 m (a + 9)) (load_bytes m (a + 10) 6).

Definition create_event (fw : Firmware) (ty tpl func ctx event : Z) : res (Status.t * Firmware) :=
  '((status, new_event), es) ← EventInfo.create_event (events fw) ty tpl func ctx;
  let fw := set_events fw es in
  if Status.eqb status Status.SUCCESS then
    i ← unwrap new_event;
    Done (status, set_memory fw (store64 (mem fw) event (event_address i)))
  else Done (status, fw).

Definition create_event_ex (fw : Firmware) (event : Z) : Status.t * Firmware :=
  if event =? 0 then (Status.INVALID_PARAMETER, fw)
  else (Status.SUCCESS, set_memory fw (store64 (mem fw) event 0)).

(** [install_protocol_interface] on the handle in the cell [handle]. *)
Definition install_cell (fw : Firmware) (handle : Z) (guid : Guid.t) (interface : Z)
    : res (Status.t * Firmware) :=
  '((status, new_handle), db) ←
    HandleDatabase.install_protocol (handles fw) (handle_at (mem fw) (load64 (mem fw) handle)) guid interface;
  let fw := set_handles fw db in
  if Status.eqb status Status.SUCCESS
  then Done (status, set_memory fw (store64 (mem fw) handle (handle_ptr new_handle)))
  else Done (status, fw).
Definition install_protocol_interface (fw : Firmware) (handle guid interface : Z)
    : res (Status.t * Firmware) :=
  install_cell fw handle (guid_at (mem fw) guid) interface.

Definition handle_protocol (fw : Firmware) (handle guid out : Z) : res (Status.t * Firmware) :=
  if guid =? 0 then Done (Status.INVALID_PARAMETER, fw)
  else
    '(status, interface) ←
      HandleDatabase.handle_protocol (load32 (mem fw) 0) (handles fw)
        (handle_at (mem fw) handle) (guid_at (mem fw) guid);
    if Status.eqb status Status.SUCCESS
    then Done (status, set_memory fw (store64 (mem fw) out interface))
    else Done (status, fw).

Inductive LocateSearchType := AllHandles | ByRegisterNotify | ByProtocol.

Definition by_protocol (t : LocateSearchType) : bool :=
  match t with ByProtocol => true | _ => false end.

(** The handles written to a buffer. *)
Fixpoint store_handles (m : memory) (a : Z) (hs : list HandleDatabase.Handle) : memory :=
  match hs with
  | [] => m
  | h :: hs => store_handles (store64 m a (handle_ptr h)) (a + 8) hs
  end.

Definition locate_handle (fw : Firmware) (search : LocateSearchType)
    (guid search_key buffer_size buffer : Z) : res (Status.t * Firmware) :=
  if guid =? 0 then Done (Status.INVALID_PARAMETER, fw)
  else if negb (by_protocol search) then Done (Status.UNSUPPORTED, fw)
  else if negb (search_key =? 0) then Done (Status.UNSUPPORTED, fw)
  else
    '(status, final_size, hs) ←
      HandleDatabase.locate_handle (handles fw) (guid_at (mem fw) guid) (load64 (mem fw) buffer_size);
    let m := store_handles (mem fw) buffer hs in
    if Status.eqb status Status.SUCCESS || Status.eqb status Status.BUFFER_TOO_SMALL
       || Status.eqb status Status.NOT_FOUND
    then Done (status, set_memory fw (store64 m buffer_size final_size))
    else Done (status, set_memory fw m).

(** [HandleDatabase::locate_handle_buffer] with the pool it takes its buffer
    from; [slot] is the address of its local variable. *)
Definition handle_buffer (slot : Z) (fw : Firmware) (g : Guid.t)
    : res ((Status.t * nat * Z * list HandleDatabase.Handle) * Firmware) :=
  '((status, count, address, hs), a) ←
    HandleDatabase.locate_handle_buffer (pool_allocate BootServicesData slot) (allocator fw)
      (handles fw) g;
  let fw := set_allocator fw a in
  Done ((status, count, address, hs), set_memory fw (store_handles (mem fw) address hs)).

Definition locate_handle_buffer (slot : Z) (fw : Firmware) (search : LocateSearchType)
    (guid search_key no_handles buffer : Z) : res (Status.t * Firmware) :=
  if guid =? 0 then Done (Status.INVALID_PARAMETER, fw)
  else if negb (by_protocol search) then Done (Status.UNSUPPORTED, fw)
  else if negb (search_key =? 0) then Done (Status.UNSUPPORTED, fw)
  else
    '((status, count, address, _), fw) ← handle_buffer slot fw (guid_at (mem fw) guid);
    if Status.eqb status Status.SUCCESS
    then Done (status, set_memory fw (store64 (store64 (mem fw) no_handles (Z.of_nat count)) buffer address))
    else Done (status, fw).

Definition locate_protocol (fw : Firmware) (guid registration interface : Z)
    : res (Status.t * Firmware) :=
  if guid =? 0 then Done (Status.INVALID_PARAMETER, fw)
  else
    '(status, new_interface) ← HandleDatabase.locate_protocol (handles fw) (guid_at (mem fw) guid);
    if Status.eqb status Status.SUCCESS
    then Done (status, set_memory fw (store64 (mem fw) interface new_interface))
    else Done (status, fw).

Definition open_protocol (fw : Firmware) (handle guid out_interface : Z) : res (Status.t * Firmware) :=
  if guid =? 0 then Done (Status.INVALID_PARAMETER, fw)
  else
    let fw := set_memory fw (store64 (mem fw) out_interface 0) in
    '(status, interface) ←
      HandleDatabase.handle_protocol (load32 (mem fw) 0) (handles fw)
        (handle_at (mem fw) handle) (guid_at (mem fw) guid);
    if Status.eqb status Status.SUCCESS
    then Done (status, set_memory fw (store64 (mem fw) out_interface interface))
    else Done (status, fw).

(** [count] is one past the last non-null GUID among the eight. *)
Fixpoint pair_count (guids : list Z) : nat :=
  match guids with
  | [] => O
  | g :: guids =>
      match pair_count guids with
      | O => if g =? 0 then O else 1%nat
      | S n => S (S n)
      end
  end.

(** [install_multiple_protocol_interfaces_real]: eight GUID and interface
    pointers and a terminator.  A null GUID below [count] is dereferenced, as
    in the code. *)
Definition install_multiple_protocol_interfaces_real (fw : Firmware) (handle : Z)
    (pairs : list (Z * Z)) (guid_null : Z) : res (Status.t * Firmware) :=
  match pairs with
  | (guid1, _) :: _ =>
      if guid1 =? 0 then Done (Status.INVALID_PARAMETER, fw)
      else if negb (guid_null =? 0) then Done (Status.UNSUPPORTED, fw)
      else
        '((status, new_handle), db) ←
          HandleDatabase.install_multiple_protocol (handles fw)
            (handle_at (mem fw) (load64 (mem fw) handle)) (pair_count (map fst pairs))
            (map (fun p => (guid_at (mem fw) p.1, if p.1 =? 0 then 0 else p.2)) pairs);
        let fw := set_handles fw db in
        if Status.eqb status Status.SUCCESS
        then Done (status, set_memory fw (store64 (mem fw) handle (handle_ptr new_handle)))
        else Done (status, fw)
  | [] => Panic
  end.
End Protocols.

(** ** Services called from inside the firmware *)

(** The firmware calls its own services with pointers to its local variables;
    here the local goes in and comes out as a value.  [install_local] is
    [install_protocol_interface] with a handle in a local, [pool_local]
    [allocate_pool] with a null pointer in a local. *)
Definition install_local (fw : Firmware) (handle : HandleDatabase.Handle) (guid : Guid.t) (interface : Z)
    : res (Status.t * HandleDatabase.Handle * Firmware) :=
  '((status, new_handle), db) ← HandleDatabase.install_protocol (handles fw) handle guid interface;
  Done (status, if Status.eqb status Status.SUCCESS then new_handle else handle, set_handles fw db).

Definition pool_local (fw : Firmware) (memory_type : MemoryType) (size : Z)
    : res (Status.t * Z * Firmware) :=
  '((status, address), a) ← pool_allocate memory_type 0 (allocator fw) size;
  Done (status, if Status.eqb status Status.SUCCESS then address else 0, set_allocator fw a).

(** [dup_device_path]; a failed allocation is not noticed. *)
Definition dup_device_path (fuel : nat) (fw : Firmware) (device_path : Z) : res (Z * Firmware) :=
  '(buffer, a, m) ← DevicePath.dup_device_path (pool_allocate BootServicesData 0) fuel (allocator fw)
                      (mem fw) device_path;
  Done (buffer, set_memory (set_allocator fw a) m).

End Services.
