(* ===== verification/ServicesProps.v ===== *)
(** * Correctness of the services

    The variable services and [get_memory_map], through the caller's pointers:
    the data that goes in comes out, the two-call protocol for buffer sizes
    works, and nothing is written outside the caller's buffers. *)

From S2P Require Import Prelude REfi Mem Variables HandleDb Events Alloc MemMap MapSafety AllocRepr AllocRefine AllocSafety Services.
Import Services.

(** ** Names *)

(** A NUL-terminated UTF-16 name of [k] units whose low bytes are not zero. *)
Definition name_at (m : memory) (a : Z) (k : nat) : Prop :=
  (forall j, (j < k)%nat -> char8_at m a j <> 0) /\ char8_at m a k = 0.

Lemma char16_size_loop_spec n fuel m a max i :
  (forall j, (i <= j < i + n)%nat -> char8_at m a j <> 0) -> char8_at m a (i + n) = 0 ->
  (n < fuel)%nat -> Z.of_nat (i + n) < max ->
  char16_size_loop fuel m a max i = Done (S (i + n)).
Proof.
  revert fuel i. induction n as [|n IH]; intros fuel i Hnz Hz Hf Hm;
    (destruct fuel as [|fuel]; [lia|]); cbn [char16_size_loop];
    rewrite (proj2 (Z.leb_gt _ _)) by lia.
  - rewrite Nat.add_0_r in *. by rewrite Hz.
  - rewrite (proj2 (Z.eqb_neq _ _)) by (apply Hnz; lia).
    rewrite IH; [f_equal; lia | intros; apply Hnz; lia | by rewrite Nat.add_succ_comm | lia | lia].
Qed.

Lemma get_char16_size_spec fuel m a k : name_at m a k -> (k < fuel)%nat ->
  Z.of_nat k < 2 ^ 64 - 1 -> get_char16_size fuel m a (2 ^ 64 - 1) = Done (S k).
Proof.
  intros [Hnz Hz] Hf Hk. unfold get_char16_size.
  rewrite (char16_size_loop_spec k); [done | intros; apply Hnz; lia | done | done | done].
Qed.

Lemma char8_bytes_spec n m a i k :
  (forall j, (i <= j < i + n)%nat -> char8_at m a j <> 0) -> char8_at m a (i + n) = 0 -> (n < k)%nat ->
  char8_bytes m a i k = map (char8_at m a) (seq i n) ++ [0].
Proof.
  revert i k. induction n as [|n IH]; intros i k Hnz Hz Hk;
    (destruct k as [|k]; [lia|]); cbn [char8_bytes seq map app].
  - rewrite Nat.add_0_r in Hz. by rewrite Hz.
  - rewrite (proj2 (Z.eqb_neq _ _)) by (apply Hnz; lia). f_equal.
    apply IH; [intros; apply Hnz; lia | by rewrite Nat.add_succ_comm | lia].
Qed.

(** The 32-byte name of the store: the low bytes, padded with zeros. *)
Definition stored_name (m : memory) (a : Z) (k : nat) : list Z :=
  map (char8_at m a) (seq 0 k) ++ replicate (32 - k) 0.

Lemma name_buffer_spec fuel m a k : name_at m a k -> (k < fuel)%nat -> (k < 32)%nat ->
  name_buffer fuel m a = Done (Some (stored_name m a k)).
Proof.
  intros Hn Hf Hk. unfold name_buffer. rewrite (get_char16_size_spec _ _ _ k) by (done || lia). rstep.
  unfold VariableStore.MAX_VARIABLE_NAME. rewrite (proj2 (Nat.ltb_ge _ _)) by lia.
  unfold char16_to_char8. destruct Hn as [Hnz Hz].
  rewrite (char8_bytes_spec k) by (try done; try lia; intros; apply Hnz; lia).
  unfold fill_buffer, stored_name. rewrite length_app, length_map, length_seq. cbn [length].
  rewrite <- app_assoc. do 2 f_equal. f_equal. replace (32 - k)%nat with (S (32 - (k + 1))) by lia. done.
Qed.

Lemma name_buffer_too_long fuel m a k : name_at m a k -> (k < fuel)%nat -> (32 <= k)%nat ->
  Z.of_nat k < 2 ^ 64 - 1 -> name_buffer fuel m a = Done None.
Proof.
  intros Hn Hf Hk Hmax. unfold name_buffer. rewrite (get_char16_size_spec _ _ _ k) by done. rstep.
  unfold VariableStore.MAX_VARIABLE_NAME. by rewrite (proj2 (Nat.ltb_lt _ _)) by lia.
Qed.

(** ** Variables through pointers *)

(** [n] bytes at [a] and [k] bytes at [b] do not overlap. *)
Definition apart (a n b k : Z) : Prop := a + n <= b \/ b + k <= a.

Section VariableCalls.
Context (fuel : nat) (fw : Firmware) (name guid attr size data : Z) (k : nat).
Context (Hname : name_at (mem fw) name k) (Hfuel : (k < fuel)%nat) (Hk : (k < 32)%nat).
Context (Hstore : store_ok (variables fw)) (Hmem : mem_ok (mem fw)).

Lemma set_variable_call : size <= 2048 ->
  set_variable fuel fw name guid attr size data =
  '(status, vs) ← VariableStore.set_variable (variables fw) (stored_name (mem fw) name k)
     (load_bytes (mem fw) guid 16) attr size
     (if data =? 0 then None else Some (load_bytes (mem fw) data 2048));
  Done (status, set_variables fw vs).
Proof.
  intros Hs. unfold set_variable. rewrite (name_buffer_spec _ _ _ k) by done. rstep.
  change (VariableStore.MAX_VARIABLE_DATA <? size) with (2048 <? size).
  by rewrite (proj2 (Z.ltb_ge _ _)) by lia.
Qed.

(** A stored variable read back: too small a buffer gets the size, a large
    enough one gets the data. *)
Lemma get_variable_call fw1 attrp sizep dst bytes :
  mem fw1 = mem fw ->
  VariableStore.get_variable (variables fw1) (stored_name (mem fw) name k)
    (load_bytes (mem fw) guid 16) = Done (Status.SUCCESS, attr, size, Some bytes) ->
  0 <= attr < 2 ^ 32 -> 0 <= size < 2 ^ 64 -> (Z.to_nat size <= length bytes)%nat -> bytes_ok bytes ->
  (load64 (mem fw) sizep < size /\
   exists fw2, get_variable fuel fw1 name guid attrp sizep dst = Done (Status.BUFFER_TOO_SMALL, fw2) /\
     load64 (mem fw2) sizep = size) \/
  (size <= load64 (mem fw) sizep /\
   exists fw2, get_variable fuel fw1 name guid attrp sizep dst = Done (Status.SUCCESS, fw2) /\
     (apart dst size sizep 8 -> apart attrp 4 sizep 8 -> apart attrp 4 dst size ->
      load64 (mem fw2) sizep = size /\
      load_bytes (mem fw2) dst (Z.to_nat size) = take (Z.to_nat size) bytes /\
      (attrp <> 0 -> load32 (mem fw2) attrp = attr))).
Proof.
  intros Hm1 Hget Hattr Hsize Hlen Hbytes. unfold get_variable. rewrite Hm1.
  rewrite (name_buffer_spec _ _ _ k) by done. rstep. rewrite Hget; rstep. status_step.
  destruct (Z.ltb_spec (load64 (mem fw) sizep) size) as [Hlt|Hge].
  - left. split; [done|]. eexists. split; [reflexivity|]. cbn [mem set_memory].
    rewrite load_store. apply Z.mod_small. done.
  - right. split; [done|]. cbn [unwrap]; rstep. eexists. split; [reflexivity|].
    cbn [mem set_memory]. intros H1 H2 H3.
    set (bs := take (Z.to_nat size) bytes).
    assert (Hbl : length bs = Z.to_nat size) by (unfold bs; rewrite length_take; lia).
    assert (Hbok : bytes_ok bs) by (by apply Forall_take).
    unfold apart in *. destruct (Z.eqb_spec attrp 0) as [->|Hne]; cbn [negb]; split_and!; try done.
    + unfold load. rewrite load_bytes_store_bytes_out by (rewrite Hbl; lia).
      change (le_combine _) with (load64 (store64 (mem fw) sizep size) sizep).
      rewrite load_store. by apply Z.mod_small.
    + rewrite <- Hbl. by rewrite load_bytes_store_bytes.
    + rewrite load_store_out by (cbn; lia).
      unfold load. rewrite load_bytes_store_bytes_out by (rewrite Hbl; lia).
      change (le_combine _) with (load64 (store64 (mem fw) sizep size) sizep).
      rewrite load_store. by apply Z.mod_small.
    + unfold store at 1. rewrite load_bytes_store_bytes_out by (rewrite length_le_split; lia).
      rewrite <- Hbl. by rewrite load_bytes_store_bytes.
    + intros _. rewrite load_store. by apply Z.mod_small.
Qed.
End VariableCalls.

(** C27: The variable services move data through memory unchanged: after
    [SetVariable] of up to 2048 bytes under a name of at most 31 characters (in
    a store with room), [GetVariable] of the same name and GUID either reports
    BUFFER_TOO_SMALL and the needed size, or SUCCESS with the same bytes, size
    and attributes at the caller's (disjoint) pointers. *)
Theorem set_get_variable_service fuel fw name guid attr size data k attrp sizep dst :
  name_at (mem fw) name k -> (k < fuel)%nat -> (k < 32)%nat ->
  store_ok (variables fw) -> VariableStore.variable_count (variables fw) < 64 -> mem_ok (mem fw) ->
  0 < attr < 2 ^ 32 -> 0 < size <= 2048 -> data <> 0 ->
  apart dst size sizep 8 -> apart attrp 4 sizep 8 -> apart attrp 4 dst size -> attrp <> 0 ->
  exists fw1 st fw2,
    set_variable fuel fw name guid attr size data = Done (Status.SUCCESS, fw1) /\
    mem fw1 = mem fw /\
    get_variable fuel fw1 name guid attrp sizep dst = Done (st, fw2) /\
    load64 (mem fw2) sizep = size /\
    (load64 (mem fw) sizep < size /\ st = Status.BUFFER_TOO_SMALL \/
     size <= load64 (mem fw) sizep /\ st = Status.SUCCESS /\
     load_bytes (mem fw2) dst (Z.to_nat size) = load_bytes (mem fw) data (Z.to_nat size) /\
     load32 (mem fw2) attrp = attr).
Proof.
  intros Hname Hfuel Hk Hstore Hroom Hmem Hattr Hsize Hdata H1 H2 H3 Hap.
  rewrite (set_variable_call fuel fw name guid attr size data k) by (done || lia).
  rewrite (proj2 (Z.eqb_neq _ _)) by done.
  destruct (set_get_item (variables fw) (stored_name (mem fw) name k) (load_bytes (mem fw) guid 16)
    attr size (load_bytes (mem fw) data 2048) Hstore) as (vs & -> & Hget & _).
  { unfold VariableStore.MAX_VARIABLE_DATA. lia. }
  { unfold VariableStore.is_delete. by rewrite !(proj2 (Z.eqb_neq _ _)) by lia. }
  { by left. }
  rstep. set (fw1 := set_variables fw vs).
  assert (Hbytes : bytes_ok (load_bytes (mem fw) data 2048)) by (by apply load_bytes_ok).
  assert (Htake : take (Z.to_nat size) (load_bytes (mem fw) data 2048) =
                  load_bytes (mem fw) data (Z.to_nat size)).
  { replace 2048%nat with (Z.to_nat size + (2048 - Z.to_nat size))%nat by lia.
    rewrite load_bytes_app. apply take_app_length'. by rewrite length_load_bytes. }
  destruct (get_variable_call fuel fw name guid attr size k Hname Hfuel Hk fw1 attrp sizep dst
    (load_bytes (mem fw) data 2048)) as [(Hlt & fw2 & E & Hl)|(Hge & fw2 & E & Hl)];
    [done | exact Hget | lia | lia | rewrite length_load_bytes; lia | done | |].
  - exists fw1, Status.BUFFER_TOO_SMALL, fw2. split_and!; try done. by left.
  - exists fw1, Status.SUCCESS, fw2. destruct (Hl H1 H2 H3) as (Hs & Hb & Ha).
    split_and!; try done. right. split_and!; auto. by rewrite Hb, Htake.
Qed.

(** A caller's memory: the name "A" at 0x1000, a buffer size of 16 at 0x1200,
    two bytes of data at 0x2000. *)
Definition demo_fw : Firmware :=
  mkFw (store_bytes (store64 (store_bytes ∅ 0x1000 [65; 0; 0; 0]) 0x1200 16) 0x2000 [7; 9])
    demo HandleDatabase.new VariableStore.new EventInfo.new.

Lemma demo_fw_mem : mem_ok (mem demo_fw).
Proof. unfold demo_fw, store; cbn [mem]. repeat apply mem_ok_store_bytes. apply map_Forall_empty. Qed.

Lemma set_get_variable_service_witness : exists fw1 st fw2,
  set_variable 8 demo_fw 0x1000 0x1100 7 2 0x2000 = Done (Status.SUCCESS, fw1) /\
  get_variable 8 fw1 0x1000 0x1100 0x1300 0x1200 0x3000 = Done (st, fw2) /\
  load64 (mem fw2) 0x1200 = 2 /\ load_bytes (mem fw2) 0x3000 2 = [7; 9].
Proof.
  destruct (set_get_variable_service 8 demo_fw 0x1000 0x1100 7 2 0x2000 1 0x1300 0x1200 0x3000)
    as (fw1 & st & fw2 & E1 & _ & E2 & Hs & Hd).
  - split; [intros [|j] Hj; [vm_compute; discriminate | lia] | reflexivity].
  - lia.
  - lia.
  - apply new_ok.
  - vm_compute. reflexivity.
  - apply demo_fw_mem.
  - lia.
  - lia.
  - lia.
  - unfold apart. lia.
  - unfold apart. lia.
  - unfold apart. lia.
  - lia.
  - exists fw1, st, fw2. split; [exact E1|]. split; [exact E2|]. split; [exact Hs|].
    destruct Hd as [[Hlt _]|(_ & _ & Hb & _)]; [vm_compute in Hlt; discriminate|].
    change (Z.to_nat 2) with 2%nat in Hb. rewrite Hb. vm_compute. reflexivity.
Defined.

(** ** The memory map through pointers *)

(** The fields a region shows fit their widths. *)
Definition region_fits (r : Map.Region) : Prop :=
  in_range 32 (Map.rtype r) /\ in_range 64 (Map.rstart r) /\ in_range 64 (Map.rpages r) /\
  in_range 64 (Map.rattr r).

Lemma load8_store_descriptor_out m a d x :
  x < a \/ a + DESCRIPTOR_SIZE <= x -> load8 (store_descriptor m a d) x = load8 m x.
Proof.
  intros Hx. unfold store_descriptor, store, DESCRIPTOR_SIZE in *.
  rewrite !load8_store_bytes_out by (rewrite length_le_split; lia). done.
Qed.

Lemma load_descriptor_store m a d : region_fits (Map.region_of d) ->
  Map.region_of (load_descriptor (store_descriptor m a d) a) = Map.region_of d.
Proof.
  intros (H1 & H2 & H3 & H4). unfold load_descriptor, store_descriptor, in_range in *.
  rewrite !(load_store_out 4 8) by lia. rewrite (load_store 4).
  rewrite (load_store_out 8 8 _ (a + 32) _ (a + 8)), (load_store_out 8 8 _ (a + 24) _ (a + 8)),
    (load_store_out 8 8 _ (a + 16) _ (a + 8)), (load_store 8 _ (a + 8)) by lia.
  rewrite (load_store_out 8 8 _ (a + 32) _ (a + 24)), (load_store 8 _ (a + 24)) by lia.
  rewrite (load_store 8 _ (a + 32)). unfold Map.region_of in *; cbn in *.
  by rewrite !Z.mod_small by done.
Qed.

Lemma load_descriptor_ext m m' a :
  (forall x, a <= x < a + DESCRIPTOR_SIZE -> load8 m' x = load8 m x) ->
  load_descriptor m' a = load_descriptor m a.
Proof.
  intros H. unfold load_descriptor, DESCRIPTOR_SIZE in *.
  by rewrite !(load_ext _ m m') by (intros; apply H; lia).
Qed.

Lemma load8_store_descriptors_out m a ds x :
  x < a \/ a + DESCRIPTOR_SIZE * Z.of_nat (length ds) <= x ->
  load8 (store_descriptors m a ds) x = load8 m x.
Proof.
  revert m a. induction ds as [|d ds IH]; intros m a Hx; cbn [store_descriptors length] in *; [done|].
  rewrite IH by (unfold DESCRIPTOR_SIZE in *; lia).
  apply load8_store_descriptor_out. unfold DESCRIPTOR_SIZE in *. lia.
Qed.

Lemma load_descriptors_ext m m' a n :
  (forall x, a <= x < a + DESCRIPTOR_SIZE * Z.of_nat n -> load8 m' x = load8 m x) ->
  load_descriptors m' a n = load_descriptors m a n.
Proof.
  revert a. induction n as [|n IH]; intros a H; cbn [load_descriptors]; [done|].
  unfold DESCRIPTOR_SIZE in *.
  rewrite (load_descriptor_ext m m'), IH; [done | intros; apply H; lia | intros; apply H;
    unfold DESCRIPTOR_SIZE in *; lia].
Qed.

Lemma load_descriptors_store m a ds : Forall region_fits (regions ds) ->
  regions (load_descriptors (store_descriptors m a ds) a (length ds)) = regions ds.
Proof.
  rewrite Forall_map. intros Hd. revert m a.
  induction Hd as [|d ds Hd Hds IH]; intros m a; cbn [store_descriptors length load_descriptors map]; [done|].
  rewrite IH. f_equal. rewrite (load_descriptor_ext (store_descriptor m a d)).
  - by apply load_descriptor_store.
  - intros x Hx. apply load8_store_descriptors_out. unfold DESCRIPTOR_SIZE in *. lia.
Qed.

(** Four words written apart from a buffer and from each other. *)
(** C28: [GetMemoryMap] follows the two-call protocol: a buffer smaller than 40
    bytes per region gets BUFFER_TOO_SMALL and the needed size; otherwise the
    buffer (disjoint from the caller's other pointers) holds the allocator's
    map, in order, with its size, descriptor size, version and key. *)
Theorem get_memory_map_correct fw rs sizep out keyp dsizep verp :
  holds (allocator fw) rs ->
  Forall region_fits rs -> in_range 64 (Alloc.key (allocator fw)) ->
  let n := 40 * Z.of_nat (length rs) in
  apart out n sizep 8 -> apart out n keyp 8 -> apart out n dsizep 8 -> apart out n verp 4 ->
  apart sizep 8 keyp 8 -> apart sizep 8 dsizep 8 -> apart sizep 8 verp 4 ->
  apart keyp 8 dsizep 8 -> apart keyp 8 verp 4 -> apart dsizep 8 verp 4 ->
  (load64 (mem fw) sizep < n /\
   exists fw', get_memory_map fw sizep out keyp dsizep verp = Done (Status.BUFFER_TOO_SMALL, fw') /\
     load64 (mem fw') sizep = n) \/
  (n <= load64 (mem fw) sizep /\
   exists fw', get_memory_map fw sizep out keyp dsizep verp = Done (Status.SUCCESS, fw') /\
     regions (load_descriptors (mem fw') out (length rs)) = rs /\
     load64 (mem fw') sizep = n /\ load64 (mem fw') keyp = Alloc.key (allocator fw) /\
     load64 (mem fw') dsizep = 40 /\ load32 (mem fw') verp = 1).
Proof.
  intros (l & ds & Hr & -> & _) Hds Hkey n A1 A2 A3 A4 A5 A6 A7 A8 A9 A10.
  unfold get_memory_map. subst n. rewrite length_map in *.
  set (n := 40 * Z.of_nat (length ds)) in *.
  assert (Hlen : Z.of_nat (length ds) <= 32768).
  { pose proof (walk_fuel_enough _ _ _ Hr) as Hw. unfold Alloc.walk_fuel in Hw.
    rewrite (repr_len _ _ _ Hr), (lseg_length _ _ _ _ _ (repr_chain _ _ _ Hr)) in Hw.
    unfold Alloc.MAX_ALLOCATIONS in Hw. lia. }
  rewrite (get_descriptor_count_spec _ _ _ Hr); rstep.
  assert (Hn : usize (DESCRIPTOR_SIZE * Z.of_nat (length ds)) = n).
  { apply wrap_small. unfold DESCRIPTOR_SIZE. norm_pow. lia. }
  rewrite Hn. destruct (Z.ltb_spec (load64 (mem fw) sizep) n) as [Hlt|Hge].
  { left. split; [done|]. eexists. split; [reflexivity|]. cbn [mem set_memory].
    rewrite load_store. apply Z.mod_small. subst n. norm_pow. lia. }
  right. split; [done|].
  assert (Hll : forall m a k, length (load_descriptors m a k) = k).
  { intros m a k. revert a. induction k; intros; cbn; auto. }
  rewrite (get_descriptors_spec _ _ ds _ Hr) by (by rewrite Hll). rstep.
  rewrite drop_ge by (by rewrite Hll). rewrite app_nil_r, Hn.
  eexists. split; [reflexivity|]. cbn [mem set_memory].
  unfold apart in *. split_and!.
  - rewrite (load_descriptors_ext (store_descriptors (mem fw) out ds)).
    + by apply load_descriptors_store.
    + intros x Hx. unfold DESCRIPTOR_SIZE in Hx. rewrite !load8_store_out by (cbn; lia). done.
  - rewrite 3!load_store_out by (cbn; lia). rewrite load_store. apply Z.mod_small. subst n. norm_pow. lia.
  - rewrite load_store. by apply Z.mod_small.
  - rewrite load_store_out by (cbn; lia). rewrite load_store. by apply Z.mod_small.
  - rewrite 2!load_store_out by (cbn; lia). rewrite load_store. by apply Z.mod_small.
Qed.

(** The demo allocator's two regions: 80 bytes are needed and 16 are there. *)
Lemma get_memory_map_correct_witness : exists fw',
  get_memory_map demo_fw 0x1200 0x4000 0x1210 0x1220 0x1230 = Done (Status.BUFFER_TOO_SMALL, fw') /\
  load64 (mem fw') 0x1200 = 80.
Proof.
  destruct (get_memory_map_correct demo_fw demo_map 0x1200 0x4000 0x1210 0x1220 0x1230)
    as [(_ & fw' & E & Hl)|(Hge & _)].
  - apply demo_holds.
  - repeat apply Forall_cons_2; try apply Forall_nil_2; vm_compute; intuition discriminate.
  - vm_compute. intuition discriminate.
  - unfold apart; cbn; lia.
  - unfold apart; cbn; lia.
  - unfold apart; cbn; lia.
  - unfold apart; cbn; lia.
  - unfold apart; lia.
  - unfold apart; lia.
  - unfold apart; lia.
  - unfold apart; lia.
  - unfold apart; lia.
  - unfold apart; lia.
  - exists fw'. split; [exact E | exact Hl].
  - exfalso. vm_compute in Hge. congruence.
Defined.
