(* ===== verification/ServiceTable.v ===== *)
(** * The tables of services, [RT] and [BS] of src/efi/mod.rs

    An application sees the firmware through two tables of functions.  A [Call] is
    a use of one of them; [serve] runs it.  The services that load and start
    images, and the search by device path, are in [Image.v] and [Boot.v]; [raise_tpl],
    [restore_tpl] and [reset_system] return no status and have no call here.  The
    theorem is the type safety of the tables: a call with sane arguments returns,
    and leaves the firmware's state well formed. *)

From S2P Require Import Prelude REfi Mem Variables HandleDb Events Alloc MemMap MapSafety AllocRepr AllocRefine AllocSafety DevicePath EfiFile FileProps Services ServicesProps.

Module ServiceTable.
Import Services.

(** The services that only report a status. *)
Inductive Stub :=
| GetTime | SetTime | GetWakeupTime | SetWakeupTime | ConvertPointer | GetNextVariableName
| GetNextHighMonoCount | UpdateCapsule | QueryCapsuleCapabilities | QueryVariableInfo
| SetTimer | WaitForEvent | SignalEvent | CloseEvent | CheckEvent | ReinstallProtocolInterface
| UninstallProtocolInterface | RegisterProtocolNotify | InstallConfigurationTable | Exit | UnloadImage
| GetNextMonotonicCount | Stall | SetWatchdogTimer | ConnectController
| DisconnectController | CloseProtocol | OpenProtocolInformation | ProtocolsPerHandle
| UninstallMultipleProtocolInterfaces | CalculateCrc32.

Definition stub (s : Stub) : Status.t :=
  match s with
  | GetTime => get_time
  | SetTime => set_time
  | GetWakeupTime => get_wakeup_time
  | SetWakeupTime => set_wakeup_time
  | ConvertPointer => convert_pointer
  | GetNextVariableName => get_next_variable_name
  | GetNextHighMonoCount => get_next_high_mono_count
  | UpdateCapsule => update_capsule
  | QueryCapsuleCapabilities => query_capsule_capabilities
  | QueryVariableInfo => query_variable_info
  | SetTimer => set_timer
  | WaitForEvent => wait_for_event
  | SignalEvent => signal_event
  | CloseEvent => close_event
  | CheckEvent => check_event
  | ReinstallProtocolInterface => reinstall_protocol_interface
  | UninstallProtocolInterface => uninstall_protocol_interface
  | RegisterProtocolNotify => register_protocol_notify
  | InstallConfigurationTable => install_configuration_table
  | Exit => exit
  | UnloadImage => unload_image
  | GetNextMonotonicCount => get_next_monotonic_count
  | Stall => stall
  | SetWatchdogTimer => set_watchdog_timer
  | ConnectController => connect_controller
  | DisconnectController => disconnect_controller
  | CloseProtocol => close_protocol
  | OpenProtocolInformation => open_protocol_information
  | ProtocolsPerHandle => protocols_per_handle
  | UninstallMultipleProtocolInterfaces => uninstall_multiple_protocol_interfaces_real
  | CalculateCrc32 => calculate_crc32
  end.

Inductive Call :=
| CStub (s : Stub)
| ExitBootServices (map_key : Z)
| SetVirtualAddressMap (map_size descriptor_size version descriptors : Z)
| GetVariable (name guid attributes size data : Z)
| SetVariable (name guid attributes size data : Z)
| AllocatePages (t : AllocateType) (m : MemoryType) (pages address : Z)
| FreePages (address : Z)
| GetMemoryMap (size out key descriptor_size version : Z)
| AllocatePool (m : MemoryType) (size address : Z)
| FreePool (address : Z)
| CreateEvent (ty tpl func ctx event : Z)
| CreateEventEx (event : Z)
| InstallProtocolInterface (handle guid interface : Z)
| HandleProtocol (handle guid out : Z)
| OpenProtocol (handle guid out : Z)
| LocateHandle (search : LocateSearchType) (guid key size buffer : Z)
| LocateHandleBuffer (slot : Z) (search : LocateSearchType) (guid key count buffer : Z)
| LocateProtocol (guid registration interface : Z)
| InstallMultipleProtocolInterfaces (handle : Z) (pairs : list (Z * Z)) (guid_null : Z)
| CopyMem (dest source size : Z)
| SetMem (buffer size val : Z).

Section Serve.
Context (handle_table : Z) (event_address : nat -> Z) (fuel : nat).

Definition serve (fw : Firmware) (c : Call) : res (Status.t * Firmware) :=
  match c with
  | CStub s => Done (stub s, fw)
  | ExitBootServices map_key => Done (exit_boot_services fw map_key)
  | SetVirtualAddressMap size dsize version ds => set_virtual_address_map fw size dsize version ds
  | GetVariable name guid attr size data => get_variable fuel fw name guid attr size data
  | SetVariable name guid attr size data => set_variable fuel fw name guid attr size data
  | AllocatePages t m pages address => allocate_pages fw t m pages address
  | FreePages address => free_pages fw address
  | GetMemoryMap size out key dsize version => get_memory_map fw size out key dsize version
  | AllocatePool m size address => allocate_pool fw m size address
  | FreePool address => free_pool fw address
  | CreateEvent ty tpl func ctx event => create_event event_address fw ty tpl func ctx event
  | CreateEventEx event => Done (create_event_ex fw event)
  | InstallProtocolInterface handle guid interface => install_protocol_interface handle_table fw handle guid interface
  | HandleProtocol handle guid out => handle_protocol handle_table fw handle guid out
  | OpenProtocol handle guid out => open_protocol handle_table fw handle guid out
  | LocateHandle search guid key size buffer => locate_handle handle_table fw search guid key size buffer
  | LocateHandleBuffer slot search guid key count buffer =>
      locate_handle_buffer handle_table slot fw search guid key count buffer
  | LocateProtocol guid registration interface => locate_protocol fw guid registration interface
  | InstallMultipleProtocolInterfaces handle pairs guid_null =>
      install_multiple_protocol_interfaces_real handle_table fw handle pairs guid_null
  | CopyMem dest source size => Done (Status.SUCCESS, copy_mem fw dest source size)
  | SetMem buffer size val => Done (Status.SUCCESS, set_mem fw buffer size val)
  end.

(** The calls of an application, one after the other. *)
Fixpoint serve_all (fw : Firmware) (cs : list Call) : res (list Status.t * Firmware) :=
  match cs with
  | [] => Done ([], fw)
  | c :: cs =>
      '(status, fw) ← serve fw c;
      '(statuses, fw) ← serve_all fw cs;
      Done (status :: statuses, fw)
  end.
End Serve.
End ServiceTable.

Import Services ServiceTable.

(** ** Type safety *)

(** Every component's state is well formed. *)
Record firmware_ok (fw : Firmware) : Prop := {
  fo_allocator : exists rs, holds (allocator fw) rs;
  fo_handles : db_ok (handles fw);
  fo_variables : store_ok (variables fw);
  fo_events : events_ok (events fw);
  fo_memory : mem_ok (mem fw)
}.

Lemma firmware_ok_memory fw m : firmware_ok fw -> mem_ok m -> firmware_ok (set_memory fw m).
Proof. intros [H1 H2 H3 H4 H5] Hm. by constructor. Qed.
Lemma firmware_ok_allocator fw a rs : firmware_ok fw -> holds a rs -> firmware_ok (set_allocator fw a).
Proof. intros [H1 H2 H3 H4 H5] Ha. constructor; try done. by exists rs. Qed.
Lemma firmware_ok_handles fw db : firmware_ok fw -> db_ok db -> firmware_ok (set_handles fw db).
Proof. intros [H1 H2 H3 H4 H5] Hm. by constructor. Qed.
Lemma firmware_ok_variables fw vs : firmware_ok fw -> store_ok vs -> firmware_ok (set_variables fw vs).
Proof. intros [H1 H2 H3 H4 H5] Hm. by constructor. Qed.
Lemma firmware_ok_events fw es : firmware_ok fw -> events_ok es -> firmware_ok (set_events fw es).
Proof. intros [H1 H2 H3 H4 H5] Hm. by constructor. Qed.

Lemma mem_ok_store n m a v : mem_ok m -> mem_ok (store n m a v).
Proof. apply mem_ok_store_bytes. Qed.
Lemma mem_ok_store_handles t m a hs : mem_ok m -> mem_ok (store_handles t m a hs).
Proof. revert m a. induction hs as [|h hs IH]; intros m a Hm; cbn [store_handles]; [done|]. by apply IH, mem_ok_store. Qed.
Lemma mem_ok_store_descriptors m a ds : mem_ok m -> mem_ok (store_descriptors m a ds).
Proof.
  revert m a. induction ds as [|d ds IH]; intros m a Hm; cbn [store_descriptors]; [done|]. apply IH.
  unfold store_descriptor. by repeat apply mem_ok_store.
Qed.

Create HintDb firmware.
#[local] Hint Resolve firmware_ok_memory firmware_ok_allocator firmware_ok_handles firmware_ok_variables
  firmware_ok_events mem_ok_store mem_ok_store_bytes mem_ok_store_handles mem_ok_store_descriptors fo_memory : firmware.

Section Safety.
Context (handle_table : Z) (event_address : nat -> Z) (fuel : nat).

(** A pointer that is null, in the handle table, or not to a forged entry. *)
Definition genuine (m : memory) (a : Z) : Prop := valid_handle (handle_at handle_table m a).

(** What the caller has to get right: names end, page counts do not overflow,
    descriptor sizes are not zero, handles are not forged, and [load32 m 0], which
    a null handle reads as its signature, is not the signature. *)
Definition allowed (fw : Firmware) (c : Call) : Prop :=
  match c with
  | SetVirtualAddressMap _ dsize _ _ => dsize <> 0
  | GetVariable name _ _ _ _ | SetVariable name _ _ _ _ =>
      exists k, name_at (mem fw) name k /\ (k < fuel)%nat /\ Z.of_nat k < 2 ^ 64 - 1
  | AllocatePages t _ pages address => request_ok t pages (load64 (mem fw) address)
  | AllocatePool _ _ address => 0 <= address
  | InstallProtocolInterface handle _ _ => genuine (mem fw) (load64 (mem fw) handle)
  | HandleProtocol handle _ _ =>
      genuine (mem fw) handle /\ load32 (mem fw) 0 <> HandleDatabase.HANDLE_SIGNATURE
  | OpenProtocol handle _ out =>
      genuine (mem fw) handle /\ load32 (mem fw) 0 <> HandleDatabase.HANDLE_SIGNATURE /\
      (handle + 4 <= out \/ out + 8 <= handle) /\ 4 <= out
  | LocateHandleBuffer slot _ _ _ _ _ => 0 <= slot
  | InstallMultipleProtocolInterfaces handle pairs _ =>
      genuine (mem fw) (load64 (mem fw) handle) /\ length pairs = 8%nat
  | _ => True
  end.

Definition returns (r : res (Status.t * Firmware)) : Prop :=
  exists st fw', r = Done (st, fw') /\ firmware_ok fw'.

Lemma returns_Done st fw : firmware_ok fw -> returns (Done (st, fw)).
Proof. intros H. by exists st, fw. Qed.
Hint Resolve returns_Done : firmware.

(** A status decides whether the result is stored. *)
Lemma returns_store (b : bool) st fw m : firmware_ok fw -> mem_ok m ->
  returns (if b then Done (st, set_memory fw m) else Done (st, fw)).
Proof. destruct b; auto with firmware. Qed.
Hint Resolve returns_store : firmware.

Lemma serve_memory fw t m pages address : firmware_ok fw -> request_ok t pages (load64 (mem fw) address) ->
  returns (allocate_pages fw t m pages address).
Proof.
  intros Hok Hreq. destruct (fo_allocator _ Hok) as [rs Ha]. unfold allocate_pages.
  destruct (holds_allocate _ rs t m pages _ Ha Hreq) as (a' & -> & Ha'). destruct (Map.allocate _ _ _ _ _ _) as [[st x] rs'].
  rstep. apply returns_store; eauto with firmware.
Qed.

Lemma pool_pages_nonneg size : 0 <= pool_pages size.
Proof. unfold pool_pages. apply Z.div_pos; [apply wrap_range; lia|]. unfold Alloc.PAGE_SIZE. lia. Qed.

Lemma serve_pool fw m size address : firmware_ok fw -> 0 <= address -> returns (allocate_pool fw m size address).
Proof.
  intros Hok Hadd. destruct (fo_allocator _ Hok) as [rs Ha]. unfold allocate_pool, pool_allocate.
  pose proof (pool_pages_nonneg size).
  destruct (holds_allocate _ rs AllocateAnyPages m (pool_pages size) address Ha) as (a' & -> & Ha').
  { unfold request_ok. by split_and!. }
  destruct (Map.allocate _ _ _ _ _ _) as [[st x] rs']. rstep. apply returns_store; eauto with firmware.
Qed.

Lemma serve_free fw address : firmware_ok fw -> returns (free_pages fw address).
Proof.
  intros Hok. destruct (fo_allocator _ Hok) as [rs Ha]. unfold free_pages.
  destruct (holds_free _ rs address Ha) as (a' & -> & Ha'). rstep. eauto with firmware.
Qed.

Lemma serve_map fw size out key dsize version : firmware_ok fw ->
  returns (get_memory_map fw size out key dsize version).
Proof.
  intros Hok. destruct (fo_allocator _ Hok) as [rs (l & ds & Hr & _)]. unfold get_memory_map.
  rewrite (get_descriptor_count_spec _ _ _ Hr). rstep. destruct (_ <? _); [eauto with firmware|].
  assert (Hl : length (load_descriptors (mem fw) out (length ds)) = length ds).
  { generalize out. induction (length ds) as [|n IH]; intros a; cbn; [done|]. by rewrite IH. }
  rewrite (get_descriptors_spec _ _ _ _ Hr) by lia. rstep.
  apply returns_Done, firmware_ok_memory; [done|]. do 4 apply mem_ok_store. by apply mem_ok_store_descriptors, fo_memory.
Qed.

Lemma serve_virtual fw size dsize version ds : firmware_ok fw -> dsize <> 0 ->
  returns (set_virtual_address_map fw size dsize version ds).
Proof.
  intros Hok Hd. destruct (fo_allocator _ Hok) as [rs Ha]. unfold set_virtual_address_map.
  rewrite (proj2 (Z.eqb_neq _ _)) by done. destruct (negb _); [eauto with firmware|].
  destruct (holds_update_virtual _ rs (load_descriptors (mem fw) ds (Z.to_nat (size / dsize))) Ha) as (st & a' & -> & Ha').
  rstep. eauto with firmware.
Qed.

Lemma name_buffer_returns m name k : name_at m name k -> (k < fuel)%nat -> Z.of_nat k < 2 ^ 64 - 1 ->
  exists o, name_buffer fuel m name = Done o.
Proof.
  intros Hn Hf Hk. destruct (decide (k < 32)%nat).
  - eexists. by apply name_buffer_spec.
  - exists None. eapply name_buffer_too_long; [done|done|lia|done].
Qed.

Lemma serve_set_variable fw name guid attr size data k : firmware_ok fw -> name_at (mem fw) name k ->
  (k < fuel)%nat -> Z.of_nat k < 2 ^ 64 - 1 -> returns (set_variable fuel fw name guid attr size data).
Proof.
  intros Hok Hn Hf Hk. unfold set_variable. destruct (name_buffer_returns _ _ _ Hn Hf Hk) as [[nm|] ->]; rstep;
    [|eauto with firmware].
  destruct (Z.ltb_spec VariableStore.MAX_VARIABLE_DATA size); [eauto with firmware|].
  destruct (set_variable_spec (variables fw) nm (load_bytes (mem fw) guid 16) attr size
    (if data =? 0 then None else Some (load_bytes (mem fw) data (Z.to_nat VariableStore.MAX_VARIABLE_DATA)))
    (fo_variables _ Hok)) as (vs & -> & Hvs & _); [done|]. rstep. eauto with firmware.
Qed.

Lemma serve_get_variable fw name guid attr size data k : firmware_ok fw -> name_at (mem fw) name k ->
  (k < fuel)%nat -> Z.of_nat k < 2 ^ 64 - 1 -> returns (get_variable fuel fw name guid attr size data).
Proof.
  intros Hok Hn Hf Hk. unfold get_variable. destruct (name_buffer_returns _ _ _ Hn Hf Hk) as [[nm|] ->]; rstep;
    [|eauto with firmware].
  rewrite (get_variable_spec _ _ _ (fo_variables _ Hok)). destruct (item_of _ _) as [x|]; cbn [item_result]; rstep; status_step;
    [|eauto with firmware].
  destruct (_ <? _); [eauto with firmware|]. cbn [unwrap]. rstep. apply returns_Done, firmware_ok_memory; [done|].
  destruct (negb _); repeat first [apply mem_ok_store | apply mem_ok_store_bytes]; by apply fo_memory.
Qed.

Lemma serve_event fw ty tpl func ctx event : firmware_ok fw ->
  returns (create_event event_address fw ty tpl func ctx event).
Proof.
  intros Hok. unfold create_event.
  destruct (create_event_correct (events fw) ty tpl func ctx (fo_events _ Hok))
    as [(_ & es & -> & Hes & _)|(_ & ->)]; rstep; status_step; cbn [unwrap]; rstep.
  - apply returns_Done, firmware_ok_memory; [eauto with firmware|]. apply mem_ok_store, (fo_memory _ Hok).
  - apply returns_Done, firmware_ok_events; [done|]. by apply fo_events.
Qed.

Lemma serve_install fw handle guid interface : firmware_ok fw -> genuine (mem fw) (load64 (mem fw) handle) ->
  returns (install_protocol_interface handle_table fw handle guid interface).
Proof.
  intros Hok Hg. unfold install_protocol_interface, install_cell.
  destruct (install_protocol_spec _ _ (guid_at (mem fw) guid) interface (fo_handles _ Hok) Hg)
    as (st & h & db & -> & Hdb & _). rstep. apply returns_store; eauto with firmware.
Qed.

Lemma serve_install_multiple fw handle pairs guid_null : firmware_ok fw ->
  genuine (mem fw) (load64 (mem fw) handle) -> length pairs = 8%nat ->
  returns (install_multiple_protocol_interfaces_real handle_table fw handle pairs guid_null).
Proof.
  intros Hok Hg Hl. unfold install_multiple_protocol_interfaces_real. destruct pairs as [|[g1 i1] pairs]; [done|].
  destruct (Z.eqb_spec g1 0); [eauto with firmware|]. destruct (negb _); [eauto with firmware|].
  set (all := (g1, i1) :: pairs) in *. assert (Hc : (0 < pair_count (map fst all) <= 8)%nat).
  { split.
    - cbn. destruct (pair_count _); [|lia]. rewrite (proj2 (Z.eqb_neq _ _)) by done. lia.
    - rewrite <- Hl, <- (length_map fst all). generalize (map fst all). clear.
      intros l. induction l as [|g l IH]; cbn; [lia|]. destruct (pair_count l); [destruct (g =? 0); lia|lia]. }
  destruct (install_multiple_spec (handles fw) (handle_at handle_table (mem fw) (load64 (mem fw) handle))
    (pair_count (map fst all)) (map (fun p => (guid_at (mem fw) p.1, if p.1 =? 0 then 0 else p.2)) all)
    (fo_handles _ Hok) Hg Hc) as (st & h & db & -> & Hdb & _); [rewrite length_map; lia|].
  rstep. apply returns_store; eauto with firmware.
Qed.

(** Looking a protocol up on a handle. *)
Lemma lookup_returns m fw handle guid : firmware_ok fw -> genuine m handle ->
  load32 m 0 <> HandleDatabase.HANDLE_SIGNATURE -> exists st x,
  HandleDatabase.handle_protocol (load32 m 0) (handles fw) (handle_at handle_table m handle) guid = Done (st, x).
Proof.
  intros Hok Hg H0. unfold genuine in Hg. destruct (handle_at handle_table m handle) as [|i|w]; cbn in Hg.
  - unfold HandleDatabase.handle_protocol. rstep. rewrite (proj2 (Z.eqb_neq _ _)) by done. cbn [negb]. eauto.
  - rewrite (handle_protocol_spec _ (fo_handles _ Hok)) by (by rewrite (db_len _ (fo_handles _ Hok))).
    destruct (decide _); [destruct (iface _ _ _)|]; eauto.
  - unfold HandleDatabase.handle_protocol. rstep. rewrite (proj2 (Z.eqb_neq _ _)) by done. cbn [negb]. eauto.
Qed.

Lemma serve_handle fw handle guid out : firmware_ok fw -> genuine (mem fw) handle ->
  load32 (mem fw) 0 <> HandleDatabase.HANDLE_SIGNATURE -> returns (handle_protocol handle_table fw handle guid out).
Proof.
  intros Hok Hg H0. unfold handle_protocol. destruct (_ =? _); [eauto with firmware|].
  destruct (lookup_returns (mem fw) fw handle (guid_at (mem fw) guid) Hok Hg H0) as (st & x & ->). rstep.
  apply returns_store; eauto with firmware.
Qed.

Lemma serve_open fw handle guid out : firmware_ok fw -> genuine (mem fw) handle ->
  load32 (mem fw) 0 <> HandleDatabase.HANDLE_SIGNATURE -> handle + 4 <= out \/ out + 8 <= handle -> 4 <= out ->
  returns (open_protocol handle_table fw handle guid out).
Proof.
  intros Hok Hg H0 Hap Hout. unfold open_protocol. destruct (_ =? _); [eauto with firmware|].
  set (m := store64 (mem fw) out 0). cbn [mem set_memory handles].
  assert (E0 : load32 m 0 = load32 (mem fw) 0) by (apply load_store_out; lia).
  assert (Hg' : genuine m handle).
  { unfold genuine, handle_at in *. subst m. by rewrite load_store_out by lia. }
  destruct (lookup_returns m fw handle (guid_at m guid) Hok Hg') as (st & x & ->); [by rewrite E0|]. rstep.
  apply returns_store; eauto with firmware.
Qed.

Lemma serve_locate fw search guid key size buffer : firmware_ok fw ->
  returns (locate_handle handle_table fw search guid key size buffer).
Proof.
  intros Hok. unfold locate_handle. destruct (_ =? _); [eauto with firmware|]. destruct (negb _); [eauto with firmware|].
  destruct (negb _); [eauto with firmware|]. rewrite (locate_handle_spec _ (fo_handles _ Hok)).
  destruct (filter _ _) as [|i hs]; [|destruct (_ <? _)]; rstep; status_step; cbn [orb];
    apply returns_Done, firmware_ok_memory; try done; apply mem_ok_store, mem_ok_store_handles, fo_memory, Hok.
Qed.

Lemma serve_locate_buffer slot fw search guid key count buffer : firmware_ok fw -> 0 <= slot ->
  returns (locate_handle_buffer handle_table slot fw search guid key count buffer).
Proof.
  intros Hok Hs. unfold locate_handle_buffer. destruct (_ =? _); [eauto with firmware|].
  destruct (negb _); [eauto with firmware|]. destruct (negb _); [eauto with firmware|].
  unfold handle_buffer, HandleDatabase.locate_handle_buffer, HandleDatabase.locate_handle_count,
    HandleDatabase.locate_handle_copy.
  rewrite (handles_with_spec _ (fo_handles _ Hok)) by lia.
  pose proof (handles_with_length _ (fo_handles _ Hok) (guid_at (mem fw) guid)) as Hl.
  set (hs := filter _ _) in *. clearbody hs. rstep. destruct (length hs =? 0)%nat; rstep; status_step; rstep.
  { destruct fw. cbn. apply returns_Done. by destruct Hok. }
  destruct (fo_allocator _ Hok) as [rs Ha]. unfold pool_allocate. set (size := Z.of_nat _).
  pose proof (pool_pages_nonneg size).
  destruct (holds_allocate _ rs AllocateAnyPages BootServicesData (pool_pages size) slot Ha) as (a' & -> & Ha').
  { unfold request_ok. by split_and!. }
  destruct (Map.allocate _ _ _ _ _ _) as [[st x] rs']. cbn [fst snd] in *. rstep.
  assert (Hok' : firmware_ok (set_allocator fw a')) by eauto with firmware. pose proof (fo_memory _ Hok') as Hm.
  destruct (Status.eqb st Status.SUCCESS) eqn:Est; cbn [negb]; rstep.
  - rewrite copy_handles_spec by lia. rstep. status_step. apply returns_Done.
    pose proof (mem_ok_store_handles handle_table _ x (HandleDatabase.Entry <$> hs) Hm) as Hh.
    apply firmware_ok_memory; [by apply firmware_ok_memory|]. by do 2 apply mem_ok_store.
  - rewrite Est. apply returns_Done. by apply firmware_ok_memory.
Qed.

Lemma serve_locate_protocol fw guid registration interface : firmware_ok fw ->
  returns (locate_protocol fw guid registration interface).
Proof.
  intros Hok. unfold locate_protocol. destruct (_ =? _); [eauto with firmware|].
  unfold HandleDatabase.locate_protocol. rewrite (locate_from_spec _ (fo_handles _ Hok)) by lia.
  destruct (head _ ≫= _); rstep; apply returns_store; eauto with firmware.
Qed.

Lemma serve_returns fw c : firmware_ok fw -> allowed fw c -> returns (serve handle_table event_address fuel fw c).
Proof.
  intros Hok Hc. pose proof (fo_memory _ Hok) as Hm. destruct c; cbn [serve allowed] in *;
    try (destruct Hc as (k & Hn & Hf & Hk)); try (destruct Hc as (Hg & Hc));
    eauto using serve_virtual, serve_get_variable, serve_set_variable, serve_memory, serve_free, serve_map, serve_pool,
      serve_event, serve_install, serve_install_multiple, serve_handle, serve_locate, serve_locate_buffer,
      serve_locate_protocol with firmware.
  - by apply serve_memory.
  - unfold create_event_ex. destruct (_ =? _); eauto with firmware.
  - by apply serve_open.
Qed.

(** An application's calls, each allowed when it is made. *)
Fixpoint all_allowed (fw : Firmware) (cs : list Call) : Prop :=
  match cs with
  | [] => True
  | c :: cs => allowed fw c /\ forall st fw', serve handle_table event_address fuel fw c = Done (st, fw') -> all_allowed fw' cs
  end.
End Safety.

(** C23: The service tables are type safe: from a well-formed state, every sequence of
    calls whose arguments are sane when they are made runs to its end, each call
    returns a status, and the allocator's map, the handle database, the variable
    store, the events and memory are well formed afterwards. *)
Theorem services_type_safe handle_table event_address fuel fw cs :
  firmware_ok fw -> all_allowed handle_table event_address fuel fw cs ->
  exists sts fw', serve_all handle_table event_address fuel fw cs = Done (sts, fw') /\
    length sts = length cs /\ firmware_ok fw'.
Proof.
  revert fw. induction cs as [|c cs IH]; intros fw Hok Hc; cbn [serve_all all_allowed] in *.
  { by exists [], fw. }
  destruct Hc as [Hc Hcs]. destruct (serve_returns handle_table event_address fuel fw c Hok Hc) as (st & fw1 & E & Hok1).
  destruct (IH fw1 Hok1 (Hcs _ _ E)) as (sts & fw2 & E2 & Hl & Hok2). rewrite E. rstep. rewrite E2. rstep.
  exists (st :: sts), fw2. cbn [length]. auto.
Qed.

(** The first calls of an application: memory, a protocol, an event, the map. *)
Definition demo_state : Firmware := mkFw ∅ demo HandleDatabase.new VariableStore.new EventInfo.new.
Lemma services_type_safe_witness : exists sts fw',
  serve_all 0x700000 (fun i => Z.of_nat i) 40 demo_state
    [InstallProtocolInterface 0x5100 0x5200 0x5300; AllocatePool LoaderData 100 0x5000;
     CreateEvent 1 2 3 4 0x5400; GetMemoryMap 0x5800 0x6000 0x5808 0x5810 0x5818; FreePages 0x200000; CStub Stall]
  = Done (sts, fw') /\ length sts = 6%nat /\ firmware_ok fw'.
Proof.
  apply (services_type_safe 0x700000 (fun i => Z.of_nat i) 40 demo_state
    [InstallProtocolInterface 0x5100 0x5200 0x5300; AllocatePool LoaderData 100 0x5000;
     CreateEvent 1 2 3 4 0x5400; GetMemoryMap 0x5800 0x6000 0x5808 0x5810 0x5818; FreePages 0x200000; CStub Stall]).
  - constructor; [eexists; apply demo_holds|apply new_db_ok|apply new_ok| |apply map_Forall_empty].
    constructor; [reflexivity|cbn; lia|constructor].
  - split; [vm_compute; exact I|]. intros st1 fw1 _. split; [cbn; lia|]. intros st2 fw2 _.
    split; [exact I|]. intros st3 fw3 _. split; [exact I|]. intros st4 fw4 _. split; [exact I|]. intros st5 fw5 _.
    split; [exact I|]. intros st6 fw6 _. exact I.
Defined.
