(* ===== verification/OsFmt.v ===== *)
(** * Text: UCS-2 strings and GUIDs as the log shows them

    The rest of efi-str/src/os_str.rs and os_string.rs (conversions, formatting,
    comparison without case), the [Debug] text of a GUID (r-efi/src/base.rs), and
    [print_guid] and [print_char16] of src/efi/mod.rs, which write to the logger. *)

From S2P Require Import Prelude REfi Mem HandleDb Console EfiStr EfiFile FileProps Services.

Module OsFmt.

(** A [fmt::Formatter]: where text goes, and whether it takes it. *)
Class Write (W : Type) := write_str : W -> list Z -> result W unit.

(** The text collected. *)
#[global] Instance Write_text : Write (list Z) := fun w s => Ok (w ++ s).

(** ** [OsStr] *)

Definition len (s : list Z) : nat := length s.
Definition from_char16_with_nul (fuel : nat) (s : nat -> Z) : res (list Z) :=
  n ← OsStr.char16_with_null_len fuel s 0;
  Done (map s (seq 0 n)).
Definition to_os_string (s : list Z) : list Z := OsStr.push [] s.

Definition BUFFER_LEN : nat := 42.

(** The loop of [format_fn]: [n] more chunks from chunk [i] on. *)
Fixpoint format_loop {W} `{Write W} (n i : nat) (s buffer : list Z) (f : W) : res (result W unit) :=
  match n with
  | O => Done (Ok f)
  | S n =>
      let end_index := if (length s <=? (i + 1) * BUFFER_LEN)%nat then length s else ((i + 1) * BUFFER_LEN)%nat in
      _ ← assert_ (i * BUFFER_LEN <=? end_index)%nat;
      '(ret, buffer) ← Encoder.decode (take (end_index - i * BUFFER_LEN) (drop (i * BUFFER_LEN) s)) buffer;
      match ret with
      | Ok n0 =>
          _ ← assert_ (n0 <=? length buffer)%nat;
          text ← unwrap (from_utf8 (take n0 buffer));
          match write_str f text with
          | Ok f => format_loop n (S i) s buffer f
          | Err e => Done (Err e)
          end
      | Err _ => format_loop n (S i) s buffer f
      end
  end.
Definition format_fn {W} `{Write W} (s : list Z) (f : W) : res (result W unit) :=
  format_loop ((length s + BUFFER_LEN) / BUFFER_LEN) 0 s (replicate (BUFFER_LEN * 3 + 1) 0) f.

(** [core::unicode::conversions] on ASCII; [lower] and [upper] are its tables
    beyond. *)
Definition ascii_lower (c : Z) : Z := if between 0x41 c 0x5a then c + 32 else c.
Definition ascii_upper (c : Z) : Z := if between 0x61 c 0x7a then c - 32 else c.
Section Case.
Context (lower upper : Z -> Z).
Definition to_lower (c : Z) : Z := if c <? 0x80 then ascii_lower c else lower c.
Definition to_upper (c : Z) : Z := if c <? 0x80 then ascii_upper c else upper c.

Fixpoint eq_ignore_loop (cs units : list Z) : bool :=
  match cs, units with
  | c :: cs, u :: units =>
      if (to_lower c =? u) || (to_upper c =? u) then eq_ignore_loop cs units else false
  | _, _ => true
  end.
Definition eq_ignore_ascii_case (units other : list Z) : bool :=
  if (length units =? length (OsStr.chars other))%nat then eq_ignore_loop (OsStr.chars other) units else false.
End Case.

(** ** [OsString] *)

(** [From<&OsStr>] *)
Definition string_from_os_str (s : list Z) : list Z := OsStr.push [] s.

(** [Display]: the whole vector is shown, whatever [decode] used of it. *)
Definition string_fmt {W} `{Write W} (s : list Z) (f : W) : res (result W unit) :=
  '(_, vec) ← Encoder.decode s (replicate (length s * 3 + 1) 0);
  text ← unwrap (from_utf8 vec);
  Done (write_str f text).

(** [ucs2_str!] of efi-str/src/macros.rs *)
Definition ucs2_str (source : list Z) : res (list Z) :=
  '(result, buffer) ← Encoder.encode source (replicate (length source + 1) 0);
  match result with Ok _ => Done buffer | Err _ => Panic end.

(** ** GUIDs *)

Definition hex_digit (d : Z) : Z := if d <? 10 then 0x30 + d else 0x57 + d.
(** [{:0wx}] of a number of at most [w] digits. *)
Fixpoint hex (w : nat) (v : Z) : list Z :=
  match w with
  | O => []
  | S w => hex w (v / 16) ++ [hex_digit (v mod 16)]
  end.
Definition DASH : Z := 0x2d.

(** [impl Debug for Guid] *)
Definition guid_text (g : Guid.t) : list Z :=
  let '(a, b, c, d, e, node) := Guid.as_fields g in
  hex 8 a ++ [DASH] ++ hex 4 b ++ [DASH] ++ hex 4 c ++ [DASH] ++ hex 2 d ++ hex 2 e ++ [DASH]
  ++ concat (map (fun i => hex 2 (node !!! i)) (seq 0 6)).

(** ** Printing to the log *)

(** [log!] of a text. *)
Definition log (s : Logger.t) (text : list Z) : Logger.t :=
  Logger.log_ex_ s Logger.LOG_LEVEL_VERBOSE Logger.LOG_MASK_COMMON text.

Definition print_guid (m : memory) (guid : Z) (s : Logger.t) : Logger.t :=
  log s (guid_text (Services.guid_at m guid)).

(** The loop of [print_char16], [n] being [max_size - i]. *)
Fixpoint print_char16_loop (m : memory) (message : Z) (n i : nat) (s : Logger.t) : nat * Logger.t :=
  match n with
  | O => (i, s)
  | S n =>
      let output := Services.char8_at m message i in
      if output =? 0 then (S i, s) else print_char16_loop m message n (S i) (log s [output])
  end.
Definition print_char16 (m : memory) (message : Z) (max_size : nat) (s : Logger.t) : nat * Logger.t :=
  print_char16_loop m message max_size 0 s.
End OsFmt.

Import OsFmt.

(** ** Formatting a string *)

Lemma length_utf8_all us : (length (utf8_all us) <= 3 * length us)%nat.
Proof.
  unfold utf8_all. induction us as [|u us IH]; cbn [map concat length]; [lia|]. rewrite length_app.
  assert (length (utf8 u) <= 3)%nat by (unfold utf8; destruct (u <=? 0x7f); cbn; lia). lia.
Qed.
Lemma utf8_all_app us vs : utf8_all (us ++ vs) = utf8_all us ++ utf8_all vs.
Proof. unfold utf8_all. by rewrite map_app, concat_app. Qed.
Lemma text_unit_size u : text_unit u -> one_or_three u.
Proof. unfold text_unit, one_or_three. lia. Qed.

(** One call of [decode] on a buffer that is large enough. *)
Lemma decode_text us buffer : Forall text_unit us -> (length (utf8_all us) <= length buffer)%nat ->
  Encoder.decode us buffer = Done (Ok (length (utf8_all us)), utf8_all us ++ drop (length (utf8_all us)) buffer) /\
  from_utf8 (utf8_all us) = Some (utf8_all us).
Proof.
  intros Hu Hl. split.
  - apply (decode_from_spec us [] buffer); [|done]. eauto using Forall_impl, text_unit_size.
  - unfold from_utf8. by rewrite is_utf8_all by (done || lia).
Qed.

Lemma format_loop_spec n : forall i s buffer (f : list Z), Forall text_unit s ->
  length buffer = (BUFFER_LEN * 3 + 1)%nat -> (n + i = (length s + BUFFER_LEN) / BUFFER_LEN)%nat ->
  format_loop n i s buffer f = Done (Ok (f ++ utf8_all (drop (i * BUFFER_LEN) s))).
Proof.
  induction n as [|n IH]; intros i s buffer f Hs Hb Hn; cbn [format_loop].
  { rewrite drop_ge by (unfold BUFFER_LEN in *; pose proof (Nat.div_mod (length s + 42) 42);
      pose proof (Nat.mod_upper_bound (length s + 42) 42); lia). by rewrite app_nil_r. }
  assert (Hi : (i * BUFFER_LEN <= length s)%nat).
  { unfold BUFFER_LEN in *. pose proof (Nat.div_mod (length s + 42) 42). lia. }
  set (e := if (_ <=? _)%nat then _ else _).
  assert (He : e = (i * BUFFER_LEN + (Nat.min BUFFER_LEN (length s - i * BUFFER_LEN)))%nat).
  { subst e. destruct (Nat.leb_spec (length s) ((i + 1) * BUFFER_LEN)); unfold BUFFER_LEN in *; lia. }
  unfold assert_. rewrite (proj2 (Nat.leb_le _ _)) by lia. rstep.
  replace (e - i * BUFFER_LEN)%nat with (Nat.min BUFFER_LEN (length (drop (i * BUFFER_LEN) s))) by (rewrite length_drop; lia).
  replace (take (Nat.min _ _) _) with (take BUFFER_LEN (drop (i * BUFFER_LEN) s)).
  2:{ destruct (Nat.min_spec BUFFER_LEN (length (drop (i * BUFFER_LEN) s))) as [[_ ->]|[? ->]]; [done|]. by rewrite firstn_all, take_ge. }
  set (chunk := take BUFFER_LEN _).
  assert (Hc : Forall text_unit chunk) by (by apply Forall_take, Forall_drop).
  assert (Hlen : (length (utf8_all chunk) <= length buffer)%nat).
  { pose proof (length_utf8_all chunk). assert (length chunk <= BUFFER_LEN)%nat by (subst chunk; rewrite length_take; lia).
    rewrite Hb. lia. }
  destruct (decode_text chunk buffer Hc Hlen) as [-> Ht]. rstep.
  rewrite length_app, (proj2 (Nat.leb_le _ _)) by lia. rstep. rewrite take_app_length, Ht. cbn [unwrap]. rstep.
  change (write_str f (utf8_all chunk)) with (@Ok (list Z) unit (f ++ utf8_all chunk)). cbv match. rewrite IH; [|done|rewrite length_app, length_drop; lia|lia].
  rewrite <- app_assoc, <- utf8_all_app. unfold chunk. replace (S i * BUFFER_LEN)%nat with (i * BUFFER_LEN + BUFFER_LEN)%nat by lia.
  by rewrite <- drop_drop, take_drop.
Qed.

(** Formatting a UCS-2 string writes its UTF-8 text, whole and in order, although
    it is converted in chunks of 42 units through one buffer, for every string of
    units that [decode] handles (one or three UTF-8 bytes, no surrogate). *)
Theorem format_fn_correct s (f : list Z) : Forall text_unit s -> format_fn s f = Done (Ok (f ++ utf8_all s)).
Proof.
  intros Hs. unfold format_fn. rewrite format_loop_spec; [|done|by rewrite length_replicate|lia].
  by rewrite Nat.mul_0_l, drop_0.
Qed.

Lemma format_fn_correct_witness :
  format_fn (replicate 100 0x4e2d) [] = Done (Ok (utf8_all (replicate 100 0x4e2d))).
Proof.
  apply (format_fn_correct (replicate 100 0x4e2d) []). apply Forall_replicate. right. lia.
Defined.

(** [Display] of an [OsString] shows the text followed by the zeros that fill its
    buffer. *)
Theorem string_fmt_padded s (f : list Z) : Forall text_unit s ->
  string_fmt s f = Done (Ok (f ++ utf8_all s ++ replicate (length s * 3 + 1 - length (utf8_all s)) 0)).
Proof.
  intros Hs. unfold string_fmt. pose proof (length_utf8_all s).
  destruct (decode_text s (replicate (length s * 3 + 1) 0) Hs) as [-> _]; [rewrite length_replicate; lia|]. rstep.
  rewrite drop_replicate. set (k := (_ - _)%nat).
  replace (utf8_all s ++ replicate k 0) with (utf8_all (s ++ replicate k 0)).
  2:{ rewrite utf8_all_app. f_equal. unfold utf8_all. clear. induction k as [|k IH]; [done|]. cbn. by rewrite IH. }
  unfold from_utf8. rewrite is_utf8_all; [done| |lia]. apply Forall_app. split; [done|].
  apply Forall_replicate. left. lia.
Qed.

(** ** Comparison without case *)

Definition is_ascii (c : Z) : Prop := 0 <= c < 0x80.

Lemma chars_ascii cs : Forall is_ascii cs -> OsStr.chars cs = cs.
Proof.
  induction 1 as [|c cs Hc Hcs IH]; [done|]. cbn [OsStr.chars]. unfold is_ascii in Hc.
  rewrite (proj2 (Z.ltb_lt _ _)) by lia. by rewrite IH.
Qed.

Lemma same_case lower upper c u : is_ascii c -> 0 <= u ->
  (to_lower lower c =? u) || (to_upper upper c =? u) = (ascii_lower c =? ascii_lower u).
Proof.
  unfold is_ascii, to_lower, to_upper, ascii_lower, ascii_upper, between. intros Hc Hu.
  rewrite (proj2 (Z.ltb_lt c 0x80)) by lia.
  repeat match goal with |- context [?a <=? ?b] => destruct (Z.leb_spec a b) end; cbn [andb]; try lia;
    repeat match goal with |- context [?a =? ?b] => destruct (Z.eqb_spec a b) end; cbn [orb]; lia.
Qed.

(** Comparison without case of a UCS-2 string with an ASCII one says whether they
    are equal once the ASCII letters of both are in lower case. *)
Theorem eq_ignore_ascii_case_correct lower upper units other : Forall is_ascii other -> Forall (Z.le 0) units ->
  eq_ignore_ascii_case lower upper units other = bool_decide (map ascii_lower units = map ascii_lower other).
Proof.
  intros Ho Hu. unfold eq_ignore_ascii_case. rewrite chars_ascii by done.
  destruct (Nat.eqb_spec (length units) (length other)) as [Hl|Hl].
  2:{ symmetry. apply bool_decide_eq_false. intros E%(f_equal length). by rewrite !length_map in E. }
  revert other Ho Hl. induction Hu as [|u units Hu0 Hu IH]; intros [|c other] Ho Hl; try done.
  apply Forall_cons in Ho as [Hc Ho]. cbn [eq_ignore_loop map]. rewrite same_case by done.
  destruct (Z.eqb_spec (ascii_lower c) (ascii_lower u)) as [E|E].
  - rewrite IH by (done || (cbn in Hl; lia)). apply bool_decide_ext. rewrite E. split; [by intros ->|by intros [=]].
  - symmetry. apply bool_decide_eq_false. intros [=]. congruence.
Qed.

(** ** The text of a GUID *)

Definition hex_value (c : Z) : Z := if c <? 0x3a then c - 0x30 else c - 0x57.
Definition parse_hex (cs : list Z) : Z := foldl (fun v c => 16 * v + hex_value c) 0 cs.

Lemma hex_value_digit d : 0 <= d < 16 -> hex_value (hex_digit d) = d.
Proof.
  intros Hd. unfold hex_value, hex_digit. destruct (Z.ltb_spec d 10).
  - rewrite (proj2 (Z.ltb_lt _ _)) by lia. lia.
  - rewrite (proj2 (Z.ltb_ge _ _)) by lia. lia.
Qed.
Lemma length_hex w v : length (hex w v) = w.
Proof. revert v. induction w as [|w IH]; intros v; [done|]. cbn [hex]. rewrite length_app, IH. cbn. lia. Qed.
Lemma parse_hex_hex w v : 0 <= v < 16 ^ Z.of_nat w -> parse_hex (hex w v) = v.
Proof.
  revert v. induction w as [|w IH]; intros v Hv; cbn [hex]; [cbn in Hv |- *; lia|].
  unfold parse_hex in *. rewrite Nat2Z.inj_succ, Z.pow_succ_r in Hv by lia.
  rewrite foldl_app. cbn [foldl]. rewrite IH by (split; [apply Z.div_pos; lia|apply Z.div_lt_upper_bound; lia]).
  rewrite hex_value_digit by (apply Z.mod_pos_bound; lia). symmetry. apply Z.div_mod. lia.
Qed.

Definition guid_of_text (cs : list Z) : Guid.t :=
  let field o n := parse_hex (take n (drop o cs)) in
  Guid.from_fields (field 0%nat 8%nat) (field 9%nat 4%nat) (field 14%nat 4%nat) (field 19%nat 2%nat) (field 21%nat 2%nat)
    (map (fun i => field (24 + 2 * i)%nat 2%nat) (seq 0 6)).

Record guid_ok (g : Guid.t) : Prop := {
  gk_low : exists a b c d, Guid.time_low g = [a; b; c; d] /\ Forall is_byte [a; b; c; d];
  gk_mid : exists a b, Guid.time_mid g = [a; b] /\ Forall is_byte [a; b];
  gk_hi : exists a b, Guid.time_hi_and_version g = [a; b] /\ Forall is_byte [a; b];
  gk_seq : is_byte (Guid.clk_seq_hi_res g) /\ is_byte (Guid.clk_seq_low g);
  gk_node : length (Guid.node g) = 6%nat /\ Forall is_byte (Guid.node g)
}.

Lemma u16_from_bytes a b : is_byte a -> is_byte b ->
  Guid.u16_from_bytes_le [a; b] = a + 256 * b /\ Guid.u16_to_bytes_le (a + 256 * b) = [a; b].
Proof.
  unfold is_byte. intros Ha Hb. unfold Guid.u16_from_bytes_le, Guid.u16_to_bytes_le, wrap. cbn -[Z.pow Z.shiftl Z.shiftr].
  rewrite lor_shift_add by (norm_pow; lia). rewrite Z.shiftr_div_pow2 by lia. norm_pow. split; [lia|]. f_equal; [|f_equal]; mlia.
Qed.
Lemma u32_from_bytes a b c d : Forall is_byte [a; b; c; d] -> let v := a + 256 * (b + 256 * (c + 256 * d)) in
  Guid.u32_from_bytes_le [a; b; c; d] = v /\ 0 <= v < 2 ^ 32 /\ Guid.u32_to_bytes_le v = [a; b; c; d].
Proof.
  intros H v. rewrite !Forall_cons in H. destruct H as (Ha & Hb & Hc & Hd & _). unfold is_byte in *.
  unfold Guid.u32_from_bytes_le, Guid.u32_to_bytes_le, wrap. cbn -[Z.pow Z.shiftl Z.shiftr].
  rewrite !Z.shiftr_div_pow2 by lia. rewrite (lor_shift_add a) by (norm_pow; lia).
  rewrite (lor_shift_add (a + _)) by (norm_pow; lia). rewrite lor_shift_add by (norm_pow; lia).
  norm_pow. subst v. split_and!; [lia..|]. repeat f_equal; mlia.
Qed.

(** The digits of a number, one by one, with what they mean. *)
Lemma hex_digits w v : 0 <= v < 16 ^ Z.of_nat w -> exists cs, hex w v = cs /\ length cs = w /\ parse_hex cs = v.
Proof. intros Hv. exists (hex w v). split; [done|]. by rewrite length_hex, parse_hex_hex. Qed.
Ltac spell w v :=
  let cs := fresh "cs" in let L := fresh "L" in let P := fresh "P" in
  destruct (hex_digits w v) as (cs & -> & L & P); [norm_pow; cbn; lia|];
  repeat (destruct cs as [|? cs]; [discriminate L|]); (destruct cs; [|discriminate L]); clear L.

(** The text of a GUID has 36 characters and determines the GUID: reading the
    hexadecimal fields back gives it. *)
Theorem guid_text_roundtrip g : guid_ok g -> guid_of_text (guid_text g) = g /\ length (guid_text g) = 36%nat.
Proof.
  intros [(a & b & c & d & E1 & B1) (e & f & E2 & B2) (h & i & E3 & B3) [B4 B5] [L6 B6]].
  destruct g as [lo mid hi s1 s2 node]. cbn [Guid.time_low Guid.time_mid Guid.time_hi_and_version Guid.clk_seq_hi_res
    Guid.clk_seq_low Guid.node] in *. subst lo mid hi.
  destruct node as [|n0 [|n1 [|n2 [|n3 [|n4 [|n5 [|]]]]]]]; try discriminate L6. clear L6.
  rewrite !Forall_cons in B2. rewrite !Forall_cons in B3. rewrite !Forall_cons in B6. destruct B2 as (B21 & B22 & _), B3 as (B31 & B32 & _). destruct B6 as (N0 & N1 & N2 & N3 & N4 & N5 & _).
  destruct (u32_from_bytes a b c d B1) as (F1 & R1 & T1). destruct (u16_from_bytes e f B21 B22) as (F2 & T2).
  destruct (u16_from_bytes h i B31 B32) as (F3 & T3).
  unfold guid_text, Guid.as_fields. cbn [Guid.time_low Guid.time_mid Guid.time_hi_and_version Guid.clk_seq_hi_res
    Guid.clk_seq_low Guid.node]. rewrite F1, F2, F3.
  cbn [seq map concat lookup_total list_lookup_total]. unfold is_byte in *.
  set (v1 := a + _) in *. set (v2 := e + _) in *. set (v3 := h + _) in *.
  assert (0 <= v2 < 2 ^ 16 /\ 0 <= v3 < 2 ^ 16) as [R2 R3] by (subst v2 v3; norm_pow; lia). clearbody v1 v2 v3.
  spell 8%nat v1. spell 4%nat v2. spell 4%nat v3. spell 2%nat s1. spell 2%nat s2.
  spell 2%nat n0. spell 2%nat n1. spell 2%nat n2. spell 2%nat n3. spell 2%nat n4. spell 2%nat n5.
  split; [|done]. unfold guid_of_text, Guid.from_fields. cbn [take drop app map seq Nat.add Nat.mul].
  congruence.
Qed.

Lemma guid_text_roundtrip_witness : guid_of_text (guid_text HandleDatabase.zero_guid) = HandleDatabase.zero_guid /\ length (guid_text HandleDatabase.zero_guid) = 36%nat.
Proof.
  apply (guid_text_roundtrip HandleDatabase.zero_guid). constructor; cbn.
  - exists 0, 0, 0, 0. split; [done|]. repeat apply Forall_cons_2; try apply Forall_nil_2; unfold is_byte; lia.
  - exists 0, 0. split; [done|]. repeat apply Forall_cons_2; try apply Forall_nil_2; unfold is_byte; lia.
  - exists 0, 0. split; [done|]. repeat apply Forall_cons_2; try apply Forall_nil_2; unfold is_byte; lia.
  - unfold is_byte. lia.
  - split; [done|]. repeat apply Forall_cons_2; try apply Forall_nil_2; unfold is_byte; lia.
Defined.
