(* ===== verification/Entry.v ===== *)
(** * Resetting the machine ([i8042_reset] of src/main.rs, [reset_system] of src/efi/mod.rs)

    The keyboard controller is outside the program: [status i] is the value its
    status register has at the [i]-th read.  [i8042_reset] never returns, so that
    the model is its first [n] rounds with the port accesses they make. *)

From S2P Require Import Prelude.

Module Entry.
(** Accesses to port 0x64. *)
Inductive Access := Read (v : Z) | Write (v : Z).

Definition INPUT_FULL : Z := 0x02.
Definition RESET : Z := 0xFE.

Section Controller.
Context (status : nat -> Z).

(** The inner loop: reads from read [i] on, until the input buffer is empty. *)
Fixpoint wait (fuel i : nat) (good : Z) (acc : list Access) : res (nat * list Access) :=
  match fuel with
  | O => OutOfFuel
  | S fuel =>
      if 0 <? Z.land good INPUT_FULL
      then wait fuel (S i) (status i) (acc ++ [Read (status i)])
      else Done (i, acc)
  end.

(** [n] rounds of the outer loop. *)
Fixpoint i8042_reset (fuel n i : nat) (acc : list Access) : res (nat * list Access) :=
  match n with
  | O => Done (i, acc)
  | S n =>
      '(i, acc) ← wait fuel i INPUT_FULL acc;
      i8042_reset fuel n i (acc ++ [Write RESET])
  end.

(** [reset_system] *)
Definition reset_system (fuel n : nat) : res (nat * list Access) := i8042_reset fuel n 0 [].
End Controller.

(** [enable_sse2]: the control registers afterwards.  The flags are constants of
    the x86_64 crate, whose [write] keeps the reserved bits. *)
Record ControlFlags := mkFlags
  { EMULATE_COPROCESSOR : Z; MONITOR_COPROCESSOR : Z; OSFXSR : Z; OSXMMEXCPT_ENABLE : Z }.
Definition enable_sse2 (fl : ControlFlags) (cr0 cr4 : Z) : Z * Z :=
  let cr0 := Z.ldiff cr0 (EMULATE_COPROCESSOR fl) in
  let cr0 := Z.lor cr0 (MONITOR_COPROCESSOR fl) in
  let cr4 := Z.lor cr4 (OSFXSR fl) in
  let cr4 := Z.lor cr4 (OSXMMEXCPT_ENABLE fl) in
  (cr0, cr4).
End Entry.

Import Entry.

(** ** The reset command is sent *)

Definition ready (v : Z) : Prop := Z.land v INPUT_FULL = 0.

(** The accesses of one round: busy reads, one that shows the controller ready,
    the command. *)
Inductive round : list Access -> Prop :=
| round_ready v : 0 <= v -> ready v -> round [Read v; Write RESET]
| round_busy v l : ~ ready v -> round l -> round (Read v :: l).

Section Liveness.
Context (status : nat -> Z) (Hbyte : forall i, 0 <= status i < 256).

Lemma land_nonneg v : 0 <= v -> (0 <? Z.land v INPUT_FULL) = false <-> ready v.
Proof.
  intros Hv. unfold ready. assert (0 <= Z.land v INPUT_FULL) by (apply Z.land_nonneg; lia). rewrite Z.ltb_ge. lia.
Qed.

(** Reads up to the first at or after [i] that shows the controller ready. *)
Lemma wait_ready j : forall i acc fuel good, ready (status (i + j)) -> (forall k, (k < j)%nat -> ~ ready (status (i + k))) ->
  0 <= good -> ~ ready good -> (j + 1 < fuel)%nat ->
  wait status fuel i good acc = Done ((i + j + 1)%nat, acc ++ map (fun k => Read (status k)) (seq i (j + 1))).
Proof.
  induction j as [|j IH]; intros i acc fuel good Hr Hb Hg Hng Hf; (destruct fuel as [|[|fuel]]; [lia..|]); cbn [wait].
  all: assert (E : (0 <? Z.land good INPUT_FULL) = true) by (apply not_false_iff_true; by rewrite land_nonneg); rewrite E.
  - rewrite Nat.add_0_r in Hr. rewrite (proj2 (land_nonneg (status i) ltac:(apply Hbyte))) by done.
    by rewrite Nat.add_0_r, Nat.add_1_r.
  - fold (wait status). specialize (IH (S i) (acc ++ [Read (status i)]) (S fuel) (status i)).
    cbn [wait] in IH. rewrite IH.
    + rewrite <- app_assoc. do 2 f_equal. lia.
    + by replace (S i + j)%nat with (i + S j)%nat by lia.
    + intros k Hk. replace (S i + k)%nat with (i + S k)%nat by lia. apply Hb. lia.
    + apply Hbyte.
    + rewrite <- (Nat.add_0_r i). apply Hb. lia.
    + lia.
Qed.

Lemma first_ready i : (exists j, (i <= j)%nat /\ ready (status j)) ->
  exists j, ready (status (i + j)) /\ forall k, (k < j)%nat -> ~ ready (status (i + k)).
Proof.
  intros (j & Hj & Hr). replace j with (i + (j - i))%nat in Hr by lia. revert Hr. generalize (j - i)%nat. clear j Hj.
  intros n. induction n as [n IH] using (well_founded_induction lt_wf). intros Hr.
  destruct (decide (Exists (fun k => Z.land (status (i + k)) INPUT_FULL = 0) (seq 0 n))) as [He|He].
  - apply Exists_exists in He as (k & Hk & Hk'). apply elem_of_seq in Hk. apply (IH k); [lia|done].
  - exists n. split; [done|]. intros k Hk Hk'. apply He, Exists_exists. exists k. split; [apply elem_of_seq; lia|done].
Qed.

Lemma round_of j : forall i, ready (status (i + j)) -> (forall k, (k < j)%nat -> ~ ready (status (i + k))) ->
  round (map (fun k => Read (status k)) (seq i (j + 1)) ++ [Write RESET]).
Proof.
  induction j as [|j IH]; intros i Hr Hb.
  - cbn. rewrite Nat.add_0_r in Hr. apply round_ready; [apply Hbyte|done].
  - cbn [Nat.add seq map app]. apply round_busy.
    + rewrite <- (Nat.add_0_r i). apply Hb. lia.
    + apply IH; [by replace (S i + j)%nat with (i + S j)%nat by lia|].
      intros k Hk. replace (S i + k)%nat with (i + S k)%nat by lia. apply Hb. lia.
Qed.

(** More fuel does not change a wait that ended. *)
Lemma wait_more fuel fuel' : forall i good acc r, wait status fuel i good acc = Done r -> (fuel <= fuel')%nat ->
  wait status fuel' i good acc = Done r.
Proof.
  revert fuel'. induction fuel as [|fuel IH]; intros [|fuel'] i good acc r H Hf; cbn [wait] in *; try done; [lia|].
  destruct (_ <? _); [|done]. apply IH; [done|lia].
Qed.
Lemma reset_more fuel fuel' n : forall i acc r, i8042_reset status fuel n i acc = Done r -> (fuel <= fuel')%nat ->
  i8042_reset status fuel' n i acc = Done r.
Proof.
  induction n as [|n IH]; intros i acc r H Hf; cbn [i8042_reset] in *; [done|].
  destruct (wait status fuel i INPUT_FULL acc) as [[i' acc']| |] eqn:E; try done.
  rewrite (wait_more _ _ _ _ _ _ E Hf). by apply IH.
Qed.
End Liveness.

(** [reset_system] makes progress: if the keyboard controller is ready again and
    again, then for every [n] its [n]-th reset command is sent after finitely many
    reads, and each command comes right after a read that shows the controller
    ready. *)
Theorem reset_is_sent status n : (forall i, 0 <= status i < 256) ->
  (forall i, exists j, (i <= j)%nat /\ ready (status j)) ->
  exists fuel k rounds, reset_system status fuel n = Done (k, concat rounds) /\ length rounds = n /\ Forall round rounds.
Proof.
  intros Hb Hlive. unfold reset_system.
  assert (G : forall i acc, exists fuel k rounds, i8042_reset status fuel n i acc = Done (k, acc ++ concat rounds) /\
    length rounds = n /\ Forall round rounds); [|apply (G 0%nat [])].
  induction n as [|n IH]; intros i acc.
  { exists 0%nat, i, []. cbn. by rewrite app_nil_r. }
  destruct (first_ready status i (Hlive i)) as (j & Hr & Hn).
  set (l := map (fun k => Read (status k)) (seq i (j + 1)) ++ [Write RESET]).
  destruct (IH (i + j + 1)%nat (acc ++ l)) as (fuel & k & rounds & E & Hl & Hf).
  exists (Nat.max fuel (j + 2)), k, (l :: rounds). split_and!; [|cbn; lia|].
  - cbn [i8042_reset]. rewrite (wait_ready status Hb j) by (done || lia). rstep.
    rewrite <- app_assoc. fold l. rewrite (reset_more _ fuel _ _ _ _ _ E) by lia. cbn [concat]. by rewrite app_assoc.
  - constructor; [|done]. by apply round_of.
Qed.

(** A controller that is busy at every second read. *)
Lemma reset_is_sent_witness : exists fuel k rounds,
  reset_system (fun i => if Nat.even i then 2 else 0) fuel 3 = Done (k, concat rounds) /\
  length rounds = 3%nat /\ Forall round rounds.
Proof.
  apply (reset_is_sent (fun i => if Nat.even i then 2 else 0) 3).
  - intros i. destruct (Nat.even i); lia.
  - intros i. exists (S (2 * i)). split; [lia|]. by rewrite Nat.even_succ, Nat.odd_mul.
Defined.

(** The bits of the four flags in the processor's registers. *)
Definition architecture_flags : ControlFlags := mkFlags (2 ^ 2) (2 ^ 1) (2 ^ 9) (2 ^ 10).

(** Afterwards coprocessor emulation is off, monitoring and both SSE bits are on,
    and every other bit is as it was. *)
Lemma sse2_enabled cr0 cr4 i : 0 <= i ->
  Z.testbit (enable_sse2 architecture_flags cr0 cr4).1 i =
    (if i =? 2 then false else if i =? 1 then true else Z.testbit cr0 i) /\
  Z.testbit (enable_sse2 architecture_flags cr0 cr4).2 i =
    (if (i =? 9) || (i =? 10) then true else Z.testbit cr4 i).
Proof.
  intros Hi. cbn [enable_sse2 architecture_flags fst snd EMULATE_COPROCESSOR MONITOR_COPROCESSOR OSFXSR OSXMMEXCPT_ENABLE].
  rewrite !Z.lor_spec, Z.ldiff_spec, !Z.pow2_bits_eqb by lia. rewrite !(Z.eqb_sym _ i).
  destruct (Z.eqb_spec i 2); destruct (Z.eqb_spec i 1); destruct (Z.eqb_spec i 9); destruct (Z.eqb_spec i 10);
    destruct (Z.testbit cr0 i), (Z.testbit cr4 i); split; try reflexivity; lia.
Qed.
