(* ===== verification/UnitTests.v ===== *)
(** * The repository's unit tests, run in the model

    The [#\[cfg(test)\]] functions of the sources that need no disk image, with the
    calls and assertions in their order.  A failed assertion is a panic, so a test
    passes when it is [Done].  They tie the models to behaviour the authors wrote
    down independently: src/efi/alloc.rs, src/fat.rs, efi-str/src/encoder.rs,
    efi-str/src/lib.rs, r-efi/src/base.rs. *)

From S2P Require Import Prelude REfi Mem Part Alloc EfiStr Fat EfiFile OsFmt.

(** [assert_eq!] and [assert_ne!] *)
Definition assert_eq {A} `{EqDecision A} (x y : A) : res unit := assert_ (bool_decide (x = y)).
Definition assert_ne {A} `{EqDecision A} (x y : A) : res unit := assert_ (negb (bool_decide (x = y))).

(** ** src/efi/alloc.rs *)
Module AllocTests.
Import Alloc.

Definition MIB : Z := 1024 * 1024.
Definition pages (bytes : Z) : Z := bytes / PAGE_SIZE.

(** [assert_eq!] on the fields of a slot and of a descriptor. *)
Definition next_is (s : Allocator) (i : nat) (n : option nat) : res unit :=
  a ← slot s i; assert_eq (next_allocation a) n.
Definition used (s : Allocator) (i : nat) : res unit := a ← slot s i; assert_ (in_use a).
Definition start_is (s : Allocator) (i : nat) (p : Z) : res unit :=
  a ← slot s i; assert_eq (physical_start (descriptor a)) p.
Definition pages_are (s : Allocator) (i : nat) (n : Z) : res unit :=
  a ← slot s i; assert_eq (number_of_pages (descriptor a)) n.
Definition type_is (s : Allocator) (i : nat) (t : MemoryType) : res unit :=
  a ← slot s i; assert_eq (type_ (descriptor a)) (memory_type_u32 t).
Definition descriptor_is (ds : list MemoryDescriptor) (i : nat) (p n : Z) (t : MemoryType) : res unit :=
  d ← index ds i;
  _ ← assert_eq (physical_start d) p;
  _ ← assert_eq (number_of_pages d) n;
  assert_eq (type_ d) (memory_type_u32 t).

Definition add_initial_allocations (s : Allocator) : res Allocator :=
  '(status, s) ← add_initial_allocation s ConventionalMemory (pages 0x9fc00) 0 0;
  _ ← assert_eq status Status.SUCCESS;
  _ ← assert_eq (first_allocation s) (Some 0%nat);
  _ ← used s 0; _ ← next_is s 0 None; _ ← start_is s 0 0; _ ← pages_are s 0 (pages 0x9fc00);
  '(status, s) ← add_initial_allocation s ConventionalMemory (pages (127 * MIB)) MIB 0;
  _ ← assert_eq status Status.SUCCESS;
  _ ← assert_eq (first_allocation s) (Some 0%nat);
  _ ← used s 0; _ ← next_is s 0 (Some 1%nat); _ ← start_is s 0 0; _ ← pages_are s 0 (pages 0x9fc00);
  _ ← used s 1; _ ← next_is s 1 None; _ ← start_is s 1 MIB; _ ← pages_are s 1 (pages (127 * MIB));
  _ ← type_is s 0 ConventionalMemory;
  '(status, s) ← add_initial_allocation s MemoryMappedIO (pages (512 * MIB)) (3584 * MIB) 0;
  _ ← assert_eq status Status.SUCCESS;
  _ ← used s 2; _ ← next_is s 2 None; _ ← start_is s 2 (3584 * MIB); _ ← pages_are s 2 (pages (512 * MIB));
  _ ← type_is s 2 MemoryMappedIO;
  '(status, s) ← add_initial_allocation s ConventionalMemory (pages (4096 * MIB)) (4096 * MIB) 0;
  _ ← assert_eq status Status.SUCCESS;
  Done s.

Definition test_initial_allocations : res unit :=
  _ ← assert_eq (first_allocation new) None;
  _ ← add_initial_allocations new;
  Done tt.

Definition test_split_allocation : res unit :=
  s ← add_initial_allocations new;
  '(split, s) ← split_allocation s 1 (MIB / 4096);
  _ ← assert_eq split (Some 4%nat);
  _ ← assert_eq (first_allocation s) (Some 0%nat);
  _ ← used s 1; _ ← next_is s 1 (Some 4%nat); _ ← start_is s 1 0x100000; _ ← pages_are s 1 (pages MIB);
  _ ← type_is s 0 ConventionalMemory;
  _ ← used s 4; _ ← next_is s 4 (Some 2%nat); _ ← start_is s 4 (2 * MIB); _ ← pages_are s 4 (pages (126 * MIB));
  type_is s 4 ConventionalMemory.

Definition test_find_free_allocation : res unit :=
  _ ← assert_eq (find_free_allocation new) 0%nat;
  s ← add_initial_allocations new;
  assert_eq (find_free_allocation s) 4%nat.

(** [assert_eq!(allocator.find_free_memory(..), r)] *)
Definition finds (s : Allocator) (t : AllocateType) (n a : Z) (r : option nat) : res unit :=
  o ← find_free_memory s t n a; assert_eq o r.

Definition test_find_free_memory : res unit :=
  _ ← finds new AllocateAddress (pages MIB) MIB None;
  s ← add_initial_allocations new;
  _ ← finds s AllocateAddress 1024 MIB (Some 1%nat);
  _ ← finds s AllocateAddress (pages MIB) (1024 * MIB) None;
  _ ← finds s AllocateAddress (pages (1024 * MIB)) 0 None;
  _ ← finds s AllocateAddress (pages (2 * MIB)) (127 * MIB) None;
  '(status, s) ← add_initial_allocation s ConventionalMemory (pages (4096 * MIB)) (4096 * MIB) 0;
  _ ← assert_eq status Status.SUCCESS;
  _ ← finds s AllocateMaxAddress (pages (64 * MIB)) (4096 * MIB) (Some 1%nat);
  _ ← finds s AllocateMaxAddress (pages (256 * MIB)) (4096 * MIB) None;
  _ ← finds s AllocateMaxAddress (pages (256 * MIB)) (8192 * MIB) (Some 3%nat);
  _ ← finds s AllocateAnyPages (pages (128 * MIB)) 0 (Some 3%nat);
  finds s AllocateAnyPages (pages (256 * MIB)) 0 (Some 3%nat).

Definition zeroed : list MemoryDescriptor := replicate MAX_ALLOCATIONS (mkMD 0 0 0 0 0).

(** [assert_eq!(allocator.allocate_pages(..), (status, address))] *)
Definition allocates (s : Allocator) (n a : Z) (st : Status.t) (r : Z) : res Allocator :=
  '((status, address), s) ← allocate_pages s AllocateAddress LoaderData n a;
  _ ← assert_eq status st;
  _ ← assert_eq address r;
  Done s.
(** [let count = allocator.get_descriptors(..); assert_eq!(count, n)] *)
Definition counts (s : Allocator) (ds : list MemoryDescriptor) (n : nat) : res (list MemoryDescriptor) :=
  '(count, ds) ← get_descriptors s ds;
  _ ← assert_eq count n;
  Done ds.
Definition low_pages (ds : list MemoryDescriptor) (first : MemoryType) : res unit :=
  _ ← descriptor_is ds 0 0 1 first;
  _ ← descriptor_is ds 1 0x1000 1 LoaderData;
  descriptor_is ds 2 0x2000 (pages 0x9fc00 - 2) ConventionalMemory.

Definition test_allocate_pages : res unit :=
  s ← add_initial_allocations new;
  ds ← counts s zeroed 4;
  s ← allocates s 1 0x1000 Status.SUCCESS 0x1000;
  ds ← counts s ds 6;
  _ ← low_pages ds ConventionalMemory;
  s ← allocates s 1 0x1000 Status.OUT_OF_RESOURCES 0;
  ds ← counts s ds 6;
  _ ← low_pages ds ConventionalMemory;
  s ← allocates s 1 0 Status.SUCCESS 0;
  ds ← counts s ds 6;
  low_pages ds LoaderData.

Definition test_free_pages : res unit :=
  s ← add_initial_allocations new;
  ds ← counts s zeroed 4;
  s ← allocates s 1 0x1000 Status.SUCCESS 0x1000;
  ds ← counts s ds 6;
  _ ← low_pages ds ConventionalMemory;
  '(status, s) ← free_pages s 0x1000;
  _ ← assert_eq status Status.SUCCESS;
  _ ← counts s ds 4;
  Done tt.
End AllocTests.

(** ** src/fat.rs *)
Module FatTests.
Definition test_get_short_name : res unit :=
  let short_name := [66; 79; 79; 84; 88; 54; 52; 0x20; 0x45; 0x46; 0x49] in
  let short_name2 := [66; 79; 79; 84; 88; 54; 52; 66; 0x45; 0x46; 0x49] in
  let short_name_ok := [66; 79; 79; 84; 88; 54; 52; 46; 0x45; 0x46; 0x49; 0x0] in
  let short_name2_ok := [66; 79; 79; 84; 88; 54; 52; 66; 46; 0x45; 0x46; 0x49] in
  s ← Fat.get_short_name short_name;
  _ ← assert_eq s short_name_ok;
  s ← Fat.get_short_name short_name2;
  assert_eq s short_name2_ok.
End FatTests.

(** ** efi-str *)
Module StrTests.
(** The UTF-8 bytes of the two-character name of China. *)
Definition zhongguo : list Z := [0xe4; 0xb8; 0xad; 0xe5; 0x9b; 0xbd].

Definition test_encode : res unit :=
  '(r, buffer) ← Encoder.encode zhongguo [0; 0];
  _ ← assert_eq (match r with Ok _ => true | Err _ => false end) true;
  b0 ← index buffer 0; _ ← assert_eq b0 0x4e2d;
  b1 ← index buffer 1; assert_eq b1 0x56fd.

Definition test_decode : res unit :=
  '(r, buffer) ← Encoder.decode [0x4e2d; 0x56fd] (replicate 6 0);
  _ ← assert_eq (match r with Ok n => n | Err _ => 0%nat end) 6%nat;
  assert_eq (from_utf8 buffer) (Some zhongguo).

(** The strings are shown with [println!], which goes through [format_fn]. *)
Definition test_os_str (beyond : nat -> Z) (lower upper : Z -> Z) : res unit :=
  let path := [0x4e2d; 0x56fd; 0x0] in
  path_osstr ← OsFmt.from_char16_with_nul 4 (fun i => nth i path 0);
  _ ← OsFmt.format_fn path_osstr ([] : list Z);
  let path_osstr_nul := path in
  path_osstr ← OsStr.from_u16_slice_with_nul beyond path;
  _ ← OsFmt.format_fn path_osstr ([] : list Z);
  _ ← assert_ (OsStr.eq_str path_osstr zhongguo);
  _ ← assert_ (OsStr.eq_str path_osstr_nul (zhongguo ++ [0]));
  _ ← assert_ (negb (OsStr.eq_os path_osstr path_osstr_nul));
  _ ← assert_ (negb (OsStr.eq_str path_osstr [0xe4; 0xb8; 0xad; 0x31]));
  assert_eq (OsFmt.eq_ignore_ascii_case lower upper [0x48; 0x49] [0x68; 0x69]) true.
End StrTests.

(** ** r-efi/src/base.rs *)
Module BaseTests.
(** The body of the loop over all [u8]. *)
Definition boolean_case (i : Z) : res unit :=
  let v1 := Boolean.from_u8 i in
  let v2 := Boolean.mk i in
  _ ← assert_ (Boolean.eqb v1 v2); _ ← assert_ (Boolean.eqb v1 v1); _ ← assert_ (Boolean.eqb v2 v2);
  let same := if i =? 0 then Boolean.FALSE else Boolean.TRUE in
  let other := if i =? 0 then Boolean.TRUE else Boolean.FALSE in
  _ ← assert_ (Boolean.eqb v1 same); _ ← assert_ (Boolean.eqb_bool v1 (Boolean.to_bool same));
  _ ← assert_ (Boolean.eqb v2 same); _ ← assert_ (Boolean.eqb_bool v2 (Boolean.to_bool same));
  _ ← assert_ (negb (Boolean.eqb v1 other)); _ ← assert_ (negb (Boolean.eqb_bool v1 (Boolean.to_bool other)));
  _ ← assert_ (negb (Boolean.eqb v2 other)); assert_ (negb (Boolean.eqb_bool v2 (Boolean.to_bool other))).
Fixpoint boolean_cases (n : nat) (i : Z) : res unit :=
  match n with
  | O => Done tt
  | S n => _ ← boolean_case i; boolean_cases n (i + 1)
  end.
Definition booleans : res unit :=
  _ ← assert_ (negb (Boolean.eqb Boolean.FALSE Boolean.TRUE));
  _ ← assert_ (Boolean.eqb_bool Boolean.FALSE false);
  _ ← assert_ (Boolean.eqb_bool Boolean.TRUE true);
  boolean_cases 256 0.
End BaseTests.

(** The allocator's unit tests pass in the model: every call of the six tests
    returns what the authors assert, and none panics. *)
Theorem allocator_tests_pass :
  Forall (fun t => t = Done tt)
    [AllocTests.test_initial_allocations; AllocTests.test_split_allocation; AllocTests.test_find_free_allocation;
     AllocTests.test_find_free_memory; AllocTests.test_allocate_pages; AllocTests.test_free_pages].
Proof. repeat (apply Forall_cons_2; [vm_compute; reflexivity|]). apply Forall_nil_2. Qed.

(** The other unit tests: short names, conversions, comparisons, booleans. *)
Theorem other_tests_pass beyond lower upper :
  Forall (fun t => t = Done tt)
    [FatTests.test_get_short_name; StrTests.test_encode; StrTests.test_decode;
     StrTests.test_os_str beyond lower upper; BaseTests.booleans].
Proof. repeat (apply Forall_cons_2; [vm_compute; reflexivity|]). apply Forall_nil_2. Qed.
