(* ===== verification/EfiBlock.v ===== *)
(** * The EFI block protocol (src/efi/block.rs): data and operations

    Every partition, and the whole disk, gets a [BlockWrapper] in pages of its
    own: a C structure whose bytes are in memory, with the protocol the
    application calls and the device path it is found by.  The disk is any
    [SectorRead]. *)

From S2P Require Import Prelude REfi Mem Part Alloc HandleDb DevicePath EfiFile Services.

Module EfiBlock.
Import Services.

(** r-efi/src/protocols/block_io.rs *)
Definition BLOCK_IO_GUID : Guid.t :=
  Guid.from_fields 0x964e5b21 0x6459 0x11d2 0x8e 0x39 [0x0; 0xa0; 0xc9; 0x69; 0x72; 0x3b].

(** [BlockWrapper], [repr(C)]: offsets of its members, and its size. *)
Definition BLOCK : Z := 8.
Definition MEDIA : Z := 16.
Definition PROTO : Z := 48.
Definition CONTROLLER_PATH : Z := 96.
Definition DISK_PATHS : Z := 104.
Definition START_LBA : Z := 160.
Definition WRAPPER_SIZE : Z := 168.

Definition reset : Status.t := Status.UNSUPPORTED.
Definition write_blocks : Status.t := Status.UNSUPPORTED.
Definition flush_blocks : Status.t := Status.UNSUPPORTED.

(** Addresses of the four callbacks and of the device. *)
Record Callbacks := mkCallbacks { reset_fn : Z; read_fn : Z; write_fn : Z; flush_fn : Z; device : Z }.

(** The bytes of a [BlockDevicePath]: a PCI node, a hard-disk node, the end. *)
Definition pci_node : list Z := [1; 1; 6; 0; 0; 3].
Definition hard_disk_node (partition_number start_lba last_lba : Z) (uuid : list Z) : list Z :=
  [4; 1; 42; 0] ++ le_split 4 partition_number ++ le_split 8 start_lba
  ++ le_split 8 (u64 (u64 (last_lba - start_lba) + 1)) ++ uuid ++ [2; 2].
Definition end_node : list Z := [0x7f; 0xff; 4; 0].
Definition block_device_path (partition_number start_lba last_lba : Z) (uuid : list Z) : list Z :=
  pci_node ++ hard_disk_node partition_number start_lba last_lba uuid ++ end_node.

(** The structure written at [bw]. *)
Definition store_media (m : memory) (a last_block : Z) : memory :=
  let m := store32 m a 0 in
  let m := store_bytes m (a + 4) [0; 1; 0; 1; 0] in
  let m := store32 m (a + 12) 512 in
  let m := store32 m (a + 16) 0 in
  store64 m (a + 24) last_block.
Definition store_proto (cb : Callbacks) (m : memory) (a media : Z) : memory :=
  let m := store64 m a 0x10000 in
  let m := store64 m (a + 8) media in
  let m := store64 m (a + 16) (reset_fn cb) in
  let m := store64 m (a + 24) (read_fn cb) in
  let m := store64 m (a + 32) (write_fn cb) in
  store64 m (a + 40) (flush_fn cb).
Definition store_wrapper (cb : Callbacks) (m : memory) (bw last_block partition_number start_lba last_lba : Z)
    (uuid : list Z) : memory :=
  let m := store8 m bw 1 in
  let m := store64 m (bw + BLOCK) (device cb) in
  let m := store_media m (bw + MEDIA) last_block in
  let m := store_proto cb m (bw + PROTO) (bw + MEDIA) in
  let m := store_bytes m (bw + CONTROLLER_PATH) ([1; 5; 8; 0] ++ le_split 4 0) in
  let m := store_bytes m (bw + DISK_PATHS) (block_device_path partition_number start_lba last_lba uuid) in
  store64 m (bw + START_LBA) start_lba.

(** [BlockWrapper::new]; the status of the allocation is ignored. *)
Definition new (cb : Callbacks) (fw : Firmware) (capacity partition_number start_lba last_lba : Z)
    (uuid : list Z) : res (Z * Firmware) :=
  let last_block := u64 (capacity - 1) in
  '((_, new_address), a) ←
    Alloc.allocate_pages (allocator fw) AllocateAnyPages LoaderData
      (usize (usize (WRAPPER_SIZE + Alloc.PAGE_SIZE) - 1) / Alloc.PAGE_SIZE) 0;
  Done (new_address,
        set_memory (set_allocator fw a)
          (store_wrapper cb (mem fw) new_address last_block partition_number start_lba last_lba uuid)).

Section Disk.
Context {D : Type} `{SectorRead D}.

(** [for i in 0..blocks] *)
Fixpoint blocks_loop (n : nat) (disk : D) (m : memory) (region : MemoryRegion.t) (lba i : Z)
    : res (Status.t * memory) :=
  match n with
  | O => Done (Status.SUCCESS, m)
  | S n =>
      '(data, len) ← MemoryRegion.as_slice region 1 (u64 (i * 512)) 512;
      match read_sector disk (u64 (lba + i)) with
      | Ok sector => blocks_loop n disk (store_bytes m data sector) region lba (i + 1)
      | Err _ => Done (Status.DEVICE_ERROR, m)
      end
  end.

Definition read_blocks (disk : D) (m : memory) (proto start size buffer : Z) : res (Status.t * memory) :=
  let wrapper := EfiFile.container_of proto PROTO in
  let blocks := size / 512 in
  let region := MemoryRegion.new buffer size in
  blocks_loop (Z.to_nat blocks) disk m region (u64 (load64 m (wrapper + START_LBA) + start)) 0.

Record BlockWrappers := mkWrappers { wrappers : list Z; count : nat }.

(** The two protocols of a wrapper, on one new handle. *)
Definition install_wrapper (fw : Firmware) (bw path : Z) : res Firmware :=
  '(_, handle, fw) ← install_local fw HandleDatabase.Null BLOCK_IO_GUID (bw + PROTO);
  '(_, _, fw) ← install_local fw handle DevicePath.PROTOCOL_GUID path;
  Done fw.

(** [for i in 0..part_count] *)
Fixpoint parts_loop (cb : Callbacks) (capacity : Z) (parts : list Part.PartitionEntry) (i : nat) (fw : Firmware)
    (ws : list Z) (last_lba : Z) (efi_part_id : option nat) : res (list Z * Z * option nat * Firmware) :=
  match parts with
  | [] => Done (ws, last_lba, efi_part_id, fw)
  | p :: parts =>
      '(bw, fw) ← new cb fw capacity (Z.of_nat i + 1) (Part.first_lba p) (Part.last_lba p) (Part.guid p);
      ws ← update ws (i + 1) bw;
      let last_lba := if last_lba <? Part.last_lba p then Part.last_lba p else last_lba in
      let efi_part_id := if Part.is_efi_partition p then Some (i + 1)%nat else efi_part_id in
      fw ← install_wrapper fw bw (bw + DISK_PATHS);
      parts_loop cb capacity parts (S i) fw ws last_lba efi_part_id
  end.

Definition no_entry : Part.PartitionEntry := Part.mkEntry (replicate 16 0) (replicate 16 0) 0 0.

(** [populate_block_wrappers]; [local] is where its local device path lives. *)
Definition populate_block_wrappers (fuel : nat) (cb : Callbacks) (local : Z) (fw : Firmware) (bws : BlockWrappers)
    (disk : D) (capacity : Z) : res (option nat * BlockWrappers * Firmware) :=
  '(r, parts) ← Part.get_partitions disk (replicate 16 no_entry);
  match r with
  | Err _ => Panic
  | Ok part_count =>
      _ ← assert_ (Z.to_nat part_count <=? 16)%nat;
      '(ws, last_lba, efi_part_id, fw) ←
        parts_loop cb capacity (take (Z.to_nat part_count) parts) 0 fw (wrappers bws) 0 (Some 0%nat);
      '(bw, fw) ← new cb fw capacity 0 0 last_lba (replicate 16 0);
      ws ← update ws 0 bw;
      '(_, handle, fw) ← install_local fw HandleDatabase.Null BLOCK_IO_GUID (bw + PROTO);
      let fw := set_memory fw (store_bytes (mem fw) local (pci_node ++ end_node)) in
      '(device_path_buffer, fw) ← dup_device_path fuel fw local;
      '(_, _, fw) ← install_local fw handle DevicePath.PROTOCOL_GUID device_path_buffer;
      Done (efi_part_id, mkWrappers ws (Z.to_nat part_count + 1), fw)
  end.
End Disk.

(** [get_block_io_media_str] *)
Definition get_block_io_media_str (bws : BlockWrappers) (i : nat) : res Z :=
  w ← index (wrappers bws) i;
  Done (w + MEDIA).
End EfiBlock.
