(* ===== verification/BlockProps.v ===== *)
(** * Theorems on the EFI block protocol *)

From S2P Require Import Prelude REfi Mem Part Alloc MemMap MapSafety AllocRepr AllocRefine AllocSafety HandleDb Variables Events DevicePath EfiFile FileProps Services EfiBlock.
Import EfiBlock.

(** ** Reading blocks *)
Section Disk.
Context {D : Type} `{SectorRead D} (disk : D).

(** The sectors a read of [n] blocks finds: all of them, or those before the
    first the disk does not give. *)
Fixpoint good_sectors (n : nat) (lba : Z) : list (list Z) :=
  match n with
  | O => []
  | S n => match read_sector disk lba with Ok d => d :: good_sectors n (lba + 1) | Err _ => [] end
  end.

Lemma good_sectors_length n lba : (length (good_sectors n lba) <= n)%nat.
Proof. revert lba. induction n as [|n IH]; intros lba; cbn; [lia|]. destruct (read_sector _ _); cbn; [|lia]. specialize (IH (lba + 1)). lia. Qed.

Lemma blocks_loop_spec n m region lba i : 0 <= i -> 0 <= lba -> lba + i + Z.of_nat n <= 2 ^ 64 ->
  0 <= MemoryRegion.base region -> 512 * (i + Z.of_nat n) <= MemoryRegion.length region ->
  MemoryRegion.base region + MemoryRegion.length region <= 2 ^ 64 -> MemoryRegion.length region < 2 ^ 64 ->
  let ds := good_sectors n (lba + i) in
  blocks_loop n disk m region lba i =
    Done (if (length ds =? n)%nat then Status.SUCCESS else Status.DEVICE_ERROR,
          store_bytes m (MemoryRegion.base region + 512 * i) (concat ds)).
Proof.
  revert m i. induction n as [|n IH]; intros m i Hi Hl Hw Hb Hr Hend Hlen; cbn [blocks_loop good_sectors]; [done|].
  rewrite (wrap_small 64 (i * 512)), (Z.mul_comm i 512) by lia. rewrite MemoryRegion.as_slice_in by lia. rstep.
  rewrite (wrap_small 64 (lba + i)) by lia.
  destruct (read_sector disk (lba + i)) as [d|e] eqn:Ed; [|done].
  rewrite IH by lia. replace (lba + (i + 1)) with (lba + i + 1) by lia. cbn [length concat Nat.eqb].
  pose proof (read_sector_length _ _ _ Ed) as [Hd _]. rewrite store_bytes_app, Hd.
  replace (MemoryRegion.base region + 512 * (i + 1)) with (MemoryRegion.base region + 512 * i + Z.of_nat 512) by lia.
  done.
Qed.
End Disk.

(** ** A wrapper in memory *)

(** What the structure at [bw] says. *)
Record wrapper_at (m : memory) (bw last_block number start last : Z) (uuid : list Z) : Prop := {
  wa_start : load64 m (bw + START_LBA) = start;
  wa_path : load_bytes m (bw + DISK_PATHS) 52 = block_device_path number start last uuid;
  wa_media : load64 m (bw + PROTO + 8) = bw + MEDIA;
  wa_block_size : load32 m (bw + MEDIA + 12) = 512;
  wa_last_block : load64 m (bw + MEDIA + 24) = last_block
}.

Lemma length_block_device_path number start last uuid : length uuid = 16%nat ->
  length (block_device_path number start last uuid) = 52%nat.
Proof.
  intros Hu. unfold block_device_path, hard_disk_node, pci_node, end_node.
  rewrite !length_app, !length_le_split, Hu. done.
Qed.

Lemma block_device_path_ok number start last uuid : bytes_ok uuid ->
  bytes_ok (block_device_path number start last uuid).
Proof.
  intros Hu. unfold block_device_path, hard_disk_node, pci_node, end_node.
  rewrite !Forall_app. split_and!; auto using le_split_ok; repeat constructor; done.
Qed.

Lemma load_bytes_kept m m' a bs : bytes_ok bs ->
  (forall x, a <= x < a + Z.of_nat (length bs) -> load8 m' x = load8 (store_bytes m a bs) x) ->
  load_bytes m' a (length bs) = bs.
Proof.
  intros Hb Hm. etransitivity; [|by apply load_bytes_store_bytes]. by apply load_bytes_ext.
Qed.

Lemma load_kept n m m' a v : 0 <= v < 2 ^ (8 * Z.of_nat n) ->
  (forall x, a <= x < a + Z.of_nat n -> load8 m' x = load8 (store n m a v) x) -> load n m' a = v.
Proof.
  intros Hv Hm. etransitivity; [by apply load_ext|]. rewrite load_store. by apply Z.mod_small.
Qed.

Lemma store_wrapper_outside cb m bw lb number start last uuid x : length uuid = 16%nat ->
  x < bw \/ bw + WRAPPER_SIZE <= x ->
  load8 (store_wrapper cb m bw lb number start last uuid) x = load8 m x.
Proof.
  intros Hu Hx. unfold store_wrapper, store_proto, store_media.
  unfold BLOCK, MEDIA, PROTO, CONTROLLER_PATH, DISK_PATHS, START_LBA, WRAPPER_SIZE in *.
  rewrite load8_store_out by lia. rewrite load8_store_bytes_out by (rewrite length_block_device_path by done; lia).
  rewrite load8_store_bytes_out by (cbn [length app le_split]; lia). repeat (rewrite load8_store_out by lia).
  rewrite load8_store_bytes_out by (cbn [length]; lia). repeat (rewrite load8_store_out by lia).
  unfold store8, load8. by rewrite lookup_insert_ne by lia.
Qed.

(** A member written before the paths is still there. *)
Ltac member Hl :=
  eapply load_kept; [cbn; lia|]; let x := fresh in let Hx := fresh in intros x Hx;
  rewrite load8_store_out by lia;
  rewrite !load8_store_bytes_out by (rewrite ?Hl; cbn [length app le_split]; lia);
  repeat (rewrite load8_store_out by lia); done.

Lemma store_wrapper_at cb m bw lb number start last uuid : length uuid = 16%nat -> bytes_ok uuid ->
  0 <= start < 2 ^ 64 -> 0 <= lb < 2 ^ 64 -> 0 <= bw -> bw + WRAPPER_SIZE < 2 ^ 64 ->
  wrapper_at (store_wrapper cb m bw lb number start last uuid) bw lb number start last uuid.
Proof.
  intros Hu Hb Hs Hlb Hw Hw'. unfold store_wrapper, store_proto, store_media.
  pose proof (length_block_device_path number start last uuid Hu) as Hl.
  constructor; unfold BLOCK, MEDIA, PROTO, CONTROLLER_PATH, DISK_PATHS, START_LBA, WRAPPER_SIZE in *.
  - by eapply load_kept.
  - rewrite <- Hl. eapply load_bytes_kept; [by apply block_device_path_ok|]. intros x Hx. rewrite Hl in Hx.
    by rewrite load8_store_out by lia.
  - member Hl.
  - member Hl.
  - member Hl.
Qed.

(** Bytes at an address, one by one. *)
Lemma load8_of_bytes m a bs i b : load_bytes m a (length bs) = bs -> bs !! i = Some b ->
  load8 m (a + Z.of_nat i) = b.
Proof.
  intros E Hi. pose proof (lookup_load_bytes m a (length bs) i (lookup_lt_Some _ _ _ Hi)) as Hl.
  rewrite E, Hi in Hl. by injection Hl.
Qed.

Lemma node_at_bytes m a t st sz : load8 m a = t -> load8 m (a + 1) = st -> load8 m (a + 2) = sz ->
  load8 m (a + 3) = 0 -> 4 <= sz -> node_at m a (mkNode t st sz).
Proof.
  intros Ht Hs Hz H0 H4.
  unfold node_at, DevicePath.get_device_path_node_type, DevicePath.get_device_path_node_sub_type,
    DevicePath.get_device_path_node_size.
  rewrite Ht, Hs, Hz, H0. cbn [ntype nsub nsize]. by rewrite Z.lor_0_r.
Qed.

(** The path of a wrapper is a well-formed device path of 52 bytes. *)
Lemma wrapper_path m bw lb number start last uuid : wrapper_at m bw lb number start last uuid ->
  length uuid = 16%nat -> 0 <= bw -> bw + WRAPPER_SIZE < 2 ^ 64 ->
  path_at m (bw + DISK_PATHS) [mkNode 1 1 6; mkNode 4 1 42] (mkNode 0x7f 0xff 4).
Proof.
  intros [_ Hp _ _ _] Hu Hb Hw. unfold DISK_PATHS, WRAPPER_SIZE in *.
  pose proof (length_block_device_path number start last uuid Hu) as Hl. rewrite <- Hl in Hp.
  assert (H8 : forall i b, block_device_path number start last uuid !! i = Some b ->
    load8 m (bw + 104 + Z.of_nat i) = b) by (intros; by eapply load8_of_bytes).
  assert (Hend : forall i b, end_node !! i = Some b -> block_device_path number start last uuid !! (48 + i)%nat = Some b).
  { intros i b Hi. unfold block_device_path. rewrite app_assoc, lookup_app_r.
    - rewrite <- Hi. f_equal. unfold hard_disk_node, pci_node. rewrite !length_app, !length_le_split, Hu. cbn [length]. lia.
    - unfold hard_disk_node, pci_node. rewrite !length_app, !length_le_split, Hu. cbn [length]. lia. }
  assert (Hn : forall k (t st sz : Z), load8 m (bw + 104 + Z.of_nat k) = t ->
    load8 m (bw + 104 + Z.of_nat (k + 1)) = st -> load8 m (bw + 104 + Z.of_nat (k + 2)) = sz ->
    load8 m (bw + 104 + Z.of_nat (k + 3)) = 0 -> 4 <= sz -> node_at m (bw + 104 + Z.of_nat k) (mkNode t st sz)).
  { intros k t st sz H0 H1 H2 H3 H4. apply node_at_bytes; [done|..|done];
      [rewrite <- H1|rewrite <- H2|rewrite <- H3]; f_equal; lia. }
  cbn [path_at nsize]. replace (bw + 104 + 6) with (bw + 104 + Z.of_nat 6) by lia.
  replace (bw + 104 + Z.of_nat 6 + 42) with (bw + 104 + Z.of_nat 48) by lia.
  split_and!; try done; try lia.
  - replace (bw + 104) with (bw + 104 + Z.of_nat 0) by lia. apply Hn; [by apply H8..|lia].
  - apply Hn; [by apply H8..|lia].
  - apply Hn; [apply H8; by apply (Hend 0%nat)|apply H8; by apply (Hend 1%nat)
      |apply H8; by apply (Hend 2%nat)|apply H8; by apply (Hend 3%nat)|lia].
Qed.

(** ** Creating the wrappers *)

Lemma type_at_bound a rs x t : holds a rs -> type_at rs x = Some t -> 0 <= x /\ x + 1 < 2 ^ 64.
Proof.
  intros (_ & _ & _ & _ & Hok & _) Ht. induction Hok as [|r rs (H1 & H2 & H3) Hok IH]; [done|].
  cbn [type_at] in Ht. destruct (contains r x) eqn:Ec; [|by apply IH].
  unfold contains in Ec. bool_to_prop. lia.
Qed.

Record part_ok (p : Part.PartitionEntry) : Prop := {
  eo_guid : length (Part.guid p) = 16%nat /\ bytes_ok (Part.guid p);
  eo_first : 0 <= Part.first_lba p < 2 ^ 64
}.

(** [bw] is the wrapper of a partition, in pages of its own. *)
Definition wrapper_of (m : memory) (rs : list Map.Region) (bw lb number : Z) (p : Part.PartitionEntry) : Prop :=
  0x100000 < bw /\ (forall x, bw <= x < bw + WRAPPER_SIZE -> type_at rs x = LOADER_DATA) /\
  wrapper_at m bw lb number (Part.first_lba p) (Part.last_lba p) (Part.guid p).

(** Allocated pages keep their type, and those of objects, above the first page,
    their bytes. *)
Definition keeps (m : memory) (rs : list Map.Region) (m' : memory) (rs' : list Map.Region) : Prop :=
  (forall x, type_at rs x <> Some Map.CONVENTIONAL -> type_at rs' x = type_at rs x) /\
  (forall x, type_at rs x = LOADER_DATA -> 0x1000 <= x -> load8 m' x = load8 m x).

Lemma keeps_refl m rs : keeps m rs m rs.
Proof. done. Qed.
Lemma keeps_loader m rs m' rs' x : keeps m rs m' rs' -> type_at rs x = LOADER_DATA -> type_at rs' x = LOADER_DATA.
Proof. intros [Ht _] Hx. by rewrite Ht by (rewrite Hx; apply loader_not_free). Qed.
Lemma keeps_trans m1 rs1 m2 rs2 m3 rs3 : keeps m1 rs1 m2 rs2 -> keeps m2 rs2 m3 rs3 -> keeps m1 rs1 m3 rs3.
Proof.
  intros H1 H2. split.
  - intros x Hx. destruct H1 as [H1 _], H2 as [H2 _]. by rewrite H2, H1 by (by rewrite ?H1).
  - intros x Hx Hlo. pose proof (keeps_loader _ _ _ _ _ H1 Hx). destruct H1 as [_ H1], H2 as [_ H2].
    by rewrite H2, H1.
Qed.

Lemma wrapper_of_keeps m rs m' rs' bw lb number p : wrapper_of m rs bw lb number p ->
  keeps m rs m' rs' -> wrapper_of m' rs' bw lb number p.
Proof.
  intros (Hb & Ho & [H1 H2 H3 H4 H5]) Hk.
  unfold BLOCK, MEDIA, PROTO, CONTROLLER_PATH, DISK_PATHS, START_LBA, WRAPPER_SIZE in *.
  assert (H8 : forall x, bw <= x < bw + 168 -> load8 m' x = load8 m x)
    by (intros x Hx; apply Hk; [apply Ho; lia|lia]).
  split; [done|]. split; [intros x Hx; by eapply keeps_loader, Ho|].
  constructor; unfold BLOCK, MEDIA, PROTO, CONTROLLER_PATH, DISK_PATHS, START_LBA, WRAPPER_SIZE in *.
  - rewrite <- H1. apply load_ext. intros; apply H8; lia.
  - rewrite <- H2. apply load_bytes_ext. intros; apply H8; lia.
  - rewrite <- H3. apply load_ext. intros; apply H8; lia.
  - rewrite <- H4. apply load_ext. intros; apply H8; lia.
  - rewrite <- H5. apply load_ext. intros; apply H8; lia.
Qed.

Lemma new_outcome cb fw rs cap number p : holds (Services.allocator fw) rs -> part_ok p ->
  exists bw fw' rs',
  new cb fw cap number (Part.first_lba p) (Part.last_lba p) (Part.guid p) = Done (bw, fw') /\
  holds (Services.allocator fw') rs' /\ Services.handles fw' = Services.handles fw /\
  keeps (Services.mem fw) rs (Services.mem fw') rs' /\
  (bw = 0 \/ wrapper_of (Services.mem fw') rs' bw (u64 (cap - 1)) number p).
Proof.
  intros Ha [[Hu Hb] Hf]. unfold new. fold (size_pages WRAPPER_SIZE).
  destruct (pages_outcome _ rs WRAPPER_SIZE Ha) as (a' & rs' & Ha' & Ho); [unfold WRAPPER_SIZE; lia|].
  destruct Ho as [(w & -> & Hw & Hnew & Hold)|[-> Hsame]]; rstep; eexists _, _, rs'; (split; [done|]);
    cbn [Services.mem Services.allocator Services.handles Services.set_memory Services.set_allocator].
  - destruct (Hnew (w + WRAPPER_SIZE - 1)) as [Hlast _]; [unfold WRAPPER_SIZE; lia|].
    destruct (type_at_bound _ _ _ _ Ha Hlast) as [_ Hbd].
    split_and!; [done..| |].
    + split; [done|]. intros x Hx _. apply store_wrapper_outside; [done|].
      destruct (decide (w <= x < w + WRAPPER_SIZE)) as [Hin|]; [|lia].
      destruct (Hnew x Hin) as [Hc _]. rewrite Hx in Hc. by vm_compute in Hc.
    + right. split; [done|]. split; [intros x Hx; by apply Hnew|].
      apply store_wrapper_at; try done; [apply wrap_range; lia|lia|lia].
  - split_and!; [done..| |by left]. split; [intros; by rewrite Hsame|]. intros x Hx Hx2.
    apply store_wrapper_outside; [done|]. unfold WRAPPER_SIZE. lia.
Qed.

(** ** Installing the protocols *)

(** What is installed stays installed. *)
Definition ifaces_kept (db db' : HandleDatabase.t) : Prop :=
  forall k g x, iface db k g = Some x -> iface db' k g = Some x.

Lemma iface_bound db i g x : db_ok db -> iface db i g = Some x -> (i < HandleDatabase.MAX_HANDLE_STRUCT)%nat.
Proof.
  intros Hok Hi. unfold iface in Hi. destruct (decide _) as [Hlt|]; [|done].
  pose proof (db_count _ Hok). lia.
Qed.

Lemma install_local_outcome fw h g x : db_ok (Services.handles fw) -> valid_handle h ->
  exists st h' fw', Services.install_local fw h g x = Done (st, h', fw') /\
    Services.mem fw' = Services.mem fw /\ Services.allocator fw' = Services.allocator fw /\
    db_ok (Services.handles fw') /\ valid_handle h' /\ ifaces_kept (Services.handles fw) (Services.handles fw').
Proof.
  intros Hdb Hv. unfold Services.install_local.
  destruct (install_protocol_spec (Services.handles fw) h g x Hdb Hv) as (st & h' & db' & -> & Hdb' & Ho). rstep.
  destruct Ho as [(-> & i & -> & Hh & Hno & Hi & Hk)|(Hst & -> & Hk)].
  - eexists _, _, _. split; [done|]. cbn [Services.mem Services.allocator Services.handles Services.set_handles].
    split_and!; [done..| |].
    + by eapply iface_bound.
    + intros k g' y Hy. rewrite Hk; [done|]. intros [= -> ->]. congruence.
  - eexists _, _, _. split; [done|]. cbn [Services.mem Services.allocator Services.handles Services.set_handles].
    destruct (Status.eqb st Status.SUCCESS) eqn:E; [by apply status_eqb_spec in E|].
    split_and!; [done..|]. intros k g' y. by rewrite Hk.
Qed.

Lemma install_wrapper_outcome fw bw path : db_ok (Services.handles fw) ->
  exists fw', install_wrapper fw bw path = Done fw' /\
    Services.mem fw' = Services.mem fw /\ Services.allocator fw' = Services.allocator fw /\
    db_ok (Services.handles fw') /\ ifaces_kept (Services.handles fw) (Services.handles fw').
Proof.
  intros Hdb. unfold install_wrapper.
  destruct (install_local_outcome fw HandleDatabase.Null BLOCK_IO_GUID (bw + PROTO) Hdb I)
    as (st1 & h1 & fw1 & -> & Hm1 & Ha1 & Hdb1 & Hh1 & Hk1). rstep.
  destruct (install_local_outcome fw1 h1 DevicePath.PROTOCOL_GUID path Hdb1 Hh1)
    as (st2 & h2 & fw2 & -> & Hm2 & Ha2 & Hdb2 & _ & Hk2). rstep.
  exists fw2. split; [done|]. rewrite Hm2, Ha2. split_and!; [done..|]. intros k g x Hx. by apply Hk2, Hk1.
Qed.

(** The last EFI partition of a list, counted from one; 0 without one. *)
Definition last_efi (parts : list Part.PartitionEntry) (k : nat) : Prop :=
  (k = 0%nat /\ Forall (fun p => Part.is_efi_partition p = false) parts) \/
  (exists pre p post, parts = pre ++ p :: post /\ k = S (length pre) /\ Part.is_efi_partition p = true /\
     Forall (fun q => Part.is_efi_partition q = false) post).

Lemma last_efi_snoc parts k p : last_efi parts k ->
  last_efi (parts ++ [p]) (if Part.is_efi_partition p then S (length parts) else k).
Proof.
  intros Hk. destruct (Part.is_efi_partition p) eqn:Ep.
  - right. exists parts, p, []. by split_and!.
  - destruct Hk as [[-> Hf]|(pre & q & post & -> & -> & Hq & Hf)].
    + left. split; [done|]. apply Forall_app. by repeat constructor.
    + right. exists pre, q, (post ++ [p]). rewrite <- app_assoc. split_and!; [done..|].
      apply Forall_app. by repeat constructor.
Qed.

(** The wrappers of the partitions treated so far. *)
Definition described (m : memory) (rs : list Map.Region) (cap : Z) (parts : list Part.PartitionEntry)
    (ws : list Z) : Prop :=
  forall j p bw, parts !! j = Some p -> ws !! S j = Some bw -> bw <> 0 ->
    wrapper_of m rs bw (u64 (cap - 1)) (Z.of_nat j + 1) p.

Lemma described_keeps m rs m' rs' cap parts ws : described m rs cap parts ws -> keeps m rs m' rs' ->
  described m' rs' cap parts ws.
Proof. intros Hd Hk j p bw Hp Hw Hb. by eapply wrapper_of_keeps; [apply Hd|]. Qed.

Lemma parts_loop_spec cb cap todo parts fw rs ws last id :
  holds (Services.allocator fw) rs -> db_ok (Services.handles fw) -> Forall part_ok todo ->
  length ws = 16%nat -> (length parts + length todo <= 15)%nat ->
  described (Services.mem fw) rs cap parts ws -> last_efi parts id ->
  exists ws' last' id' fw' rs',
    parts_loop cb cap todo (length parts) fw ws last (Some id) = Done (ws', last', Some id', fw') /\
    holds (Services.allocator fw') rs' /\ db_ok (Services.handles fw') /\
    ifaces_kept (Services.handles fw) (Services.handles fw') /\ length ws' = 16%nat /\
    keeps (Services.mem fw) rs (Services.mem fw') rs' /\
    described (Services.mem fw') rs' cap (parts ++ todo) ws' /\ last_efi (parts ++ todo) id'.
Proof.
  revert parts fw rs ws last id.
  induction todo as [|p todo IH]; intros parts fw rs ws last id Ha Hdb Hok Hws Hlen Hd Hid; cbn [parts_loop].
  { rewrite app_nil_r. exists ws, last, id, fw, rs. split_and!; try done; by intros k g x. }
  apply Forall_cons in Hok as [Hp Hok]. cbn [length] in Hlen.
  destruct (new_outcome cb fw rs cap (Z.of_nat (length parts) + 1) p Ha Hp)
    as (bw & fw1 & rs1 & -> & Ha1 & Hh1 & Hk1 & Hw1). rstep.
  rewrite update_lt by lia. rstep.
  destruct (install_wrapper_outcome fw1 bw (bw + DISK_PATHS)) as (fw2 & -> & Hm2 & Ha2 & Hdb2 & Hk2); [by rewrite Hh1|].
  rstep.
  assert (Hd2 : described (Services.mem fw2) rs1 cap (parts ++ [p]) (<[(length parts + 1)%nat := bw]> ws)).
  { rewrite Hm2. intros j q b Hj Hb Hb0. destruct (decide (j = length parts)) as [->|Hne].
    - rewrite list_lookup_middle in Hj by done. injection Hj as <-.
      rewrite Nat.add_1_r, list_lookup_insert_eq in Hb by lia. injection Hb as <-. by destruct Hw1.
    - rewrite list_lookup_insert_ne in Hb by lia. rewrite lookup_app in Hj.
      destruct (parts !! j) as [q'|] eqn:Eq.
      + injection Hj as ->. by eapply wrapper_of_keeps; [apply Hd|].
      + apply lookup_ge_None in Eq. apply lookup_lt_Some in Hj. cbn in Hj. lia. }
  specialize (IH (parts ++ [p]) fw2 rs1 (<[(length parts + 1)%nat := bw]> ws)
    (if last <? Part.last_lba p then Part.last_lba p else last) _ ltac:(by rewrite Ha2) Hdb2 Hok
    ltac:(by rewrite length_insert) ltac:(rewrite length_app; cbn; lia) Hd2 (last_efi_snoc parts id p Hid)).
  destruct IH as (ws' & last' & id' & fw' & rs' & E & Ha' & Hdb' & Hif & Hl' & Hk' & Hd' & Hid').
  exists ws', last', id', fw', rs'. rewrite <- app_assoc in Hd', Hid'. cbn [app] in Hd', Hid'.
  split_and!; try done.
  - rewrite length_app, Nat.add_1_r in E. cbn [length] in E. rewrite <- E. f_equal. destruct (Part.is_efi_partition p); do 2 f_equal; lia.
  - intros k g x Hx. apply Hif, Hk2. by rewrite Hh1.
  - eapply keeps_trans; [done|]. by rewrite <- Hm2.
Qed.

(** ** The partitions of the disk *)
Section Partitions.
Context {D : Type} `{SectorRead D}.

Lemma entries_of_ok data : length data = 512%nat -> bytes_ok data -> Forall part_ok (Part.entries_of data).
Proof.
  intros Hl Hb. unfold Part.entries_of. apply Forall_fmap, Forall_forall. intros i Hi.
  apply elem_of_seq in Hi. unfold compose. constructor; cbn [Part.entry_of Part.guid Part.first_lba].
  - unfold bytes_at, Part.ENTRY_SIZE. split; [rewrite length_take, length_drop; lia|].
    by apply Forall_take, Forall_drop.
  - unfold field, Part.ENTRY_SIZE. pose proof (le_combine_range (take 8 (drop (i * 128 + 32) data))) as Hr.
    rewrite length_take, length_drop in Hr. replace (8 `min` _)%nat with 8%nat in Hr by lia.
    apply Hr. by apply Forall_take, Forall_drop.
Qed.

Lemma collect_ok parts out c out' c' : Forall part_ok parts -> Forall part_ok out ->
  Part.collect parts out c = Done (out', c') -> Forall part_ok out' /\ length out' = length out.
Proof.
  intros Hp. revert out c. induction Hp as [|p parts Hp Hps IH]; intros out c Ho E; cbn [Part.collect] in E.
  - by injection E as <- <-.
  - destruct (bool_decide _); [by eapply IH|]. apply bind_Done in E as (o1 & Eu & E).
    apply update_Done in Eu as [? ->]. apply IH in E as [? Hl]; [|by apply Forall_insert].
    by rewrite length_insert in Hl.
Qed.

Lemma partitions_loop_ok n (r : D) lba pc ck out c res out' : Forall part_ok out ->
  Part.partitions_loop n r lba pc ck out c = Done (res, out') -> Forall part_ok out' /\ length out' = length out.
Proof.
  revert lba ck out c. induction n as [|n IH]; intros lba ck out c Ho E; cbn [Part.partitions_loop] in E.
  - by injection E as <- <-.
  - destruct (read_sector r lba) as [data|] eqn:Ed; [|by injection E as <- <-].
    apply read_sector_length in Ed as [Hl Hb]. apply bind_Done in E as ([o1 c1] & Ec & E).
    apply collect_ok in Ec as [Ho1 Hl1]; [|by apply entries_of_ok|done].
    destruct (_ <=? _); [by injection E as <- <-|]. apply IH in E as [? ->]; [|done]. done.
Qed.

Lemma get_partitions_ok (r : D) out res out' : Forall part_ok out ->
  Part.get_partitions r out = Done (res, out') -> Forall part_ok out' /\ length out' = length out.
Proof.
  intros Ho E. unfold Part.get_partitions in E. destruct (Part.read_header r); [|by injection E as <- <-].
  by apply partitions_loop_ok in E.
Qed.
End Partitions.

Lemma no_entries_ok n : Forall part_ok (replicate n no_entry).
Proof. apply Forall_replicate. constructor; [split; [done|]|cbn; lia]. repeat constructor; done. Qed.

(** The device path of the whole disk, built in a local and copied to the pool. *)
Lemma disk_path_at m local : 0 <= local -> local + 10 < 2 ^ 64 ->
  path_at (store_bytes m local (pci_node ++ end_node)) local [mkNode 1 1 6] (mkNode 0x7f 0xff 4).
Proof.
  intros Hl Hw. set (bs := pci_node ++ end_node). assert (Hb : bytes_ok bs) by (repeat constructor; done).
  assert (H8 : forall i b, bs !! i = Some b -> load8 (store_bytes m local bs) (local + Z.of_nat i) = b)
    by (intros; eapply load8_store_bytes_in; done).
  cbn [path_at nsize]. split_and!; try done; try lia.
  - apply node_at_bytes; [replace local with (local + Z.of_nat 0) at 2 by lia; by apply (H8 0%nat)
      |by apply (H8 1%nat)|by apply (H8 2%nat)|by apply (H8 3%nat)|lia].
  - apply node_at_bytes; [by apply (H8 6%nat)|replace (local + 6 + 1) with (local + Z.of_nat 7) by lia; by apply (H8 7%nat)
      |replace (local + 6 + 2) with (local + Z.of_nat 8) by lia; by apply (H8 8%nat)
      |replace (local + 6 + 3) with (local + Z.of_nat 9) by lia; by apply (H8 9%nat)|lia].
Qed.

Lemma dup_path_outcome fuel fw rs local : holds (Services.allocator fw) rs -> 0 <= local -> local + 10 < 2 ^ 64 ->
  (1 < fuel)%nat -> (forall x, local <= x < local + 10 -> type_at rs x <> LOADER_DATA) ->
  exists b fw' rs',
    Services.dup_device_path fuel (Services.set_memory fw (store_bytes (Services.mem fw) local (pci_node ++ end_node)))
      local = Done (b, fw') /\
    holds (Services.allocator fw') rs' /\ Services.handles fw' = Services.handles fw /\
    keeps (Services.mem fw) rs (Services.mem fw') rs'.
Proof.
  intros Ha Hl Hw Hf Hloc. unfold Services.dup_device_path, DevicePath.dup_device_path.
  cbn [Services.mem Services.set_memory Services.allocator].
  set (m1 := store_bytes (Services.mem fw) local (pci_node ++ end_node)).
  pose proof (disk_path_at (Services.mem fw) local Hl Hw) as Hp. fold m1 in Hp.
  unfold DevicePath.get_device_path_size. rewrite (size_loop_spec fuel m1 local _ _ 0 Hp) by (cbn; lia). rstep.
  unfold Services.pool_allocate, Services.pool_pages.
  change (0 + path_length [mkNode 1 1 6] + nsize (mkNode 127 255 4)) with 10.
  change (usize (usize (10 + Alloc.PAGE_SIZE) - 1) / Alloc.PAGE_SIZE) with 1.
  destruct (allocate_outcome _ rs AllocateAnyPages BootServicesData 1 0 Ha) as (a' & rs' & Ha' & Ho).
  { unfold request_ok. split_and!; [lia|lia|done]. }
  assert (Hm1 : forall x, type_at rs x = LOADER_DATA -> load8 m1 x = load8 (Services.mem fw) x).
  { intros x Hx. apply load8_store_bytes_out. destruct (decide (local <= x < local + 10)) as [Hi|Hi]; [|cbn; lia].
    by destruct (Hloc x Hi). }
  destruct Ho as [(b & -> & Hb & Ht)|[-> Hsame]]; rstep; status_step; eexists _, _, rs'; (split; [done|]);
    cbn [Services.mem Services.set_memory Services.allocator Services.set_allocator Services.handles];
    (split; [done|]); (split; [done|]).
  - split.
    + intros x Hx. specialize (Ht x). destruct (_ && _); [by destruct Ht|done].
    + intros x Hx Hlo. rewrite <- Hm1 by done. unfold copy_bytes. apply load8_store_bytes_out.
      rewrite length_load_bytes. specialize (Ht x). destruct (_ && _) eqn:Eb.
      * destruct Ht as [Ht _]. rewrite Hx in Ht. by vm_compute in Ht.
      * change Alloc.PAGE_SIZE with 4096 in Eb. apply andb_false_iff in Eb. rewrite Z.leb_gt, Z.ltb_ge in Eb. lia.
  - split; [intros; by rewrite Hsame|].
    intros x Hx Hlo. rewrite <- Hm1 by done. unfold copy_bytes. apply load8_store_bytes_out.
    rewrite length_load_bytes. lia.
Qed.

(** ** Properties *)

(** C29: [read_blocks] on the protocol of a partition's wrapper reads that
    partition: block [start + i] of the call is sector [first_lba + start + i] of
    the disk.  The caller's buffer receives the sectors in order, all of them with
    SUCCESS or those before the first the disk refuses with DEVICE_ERROR, and no
    other memory changes.  Nothing compares the blocks with the partition's end. *)
Theorem read_blocks_correct {D} `{SectorRead D} (disk : D) m bw lb number first last uuid start size buffer :
  wrapper_at m bw lb number first last uuid -> 0 <= bw -> bw + WRAPPER_SIZE < 2 ^ 64 ->
  0 <= start -> 0 <= size -> 0 <= first -> first + start + size / 512 <= 2 ^ 64 -> first + start < 2 ^ 64 ->
  0 <= buffer -> buffer + size < 2 ^ 64 ->
  let sectors := good_sectors disk (Z.to_nat (size / 512)) (first + start) in
  exists m', read_blocks disk m (bw + PROTO) start size buffer =
      Done (if (length sectors =? Z.to_nat (size / 512))%nat then Status.SUCCESS else Status.DEVICE_ERROR, m') /\
    (forall i d, sectors !! i = Some d -> read_sector disk (first + start + Z.of_nat i) = Ok d) /\
    load_bytes m' buffer (512 * length sectors) = concat sectors /\
    forall x, x < buffer \/ buffer + 512 * Z.of_nat (length sectors) <= x -> load8 m' x = load8 m x.
Proof.
  intros Hw Hb Hbw Hs Hsz Hf Hn Hn' Hbuf Hend sectors. unfold read_blocks, EfiFile.container_of.
  rewrite (wrap_small 64 (bw + PROTO - PROTO)) by (unfold PROTO, WRAPPER_SIZE in *; lia).
  replace (bw + PROTO - PROTO) with bw by lia. rewrite (wa_start _ _ _ _ _ _ _ Hw).
  rewrite (wrap_small 64 (first + start)) by lia.
  pose proof (Z.div_mod size 512 ltac:(lia)). pose proof (Z.mod_pos_bound size 512 ltac:(lia)).
  assert (0 <= size / 512) by (apply Z.div_pos; lia).
  rewrite blocks_loop_spec by (cbn [MemoryRegion.base MemoryRegion.length MemoryRegion.new]; lia).
  rewrite Z.add_0_r. fold sectors. cbn [MemoryRegion.base MemoryRegion.new]. rewrite Z.mul_0_r, Z.add_0_r.
  assert (Hsec : forall i d, sectors !! i = Some d -> read_sector disk (first + start + Z.of_nat i) = Ok d).
  { unfold sectors. generalize (first + start). generalize (Z.to_nat (size / 512)). clear.
    intros n. induction n as [|n IH]; intros lba i d Hi; cbn [good_sectors] in Hi; [done|].
    destruct (read_sector disk lba) as [d0|] eqn:Ed; [|done]. destruct i as [|i]; cbn in Hi.
    - injection Hi as <-. by rewrite Z.add_0_r.
    - rewrite <- (IH (lba + 1) i d Hi). f_equal. lia. }
  assert (Hc : length (concat sectors) = (512 * length sectors)%nat /\ bytes_ok (concat sectors)).
  { assert (Hall : Forall (fun d => length d = 512%nat /\ bytes_ok d) sectors)
      by (apply Forall_lookup; intros i d Hi; by eapply read_sector_length, Hsec).
    clear -Hall. induction Hall as [|d ds [Hd Hb] Hall [IHl IHb]]; cbn [concat length]; [done|].
    rewrite length_app. split; [lia|]. by apply Forall_app. }
  destruct Hc as [Hc Hcb]. eexists. split; [done|]. split; [done|]. split.
  - rewrite <- Hc. by apply load_bytes_store_bytes.
  - intros x Hx. apply load8_store_bytes_out. rewrite Hc. lia.
Qed.

(** Two sectors of a partition that starts at sector 10, the second unreadable. *)
Definition two_sectors : Ramdisk := list_to_map [(12, replicate 512 7); (13, [])].
Lemma read_blocks_correct_witness : exists m',
  read_blocks two_sectors (store_wrapper (mkCallbacks 1 2 3 4 5) ∅ 0x200000 99 1 10 20 (replicate 16 0xee))
    (0x200000 + PROTO) 2 1024 0x5000 = Done (Status.DEVICE_ERROR, m') /\
  load_bytes m' 0x5000 512 = replicate 512 7.
Proof.
  destruct (read_blocks_correct two_sectors
    (store_wrapper (mkCallbacks 1 2 3 4 5) ∅ 0x200000 99 1 10 20 (replicate 16 0xee))
    0x200000 99 1 10 20 (replicate 16 0xee) 2 1024 0x5000) as (m' & E & _ & Hb & _).
  - apply store_wrapper_at; [reflexivity|repeat constructor; done|lia..|unfold WRAPPER_SIZE; lia].
  - lia.
  - unfold WRAPPER_SIZE. lia.
  - lia.
  - lia.
  - lia.
  - vm_compute. discriminate.
  - lia.
  - lia.
  - lia.
  - exists m'. split; [exact E|]. exact Hb.
Defined.

(** The wrappers of all partitions, and what is kept meanwhile. *)
Lemma populate_outcome {D} `{SectorRead D} (disk : D) fuel cb local fw rs bws cap n parts :
  holds (Services.allocator fw) rs -> db_ok (Services.handles fw) -> length (wrappers bws) = 16%nat ->
  Part.get_partitions disk (replicate 16 no_entry) = Done (Ok n, parts) -> 0 <= n <= 15 ->
  0 <= local -> local + 10 < 2 ^ 64 -> (1 < fuel)%nat ->
  (forall x, local <= x < local + 10 ->
     type_at rs x <> LOADER_DATA /\ type_at rs x <> Some Map.CONVENTIONAL) ->
  exists id bws' fw' rs',
    populate_block_wrappers fuel cb local fw bws disk cap = Done (Some id, bws', fw') /\
    holds (Services.allocator fw') rs' /\ db_ok (Services.handles fw') /\
    ifaces_kept (Services.handles fw) (Services.handles fw') /\
    count bws' = S (Z.to_nat n) /\
    described (Services.mem fw') rs' cap (take (Z.to_nat n) parts) (wrappers bws') /\
    last_efi (take (Z.to_nat n) parts) id /\ keeps (Services.mem fw) rs (Services.mem fw') rs' /\
    length (wrappers bws') = 16%nat.
Proof.
  intros Ha Hdb Hws Hp Hn Hl Hw Hf Hloc. unfold populate_block_wrappers. rewrite Hp. rstep.
  destruct (get_partitions_ok _ _ _ _ (no_entries_ok 16) Hp) as [Hok Hlen]. rewrite length_replicate in Hlen.
  rewrite (proj2 (Nat.leb_le (Z.to_nat n) 16)) by lia. cbn [assert_]. rstep.
  destruct (parts_loop_spec cb cap (take (Z.to_nat n) parts) [] fw rs (wrappers bws) 0 0)
    as (ws1 & last1 & id & fw1 & rs1 & E & Ha1 & Hdb1 & Hif1 & Hl1 & Hk1 & Hd1 & Hid); try done.
  { by apply Forall_take. } { rewrite length_take. cbn. lia. } { by left. }
  cbn [length app] in *. rewrite E. rstep.
  destruct (new_outcome cb fw1 rs1 cap 0 (Part.mkEntry [] (replicate 16 0) 0 last1)) as
    (bw & fw2 & rs2 & E2 & Ha2 & Hh2 & Hk2 & _); [done|constructor; [split; [done|repeat constructor; done]|cbn; lia]|].
  cbn [Part.first_lba Part.last_lba Part.guid] in E2. rewrite E2. rstep. rewrite update_lt by lia. rstep.
  destruct (install_local_outcome fw2 HandleDatabase.Null BLOCK_IO_GUID (bw + PROTO))
    as (st3 & h3 & fw3 & -> & Hm3 & Ha3 & Hdb3 & Hh3 & Hif3); [by rewrite Hh2|done|]. rstep.
  assert (Hk02 : keeps (Services.mem fw) rs (Services.mem fw2) rs2) by (by eapply keeps_trans).
  destruct (dup_path_outcome fuel fw3 rs2 local) as (b & fw4 & rs4 & -> & Ha4 & Hh4 & Hk4); try done.
  { by rewrite Ha3. } { intros x Hx. rewrite (proj1 Hk02) by (by apply Hloc). by apply Hloc. }
  rstep. destruct (install_local_outcome fw4 h3 DevicePath.PROTOCOL_GUID b)
    as (st5 & h5 & fw5 & -> & Hm5 & Ha5 & Hdb5 & _ & Hif5); [by rewrite Hh4|done|]. rstep.
  eexists id, _, fw5, rs4. split; [done|]. cbn [count wrappers]. rewrite Ha5, Hm5. split_and!; try done; [|lia| | |].
  - intros k g x Hx. apply Hif5. rewrite Hh4. apply Hif3. rewrite Hh2. by apply Hif1.
  - intros j p w Hj Hwj Hw0. rewrite list_lookup_insert_ne in Hwj by done.
    eapply wrapper_of_keeps; [by apply Hd1|]. eapply keeps_trans; [done|]. by rewrite <- Hm3.
  - eapply keeps_trans; [exact Hk02|]. by rewrite <- Hm3.
  - rewrite length_insert. lia.
Qed.

(** [populate_block_wrappers] gives every partition of the disk, up to
    fifteen, a wrapper that describes it (unless memory ran out, address 0): its
    number, first sector and device path, in pages of its own that later
    allocations do not touch; what was installed before stays installed, and the
    partition it returns is the last EFI partition, 0 if there is none. *)
Theorem populate_correct {D} `{SectorRead D} (disk : D) fuel cb local fw rs bws cap n parts :
  holds (Services.allocator fw) rs -> db_ok (Services.handles fw) -> length (wrappers bws) = 16%nat ->
  Part.get_partitions disk (replicate 16 no_entry) = Done (Ok n, parts) -> 0 <= n <= 15 ->
  0 <= local -> local + 10 < 2 ^ 64 -> (1 < fuel)%nat ->
  (forall x, local <= x < local + 10 ->
     type_at rs x <> LOADER_DATA /\ type_at rs x <> Some Map.CONVENTIONAL) ->
  exists id bws' fw' rs',
    populate_block_wrappers fuel cb local fw bws disk cap = Done (Some id, bws', fw') /\
    holds (Services.allocator fw') rs' /\ db_ok (Services.handles fw') /\
    ifaces_kept (Services.handles fw) (Services.handles fw') /\
    count bws' = S (Z.to_nat n) /\
    described (Services.mem fw') rs' cap (take (Z.to_nat n) parts) (wrappers bws') /\
    last_efi (take (Z.to_nat n) parts) id.
Proof.
  intros Ha Hdb Hws Hp Hn Hl Hw Hf Hloc.
  destruct (populate_outcome disk fuel cb local fw rs bws cap n parts) as (id & bws' & fw' & rs' & Ho & H1 & H2 & H3 & H4 & H5 & H6 & _);
    [done..|]. eauto 15.
Qed.

(** The disk of [Part]: one used slot, an EFI partition. *)
Definition demo_firmware : Services.Firmware :=
  Services.mkFw ∅ demo HandleDatabase.new VariableStore.new EventInfo.new.
Lemma populate_correct_witness : exists id bws' fw' rs',
  populate_block_wrappers 2 (mkCallbacks 1 2 3 4 5) 0x900000 demo_firmware (mkWrappers (replicate 16 0) 0) demo_disk
    10000 = Done (Some id, bws', fw') /\ holds (Services.allocator fw') rs' /\ count bws' = 2%nat.
Proof.
  destruct (populate_correct demo_disk 2 (mkCallbacks 1 2 3 4 5) 0x900000 demo_firmware demo_map
    (mkWrappers (replicate 16 0) 0) 10000 1
    (Part.mkEntry Part.EFI_TYPE (replicate 16 1) 2048 4095 :: replicate 15 no_entry))
    as (id & bws' & fw' & rs' & E & Ha & _ & _ & Hc & _).
  - apply demo_holds.
  - apply new_db_ok.
  - reflexivity.
  - vm_compute. reflexivity.
  - lia.
  - lia.
  - lia.
  - lia.
  - intros x Hx. replace (type_at demo_map x) with (@None Z); [split; discriminate|].
    symmetry. unfold demo_map. cbn [type_at]. unfold contains, Map.rend, Alloc.PAGE_SIZE.
    cbn [Map.rstart Map.rpages Map.rtype].
    rewrite !(proj2 (Z.ltb_ge x _)), !andb_false_r by lia. reflexivity.
  - exists id, bws', fw', rs'. split; [exact E|]. split; [exact Ha|exact Hc].
Defined.
