(* ===== verification/Image.v ===== *)
(** * Image services (src/efi/image.rs, and load_image, start_image and
      locate_device_path of src/efi/mod.rs): data and operations

    Loading an image puts an [ImageInfo] with a copy of the device path in one
    pool allocation and the image in another, and installs their protocols on new
    handles; starting it calls its entry point, a parameter. *)

From S2P Require Import Prelude REfi Mem Alloc HandleDb DevicePath PeLoader Part Fat EfiFile Services.

Module Image.
Import Services.

Definition IMAGE_INFO_GUID : Guid.t :=
  Guid.from_fields 0xdecf2644 0xbc0 0x4840 0xb5 0x99 [0x13; 0x4b; 0xee; 0xa; 0x9e; 0x71].
Definition IMAGE_INFO_SIGNATURE : Z := 0x49444849.

(** r-efi/src/protocols/loaded_image.rs *)
Definition LOADED_IMAGE_GUID : Guid.t :=
  Guid.from_fields 0x5b1b31a1 0x9562 0x11d2 0x8e 0x3f [0x00; 0xa0; 0xc9; 0x69; 0x72; 0x3b].
Definition LOADED_IMAGE_REVISION : Z := 0x1000.

(** [ImageInfo], [repr(C)]: offsets and size. *)
Definition SOURCE_BUFFER : Z := 8.
Definition SOURCE_SIZE : Z := 16.
Definition ENTRY_POINT : Z := 24.
Definition LOADED_IMAGE : Z := 32.
Definition IMAGE_INFO_SIZE : Z := 128.

(** [LoadedImageProtocol], [repr(C)]: offsets. *)
Definition PARENT_HANDLE : Z := 8.
Definition SYSTEM_TABLE : Z := 16.
Definition DEVICE_HANDLE : Z := 24.
Definition FILE_PATH : Z := 32.
Definition RESERVED : Z := 40.
Definition LOAD_OPTIONS_SIZE : Z := 48.
Definition LOAD_OPTIONS : Z := 56.
Definition IMAGE_BASE : Z := 64.
Definition IMAGE_SIZE : Z := 72.
Definition IMAGE_CODE_TYPE : Z := 80.
Definition IMAGE_DATA_TYPE : Z := 84.
Definition UNLOAD : Z := 88.

Section Image.
(** Addresses of the handle table, of the system table and of [image_unload]. *)
Context (handle_table system_table unload : Z).

(** The fields of the [LoadedImageProtocol] at [li]. *)
Definition store_loaded_image (m : memory) (li parent_handle file_path image_base image_size : Z) : memory :=
  let m := store32 m li LOADED_IMAGE_REVISION in
  let m := store64 m (li + PARENT_HANDLE) parent_handle in
  let m := store64 m (li + SYSTEM_TABLE) system_table in
  let m := store64 m (li + DEVICE_HANDLE) 0 in
  let m := store64 m (li + FILE_PATH) file_path in
  let m := store64 m (li + RESERVED) 0 in
  let m := store32 m (li + LOAD_OPTIONS_SIZE) 0 in
  let m := store64 m (li + LOAD_OPTIONS) 0 in
  let m := store64 m (li + IMAGE_BASE) image_base in
  let m := store64 m (li + IMAGE_SIZE) image_size in
  let m := store32 m (li + IMAGE_CODE_TYPE) (memory_type_u32 LoaderCode) in
  let m := store32 m (li + IMAGE_DATA_TYPE) (memory_type_u32 BootServicesData) in
  store64 m (li + UNLOAD) unload.

(** The protocols of a loaded image, after its code is in place. *)
Definition install_image (fuel : nat) (fw : Firmware) (parent handle_address image_address image_size : Z)
    : res (Status.t * HandleDatabase.Handle * Firmware) :=
  '(_, image_handle, fw) ← install_local fw HandleDatabase.Null IMAGE_INFO_GUID handle_address;
  let device_path_buffer := handle_address + IMAGE_INFO_SIZE in
  let loaded_image := handle_address + LOADED_IMAGE in
  let fw := set_memory fw
    (store_loaded_image (mem fw) loaded_image parent device_path_buffer image_address image_size) in
  '(device_path_new, fw) ← dup_device_path fuel fw device_path_buffer;
  m ← DevicePath.drop_file_path_media_device_path fuel (mem fw) device_path_new;
  let fw := set_memory fw m in
  '(_, fw) ← install_cell handle_table fw (loaded_image + DEVICE_HANDLE) DevicePath.PROTOCOL_GUID device_path_new;
  install_local fw image_handle LOADED_IMAGE_GUID loaded_image.

(** The second half of [Image::load_image]: memory for the image, its code, its
    protocols. *)
Definition place_image (fuel : nat) (fw : Firmware)
    (parent handle_address source_buffer source_size image_size : Z)
    : res (Status.t * HandleDatabase.Handle * Firmware) :=
  '(status, image_address, fw) ← pool_local fw BootServicesData image_size;
  if negb (Status.eqb status Status.SUCCESS) then Done (Status.OUT_OF_RESOURCES, HandleDatabase.Null, fw)
  else
    '(entry_point, m) ←
      PeLoader.peloader_load_image fuel (mem fw) image_address image_size source_buffer source_size;
    let fw := set_memory fw (store64 m (handle_address + ENTRY_POINT) entry_point) in
    if entry_point =? 0 then Done (Status.SECURITY_VIOLATION, HandleDatabase.Null, fw)
    else install_image fuel fw parent handle_address image_address image_size.

(** [Image::load_image] *)
Definition load_image_from (fuel : nat) (fw : Firmware) (parent device_path source_buffer source_size : Z)
    : res (Status.t * HandleDatabase.Handle * Firmware) :=
  device_path_size ← DevicePath.get_device_path_size fuel (mem fw) device_path;
  '(status, handle_address, fw) ← pool_local fw BootServicesData (usize (IMAGE_INFO_SIZE + device_path_size));
  if negb (Status.eqb status Status.SUCCESS) then Done (status, HandleDatabase.Null, fw)
  else
    let m := copy_bytes (mem fw) device_path (handle_address + IMAGE_INFO_SIZE) (Z.to_nat device_path_size) in
    let m := store32 m handle_address IMAGE_INFO_SIGNATURE in
    let m := store64 m (handle_address + SOURCE_BUFFER) source_buffer in
    let m := store64 m (handle_address + SOURCE_SIZE) source_size in
    let fw := set_memory fw m in
    let image_size := PeLoader.peloader_get_image_info m source_buffer source_size in
    if image_size =? 0 then Done (Status.SECURITY_VIOLATION, HandleDatabase.Null, fw)
    else place_image fuel fw parent handle_address source_buffer source_size image_size.

(** [Image::start_image]; [run entry handle] is the image's own code, which may
    call back and change the whole state [S]. *)
Definition start_image_at {S} (firmware : S -> Firmware) (run : Z -> Z -> S -> res (Status.t * S)) (s : S)
    (image_handle : HandleDatabase.Handle) : res (Status.t * Z * Z * S) :=
  let fw := firmware s in
  '(status, handle_address) ←
    HandleDatabase.handle_protocol (load32 (mem fw) 0) (handles fw) image_handle IMAGE_INFO_GUID;
  if negb (Status.eqb status Status.SUCCESS) then Done (Status.INVALID_PARAMETER, 0, 0, s)
  else if negb (load32 (mem fw) handle_address =? IMAGE_INFO_SIGNATURE)
  then Done (Status.INVALID_PARAMETER, 0, 0, s)
  else
    '(status, s) ← run (load64 (mem fw) (handle_address + ENTRY_POINT)) (handle_ptr handle_table image_handle) s;
    Done (status, 0, 0, s).

(** The boot service [start_image]. *)
Definition start_image {S} (firmware : S -> Firmware) (set_firmware : S -> Firmware -> S)
    (run : Z -> Z -> S -> res (Status.t * S)) (s : S) (image_handle exit_data_size exit_data : Z)
    : res (Status.t * S) :=
  '(status, new_exit_data_size, new_exit_data, s) ←
    start_image_at firmware run s (handle_at handle_table (mem (firmware s)) image_handle);
  let fw := firmware s in
  let m := if negb (exit_data_size =? 0) then store64 (mem fw) exit_data_size new_exit_data_size else mem fw in
  let m := if negb (exit_data =? 0) then store64 m exit_data new_exit_data else m in
  Done (status, set_firmware s (set_memory fw m)).

(** ** [locate_device_path] *)

(** The first loop: the end of the path or of its first instance. *)
Fixpoint instance_end (fuel : nat) (m : memory) (dp : Z) : res Z :=
  match fuel with
  | O => OutOfFuel
  | S fuel =>
      if DevicePath.is_device_path_end m dp then Done dp
      else if DevicePath.is_device_path_end_instance m dp then Done dp
      else instance_end fuel m (DevicePath.get_next_device_path_node m dp)
  end.

(** The second loop: the handle with the longest path that begins the source. *)
Fixpoint best_match_loop (fuel : nat) (fw : Firmware) (hs : list HandleDatabase.Handle) (source_path source_size : Z)
    (best_match : Z) (best_device : HandleDatabase.Handle) : res (Z * HandleDatabase.Handle) :=
  match hs with
  | [] => Done (best_match, best_device)
  | h :: hs =>
      '(status, interface) ←
        HandleDatabase.handle_protocol (load32 (mem fw) 0) (handles fw) h DevicePath.PROTOCOL_GUID;
      if negb (Status.eqb status Status.SUCCESS)
      then best_match_loop fuel fw hs source_path source_size best_match best_device
      else
        full ← DevicePath.get_device_path_size fuel (mem fw) interface;
        let size := usize (full - 4) in
        if (size <=? source_size) && DevicePath.compare_device_path (mem fw) interface source_path size
           && (best_match <? i32 size)
        then best_match_loop fuel fw hs source_path source_size (i32 size) h
        else best_match_loop fuel fw hs source_path source_size best_match best_device
  end.

Definition locate_device_path (fuel : nat) (fw : Firmware) (protocol device_path device : Z)
    : res (Status.t * Firmware) :=
  if device_path =? 0 then Done (Status.INVALID_PARAMETER, fw)
  else
    let source_path := load64 (mem fw) device_path in
    if source_path =? 0 then Done (Status.INVALID_PARAMETER, fw)
    else
      tmp ← instance_end fuel (mem fw) source_path;
      let source_size := u64 (tmp - source_path) in
      '((status, count, _, hs), fw) ← handle_buffer handle_table 0 fw (guid_at (mem fw) protocol);
      if negb (Status.eqb status Status.SUCCESS) || (count =? 0)%nat then Done (Status.NOT_FOUND, fw)
      else
        '(best_match, best_device) ← best_match_loop fuel fw hs source_path source_size (-1) HandleDatabase.Null;
        if best_match =? -1 then Done (Status.NOT_FOUND, fw)
        else if device =? 0 then Done (Status.INVALID_PARAMETER, fw)
        else
          let m := store64 (mem fw) device (handle_ptr handle_table best_device) in
          Done (Status.SUCCESS, set_memory fw (store64 m device_path (u64 (source_path + u64 best_match)))).
End Image.
End Image.
