(* ===== verification/ImageProps.v ===== *)
(** * Theorems on the image services

    Loading an image puts it in pages of its own, describes it in an [ImageInfo]
    that the later steps do not disturb, and leaves it on a handle that
    [start_image] starts at its entry point. *)

From S2P Require Import Prelude REfi Mem PeLoader PeReloc PeProps Alloc MemMap MapSafety AllocRepr AllocRefine AllocSafety AllocRoom HandleDb Variables Events DevicePath Part Fat EfiFile FileProps Services EfiBlock BlockProps Image.
Import Image.

(** ** Device paths, copied and cut *)

Lemma node_at_move m m' a b n : node_at m a n ->
  (forall i, 0 <= i < nsize n -> load8 m' (b + i) = load8 m (a + i)) -> node_at m' b n.
Proof.
  intros (H1 & H2 & H3 & H4) Hm. unfold node_at, DevicePath.get_device_path_node_type,
    DevicePath.get_device_path_node_sub_type, DevicePath.get_device_path_node_size in *.
  rewrite <- (Z.add_0_r b) at 1. rewrite (Hm 0), (Hm 1), (Hm 2), (Hm 3) by lia. by rewrite Z.add_0_r.
Qed.

Lemma path_at_move m m' a b ns e : path_at m a ns e -> 0 <= b -> b + path_length ns + nsize e < 2 ^ 64 ->
  (forall i, 0 <= i < path_length ns + nsize e -> load8 m' (b + i) = load8 m (a + i)) -> path_at m' b ns e.
Proof.
  revert a b. induction ns as [|n ns IH]; intros a b Hp Hb Hw Hm; pose proof (path_bound _ _ _ _ Hp) as (_ & Hl & He & _);
    cbn [path_at path_length foldr] in *.
  - destruct Hp as (Hn & Hend & _). split_and!; [|done..|lia]. by eapply node_at_move.
  - destruct Hp as (Hn & Hend & _ & Hp). pose proof (path_bound _ _ _ _ Hp) as (_ & Hl' & _ & _).
    unfold path_length in *. destruct Hn as (? & ? & ? & H4) eqn:En.
    split_and!; [eapply node_at_move; [exact Hn|]|done|done|apply (IH (a + nsize n)); [done|lia|lia|]].
    + intros i Hi. apply Hm. lia.
    + intros i Hi. rewrite <- !Z.add_assoc. apply Hm. lia.
Qed.

Lemma copy_path m a b ns e : mem_ok m -> path_at m a ns e -> 0 <= b -> b + path_length ns + nsize e < 2 ^ 64 ->
  path_at (copy_bytes m a b (Z.to_nat (path_length ns + nsize e))) b ns e.
Proof.
  intros Hm Hp Hb Hw. pose proof (path_bound _ _ _ _ Hp) as (_ & Hl & He & _).
  eapply path_at_move; [exact Hp|done|done|]. intros i Hi. unfold copy_bytes.
  rewrite <- (Z2Nat.id i) by lia.
  apply load8_store_bytes_in; [by apply load_bytes_ok|]. apply lookup_load_bytes. lia.
Qed.

(** The path without its file-path nodes: what is before the first of them, which
    becomes the end node. *)
Fixpoint device_part (ns : list Node) (e : Node) : list Node * Node :=
  match ns with
  | [] => ([], e)
  | n :: ns =>
      if is_file_path n then ([], mkNode DevicePath.TYPE_END DevicePath.SUBTYPE_ENTIRE (nsize n))
      else let '(ns, e) := device_part ns e in (n :: ns, e)
  end.

Lemma device_part_length m a ns e : path_at m a ns e ->
  path_length (device_part ns e).1 + nsize (device_part ns e).2 <= path_length ns + nsize e.
Proof.
  revert a. induction ns as [|n ns IH]; intros a Hp; cbn [device_part]; [done|].
  pose proof (path_bound _ _ _ _ Hp) as (_ & _ & He & _). cbn [path_at] in Hp. destruct Hp as (_ & _ & _ & Hp).
  pose proof (path_bound _ _ _ _ Hp) as (_ & Hl & _). unfold path_length in *.
  destruct (is_file_path n); cbn [fst snd foldr nsize]; [lia|]. specialize (IH _ Hp).
  destruct (device_part ns e) as [ns' e']. cbn [fst snd foldr] in *. lia.
Qed.

Lemma drop_file_path_spec fuel m a ns e : path_at m a ns e -> (length ns < fuel)%nat -> mem_ok m ->
  exists m', DevicePath.drop_file_path_media_device_path fuel m a = Done m' /\ mem_ok m' /\
    path_at m' a (device_part ns e).1 (device_part ns e).2 /\
    forall x, x < a \/ a + path_length ns + nsize e <= x -> load8 m' x = load8 m x.
Proof.
  revert fuel m a. induction ns as [|n ns IH]; intros fuel m a Hp Hf Hm;
    (destruct fuel as [|fuel]; [cbn in Hf; lia|]); cbn [DevicePath.drop_file_path_media_device_path device_part].
  { exists m. pose proof Hp as (Hn & He & _). rewrite (node_at_end _ _ _ Hn), He. by split_and!. }
  pose proof (path_bound _ _ _ _ Hp) as (_ & _ & _ & Hw). cbn [path_length foldr] in Hw.
  cbn [path_at] in Hp. destruct Hp as (Hn & He & Ha & Hp). pose proof (path_bound _ _ _ _ Hp) as (_ & Hl & H4 & _).
  unfold path_length in Hl. pose proof Hn as (Ht & Hs & Hz & Hz4).
  rewrite (node_at_end _ _ _ Hn), He, (node_at_file _ _ _ Hn). destruct (is_file_path n) eqn:Ef.
  - set (m' := store8 (store8 m a DevicePath.TYPE_END) (a + 1) DevicePath.SUBTYPE_ENTIRE).
    assert (H8 : forall x, x <> a -> x <> a + 1 -> load8 m' x = load8 m x).
    { intros x H1 H2. unfold m', store8, load8. by rewrite !lookup_insert_ne. }
    assert (Hn' : node_at m' a (mkNode DevicePath.TYPE_END DevicePath.SUBTYPE_ENTIRE (nsize n))).
    { unfold node_at, DevicePath.get_device_path_node_type, DevicePath.get_device_path_node_sub_type,
        DevicePath.get_device_path_node_size in *. cbn [ntype nsub nsize]. rewrite (H8 (a + 2)), (H8 (a + 3)), Hz by lia.
      unfold m', store8, load8. rewrite lookup_insert_eq, lookup_insert_ne, lookup_insert_eq by lia. by vm_compute. }
    rewrite (node_at_end _ _ _ Hn'). exists m'. cbn [is_end ntype nsub fst snd path_at]. split; [done|].
    split; [by apply (mem_ok_store_bytes (store_bytes m a [_]) (a + 1) [_]), (mem_ok_store_bytes m a [_])|].
    split; [split_and!; [done..|cbn [nsize]; lia]|]. intros x Hx. cbn [path_length foldr] in Hx. apply H8; lia.
  - rewrite (node_at_end _ _ _ Hn), He, (path_next _ _ _ _ _ Hn Hp Ha).
    destruct (IH fuel m (a + nsize n) Hp) as (m' & -> & Hm' & Hp' & Hx); [cbn in Hf; lia|done|].
    destruct (device_part ns e) as [ns' e']. cbn [fst snd] in *. exists m'. split; [done|]. split; [done|].
    cbn [path_at path_length foldr]. split.
    + split_and!; [|done..]. eapply node_at_move; [exact Hn|]. intros i Hi. apply Hx. lia.
    + intros x Hx'. apply Hx. unfold path_length. lia.
Qed.

(** ** What the PE loader promises *)

(** The file at [src] loads: [peloader_get_image_info] gives its size, and wherever
    it is loaded, away from the file, the loader returns the entry point and
    writes only the image's memory. *)
Record loadable (fuel : nat) (m0 : memory) (src sz isz entry : Z) : Prop := {
  ld_size : 0 < isz < 2 ^ 32;
  ld_entry : 0 <= entry < 2 ^ 32;
  ld_info : forall m, mem_ok m -> agree src (src + sz) m0 m -> PeLoader.peloader_get_image_info m src sz = isz;
  ld_load : forall m dest, mem_ok m -> agree src (src + sz) m0 m -> 0 < dest -> dest + isz <= 2 ^ 63 ->
    src + sz <= dest \/ dest + isz <= src ->
    exists m', PeLoader.peloader_load_image fuel m dest isz src sz = Done (dest + entry, m') /\ mem_ok m' /\
      (forall x, x < dest \/ dest + isz <= x -> load8 m' x = load8 m x)
}.

Lemma loadable_agree fuel m m' src sz isz entry : loadable fuel m src sz isz entry -> agree src (src + sz) m m' ->
  loadable fuel m' src sz isz entry.
Proof.
  intros [H1 H2 H3 H4] Hag. constructor; [done|done|..].
  - intros m1 Hm1 H. apply H3; [done|by eapply agree_trans].
  - intros m1 dest Hm1 H. apply H4; [done|by eapply agree_trans].
Qed.

Lemma image_at_agree src sz m m' nt ss : mem_ok m -> agree src (src + sz) m m' -> 0 <= src -> image_at src sz m nt ss ->
  header_size src m nt ss <= sz ->
  image_at src sz m' nt ss /\ header_size src m' nt ss = header_size src m nt ss /\
  PeLoader.address_of_entry_point m' nt = PeLoader.address_of_entry_point m nt.
Proof.
  intros Hm Hag Hs [[Hnt Hend] [Hlf H64] Hn Hopt Hss] Hh.
  unfold PeLoader.NT_HEADER_SIZE, header_size, PeLoader.OPTIONAL_HEADER_OFFSET, PeLoader.SECTION_HEADER_SIZE in *.
  assert (E1 : PeLoader.e_lfanew m' src = PeLoader.e_lfanew m src) by (eapply agree_load; [done|lia|lia]).
  assert (E2 : PeLoader.number_of_sections m' nt = PeLoader.number_of_sections m nt)
    by (eapply agree_load; [done|lia|lia]).
  assert (E3 : PeLoader.size_of_optional_header m' nt = PeLoader.size_of_optional_header m nt)
    by (eapply agree_load; [done|lia|lia]).
  assert (E4 : PeLoader.address_of_entry_point m' nt = PeLoader.address_of_entry_point m nt)
    by (eapply agree_load; [done|lia|lia]).
  rewrite E3. split_and!; [|done|done].
  constructor; rewrite ?E1, ?E2, ?E3; try done.
  eapply (sections_at_agree src sz); [done|unfold PeLoader.OPTIONAL_HEADER_OFFSET; lia| |done].
  unfold PeLoader.OPTIONAL_HEADER_OFFSET, PeLoader.SECTION_HEADER_SIZE. lia.
Qed.

Lemma mem_ok_patch_all m fs : mem_ok m -> mem_ok (patch_all m fs).
Proof.
  revert m. induction fs as [|f fs IH]; intros m Hm; [done|]. apply (IH (patch m f)). by apply mem_ok_store_bytes.
Qed.

(** An image whose sections, with the zeros the loader puts after them, lie inside
    its size, and whose fixups lie inside it wherever it is loaded. *)
Lemma loadable_image fuel m0 src sz nt ss isz :
  0 <= src -> src + sz < 2 ^ 63 -> mem_ok m0 -> image_at src sz m0 nt ss ->
  header_size src m0 nt ss <= sz -> header_size src m0 nt ss <= isz -> 0 < isz < 2 ^ 32 ->
  Forall (sect_fits sz isz) ss -> ordered (header_size src m0 nt ss) ss ->
  (forall m, mem_ok m -> agree src (src + sz) m0 m -> PeLoader.peloader_get_image_info m src sz = isz) ->
  (forall m dest, mem_ok m -> agree src (src + sz) m0 m -> 0 < dest -> dest + isz <= 2 ^ 63 ->
     src + sz <= dest \/ dest + isz <= src -> exists fs,
     image_fixups fuel (PeLoader.load_raw m dest src) src sz dest nt fs /\
     Forall (fun f => dest <= fx_ptr f /\ fx_ptr f + Z.of_nat (fx_width f) <= dest + isz) fs) ->
  loadable fuel m0 src sz isz (PeLoader.address_of_entry_point m0 nt).
Proof.
  intros Hs Hw Hm0 Hi Hh1 Hh2 Hz Hfit Hord Hinfo Hfix.
  pose proof (load_range 4 m0 (nt + 40) Hm0) as Hent. fold (PeLoader.address_of_entry_point m0 nt) in Hent.
  change (8 * Z.of_nat 4) with 32 in Hent. constructor; [done|lia|done|].
  intros m dest Hm Hag Hd Hdw Haway. destruct (image_at_agree _ _ _ m _ _ Hm0 Hag Hs Hi Hh1) as (Hi' & Eh & Ee).
  destruct (Hfix m dest Hm Hag Hd Hdw Haway) as (fs & Hfs & Hin). pose proof (im_lfanew _ _ _ _ _ Hi) as [_ H64].
  edestruct (load_raw_spec src sz dest isz) with (m := m) (nt := nt) (ss := ss) as (Hm1 & Hout & Hag1 & _);
    [lia..|done|done|done|lia|lia|done|by rewrite Eh|].
  set (m1 := PeLoader.load_raw m dest src) in *.
  destruct (relocate_image_spec fuel m1 src sz dest isz nt fs) as [Erel Hclear]; [lia|done|].
  exists (patch_all m1 fs). destruct Hi' as [[Hnt Hend] [Hlf _] _ _ _]. unfold PeLoader.NT_HEADER_SIZE in Hend.
  split; [|split].
  - unfold PeLoader.peloader_load_image. fold m1. rewrite (wrap_small 64 (src + PeLoader.e_lfanew m src)) by lia.
    rewrite <- Hnt, Erel. rstep. unfold PeLoader.address_of_entry_point in *.
    rewrite (agree_load _ _ _ _ 4 (nt + 40) (patch_all_agree _ _ m1 fs Hclear)) by lia.
    rewrite (agree_load _ _ _ _ 4 (nt + 40) Hag1), Ee by lia. rewrite wrap_small by lia. done.
  - by apply mem_ok_patch_all.
  - intros x Hx. rewrite patch_all_outside; [by apply Hout|]. eapply Forall_impl; [exact Hin|].
    unfold clear_of. intros f Hf. cbn in Hf. lia.
Qed.

(** An image without a relocation table. *)
Lemma loadable_fixed fuel m0 src sz nt ss isz :
  0 <= src -> src + sz + 2 ^ 33 < 2 ^ 63 -> mem_ok m0 -> image_at src sz m0 nt ss ->
  header_size src m0 nt ss <= sz -> header_size src m0 nt ss <= isz -> 0 < isz < 2 ^ 32 ->
  Forall (sect_fits sz isz) ss -> ordered (header_size src m0 nt ss) ss ->
  PeLoader.peloader_get_image_info m0 src sz = isz -> (0 < fuel)%nat ->
  PeLoader.directory_size m0 nt PeLoader.IMAGE_DIRECTORY_ENTRY_BASERELOC = 0 ->
  loadable fuel m0 src sz isz (PeLoader.address_of_entry_point m0 nt).
Proof.
  intros Hs Hw Hm0 Hi Hh1 Hh2 Hz Hfit Hord Hinfo Hfuel Hdir. pose proof (im_lfanew _ _ _ _ _ Hi) as [_ H64].
  apply (loadable_image fuel m0 src sz nt ss isz); try done; [norm_pow; lia|..].
  - intros m _ Hag. rewrite <- Hinfo. by apply image_info_inside; [lia|lia|norm_pow; lia|..].
  - intros m dest Hm Hag Hd Hdw Haway. exists []. split; [|done].
    destruct (image_at_agree _ _ _ m _ _ Hm0 Hag Hs Hi Hh1) as (Hi' & Eh & _).
    edestruct (load_raw_spec src sz dest isz) with (m := m) (nt := nt) (ss := ss) as (Hm1 & _ & Hag1 & _);
      [lia..|done|done|done|lia|lia|done|by rewrite Eh|].
    unfold image_fixups. cbv zeta. destruct (decide (usize (dest - PeLoader.image_base (PeLoader.load_raw m dest src) nt) = 0)).
    { by left. }
    right. split; [done|]. exists []. destruct (im_nt _ _ _ _ _ Hi) as [_ Hend]. unfold PeLoader.NT_HEADER_SIZE in Hend.
    assert (Hds : PeLoader.directory_size (PeLoader.load_raw m dest src) nt PeLoader.IMAGE_DIRECTORY_ENTRY_BASERELOC = 0).
    { rewrite <- Hdir. unfold PeLoader.directory_size, PeLoader.IMAGE_DIRECTORY_ENTRY_BASERELOC.
      destruct (im_nt _ _ _ _ _ Hi) as [Hnt _]. pose proof (im_lfanew _ _ _ _ _ Hi).
      eapply agree_load; [by eapply agree_trans|lia|lia]. }
    rewrite Hds. pose proof (load_range 4 _ (nt + 136 + 8 * PeLoader.IMAGE_DIRECTORY_ENTRY_BASERELOC) Hm1) as Hr.
    fold (PeLoader.directory_address (PeLoader.load_raw m dest src) nt PeLoader.IMAGE_DIRECTORY_ENTRY_BASERELOC) in Hr.
    change (8 * Z.of_nat 4) with 32 in Hr. split_and!; try done; cbn [length]; norm_pow; lia.
Qed.

(** ** Memory from the pool *)

Lemma pool_outcome fw rs t size : holds (Services.allocator fw) rs -> 0 < size < 2 ^ 63 -> exists a' rs', holds a' rs' /\
  ((exists w, Services.pool_local fw t size = Done (Status.SUCCESS, w, Services.set_allocator fw a') /\
      fresh_as t rs rs' w size) \/
   (Services.pool_local fw t size = Done (Status.OUT_OF_RESOURCES, 0, Services.set_allocator fw a') /\
      same_types rs rs')).
Proof.
  intros Ha Hs. destruct (pages_outcome_as t _ rs size Ha Hs) as (a' & rs' & Ha' & Ho). exists a', rs'.
  split; [done|]. unfold Services.pool_local, Services.pool_allocate, Services.pool_pages. fold (size_pages size).
  destruct Ho as [(w & E & Hf)|[E Hsame]]; rewrite E; rstep; status_step; eauto.
Qed.

(** With room for it the pool gives memory, and takes from the room its own pages. *)
Lemma pool_room fw rs t size a' st w p k : holds (Services.allocator fw) rs -> 0 < size < 2 ^ 63 ->
  Services.pool_local fw t size = Done (st, w, Services.set_allocator fw a') -> spare rs p (S k) -> size_pages size < p ->
  st = Status.SUCCESS /\ forall rs', holds a' rs' -> spare rs' (p - size_pages size) k.
Proof.
  intros Ha Hs E. unfold Services.pool_local, Services.pool_allocate, Services.pool_pages in E. fold (size_pages size) in E.
  apply bind_Done in E as ([[st1 w1] a1] & E1 & [= -> <- <-]). by eapply pages_room.
Qed.

Lemma pool_refused fw rs t size fw' w p k : holds (Services.allocator fw) rs -> 0 < size < 2 ^ 63 ->
  Services.pool_local fw t size = Done (Status.OUT_OF_RESOURCES, w, fw') -> spare rs p (S k) -> p <= size_pages size.
Proof.
  intros Ha Hs E Hr. apply Z.nlt_ge. intros Hp. destruct (pool_outcome fw rs t size Ha Hs) as (a' & rs' & _ & [(w2 & E2 & _)|[E2 _]]).
  - rewrite E in E2. discriminate.
  - by destruct (pool_room fw rs t size a' _ _ p k Ha Hs E2 Hr Hp).
Qed.

(** Two ranges with no common address. *)
Lemma ranges_apart a n b k : 0 < n -> 0 < k -> (forall x, a <= x < a + n -> b <= x < b + k -> False) ->
  a + n <= b \/ b + k <= a.
Proof. intros Hn Hk Hx. specialize (Hx (Z.max a b)). lia. Qed.

(** Memory that was not free is apart from what was allocated. *)
Lemma fresh_apart t rs rs' w size a n : fresh_as t rs rs' w size -> 0 < size -> 0 < n ->
  (forall x, a <= x < a + n -> type_at rs x <> Some Map.CONVENTIONAL) -> a + n <= w \/ w + size <= a.
Proof.
  intros (_ & Hnew & _) Hs Hn Ha. apply ranges_apart; [done|done|]. intros x H1 H2. destruct (Hnew x H2) as [Hc _].
  by apply (Ha x H1).
Qed.

Lemma fresh_used t rs rs' w size x : fresh_as t rs rs' w size -> t <> ConventionalMemory ->
  w <= x < w + size -> type_at rs' x <> Some Map.CONVENTIONAL.
Proof.
  intros (_ & Hnew & _) Ht Hx. destruct (Hnew x Hx) as [_ ->]. intros [= E]. destruct t; done.
Qed.

Lemma fresh_kept t rs rs' w size x : fresh_as t rs rs' w size -> type_at rs x <> Some Map.CONVENTIONAL ->
  type_at rs' x <> Some Map.CONVENTIONAL.
Proof. intros (_ & _ & Hold) Hx. by rewrite Hold. Qed.

Lemma fresh_bound t a rs rs' w size : holds a rs -> fresh_as t rs rs' w size -> 0 < size -> 0 < w /\ w + size < 2 ^ 64.
Proof.
  intros Ha (Hw & Hnew & _) Hs. destruct (Hnew (w + size - 1)) as [Hc _]; [lia|].
  apply (type_at_bound _ _ _ _ Ha) in Hc. lia.
Qed.

(** ** The description of a loaded image *)

Section Image.
Context (handle_table system_table unload : Z).
Context (Htable : 0 < handle_table) (Htable' : handle_table + Services.HANDLE_SIZE * 32 < 2 ^ 64).
Context (Hsystem : 0 <= system_table < 2 ^ 64).

(** The [ImageInfo] at [hnd] says so, and is followed by the device path. *)
Record info_at (m : memory) (hnd src sz entry parent base isz : Z) (ns : list Node) (e : Node) : Prop := {
  ia_signature : load32 m hnd = IMAGE_INFO_SIGNATURE;
  ia_source : load64 m (hnd + SOURCE_BUFFER) = src;
  ia_source_size : load64 m (hnd + SOURCE_SIZE) = sz;
  ia_entry : load64 m (hnd + ENTRY_POINT) = entry;
  ia_parent : load64 m (hnd + LOADED_IMAGE + PARENT_HANDLE) = parent;
  ia_system : load64 m (hnd + LOADED_IMAGE + SYSTEM_TABLE) = system_table;
  ia_file_path : load64 m (hnd + LOADED_IMAGE + FILE_PATH) = hnd + IMAGE_INFO_SIZE;
  ia_base : load64 m (hnd + LOADED_IMAGE + IMAGE_BASE) = base;
  ia_size : load64 m (hnd + LOADED_IMAGE + IMAGE_SIZE) = isz;
  ia_path : path_at m (hnd + IMAGE_INFO_SIZE) ns e
}.

Ltac offsets := unfold IMAGE_INFO_SIZE, SOURCE_BUFFER, SOURCE_SIZE, ENTRY_POINT, LOADED_IMAGE, PARENT_HANDLE,
  SYSTEM_TABLE, DEVICE_HANDLE, FILE_PATH, RESERVED, LOAD_OPTIONS_SIZE, LOAD_OPTIONS, IMAGE_BASE, IMAGE_SIZE,
  IMAGE_CODE_TYPE, IMAGE_DATA_TYPE, UNLOAD in *.

(** Only the device handle may change. *)
Lemma info_at_frame m m' hnd src sz entry parent base isz ns e :
  info_at m hnd src sz entry parent base isz ns e ->
  (forall x, hnd <= x < hnd + IMAGE_INFO_SIZE + path_length ns + nsize e ->
     ~ (hnd + LOADED_IMAGE + DEVICE_HANDLE <= x < hnd + LOADED_IMAGE + DEVICE_HANDLE + 8) -> load8 m' x = load8 m x) ->
  info_at m' hnd src sz entry parent base isz ns e.
Proof.
  intros [H1 H2 H3 H4 H5 H6 H7 H8 H9 Hp] Hm. pose proof (path_bound _ _ _ _ Hp) as (Hb & Hl & He & Hw). offsets.
  constructor; offsets; try (etransitivity; [apply load_ext; intros x Hx; apply Hm; lia|done]).
  eapply path_at_move; [exact Hp|done|done|]. intros i Hi. apply Hm; lia.
Qed.

(** The fields in the order the code writes them. *)
Lemma store_info m hnd src sz entry parent base isz ns e :
  load32 m hnd = IMAGE_INFO_SIGNATURE -> load64 m (hnd + SOURCE_BUFFER) = src ->
  load64 m (hnd + SOURCE_SIZE) = sz -> load64 m (hnd + ENTRY_POINT) = entry ->
  path_at m (hnd + IMAGE_INFO_SIZE) ns e -> 0 <= hnd -> hnd + IMAGE_INFO_SIZE < 2 ^ 64 ->
  0 <= parent < 2 ^ 64 -> 0 <= base < 2 ^ 64 -> 0 <= isz < 2 ^ 64 ->
  info_at (store_loaded_image system_table unload m (hnd + LOADED_IMAGE) parent (hnd + IMAGE_INFO_SIZE) base isz)
    hnd src sz entry parent base isz ns e /\
  load64 (store_loaded_image system_table unload m (hnd + LOADED_IMAGE) parent (hnd + IMAGE_INFO_SIZE) base isz)
    (hnd + LOADED_IMAGE + DEVICE_HANDLE) = 0 /\
  forall x, x < hnd \/ hnd + IMAGE_INFO_SIZE <= x ->
    load8 (store_loaded_image system_table unload m (hnd + LOADED_IMAGE) parent (hnd + IMAGE_INFO_SIZE) base isz) x
    = load8 m x.
Proof.
  intros H1 H2 H3 H4 Hp Hh Hw Hpar Hbase Hisz.
  set (m' := store_loaded_image _ _ _ _ _ _ _ _).
  assert (Hx : forall x, x < hnd \/ hnd + IMAGE_INFO_SIZE <= x -> load8 m' x = load8 m x).
  { intros x Hx. unfold m', store_loaded_image. offsets. by repeat (rewrite load8_store_out by lia). }
  split; [|split; [|done]].
  - constructor; [..|eapply path_at_move; [exact Hp|by offsets; lia|apply (path_bound _ _ _ _ Hp)|]].
    all: try (unfold m', store_loaded_image; offsets; repeat (rewrite load_store_out by lia);
      first [done | rewrite load_store; apply Z.mod_small; change (8 * Z.of_nat 8) with 64; lia]).
    intros i Hi. apply Hx. lia.
  - unfold m', store_loaded_image. offsets. repeat (rewrite load_store_out by lia). by rewrite load_store.
Qed.

(** A device path copied to the pool, or over the first bytes of memory when there
    is none left. *)
Lemma dup_outcome fuel fw rs a ns e :
  holds (Services.allocator fw) rs -> mem_ok (Services.mem fw) -> path_at (Services.mem fw) a ns e ->
  (length ns < fuel)%nat -> path_length ns + nsize e <= 0x100000 ->
  exists c fw' rs', Services.dup_device_path fuel fw a = Done (c, fw') /\
    holds (Services.allocator fw') rs' /\ Services.handles fw' = Services.handles fw /\ mem_ok (Services.mem fw') /\
    path_at (Services.mem fw') c ns e /\
    (forall x, x < c \/ c + path_length ns + nsize e <= x -> load8 (Services.mem fw') x = load8 (Services.mem fw) x) /\
    ((c = 0 /\ same_types rs rs') \/ fresh_as BootServicesData rs rs' c (path_length ns + nsize e)).
Proof.
  intros Ha Hm Hp Hf Hl. pose proof (path_bound _ _ _ _ Hp) as (_ & Hl0 & He & Hw).
  set (size := path_length ns + nsize e) in *.
  unfold Services.dup_device_path, DevicePath.dup_device_path, DevicePath.get_device_path_size.
  rewrite (size_loop_spec fuel _ a ns e 0 Hp) by (done || lia). rstep.
  replace (0 + path_length ns + nsize e) with size by (subst size; lia).
  unfold Services.pool_allocate, Services.pool_pages. fold (size_pages size).
  destruct (pages_outcome_as BootServicesData _ rs size Ha) as (a' & rs' & Ha' & Ho); [lia|].
  assert (Hout : forall c x, x < c \/ c + path_length ns + nsize e <= x ->
    load8 (copy_bytes (Services.mem fw) a c (Z.to_nat size)) x = load8 (Services.mem fw) x).
  { intros c x Hx. unfold copy_bytes. apply load8_store_bytes_out. rewrite length_load_bytes. lia. }
  destruct Ho as [(w & E & Hfr)|[E Hsame]]; rewrite E; rstep; status_step; eexists _, _, rs';
    (split; [done|]); cbn [Services.mem Services.allocator Services.handles Services.set_memory Services.set_allocator].
  - destruct (fresh_bound _ _ _ _ _ _ Ha Hfr) as [Hw0 Hw1]; [lia|].
    split_and!; [done|done|by apply mem_ok_copy|apply copy_path; [done|done|lia|lia]|by apply Hout|by right].
  - split_and!; [done|done|by apply mem_ok_copy|apply copy_path; [done|done|lia|lia]|by apply Hout|by left].
Qed.

Lemma iface_entry db i e g x : (i < HandleDatabase.protocol_handle_count db)%nat ->
  HandleDatabase.protocol_handle db !! i = Some e -> protocols e = [HandleDatabase.mkPS g x] -> iface db i g = Some x.
Proof.
  intros Hi He Hp. unfold iface. rewrite decide_True by done. rewrite He. cbn. unfold find_interface. rewrite Hp. cbn.
  by rewrite decide_True.
Qed.

Lemma guids_differ : IMAGE_INFO_GUID <> LOADED_IMAGE_GUID.
Proof. by vm_compute. Qed.

(** The three protocols go on two new handles. *)
Lemma install_protocols db hnd c : db_ok db -> (HandleDatabase.protocol_handle_count db + 2 <= HandleDatabase.MAX_HANDLE_STRUCT)%nat ->
  let n := HandleDatabase.protocol_handle_count db in
  exists db1 db2 db3,
    HandleDatabase.install_protocol db HandleDatabase.Null IMAGE_INFO_GUID hnd
      = Done ((Status.SUCCESS, HandleDatabase.Entry n), db1) /\
    HandleDatabase.install_protocol db1 HandleDatabase.Null DevicePath.PROTOCOL_GUID c
      = Done ((Status.SUCCESS, HandleDatabase.Entry (S n)), db2) /\
    HandleDatabase.install_protocol db2 (HandleDatabase.Entry n) LOADED_IMAGE_GUID (hnd + LOADED_IMAGE)
      = Done ((Status.SUCCESS, HandleDatabase.Entry n), db3) /\
    db_ok db3 /\ ifaces_kept db db3 /\ iface db3 n IMAGE_INFO_GUID = Some hnd /\
    iface db3 n LOADED_IMAGE_GUID = Some (hnd + LOADED_IMAGE) /\ iface db3 (S n) DevicePath.PROTOCOL_GUID = Some c.
Proof.
  intros Hdb Hc n.
  destruct (install_new db IMAGE_INFO_GUID hnd Hdb) as (db1 & E1 & Hdb1 & Hc1 & (e1 & He1 & Hp1 & Hn1) & Hk1); [lia|].
  fold n in E1, Hc1, He1, Hk1.
  destruct (install_new db1 DevicePath.PROTOCOL_GUID c Hdb1) as (db2 & E2 & Hdb2 & Hc2 & (e2 & He2 & Hp2 & _) & Hk2);
    [rewrite Hc1; lia|]. rewrite Hc1 in E2, Hc2, He2, Hk2.
  destruct (install_more db2 n e1 LOADED_IMAGE_GUID (hnd + LOADED_IMAGE) Hdb2) as (db3 & E3 & Happ).
  { lia. } { by rewrite (proj1 (Hk2 n ltac:(lia))). } { rewrite Hn1. unfold HandleDatabase.MAX_PROTOCOL_STRUCT. lia. }
  { rewrite Hp1. cbn. rewrite decide_False; [done|]. intros E. by apply guids_differ. }
  exists db1, db2, db3. do 3 (split; [done|]). split; [apply Happ|].
  assert (He2' : HandleDatabase.protocol_handle db2 !! n = Some e1) by (by rewrite (proj1 (Hk2 n ltac:(lia)))).
  assert (Hi3 : forall k g x, iface db2 k g = Some x -> iface db3 k g = Some x).
  { intros k g x Hx. rewrite (appended_iface db2 db3 n e1 _ k g Hdb2 ltac:(lia) He2' Happ). by rewrite Hx. }
  assert (Hi2 : iface db2 n IMAGE_INFO_GUID = Some hnd) by (eapply iface_entry; [lia|done|done]).
  split_and!.
  - intros k g x Hx. assert (k < n)%nat.
    { unfold iface in Hx. destruct (decide _); [done|discriminate Hx]. }
    apply Hi3. rewrite (proj2 (Hk2 k ltac:(lia))), (proj2 (Hk1 k ltac:(lia))). done.
  - by apply Hi3.
  - rewrite (appended_iface db2 db3 n e1 _ n _ Hdb2 ltac:(lia) He2' Happ). cbn [HandleDatabase.guid HandleDatabase.interface].
    unfold iface. rewrite decide_True by lia. rewrite He2'. cbn. unfold find_interface. rewrite Hp1. cbn.
    rewrite decide_False by (intros E; by apply guids_differ). cbn. by rewrite decide_True.
  - apply Hi3. eapply iface_entry; [lia|done|done].
Qed.

(** What is used and at or above [lo], outside the range, keeps its bytes. *)
Definition used_kept (rs : list Map.Region) (m m' : memory) (lo a n : Z) : Prop :=
  forall x, lo <= x -> type_at rs x <> Some Map.CONVENTIONAL -> x < a \/ a + n <= x -> load8 m' x = load8 m x.

Lemma install_image_spec fuel fw rs parent hnd src sz entry base isz ns e :
  let n := HandleDatabase.protocol_handle_count (Services.handles fw) in
  let size := IMAGE_INFO_SIZE + (path_length ns + nsize e) in
  holds (Services.allocator fw) rs -> db_ok (Services.handles fw) ->
  (n + 2 <= HandleDatabase.MAX_HANDLE_STRUCT)%nat -> mem_ok (Services.mem fw) ->
  load32 (Services.mem fw) hnd = IMAGE_INFO_SIGNATURE -> load64 (Services.mem fw) (hnd + SOURCE_BUFFER) = src ->
  load64 (Services.mem fw) (hnd + SOURCE_SIZE) = sz -> load64 (Services.mem fw) (hnd + ENTRY_POINT) = entry ->
  path_at (Services.mem fw) (hnd + IMAGE_INFO_SIZE) ns e ->
  (length ns < fuel)%nat -> path_length ns + nsize e <= 0x100000 -> 0x100000 < hnd ->
  (forall x, hnd <= x < hnd + size -> type_at rs x <> Some Map.CONVENTIONAL) ->
  0 <= parent < 2 ^ 64 -> 0 <= base < 2 ^ 64 -> 0 <= isz < 2 ^ 64 ->
  exists c fw' rs',
    install_image handle_table system_table unload fuel fw parent hnd base isz
      = Done (Status.SUCCESS, HandleDatabase.Entry n, fw') /\
    holds (Services.allocator fw') rs' /\ db_ok (Services.handles fw') /\
    ifaces_kept (Services.handles fw) (Services.handles fw') /\
    iface (Services.handles fw') n IMAGE_INFO_GUID = Some hnd /\
    iface (Services.handles fw') n LOADED_IMAGE_GUID = Some (hnd + LOADED_IMAGE) /\
    iface (Services.handles fw') (S n) DevicePath.PROTOCOL_GUID = Some c /\
    load64 (Services.mem fw') (hnd + LOADED_IMAGE + DEVICE_HANDLE)
      = Services.handle_ptr handle_table (HandleDatabase.Entry (S n)) /\
    path_at (Services.mem fw') c (device_part ns e).1 (device_part ns e).2 /\
    info_at (Services.mem fw') hnd src sz entry parent base isz ns e /\
    used_kept rs (Services.mem fw) (Services.mem fw') (path_length ns + nsize e) hnd size.
Proof.
  intros n size Ha Hdb Hn Hm H1 H2 H3 H4 Hp Hf Hl Hh Hused Hpar Hbase Hisz.
  pose proof (path_bound _ _ _ _ Hp) as (_ & Hl0 & He & Hw).
  unfold install_image, Services.install_local, Services.install_cell.
  destruct (store_info (Services.mem fw) hnd src sz entry parent base isz ns e) as (Hinfo & Hnull & Hout);
    try done; [offsets; lia..|].
  set (m1 := store_loaded_image _ _ _ _ _ _ _ _) in *.
  assert (Hm1 : mem_ok m1) by (unfold m1, store_loaded_image; repeat apply mem_ok_store_bytes; done).
  destruct (install_protocols (Services.handles fw) hnd 0 Hdb Hn) as (db1 & _ & _ & E1 & _).
  rewrite E1. rstep. status_step.
  cbn [Services.mem Services.set_memory Services.set_handles]. fold m1.
  set (fw1 := Services.set_memory (Services.set_handles fw db1) m1).
  destruct (dup_outcome fuel fw1 rs (hnd + IMAGE_INFO_SIZE) ns e) as (c & fw2 & rs2 & -> & Ha2 & Hh2 & Hm2 & Hp2 & Ho2 & Hc);
    [done|done|apply (ia_path _ _ _ _ _ _ _ _ _ _ Hinfo)|done|done|]. rstep.
  destruct (drop_file_path_spec fuel _ c ns e Hp2 Hf Hm2) as (m3 & -> & Hm3 & Hp3 & Ho3). rstep.
  assert (Hc3 : forall x, path_length ns + nsize e <= x -> type_at rs x <> Some Map.CONVENTIONAL -> load8 m3 x = load8 m1 x).
  { intros x Hx Ht. assert (x < c \/ c + path_length ns + nsize e <= x).
    { destruct Hc as [[-> _]|Hc]; [lia|]. destruct (fresh_apart _ _ _ _ _ x 1 Hc); [lia|lia| |lia|lia].
      intros y Hy. by replace y with x by lia. }
    rewrite Ho3, Ho2 by done. done. }
  assert (Hinfo3 : info_at m3 hnd src sz entry parent base isz ns e).
  { eapply info_at_frame; [exact Hinfo|]. intros x Hx _. apply Hc3; [lia|]. apply Hused. offsets. subst size. lia. }
  assert (Hnull3 : load64 m3 (hnd + LOADED_IMAGE + DEVICE_HANDLE) = 0).
  { rewrite <- Hnull. apply load_ext. intros x Hx. apply Hc3; [offsets; lia|]. apply Hused. offsets. subst size. lia. }
  destruct (install_protocols (Services.handles fw) hnd c Hdb Hn)
    as (db1' & db2 & db3 & E1' & E2 & E3 & Hdb3 & Hk3 & Hi1 & Hi2 & Hi3).
  rewrite E1 in E1'. injection E1' as <-.
  cbn [Services.mem Services.handles Services.set_memory]. rewrite Hnull3, Hh2.
  change (Services.handle_at handle_table m3 0) with HandleDatabase.Null.
  cbn [Services.handles fw1 Services.set_memory Services.set_handles]. rewrite E2. rstep. status_step. rstep.
  cbn [Services.handles Services.mem Services.set_memory Services.set_handles]. rewrite E3. rstep. status_step.
  set (p := Services.handle_ptr handle_table (HandleDatabase.Entry (S n))).
  set (m4 := store64 m3 (hnd + LOADED_IMAGE + DEVICE_HANDLE) p).
  assert (Hm4 : forall x, ~ (hnd + LOADED_IMAGE + DEVICE_HANDLE <= x < hnd + LOADED_IMAGE + DEVICE_HANDLE + 8) ->
    load8 m4 x = load8 m3 x) by (intros x Hx; apply load8_store_out; lia).
  assert (Hpc : 0 <= p < 2 ^ 64).
  { subst p. unfold Services.handle_ptr, Services.HANDLE_SIZE in *. unfold HandleDatabase.MAX_HANDLE_STRUCT in *. lia. }
  eexists c, _, rs2. split; [done|].
  cbn [Services.handles Services.mem Services.allocator Services.set_memory Services.set_handles]. fold m4.
  split_and!; try done.
  - unfold m4. rewrite load_store. by apply Z.mod_small.
  - eapply path_at_move; [exact Hp3|apply (path_bound _ _ _ _ Hp3)|apply (path_bound _ _ _ _ Hp3)|].
    pose proof (device_part_length _ _ _ _ Hp2) as Hdl.
    assert (c + (path_length ns + nsize e) <= hnd \/ hnd + size <= c).
    { destruct Hc as [[-> _]|Hc]; [lia|]. destruct (fresh_apart _ _ _ _ _ hnd size Hc); [lia|offsets; lia|done|lia|lia]. }
    intros i Hi. apply Hm4. subst size. offsets. lia.
  - eapply info_at_frame; [exact Hinfo3|]. intros x _ Hx. by apply Hm4.
  - intros x Hx Ht Hr. rewrite Hm4 by (subst size; offsets; lia). rewrite Hc3 by done. apply Hout. subst size. offsets. lia.
Qed.

(** The image of a handle is started at its entry point. *)
Lemma start_image_runs {S} (firmware : S -> Services.Firmware) s i hnd run : let fw := firmware s in
  db_ok (Services.handles fw) ->
  iface (Services.handles fw) i IMAGE_INFO_GUID = Some hnd -> load32 (Services.mem fw) hnd = IMAGE_INFO_SIGNATURE ->
  start_image_at handle_table firmware run s (HandleDatabase.Entry i) =
    ('(status, s) ← run (load64 (Services.mem fw) (hnd + ENTRY_POINT))
                      (Services.handle_ptr handle_table (HandleDatabase.Entry i)) s;
     Done (status, 0, 0, s)).
Proof.
  intros fw Hdb Hi Hs. unfold start_image_at. fold fw. pose proof (iface_bound _ _ _ _ Hdb Hi) as Hlt.
  rewrite (handle_protocol_spec _ Hdb) by (rewrite (db_len _ Hdb); done).
  assert (Hc : (i < HandleDatabase.protocol_handle_count (Services.handles fw))%nat).
  { unfold iface in Hi. destruct (decide _); [done|discriminate Hi]. }
  rewrite decide_True, Hi by done. rstep. status_step. rewrite Hs, Z.eqb_refl. done.
Qed.

(** The first part of [load_image_from]: the copy of the path and the source. *)
Lemma info_head m dp hnd src sz ns e :
  let size := IMAGE_INFO_SIZE + (path_length ns + nsize e) in
  let m' := store64 (store64 (store32 (copy_bytes m dp (hnd + IMAGE_INFO_SIZE) (Z.to_nat (path_length ns + nsize e)))
              hnd IMAGE_INFO_SIGNATURE) (hnd + SOURCE_BUFFER) src) (hnd + SOURCE_SIZE) sz in
  mem_ok m -> path_at m dp ns e -> 0 <= hnd -> hnd + size < 2 ^ 64 -> 0 <= src < 2 ^ 64 -> 0 <= sz < 2 ^ 64 ->
  mem_ok m' /\ load32 m' hnd = IMAGE_INFO_SIGNATURE /\ load64 m' (hnd + SOURCE_BUFFER) = src /\
  load64 m' (hnd + SOURCE_SIZE) = sz /\ path_at m' (hnd + IMAGE_INFO_SIZE) ns e /\
  forall x, x < hnd \/ hnd + size <= x -> load8 m' x = load8 m x.
Proof.
  intros size m' Hm Hp Hh Hw Hs Hz. pose proof (path_bound _ _ _ _ Hp) as (_ & Hl & He & _).
  pose proof (copy_path m dp (hnd + IMAGE_INFO_SIZE) ns e Hm Hp) as Hc. subst size m'. offsets. split_and!.
  - repeat apply mem_ok_store_bytes. done.
  - repeat (rewrite load_store_out by lia). by rewrite load_store.
  - rewrite load_store_out, load_store by lia. by apply Z.mod_small.
  - rewrite load_store. by apply Z.mod_small.
  - eapply path_at_move; [apply Hc; lia|lia|lia|]. intros i Hi. by repeat (rewrite load8_store_out by lia).
  - intros x Hx. repeat (rewrite load8_store_out by lia). unfold copy_bytes. apply load8_store_bytes_out.
    rewrite length_load_bytes. lia.
Qed.

(** The second half, once the [ImageInfo]'s head is at [hnd]. *)
Lemma place_image_spec fuel fw rs parent hnd src sz isz entry ns e :
  let n := HandleDatabase.protocol_handle_count (Services.handles fw) in
  let size := IMAGE_INFO_SIZE + (path_length ns + nsize e) in
  holds (Services.allocator fw) rs -> (forall x, type_at rs x = Some Map.CONVENTIONAL -> x < 2 ^ 63) ->
  db_ok (Services.handles fw) -> (n + 2 <= HandleDatabase.MAX_HANDLE_STRUCT)%nat -> mem_ok (Services.mem fw) ->
  load32 (Services.mem fw) hnd = IMAGE_INFO_SIGNATURE -> load64 (Services.mem fw) (hnd + SOURCE_BUFFER) = src ->
  load64 (Services.mem fw) (hnd + SOURCE_SIZE) = sz -> path_at (Services.mem fw) (hnd + IMAGE_INFO_SIZE) ns e ->
  (length ns < fuel)%nat -> path_length ns + nsize e <= 0x100000 -> 0x100000 < hnd ->
  loadable fuel (Services.mem fw) src sz isz entry -> 0 < sz -> 0 <= parent < 2 ^ 64 ->
  (forall x, src <= x < src + sz \/ hnd <= x < hnd + size -> type_at rs x <> Some Map.CONVENTIONAL) ->
  exists st h fw' rs',
    place_image handle_table system_table unload fuel fw parent hnd src sz isz = Done (st, h, fw') /\
    holds (Services.allocator fw') rs' /\ db_ok (Services.handles fw') /\
    ifaces_kept (Services.handles fw) (Services.handles fw') /\
    ((st = Status.OUT_OF_RESOURCES /\ h = HandleDatabase.Null /\ Services.handles fw' = Services.handles fw /\
      Services.mem fw' = Services.mem fw /\ forall p k, spare rs p (S k) -> p <= size_pages isz) \/
     (st = Status.SUCCESS /\ h = HandleDatabase.Entry n /\ exists base c m2,
        iface (Services.handles fw') n IMAGE_INFO_GUID = Some hnd /\
        iface (Services.handles fw') n LOADED_IMAGE_GUID = Some (hnd + LOADED_IMAGE) /\
        iface (Services.handles fw') (S n) DevicePath.PROTOCOL_GUID = Some c /\
        load64 (Services.mem fw') (hnd + LOADED_IMAGE + DEVICE_HANDLE)
          = Services.handle_ptr handle_table (HandleDatabase.Entry (S n)) /\
        path_at (Services.mem fw') c (device_part ns e).1 (device_part ns e).2 /\
        info_at (Services.mem fw') hnd src sz (base + entry) parent base isz ns e /\
        PeLoader.peloader_load_image fuel (Services.mem fw) base isz src sz = Done (base + entry, m2) /\
        used_kept rs (Services.mem fw) (Services.mem fw') (path_length ns + nsize e) hnd size /\
        forall x, base <= x < base + isz ->
          type_at rs x = Some Map.CONVENTIONAL /\ load8 (Services.mem fw') x = load8 m2 x)).
Proof.
  intros n size Ha Hlow Hdb Hn Hm Hsig Hsb Hss Hp Hf Hl Hh Hld Hz Hpar Hused.
  pose proof (path_bound _ _ _ _ Hp) as (_ & Hl0 & He & Hw). destruct Hld as [Hisz Hent _ Hload].
  unfold place_image.
  destruct (pool_outcome fw rs BootServicesData isz Ha) as (a2 & rs2 & Ha2 & Ho2); [lia|].
  destruct Ho2 as [(base & E2 & Hf2)|[E2 _]]; rewrite E2; rstep; status_step.
  2:{ eexists _, _, _, rs2. split; [done|]. split; [done|]. split; [done|]. split; [by intros k g x|]. left.
      do 4 (split; [done|]). intros p k Hr. eapply (pool_refused fw rs); [exact Ha|lia|exact E2|exact Hr]. }
  pose proof Hf2 as (Hb & Hconv & _).
  pose proof (Hlow (base + isz - 1) (proj1 (Hconv (base + isz - 1) ltac:(lia)))) as Hb63.
  destruct (Hload (Services.mem fw) base Hm) as (m2 & E3 & Hm2 & Hx2); [by intros x|lia|lia| |].
  { destruct (fresh_apart _ _ _ _ _ src sz Hf2); [lia|lia|auto|lia|lia]. }
  cbn [Services.mem Services.set_allocator]. rewrite E3. rstep.
  rewrite (proj2 (Z.eqb_neq (base + entry) 0)) by lia.
  assert (Hab : hnd + size <= base \/ base + isz <= hnd)
    by (eapply fresh_apart; [exact Hf2|lia|subst size; offsets; lia|auto]).
  set (m3 := store64 m2 (hnd + ENTRY_POINT) (base + entry)).
  assert (Hx3 : forall x, hnd <= x < hnd + size -> ~ (hnd + 24 <= x < hnd + 32) -> load8 m3 x = load8 (Services.mem fw) x).
  { intros x H1 H2. unfold m3. rewrite load8_store_out by (offsets; lia). apply Hx2. lia. }
  destruct (install_image_spec fuel (Services.set_memory (Services.set_allocator fw a2) m3) rs2 parent hnd src sz
              (base + entry) base isz ns e)
    as (c & fw' & rs' & -> & Ha' & Hdb' & Hk' & Hi1 & Hi2 & Hi3 & Hdh & Hpc & Hia & Hux);
    cbn [Services.mem Services.allocator Services.handles Services.set_memory Services.set_allocator] in *;
    try done; try lia.
  { by apply mem_ok_store_bytes. }
  1-3: etransitivity; [apply load_ext; intros x Hx; apply Hx3; subst size; offsets; lia|done].
  { unfold m3. rewrite load_store. apply Z.mod_small. change (8 * Z.of_nat 8) with 64. lia. }
  { eapply path_at_move; [exact Hp|apply (path_bound _ _ _ _ Hp)|apply (path_bound _ _ _ _ Hp)|].
    intros i Hi. apply Hx3; subst size; offsets; lia. }
  { intros x Hx. eapply fresh_kept; [exact Hf2|]. auto. }
  eexists _, _, fw', rs'. split; [done|]. do 3 (split; [done|]). right. split; [done|]. split; [done|].
  exists base, c, m2. do 7 (split; [done|]). split.
  { intros x Hx Ht Hr. assert (x < base \/ base + isz <= x).
    { destruct (decide (base <= x < base + isz)) as [Hin|]; [|lia]. by destruct Ht; apply Hconv. }
    rewrite Hux by (try done; by eapply fresh_kept). unfold m3.
    rewrite load8_store_out by (subst size; offsets; lia). by apply Hx2. }
  intros x Hx. split; [by apply Hconv|].
  rewrite Hux by (first [lia | by eapply fresh_used; [exact Hf2|done|] | subst size; lia]).
  apply load8_store_out. subst size. offsets. lia.
Qed.

(** Loading an image touches no variable. *)
Lemma install_local_variables fw h g x st h' fw' : Services.install_local fw h g x = Done (st, h', fw') ->
  Services.variables fw' = Services.variables fw.
Proof. unfold Services.install_local. intros E. apply bind_Done in E as ([[st0 h0] db] & _ & [= _ _ <-]). done. Qed.

Lemma install_image_variables fuel fw parent hnd base isz st h fw' :
  install_image handle_table system_table unload fuel fw parent hnd base isz = Done (st, h, fw') ->
  Services.variables fw' = Services.variables fw.
Proof.
  unfold install_image, Services.dup_device_path, Services.install_cell. intros E.
  unbind E as [[st1 h1] fw1] eqn E1. apply install_local_variables in E1. unbind E as [c fw2] eqn E2.
  apply bind_Done in E2 as ([[c2 a2] m2] & _ & [= _ <-]). unbind E as m3 eqn E3. unbind E as [st4 fw4] eqn E4.
  apply bind_Done in E4 as ([[st5 h5] db5] & _ & E4). apply install_local_variables in E. rewrite E, <- E1.
  destruct (Status.eqb _ _); by injection E4 as _ <-.
Qed.

Lemma place_image_variables fuel fw parent hnd src sz isz st h fw' :
  place_image handle_table system_table unload fuel fw parent hnd src sz isz = Done (st, h, fw') ->
  Services.variables fw' = Services.variables fw.
Proof.
  unfold place_image, Services.pool_local. intros E. unbind E as [[st1 a1] fw1] eqn E1.
  apply bind_Done in E1 as ([[st2 a2] al] & _ & [= _ _ <-]). destruct (negb _); [by injection E as _ _ <-|].
  unbind E as [en m3] eqn E3. destruct (_ =? 0); [by injection E as _ _ <-|]. by apply install_image_variables in E.
Qed.

(** The pages it asks for first: the description with its device path, and the image. *)
Definition image_pages (ns : list Node) (e : Node) (isz : Z) : Z :=
  size_pages (IMAGE_INFO_SIZE + (path_length ns + nsize e)) + size_pages isz.
Lemma image_pages_nonneg ns e isz : 0 <= image_pages ns e isz.
Proof. pose proof (size_pages_nonneg isz). pose proof (size_pages_nonneg (IMAGE_INFO_SIZE + (path_length ns + nsize e))). unfold image_pages. lia. Qed.

(** What [Image::load_image] of a loadable file does. *)
Lemma load_image_outcome fuel fw rs parent dp src sz isz entry ns e :
  let n := HandleDatabase.protocol_handle_count (Services.handles fw) in
  holds (Services.allocator fw) rs -> (forall x, type_at rs x = Some Map.CONVENTIONAL -> x < 2 ^ 63) ->
  db_ok (Services.handles fw) -> (n + 2 <= HandleDatabase.MAX_HANDLE_STRUCT)%nat -> mem_ok (Services.mem fw) ->
  path_at (Services.mem fw) dp ns e -> (length ns < fuel)%nat -> path_length ns + nsize e <= 0x100000 ->
  loadable fuel (Services.mem fw) src sz isz entry ->
  0 <= src < 2 ^ 64 -> 0 < sz < 2 ^ 64 -> 0 <= parent < 2 ^ 64 ->
  (forall x, src <= x < src + sz -> type_at rs x <> Some Map.CONVENTIONAL) ->
  exists st h fw' rs',
    load_image_from handle_table system_table unload fuel fw parent dp src sz = Done (st, h, fw') /\
    holds (Services.allocator fw') rs' /\ db_ok (Services.handles fw') /\
    ifaces_kept (Services.handles fw) (Services.handles fw') /\
    ((st = Status.OUT_OF_RESOURCES /\ h = HandleDatabase.Null /\ Services.handles fw' = Services.handles fw /\
      load32 (Services.mem fw') 0 = load32 (Services.mem fw) 0 /\
      forall p k, spare rs p (2 + k) -> p <= image_pages ns e isz) \/
     (st = Status.SUCCESS /\ h = HandleDatabase.Entry n /\ exists hnd base c m1 m2,
        iface (Services.handles fw') n IMAGE_INFO_GUID = Some hnd /\
        iface (Services.handles fw') n LOADED_IMAGE_GUID = Some (hnd + LOADED_IMAGE) /\
        iface (Services.handles fw') (S n) DevicePath.PROTOCOL_GUID = Some c /\
        load64 (Services.mem fw') (hnd + LOADED_IMAGE + DEVICE_HANDLE)
          = Services.handle_ptr handle_table (HandleDatabase.Entry (S n)) /\
        path_at (Services.mem fw') c (device_part ns e).1 (device_part ns e).2 /\
        info_at (Services.mem fw') hnd src sz (base + entry) parent base isz ns e /\
        agree src (src + sz) (Services.mem fw) m1 /\
        PeLoader.peloader_load_image fuel m1 base isz src sz = Done (base + entry, m2) /\
        (forall x, base <= x < base + isz ->
           type_at rs x = Some Map.CONVENTIONAL /\ load8 (Services.mem fw') x = load8 m2 x) /\
        (forall x, hnd <= x < hnd + IMAGE_INFO_SIZE -> type_at rs x = Some Map.CONVENTIONAL) /\
        (forall x, path_length ns + nsize e <= x -> type_at rs x <> Some Map.CONVENTIONAL ->
          load8 (Services.mem fw') x = load8 (Services.mem fw) x) /\
        Services.variables fw' = Services.variables fw)).
Proof.
  intros n Ha Hlow Hdb Hn Hm Hp Hf Hl Hld Hs Hz Hpar Hsrc.
  pose proof (path_bound _ _ _ _ Hp) as (_ & Hl0 & He & Hw). pose proof Hld as [Hisz _ Hinfo _].
  unfold load_image_from, DevicePath.get_device_path_size.
  rewrite (size_loop_spec fuel _ dp ns e 0 Hp) by (done || lia). rstep.
  replace (0 + path_length ns + nsize e) with (path_length ns + nsize e) by lia.
  set (size := IMAGE_INFO_SIZE + (path_length ns + nsize e)).
  assert (Hsize : 0 < size < 2 ^ 32) by (subst size; offsets; lia). rewrite (wrap_small 64 size) by lia.
  destruct (pool_outcome fw rs BootServicesData size Ha) as (a1 & rs1 & Ha1 & Ho1); [lia|].
  destruct Ho1 as [(hnd & E1 & Hf1)|[E1 _]]; rewrite E1; rstep; status_step.
  2:{ eexists _, _, _, rs1. split; [done|]. split; [done|]. split; [done|]. split; [by intros k g x|]. left.
      do 4 (split; [done|]). intros p k Hr. pose proof (pool_refused fw rs _ size _ _ p (S k) Ha ltac:(lia) E1 Hr) as Hp'.
      pose proof (size_pages_nonneg isz). unfold image_pages. fold size. lia. }
  destruct (fresh_bound _ _ _ _ _ _ Ha Hf1) as [Hh0 Hh1]; [lia|]. pose proof Hf1 as (Hh & _).
  cbn [Services.mem Services.set_allocator].
  destruct (info_head (Services.mem fw) dp hnd src sz ns e Hm Hp) as (Hm1 & Hsig & Hsb & Hss & Hp1 & Hx1);
    [lia|done|done|lia|]. fold size in Hx1. set (m1 := store64 _ _ sz) in *.
  assert (Hag1 : agree src (src + sz) (Services.mem fw) m1).
  { intros x Hx. apply Hx1. destruct (fresh_apart _ _ _ _ _ src sz Hf1); [lia|lia|done|lia|lia]. }
  rewrite (Hinfo m1 Hm1 Hag1), (proj2 (Z.eqb_neq isz 0)) by lia.
  assert (Hconv : forall x, type_at rs1 x = Some Map.CONVENTIONAL -> type_at rs x = Some Map.CONVENTIONAL).
  { intros x Hx. destruct (decide (type_at rs x = Some Map.CONVENTIONAL)) as [|Hne]; [done|].
    by destruct (fresh_kept _ _ _ _ _ x Hf1 Hne). }
  destruct (place_image_spec fuel (Services.set_memory (Services.set_allocator fw a1) m1) rs1 parent hnd src sz isz entry ns e)
    as (st & h & fw' & rs' & E4 & Ha' & Hdb' & Hk' & Ho);
    cbn [Services.mem Services.allocator Services.handles Services.set_memory Services.set_allocator] in *;
    try done; try lia; [by auto|by eapply loadable_agree| |].
  { intros x [Hx|Hx]; [eapply fresh_kept; [exact Hf1|]; auto|by eapply fresh_used]. }
  exists st, h, fw', rs'. split; [exact E4|]. do 3 (split; [done|]). destruct Ho as [(-> & -> & Hh' & Hm' & Hno)|(-> & -> & base & c & m2 & Ho)]; [left|right].
  { do 3 (split; [done|]). split; [rewrite Hm'; apply load_ext; intros x Hx; apply Hx1; lia|].
    intros p k Hr. unfold image_pages. fold size. apply Z.nlt_ge. intros Hp'.
    pose proof (size_pages_nonneg isz).
    destruct (pool_room fw rs _ size a1 _ _ p (S k) Ha ltac:(lia) E1 Hr) as [_ Hr1]; [lia|].
    specialize (Hno _ k (Hr1 rs1 Ha1)). lia. }
  destruct Ho as (Hi1 & Hi2 & Hi3 & Hdh & Hpc & Hia & E3 & Hux & Hx). split; [done|]. split; [done|].
  exists hnd, base, c, m1, m2. do 8 (split; [done|]). split; [intros x Hx'; destruct (Hx x Hx'); auto|]. split.
  { intros x Hx'. apply Hf1. subst size. offsets. lia. }
  split; [|by eapply place_image_variables in E4].
  intros x Hx' Ht. assert (x < hnd \/ hnd + size <= x).
  { destruct (decide (hnd <= x < hnd + size)) as [Hin|]; [|lia]. by destruct Ht; apply Hf1. }
  rewrite Hux; [by apply Hx1|done|by eapply fresh_kept|done].
Qed.

(** C19: [Image::load_image] of a loadable file, while two handles are free: it either
    reports OUT_OF_RESOURCES and installs nothing, or succeeds with a new handle.
    The image is then in fresh pages exactly as the PE loader put it; the handle's
    [ImageInfo] gives the source, the entry point, the parent, the base and the
    size and is followed by a copy of the device path, none of it disturbed by the
    later allocations; the loaded-image protocol is on the same handle, and a
    second new handle, the image's device, has the device path without its
    file-path part.  What was installed before stays installed, and [start_image]
    of the handle calls the entry point with the handle. *)
Theorem load_image_then_start fuel fw rs parent dp src sz isz entry ns e :
  let n := HandleDatabase.protocol_handle_count (Services.handles fw) in
  holds (Services.allocator fw) rs -> (forall x, type_at rs x = Some Map.CONVENTIONAL -> x < 2 ^ 63) ->
  db_ok (Services.handles fw) -> (n + 2 <= HandleDatabase.MAX_HANDLE_STRUCT)%nat -> mem_ok (Services.mem fw) ->
  path_at (Services.mem fw) dp ns e -> (length ns < fuel)%nat -> path_length ns + nsize e <= 0x100000 ->
  loadable fuel (Services.mem fw) src sz isz entry ->
  0 <= src < 2 ^ 64 -> 0 < sz < 2 ^ 64 -> 0 <= parent < 2 ^ 64 ->
  (forall x, src <= x < src + sz -> type_at rs x <> Some Map.CONVENTIONAL) ->
  exists st h fw' rs',
    load_image_from handle_table system_table unload fuel fw parent dp src sz = Done (st, h, fw') /\
    holds (Services.allocator fw') rs' /\ db_ok (Services.handles fw') /\
    ifaces_kept (Services.handles fw) (Services.handles fw') /\
    ((st = Status.OUT_OF_RESOURCES /\ h = HandleDatabase.Null /\ Services.handles fw' = Services.handles fw) \/
     (st = Status.SUCCESS /\ h = HandleDatabase.Entry n /\ exists hnd base c m1 m2,
        iface (Services.handles fw') n IMAGE_INFO_GUID = Some hnd /\
        iface (Services.handles fw') n LOADED_IMAGE_GUID = Some (hnd + LOADED_IMAGE) /\
        iface (Services.handles fw') (S n) DevicePath.PROTOCOL_GUID = Some c /\
        load64 (Services.mem fw') (hnd + LOADED_IMAGE + DEVICE_HANDLE)
          = Services.handle_ptr handle_table (HandleDatabase.Entry (S n)) /\
        path_at (Services.mem fw') c (device_part ns e).1 (device_part ns e).2 /\
        info_at (Services.mem fw') hnd src sz (base + entry) parent base isz ns e /\
        agree src (src + sz) (Services.mem fw) m1 /\
        PeLoader.peloader_load_image fuel m1 base isz src sz = Done (base + entry, m2) /\
        (forall x, base <= x < base + isz ->
           type_at rs x = Some Map.CONVENTIONAL /\ load8 (Services.mem fw') x = load8 m2 x) /\
        forall run, start_image_at handle_table (fun fw => fw) run fw' h =
          ('(status, fw) ← run (base + entry) (Services.handle_ptr handle_table h) fw'; Done (status, 0, 0, fw)))).
Proof.
  intros n Ha Hlow Hdb Hn Hm Hp Hf Hl Hld Hs Hz Hpar Hsrc.
  destruct (load_image_outcome fuel fw rs parent dp src sz isz entry ns e) as (st & h & fw' & rs' & E & Ha' & Hdb' & Hk & Ho);
    [done..|]. exists st, h, fw', rs'. do 4 (split; [done|]).
  destruct Ho as [(-> & -> & Hh & _)|(-> & -> & hnd & base & c & m1 & m2 & Hi1 & Hi2 & Hi3 & Hdh & Hpc & Hia & Hag & E3 & Hx & _)];
    [by left|right].
  split; [done|]. split; [done|]. exists hnd, base, c, m1, m2. do 9 (split; [done|]). intros run.
  etransitivity; [exact (start_image_runs (fun fw => fw) fw' n hnd run Hdb' Hi1 (ia_signature _ _ _ _ _ _ _ _ _ _ Hia))|].
  cbv beta. by rewrite (ia_entry _ _ _ _ _ _ _ _ _ _ Hia).
Qed.
End Image.

(** The small image of [PeProps] without its relocation table at 0x900000, and a
    device path with a file at 0xa00000. *)
Definition pic_memory : memory :=
  store_bytes (store32 (store_bytes ∅ 0x900000 demo_image) (0x900040 + 180) 0) 0xa00000
    [1; 1; 6; 0; 2; 3;  4; 4; 8; 0; 65; 0; 0; 0;  0x7f; 0xff; 4; 0].
Definition pic_firmware : Services.Firmware :=
  Services.mkFw pic_memory demo HandleDatabase.new VariableStore.new EventInfo.new.

Lemma type_at_demo x t : type_at demo_map x = Some t -> 0 <= x < 0xa0000 \/ 0x200000 <= x < 0x400000.
Proof.
  intros Hx. unfold demo_map in Hx. cbn [type_at] in Hx.
  repeat match type of Hx with (if ?b then _ else _) = _ => destruct b eqn:?H end; [..|done].
  all: unfold contains in *; cbn [Map.rstart] in *; unfold Map.rend, Alloc.PAGE_SIZE in *;
    cbn [Map.rstart Map.rpages] in *; bool_to_prop; lia.
Qed.

Lemma pic_memory_ok : mem_ok pic_memory.
Proof. repeat apply mem_ok_store_bytes. by apply map_Forall_empty. Qed.

Lemma pic_loadable fuel : (0 < fuel)%nat -> loadable fuel pic_memory 0x900000 436 2048 512.
Proof.
  intros Hf. apply (loadable_fixed fuel pic_memory 0x900000 436 0x900040 demo_sections 2048).
  - lia.
  - norm_pow. lia.
  - apply pic_memory_ok.
  - constructor; vm_compute; repeat split; discriminate.
  - vm_compute. discriminate.
  - vm_compute. discriminate.
  - lia.
  - repeat constructor; vm_compute; discriminate.
  - repeat constructor; vm_compute; discriminate.
  - vm_compute. reflexivity.
  - exact Hf.
  - vm_compute. reflexivity.
Qed.

Lemma load_image_then_start_witness : exists fw' hnd base,
  load_image_from 0x700000 0x700f00 0x700f80 9 pic_firmware 0 0xa00000 0x900000 436
    = Done (Status.SUCCESS, HandleDatabase.Entry 0, fw') /\
  iface (Services.handles fw') 0 IMAGE_INFO_GUID = Some hnd /\
  load64 (Services.mem fw') (hnd + ENTRY_POINT) = base + 512.
Proof.
  assert (C : match load_image_from 0x700000 0x700f00 0x700f80 9 pic_firmware 0 0xa00000 0x900000 436 with
              | Done (st, _, _) => Status.eqb st Status.SUCCESS = true
              | _ => False end) by (vm_compute; reflexivity).
  destruct (load_image_then_start 0x700000 0x700f00 0x700f80 ltac:(lia) ltac:(vm_compute; reflexivity) ltac:(lia) 9
    pic_firmware demo_map 0 0xa00000 0x900000 436 2048 512 [mkNode 1 1 6; mkNode 4 4 8] (mkNode 0x7f 0xff 4))
    as (st & h & fw' & rs' & E & _ & _ & _ & Ho).
  - apply demo_holds.
  - intros x Hx. destruct (type_at_demo x _ Hx) as [H|H]; lia.
  - apply new_db_ok.
  - apply Nat.leb_le. vm_compute. reflexivity.
  - apply pic_memory_ok.
  - repeat split; try (vm_compute; reflexivity); vm_compute; discriminate.
  - cbn. lia.
  - vm_compute. discriminate.
  - apply pic_loadable. lia.
  - lia.
  - lia.
  - lia.
  - intros x Hx Ht. destruct (type_at_demo x _ Ht) as [H|H]; lia.
  - rewrite E in C. destruct Ho as [(-> & _)|(-> & -> & hnd & base & _ & _ & _ & Hi & _ & _ & _ & _ & Hinfo & _)].
    + discriminate C.
    + exists fw', hnd, base. split; [exact E|]. split; [exact Hi|].
      exact (ia_entry _ _ _ _ _ _ _ _ _ _ _ Hinfo).
Defined.
