(* ===== verification/LocateProps.v ===== *)
(** * Finding a device by its path

    [locate_device_path] finds the handle whose device path is the longest that
    begins the caller's path, and returns the rest of the path. *)

From S2P Require Import Prelude REfi Mem PeReloc Alloc MemMap MapSafety AllocRepr AllocRefine AllocSafety HandleDb Variables Events DevicePath Part Fat EfiFile FileProps Services EfiBlock BlockProps Image ImageProps.
Import Image.

Definition END : Node := mkNode DevicePath.TYPE_END DevicePath.SUBTYPE_ENTIRE 4.
Definition is_instance_end (n : Node) : bool := (ntype n =? DevicePath.TYPE_END) && (nsub n =? 1).

(** The length of a path's first instance. *)
Fixpoint instance_length (ns : list Node) : Z :=
  match ns with
  | [] => 0
  | n :: ns => if is_instance_end n then 0 else nsize n + instance_length ns
  end.

Lemma instance_end_spec fuel m a ns e : path_at m a ns e -> (length ns < fuel)%nat ->
  instance_end fuel m a = Done (a + instance_length ns).
Proof.
  revert fuel a. induction ns as [|n ns IH]; intros fuel a Hp Hf;
    (destruct fuel as [|fuel]; [cbn in Hf; lia|]); cbn [instance_end instance_length path_at] in *.
  - destruct Hp as (Hn & He & _). pose proof (node_at_end _ _ _ Hn) as Ee. rewrite He in Ee.
    unfold DevicePath.is_device_path_end, DevicePath.is_device_path_end_type. unfold DevicePath.at_end in Ee.
    change 0xff with DevicePath.SUBTYPE_ENTIRE. rewrite Ee. f_equal. lia.
  - destruct Hp as (Hn & He & Ha & Hp). pose proof (node_at_end _ _ _ Hn) as Ee. rewrite He in Ee.
    unfold DevicePath.is_device_path_end, DevicePath.is_device_path_end_instance,
      DevicePath.is_device_path_end_type. unfold DevicePath.at_end in Ee.
    change 0xff with DevicePath.SUBTYPE_ENTIRE. rewrite Ee. pose proof Hn as (Ht & Hs & _).
    rewrite Ht, Hs. fold (is_instance_end n). destruct (is_instance_end n); [f_equal; lia|].
    rewrite (path_next _ _ _ _ _ Hn Hp Ha), IH by (done || (cbn in Hf; lia)). f_equal. lia.
Qed.

Lemma instance_length_bound m a ns e : path_at m a ns e -> 0 <= instance_length ns <= path_length ns.
Proof.
  revert a. induction ns as [|n ns IH]; intros a Hp; cbn [instance_length path_length foldr path_at] in *; [lia|].
  destruct Hp as ((_ & _ & _ & H4) & _ & _ & Hp). pose proof (path_bound _ _ _ _ Hp) as (_ & Hl & _).
  apply IH in Hp. unfold path_length in *. destruct (is_instance_end n); lia.
Qed.

Lemma i32_small x : 0 <= x < 2 ^ 31 -> i32 x = x.
Proof. intros Hx. unfold i32. rewrite wrap_small by (norm_pow; lia). by rewrite (proj2 (Z.ltb_lt _ _)) by lia. Qed.

Section Locate.
(** The handles' device paths: [paths i] are the nodes of handle [i]'s path. *)
Context (db : HandleDatabase.t) (Hdb : db_ok db) (paths : nat -> list Node) (fuel : nat).

Definition paths_in (m : memory) : Prop := forall i x, iface db i DevicePath.PROTOCOL_GUID = Some x ->
  path_at m x (paths i) END /\ (length (paths i) < fuel)%nat.

(** Handle [i] has a path of [len] bytes that begins the path of [ssize] bytes at
    [sp]. *)
Definition candidate (m : memory) (sp ssize : Z) (i : nat) (len : Z) : Prop :=
  exists x, iface db i DevicePath.PROTOCOL_GUID = Some x /\ len = path_length (paths i) /\ len <= ssize /\
    load_bytes m x (Z.to_nat len) = load_bytes m sp (Z.to_nat len).

(** The best of some handles, or what there was before. *)
Definition best_of (m : memory) (sp ssize : Z) (is_ : list nat) (bm : Z) (bd : HandleDatabase.Handle)
    (bm' : Z) (bd' : HandleDatabase.Handle) : Prop :=
  bm <= bm' /\ (forall i len, i ∈ is_ -> candidate m sp ssize i len -> len <= bm') /\
  ((bm' = bm /\ bd' = bd) \/ exists i, i ∈ is_ /\ candidate m sp ssize i bm' /\ bd' = HandleDatabase.Entry i).

Lemma best_of_skip m sp ssize i is_ bm bd bm' bd' : (forall len, candidate m sp ssize i len -> len <= bm) ->
  best_of m sp ssize is_ bm bd bm' bd' -> best_of m sp ssize (i :: is_) bm bd bm' bd'.
Proof.
  intros Hi (H1 & H2 & H3). split; [done|]. split.
  - intros j len [->|Hj]%elem_of_cons Hc; [|by eapply H2]. apply Hi in Hc. lia.
  - destruct H3 as [H3|(j & Hj & H3)]; [by left|]. right. exists j. split; [by apply elem_of_cons; right|done].
Qed.

Lemma best_of_take m sp ssize i is_ bm bd len bm' bd' : candidate m sp ssize i len -> bm <= len ->
  best_of m sp ssize is_ len (HandleDatabase.Entry i) bm' bd' -> best_of m sp ssize (i :: is_) bm bd bm' bd'.
Proof.
  intros Hi Hlen (H1 & H2 & H3). split; [lia|]. split.
  - intros j k [->|Hj]%elem_of_cons Hc; [|by eapply H2]. destruct Hi as (_ & _ & -> & _), Hc as (_ & _ & -> & _). done.
  - right. destruct H3 as [[-> ->]|(j & Hj & H3)]; [exists i|exists j]; (split; [apply elem_of_cons; auto|done]).
Qed.

Lemma best_match_spec fw sp ssize is_ bm bd : Services.handles fw = db -> paths_in (Services.mem fw) ->
  Forall (fun i => i < HandleDatabase.protocol_handle_count db)%nat is_ ->
  0 <= sp -> 0 <= ssize < 2 ^ 31 -> sp + ssize < 2 ^ 64 -> -1 <= bm < 2 ^ 31 ->
  exists bm' bd', best_match_loop fuel fw (HandleDatabase.Entry <$> is_) sp ssize bm bd = Done (bm', bd') /\
    best_of (Services.mem fw) sp ssize is_ bm bd bm' bd'.
Proof.
  intros Hh Hp Hi Hsp Hss Hw. revert bm bd.
  induction Hi as [|i is_ Hi Hrest IH]; intros bm bd Hbm; rewrite ?fmap_nil, ?fmap_cons; cbn [best_match_loop].
  { exists bm, bd. split; [done|]. split; [lia|]. split; [|by left]. intros i len Hin. by apply not_elem_of_nil in Hin. }
  assert (Hi' : (i < length (HandleDatabase.protocol_handle db))%nat)
    by (rewrite (db_len _ Hdb); pose proof (db_count _ Hdb); lia).
  rewrite Hh, (handle_protocol_spec db Hdb _ i DevicePath.PROTOCOL_GUID Hi'), decide_True by done.
  destruct (iface db i DevicePath.PROTOCOL_GUID) as [x|] eqn:Ex; rstep; status_step.
  2:{ destruct (IH bm bd Hbm) as (bm' & bd' & -> & Hb). exists bm', bd'. split; [done|]. apply best_of_skip; [|done].
    intros len (x & Hx & _). congruence. }
  destruct (Hp i x Ex) as [Hpx Hf]. pose proof (path_bound _ _ _ _ Hpx) as (Hx0 & Hl & _ & Hxw). cbn [nsize END] in Hxw.
  unfold DevicePath.get_device_path_size. rewrite (size_loop_spec fuel _ x (paths i) END 0 Hpx) by (done || cbn [nsize END]; lia).
  rstep. cbn [nsize END]. replace (usize (0 + path_length (paths i) + 4 - 4)) with (path_length (paths i)) by
    (rewrite wrap_small by lia; lia).
  set (len := path_length (paths i)) in *.
  assert (Hcand : candidate (Services.mem fw) sp ssize i len <->
    (len <=? ssize) && DevicePath.compare_device_path (Services.mem fw) x sp len = true).
  { rewrite andb_true_iff, Z.leb_le. split.
    - intros (y & Hy & _ & Hle & Hb). replace y with x in Hb by congruence. split; [done|].
      by apply compare_device_path_correct; [lia..|].
    - intros [Hle Hb]. exists x. split_and!; [done..|]. by apply compare_device_path_correct in Hb; [|lia..]. }
  destruct ((len <=? ssize) && DevicePath.compare_device_path _ _ _ _) eqn:Ec; cbn [andb].
  - assert (Hlen : len <= ssize) by (apply andb_true_iff in Ec as [Ec _]; by apply Z.leb_le).
    rewrite (i32_small len) by lia. destruct (Z.ltb_spec bm len) as [Hlt|Hge].
    + destruct (IH len (HandleDatabase.Entry i)) as (bm' & bd' & -> & Hb); [lia|]. exists bm', bd'. split; [done|].
      eapply best_of_take; [by apply Hcand|lia|done].
    + destruct (IH bm bd Hbm) as (bm' & bd' & -> & Hb). exists bm', bd'. split; [done|]. apply best_of_skip; [|done].
      intros k (_ & _ & -> & _). done.
  - destruct (IH bm bd Hbm) as (bm' & bd' & -> & Hb). exists bm', bd'. split; [done|]. apply best_of_skip; [|done].
    intros k Hc. assert (k = len) as -> by (by destruct Hc as (_ & _ & -> & _)). apply Hcand in Hc. congruence.
Qed.

(** The handles with the protocol the caller asks for. *)
Definition handles_of (g : Guid.t) : list nat :=
  filter (fun i => is_Some (iface db i g)) (seq 0 (HandleDatabase.protocol_handle_count db)).

Lemma handles_of_length g : (length (handles_of g) <= HandleDatabase.MAX_HANDLE_STRUCT)%nat.
Proof. by apply handles_with_length. Qed.

Lemma store_handles_outside t m a hs x : x < a \/ a + 8 * Z.of_nat (length hs) <= x ->
  load8 (Services.store_handles t m a hs) x = load8 m x.
Proof.
  revert m a. induction hs as [|h hs IH]; intros m a Hx; cbn [Services.store_handles length] in *; [done|].
  rewrite IH by lia. apply load8_store_out. lia.
Qed.

(** The list of those handles, in memory of the pool. *)
Lemma handle_buffer_outcome t fw rs g : holds (Services.allocator fw) rs -> Services.handles fw = db ->
  let is_ := handles_of g in
  exists st fw' rs', let ok := Status.eqb st Status.SUCCESS in
    (exists w, Services.handle_buffer t 0 fw g =
       Done ((st, if ok then length is_ else 0%nat, w, if ok then HandleDatabase.Entry <$> is_ else []), fw')) /\
    holds (Services.allocator fw') rs' /\ Services.handles fw' = db /\
    (forall x, type_at rs x <> Some Map.CONVENTIONAL -> load8 (Services.mem fw') x = load8 (Services.mem fw) x) /\
    (is_ = [] -> st = Status.NOT_FOUND) /\ (is_ <> [] -> st = Status.SUCCESS \/ st = Status.OUT_OF_RESOURCES).
Proof.
  intros Ha Hh is_. unfold Services.handle_buffer, HandleDatabase.locate_handle_buffer,
    HandleDatabase.locate_handle_count, HandleDatabase.locate_handle_copy.
  rewrite Hh, (handles_with_spec db Hdb) by lia. fold (handles_of g). pose proof (handles_of_length g) as Hl.
  fold is_ in Hl |- *. clearbody is_. rstep. destruct (length is_ =? 0)%nat eqn:E0.
  { apply Nat.eqb_eq in E0. destruct is_; [|done]. rstep. status_step. rstep.
    eexists Status.NOT_FOUND, _, rs. split; [eexists; reflexivity|]. by split_and!. }
  apply Nat.eqb_neq in E0. rstep. status_step. rstep. unfold Services.pool_allocate, Services.pool_pages.
  set (size := Z.of_nat (length is_ * 8)). fold (size_pages size).
  unfold HandleDatabase.MAX_HANDLE_STRUCT in Hl.
  destruct (pages_outcome_as BootServicesData _ rs size Ha) as (a' & rs' & Ha' & Ho); [lia|].
  destruct Ho as [(w & E & Hf)|[E Hsame]]; rewrite E; rstep; status_step.
  - rewrite copy_handles_spec by (unfold HandleDatabase.MAX_HANDLE_STRUCT; lia). rstep.
    eexists Status.SUCCESS, _, rs'. split; [eexists; reflexivity|].
    cbn [Services.allocator Services.handles Services.mem Services.set_memory Services.set_allocator].
    split; [done|]. split; [done|]. split; [|by destruct is_; split; auto].
    intros x Hx. apply store_handles_outside. rewrite length_fmap.
    destruct (fresh_apart _ _ _ _ _ x 1 Hf); [lia|lia| |lia|lia]. intros y Hy. by replace y with x by lia.
  - rstep. eexists Status.OUT_OF_RESOURCES, _, rs'. split; [eexists; reflexivity|].
    cbn [Services.allocator Services.handles Services.mem Services.set_memory Services.set_allocator].
    split_and!; [done|done|done|by destruct is_|auto].
Qed.
End Locate.

(** Paths in memory that is not free are where they were. *)
Lemma candidate_kept db paths fuel rs m m' sp ns e i len : paths_in db paths fuel m -> path_at m sp ns e ->
  (forall j x y, iface db j DevicePath.PROTOCOL_GUID = Some x -> x <= y < x + path_length (paths j) + 4 ->
     type_at rs y <> Some Map.CONVENTIONAL) ->
  (forall y, sp <= y < sp + path_length ns -> type_at rs y <> Some Map.CONVENTIONAL) ->
  (forall x, type_at rs x <> Some Map.CONVENTIONAL -> load8 m' x = load8 m x) ->
  candidate db paths m' sp (instance_length ns) i len <-> candidate db paths m sp (instance_length ns) i len.
Proof.
  intros Hp Hs Hu Hus Hm. pose proof (instance_length_bound _ _ _ _ Hs).
  enough (Hb : forall x, iface db i DevicePath.PROTOCOL_GUID = Some x -> len = path_length (paths i) ->
    len <= instance_length ns -> load_bytes m' x (Z.to_nat len) = load_bytes m x (Z.to_nat len) /\
      load_bytes m' sp (Z.to_nat len) = load_bytes m sp (Z.to_nat len)).
  { split; intros (x & Hx & Hl & Hle & E); exists x; (split_and!; [done..|]); destruct (Hb x Hx Hl Hle); congruence. }
  intros x Hx -> Hle. destruct (Hp i x Hx) as [Hpx _]. pose proof (path_bound _ _ _ _ Hpx) as (_ & Hl & _).
  split; apply load_bytes_ext; intros y Hy; apply Hm; [eapply Hu; [exact Hx|lia]|apply Hus; lia].
Qed.

Lemma paths_in_kept db paths fuel rs m m' : paths_in db paths fuel m ->
  (forall j x y, iface db j DevicePath.PROTOCOL_GUID = Some x -> x <= y < x + path_length (paths j) + 4 ->
     type_at rs y <> Some Map.CONVENTIONAL) ->
  (forall x, type_at rs x <> Some Map.CONVENTIONAL -> load8 m' x = load8 m x) -> paths_in db paths fuel m'.
Proof.
  intros Hp Hu Hm i x Hx. destruct (Hp i x Hx) as [Hpx Hf]. split; [|done].
  pose proof (path_bound _ _ _ _ Hpx) as (Hx0 & _ & _ & Hw).
  eapply path_at_move; [exact Hpx|done|done|]. intros j Hj. apply Hm. eapply Hu; [exact Hx|]. cbn [nsize END] in Hj. lia.
Qed.

(** C24: [locate_device_path] resolves the caller's device path among the handles with
    the protocol it names: when some of them have device paths that begin it, the
    handle of the longest is stored and the caller's path is moved past that
    part; otherwise, or when there is no memory for the list of handles, it
    reports NOT_FOUND and leaves the allocated memory as it was. *)
Theorem locate_device_path_correct t fuel fw rs protocol dpp device paths ns e :
  let db := Services.handles fw in let m := Services.mem fw in
  let sp := load64 m dpp in let hs := handles_of db (Services.guid_at m protocol) in
  holds (Services.allocator fw) rs -> db_ok db -> paths_in db paths fuel m ->
  path_at m sp ns e -> (length ns < fuel)%nat -> instance_length ns < 2 ^ 31 -> sp <> 0 -> dpp <> 0 -> device <> 0 ->
  (forall j x y, iface db j DevicePath.PROTOCOL_GUID = Some x -> x <= y < x + path_length (paths j) + 4 ->
     type_at rs y <> Some Map.CONVENTIONAL) ->
  (forall y, sp <= y < sp + path_length ns -> type_at rs y <> Some Map.CONVENTIONAL) ->
  device + 8 <= dpp \/ dpp + 8 <= device -> 0 <= t -> t + Services.HANDLE_SIZE * 32 < 2 ^ 64 ->
  exists st fw' rs', locate_device_path t fuel fw protocol dpp device = Done (st, fw') /\
    holds (Services.allocator fw') rs' /\ Services.handles fw' = db /\
    ((st = Status.SUCCESS /\ exists i len, i ∈ hs /\ candidate db paths m sp (instance_length ns) i len /\
        (forall j k, j ∈ hs -> candidate db paths m sp (instance_length ns) j k -> k <= len) /\
        load64 (Services.mem fw') device = Services.handle_ptr t (HandleDatabase.Entry i) /\
        load64 (Services.mem fw') dpp = sp + len) \/
     (st = Status.NOT_FOUND /\
        (forall x, type_at rs x <> Some Map.CONVENTIONAL -> load8 (Services.mem fw') x = load8 m x) /\
        ((forall j k, j ∈ hs -> ~ candidate db paths m sp (instance_length ns) j k) \/
         exists w fw1, Services.handle_buffer t 0 fw (Services.guid_at m protocol)
           = Done ((Status.OUT_OF_RESOURCES, 0%nat, w, []), fw1)))).
Proof.
  intros db m sp hs Ha Hdb Hp Hs Hf Hlen Hsp Hdpp Hdev Hu Hus Hap Ht0 Ht1.
  pose proof (path_bound _ _ _ _ Hs) as (Hs0 & Hs1 & Hs2 & Hs3). pose proof (instance_length_bound _ _ _ _ Hs) as Hil.
  unfold locate_device_path. fold m. fold sp. rewrite !(proj2 (Z.eqb_neq _ _)) by done.
  rewrite (instance_end_spec fuel m sp ns e Hs Hf). rstep.
  replace (u64 (sp + instance_length ns - sp)) with (instance_length ns) by (rewrite wrap_small by lia; lia).
  destruct (handle_buffer_outcome db Hdb t fw rs (Services.guid_at m protocol) Ha eq_refl)
    as (st1 & fw1 & rs1 & (w & E1) & Ha1 & Hh1 & Hm1 & Hno & Hyes). fold hs in E1, Hno, Hyes.
  rewrite E1. rstep. destruct (Status.eqb st1 Status.SUCCESS) eqn:Est; cbn [negb orb].
  2:{ exists Status.NOT_FOUND, fw1, rs1. do 3 (split; [done|]). right. do 2 (split; [done|]).
      destruct (decide (hs = [])) as [->|Hne]; [left; intros j k Hj; by apply not_elem_of_nil in Hj|].
      right. destruct (Hyes Hne) as [->| ->]; [done|]. by exists w, fw1. }
  assert (Hne : hs <> []) by (intros Hn; rewrite (Hno Hn) in Est; done).
  rewrite (proj2 (Nat.eqb_neq (length hs) 0)) by (by destruct hs).
  destruct (best_match_spec db Hdb paths fuel fw1 sp (instance_length ns) hs (-1) HandleDatabase.Null)
    as (bm & bd & -> & Hbm & Hmax & Hbest);
    [done|by eapply paths_in_kept| |lia|lia|lia|lia|].
  { apply Forall_forall. intros i [_ Hi]%list_elem_of_filter. apply elem_of_seq in Hi. lia. }
  assert (Hck : forall j k, candidate db paths (Services.mem fw1) sp (instance_length ns) j k <->
    candidate db paths m sp (instance_length ns) j k) by (intros j k; by eapply candidate_kept).
  rstep. destruct Hbest as [[-> ->]|(i & Hi & Hc & ->)].
  { exists Status.NOT_FOUND, fw1, rs1. do 3 (split; [done|]). right. do 2 (split; [done|]). left.
    intros j k Hj Hk. apply Hck in Hk. pose proof (Hmax j k Hj Hk). destruct Hk as (x & Hx & -> & _).
    destruct (Hp j x Hx) as [Hpx _]. apply path_bound in Hpx. lia. }
  assert (Hbm0 : 0 <= bm <= instance_length ns).
  { destruct Hc as (x & Hx & -> & Hle & _). destruct (Hp i x Hx) as [Hpx _]. apply path_bound in Hpx. lia. }
  rewrite (proj2 (Z.eqb_neq bm (-1))) by lia. rewrite (wrap_small 64 bm), (wrap_small 64 (sp + bm)) by lia.
  eexists Status.SUCCESS, _, rs1. split; [done|].
  cbn [Services.mem Services.allocator Services.handles Services.set_memory]. split; [done|]. split; [done|]. left.
  split; [done|]. exists i, bm. split; [done|]. split; [by apply Hck|]. split.
  { intros j k Hj Hk. apply (Hmax j k Hj). by apply Hck. }
  assert (Hi32 : (i < 32)%nat).
  { destruct Hc as (x & Hx & _). apply (iface_bound _ _ _ _ Hdb) in Hx. exact Hx. }
  split; [rewrite load_store_out by lia|]; rewrite load_store; apply Z.mod_small; change (8 * Z.of_nat 8) with 64; [|lia].
  unfold Services.handle_ptr, Services.HANDLE_SIZE in *. lia.
Qed.

(** One handle, a PCI device; the caller's path is a file on it. *)
Definition pci_db : HandleDatabase.t :=
  match HandleDatabase.install_protocol HandleDatabase.new HandleDatabase.Null DevicePath.PROTOCOL_GUID 0xa00000 with
  | Done (_, db) => db
  | _ => HandleDatabase.new
  end.
Definition pci_memory : memory :=
  let m := store_bytes ∅ 0xa00000 [1; 1; 6; 0; 2; 3; 0x7f; 0xff; 4; 0] in
  let m := store_bytes m 0xa00100 [1; 1; 6; 0; 2; 3;  4; 4; 8; 0; 65; 0; 0; 0;  0x7f; 0xff; 4; 0] in
  store_bytes (store64 m 0xa00200 0xa00100) 0xa00400 (Guid.as_bytes DevicePath.PROTOCOL_GUID).
Definition pci_firmware : Services.Firmware :=
  Services.mkFw pci_memory demo pci_db VariableStore.new EventInfo.new.

Lemma pci_db_ok : db_ok pci_db.
Proof.
  unfold pci_db. destruct (install_new HandleDatabase.new DevicePath.PROTOCOL_GUID 0xa00000 new_db_ok)
    as (db' & -> & Hdb & _); [vm_compute; lia|done].
Qed.

Lemma pci_db_iface i g x : iface pci_db i g = Some x -> i = 0%nat /\ x = 0xa00000.
Proof.
  unfold iface. destruct (decide _) as [Hi|]; [|done]. change (HandleDatabase.protocol_handle_count pci_db) with 1%nat in Hi.
  assert (i = 0%nat) as -> by lia.
  replace (HandleDatabase.protocol_handle pci_db !! 0%nat) with (Some (HandleDatabase.mkPH HandleDatabase.HANDLE_SIGNATURE 1
    (HandleDatabase.mkPS DevicePath.PROTOCOL_GUID 0xa00000 :: drop 1 (from_option HandleDatabase.protocol_struct []
       (HandleDatabase.protocol_handle pci_db !! 0%nat))))) by (vm_compute; reflexivity).
  cbn [mbind option_bind option_map]. unfold protocols. cbn. unfold find_interface. cbn.
  destruct (decide _); [|done]. by intros [= <-].
Qed.

Lemma locate_device_path_correct_witness : exists fw',
  locate_device_path 0x700000 3 pci_firmware 0xa00400 0xa00200 0xa00300 = Done (Status.SUCCESS, fw') /\
  load64 (Services.mem fw') 0xa00200 = 0xa00106.
Proof.
  assert (C : match locate_device_path 0x700000 3 pci_firmware 0xa00400 0xa00200 0xa00300 with
              | Done (st, _) => Status.eqb st Status.SUCCESS = true
              | _ => False end) by (vm_compute; reflexivity).
  destruct (locate_device_path_correct 0x700000 3 pci_firmware demo_map 0xa00400 0xa00200 0xa00300
    (fun _ => [mkNode 1 1 6]) [mkNode 1 1 6; mkNode 4 4 8] END) as (st & fw' & rs' & E & _ & _ & Ho).
  - apply demo_holds.
  - apply pci_db_ok.
  - intros i x Hx. destruct (pci_db_iface _ _ _ Hx) as [-> ->]. split; [|cbn; lia].
    repeat split; try (vm_compute; reflexivity); vm_compute; discriminate.
  - repeat split; try (vm_compute; reflexivity); vm_compute; discriminate.
  - cbn. lia.
  - vm_compute. reflexivity.
  - vm_compute. discriminate.
  - discriminate.
  - discriminate.
  - intros j x y Hx Hy Ht. destruct (pci_db_iface _ _ _ Hx) as [-> ->]. cbn [path_length foldr nsize] in Hy.
    destruct (type_at_demo y _ Ht) as [H|H]; lia.
  - intros y Hy Ht. change (load64 (Services.mem pci_firmware) 0xa00200) with 0xa00100 in Hy.
    cbn [path_length foldr nsize] in Hy. destruct (type_at_demo y _ Ht) as [H|H]; lia.
  - lia.
  - lia.
  - vm_compute. reflexivity.
  - rewrite E in C. destruct Ho as [(-> & i & len & _ & (x & _ & -> & _) & _ & _ & Hd)|(-> & _)]; [|discriminate C].
    exists fw'. split; [exact E|]. rewrite Hd. vm_compute. reflexivity.
Defined.
