(* ===== verification/Boot.v ===== *)
(** * Booting (load_image and enter_uefi of src/efi/mod.rs, src/efi/init.rs):
      operations

    The parts put together: the firmware's tables, the file protocol's objects and
    the memory they share.  The disk is any [SectorRead]; finding and configuring
    it is the drivers' business, so that the outcome of the PCI search is an
    argument.  Local variables whose address is passed on live at given
    addresses ([Locals]); so do the firmware's statics ([Statics]). *)

From S2P Require Import Prelude REfi Mem Part Fat Alloc HandleDb Variables DevicePath EfiFile Hob Services EfiBlock Image.

Module Boot.
Import Services.

(** Protocols of r-efi. *)
Definition SIMPLE_FILE_SYSTEM_GUID : Guid.t :=
  Guid.from_fields 0x964e5b22 0x6459 0x11d2 0x8e 0x39 [0x00; 0xa0; 0xc9; 0x69; 0x72; 0x3b].
Definition SIMPLE_TEXT_INPUT_GUID : Guid.t :=
  Guid.from_fields 0x387477c1 0x69c7 0x11d2 0x8e 0x39 [0x00; 0xa0; 0xc9; 0x69; 0x72; 0x3b].
Definition SIMPLE_TEXT_INPUT_EX_GUID : Guid.t :=
  Guid.from_fields 0xdd9e7534 0x7762 0x4698 0x8c 0x14 [0xf5; 0x85; 0x17; 0xa6; 0x25; 0xaa].
Definition SIMPLE_TEXT_OUTPUT_GUID : Guid.t :=
  Guid.from_fields 0x387477c2 0x69c7 0x11d2 0x8e 0x39 [0x00; 0xa0; 0xc9; 0x69; 0x72; 0x3b].
Definition HOB_LIST_GUID : Guid.t :=
  Guid.from_fields 0x7739f24c 0x93d7 0x11d4 0x9a 0x3a [0x00; 0x90; 0x27; 0x3f; 0xc1; 0x4d].

(** [SystemTable], [repr(C)]: offsets. *)
Definition CONSOLE_IN_HANDLE : Z := 40.
Definition CON_IN : Z := 48.
Definition CONSOLE_OUT_HANDLE : Z := 56.
Definition CON_OUT : Z := 64.
Definition STANDARD_ERROR_HANDLE : Z := 72.
Definition STD_ERR : Z := 80.

(** The firmware with the objects of the file protocol. *)
Record System (D : Type) := mkSystem {
  firmware : Firmware;
  volumes : gmap Z (Fat.Filesystem D);
  files : gmap Z EfiFile.FileWrapper
}.
#[global] Arguments mkSystem {D}. #[global] Arguments firmware {D}.
#[global] Arguments volumes {D}. #[global] Arguments files {D}.

(** Where [load_image] keeps the locals it passes by address. *)
Record Locals := mkLocals {
  rootfile : Z; desfile : Z; info_id : Z; buffer_size : Z; buffer : Z; size_cell : Z
}.
(** [size_of::<file::Info>() + 1024] *)
Definition INFO_BUFFER_SIZE : Z := 88 + 1024.

Section Boot.
Context {D : Type} `{SectorRead D} (beyond : nat -> Z) (L : EfiFile.Layout).
Context (handle_table system_table unload : Z).

Definition set_firmware (s : System D) (fw : Firmware) : System D := mkSystem fw (volumes s) (files s).

(** An operation of the file protocol on the whole system. *)
Definition file_state (s : System D) : EfiFile.State D :=
  EfiFile.mkState (mem (firmware s)) (allocator (firmware s)) (volumes s) (files s).
Definition from_file_state (s : System D) (f : EfiFile.State D) : System D :=
  mkSystem (set_memory (set_allocator (firmware s) (EfiFile.allocator f)) (EfiFile.mem f))
    (EfiFile.volumes f) (EfiFile.files f).
Definition file_call {A} (s : System D) (f : EfiFile.State D -> res (A * EfiFile.State D)) : res (A * System D) :=
  '(a, st) ← f (file_state s);
  Done (a, from_file_state s st).
Definition write_memory (s : System D) (f : memory -> memory) : System D :=
  set_firmware s (set_memory (firmware s) (f (mem (firmware s)))).
Definition system_memory (s : System D) : memory := mem (firmware s).

(** The file a device path names, read to the pool: its address and size, or
    [None] when there is no memory for it.  Errors of the file protocol are only
    logged; a null file pointer is dereferenced all the same. *)
Definition read_image_file (fuel : nat) (loc : Locals) (s : System D) (fs_interface filename : Z)
    : res (option (Z * Z) * System D) :=
  let s := write_memory s (fun m => store64 (store64 m (rootfile loc) 0) (desfile loc) 0) in
  '(_, s) ← file_call s (fun st => EfiFile.filesystem_open_volumn L st fs_interface (rootfile loc));
  '(_, s) ← file_call s (fun st =>
    EfiFile.open beyond L fuel st (load64 (system_memory s) (rootfile loc)) (desfile loc) filename);
  let s := write_memory s (fun m =>
    store_bytes (store64 (fill_bytes m (buffer loc) (Z.to_nat INFO_BUFFER_SIZE) 0) (buffer_size loc) INFO_BUFFER_SIZE)
      (info_id loc) (Guid.as_bytes EfiFile.INFO_ID)) in
  let file := load64 (system_memory s) (desfile loc) in
  '(_, s) ← file_call s (fun st => EfiFile.get_info beyond L st file (info_id loc) (buffer_size loc) (buffer loc));
  let source_size := load64 (system_memory s) (buffer loc + EfiFile.INFO_FILE_SIZE) in
  '(status, source_buffer, fw) ← pool_local (firmware s) BootServicesData source_size;
  let s := set_firmware s fw in
  if negb (Status.eqb status Status.SUCCESS) then Done (None, s)
  else
    let s := write_memory s (fun m => store64 m (size_cell loc) source_size) in
    '(_, s) ← file_call s (fun st => EfiFile.read beyond L fuel st file (size_cell loc) source_buffer);
    Done (Some (source_buffer, load64 (system_memory s) (size_cell loc)), s).

(** The boot service [load_image]. *)
Definition load_image (fuel : nat) (loc : Locals) (s : System D)
    (parent device_path source_buffer source_size image_handle : Z) : res (Status.t * System D) :=
  '(status, interface) ← HandleDatabase.locate_protocol (handles (firmware s)) SIMPLE_FILE_SYSTEM_GUID;
  let fs_interface := if Status.eqb status Status.SUCCESS then interface else 0 in
  '(source, s) ←
    (if source_size =? 0 then
       name ← DevicePath.get_file_path_media_device_path fuel (system_memory s) device_path;
       match name with
       | Some filename => read_image_file fuel loc s fs_interface filename
       | None => Done (Some (source_buffer, source_size), s)
       end
     else Done (Some (source_buffer, source_size), s));
  match source with
  | None => Done (Status.OUT_OF_RESOURCES, s)
  | Some (source_buffer, source_size) =>
      '(_, new_image_handle, fw) ←
        Image.load_image_from handle_table system_table unload fuel (firmware s) parent device_path source_buffer
          source_size;
      '(status, _) ←
        HandleDatabase.handle_protocol (load32 (mem fw) 0) (handles fw) new_image_handle Image.LOADED_IMAGE_GUID;
      let m := if Status.eqb status Status.SUCCESS && negb (image_handle =? 0)
               then store64 (mem fw) image_handle (handle_ptr handle_table new_image_handle) else mem fw in
      Done (status, set_firmware s (set_memory fw m))
  end.

(** ** src/efi/init.rs *)

Definition PLATFORM_LANG : list Z :=
  [0x50; 0x6c; 0x61; 0x74; 0x66; 0x6f; 0x72; 0x6d; 0x4c; 0x61; 0x6e; 0x67; 0x00].

(** [initialize_variable]; its three locals are at [name], [guid] and [data]. *)
Definition initialize_variable (fuel : nat) (fw : Firmware) (name guid data : Z) : res Firmware :=
  let m := EfiFile.store_units (mem fw) name PLATFORM_LANG in
  let m := store_bytes m guid (Guid.as_bytes VariableStore.GLOBAL_VARIABLE_GUID) in
  let m := store_bytes m data [0x65; 0x6e; 0x00] in
  '(_, fw) ← set_variable fuel (set_memory fw m) name guid 7 3 data;
  Done fw.

Definition initialize_console (fw : Firmware) (con_in_ex : Z) : res Firmware :=
  let st := system_table in
  let field (fw : Firmware) (offset : Z) := load64 (mem fw) (st + offset) in
  '(_, fw) ← install_cell handle_table fw (st + CONSOLE_IN_HANDLE) SIMPLE_TEXT_INPUT_GUID (field fw CON_IN);
  '(_, fw) ← install_cell handle_table fw (st + CONSOLE_IN_HANDLE) SIMPLE_TEXT_INPUT_EX_GUID con_in_ex;
  '(_, fw) ← install_cell handle_table fw (st + CONSOLE_OUT_HANDLE) SIMPLE_TEXT_OUTPUT_GUID (field fw CON_OUT);
  '(_, fw) ← install_cell handle_table fw (st + STANDARD_ERROR_HANDLE) SIMPLE_TEXT_OUTPUT_GUID (field fw STD_ERR);
  Done fw.

(** Mounting the EFI partition of a configured disk: the file system, the block
    wrappers, and the file protocol on a handle with the partition's device path.
    [check] is whether an error ends it, as in [initialize_fs]; [enter_uefi] only
    logs errors. *)
Definition mount (check : bool) (fuel : nat) (cb : EfiBlock.Callbacks) (local : Z) (s : System D)
    (bws : EfiBlock.BlockWrappers) (disk : D) (capacity start last part_id : Z)
    : res (bool * EfiBlock.BlockWrappers * System D) :=
  '(r, f) ← Fat.init (Fat.new disk start last part_id);
  match r, check with
  | Err _, true => Done (false, bws, s)
  | _, _ =>
      '(efi_part_id, bws, fw) ←
        EfiBlock.populate_block_wrappers fuel cb local (firmware s) bws disk capacity;
      let s := set_firmware s fw in
      id ← unwrap efi_part_id;
      efi_part ← index (EfiBlock.wrappers bws) id;
      '(w, s) ← file_call s (fun st => EfiFile.new L st f);
      wrapped_fs ← Fat.unwrap_ok w;
      '(status, handle, fw) ←
        install_local (firmware s) HandleDatabase.Null SIMPLE_FILE_SYSTEM_GUID (wrapped_fs + EfiFile.fs_proto L);
      let s := set_firmware s fw in
      if check && negb (Status.eqb status Status.SUCCESS) then Done (false, bws, s)
      else
        '(_, _, fw) ← install_local (firmware s) handle DevicePath.PROTOCOL_GUID (efi_part + EfiBlock.DISK_PATHS);
        Done (true, bws, set_firmware s fw)
  end.

(** [initialize_fs]; [probe] is what the PCI search and the driver's
    initialisation give: a disk and its capacity. *)
Definition initialize_fs (fuel : nat) (cb : EfiBlock.Callbacks) (local : Z) (s : System D)
    (bws : EfiBlock.BlockWrappers) (probe : option (D * Z)) : res (EfiBlock.BlockWrappers * System D) :=
  match probe with
  | None => Done (bws, s)
  | Some (disk, capacity) =>
      match Part.find_efi_partition disk with
      | Err _ => Done (bws, s)
      | Ok (start, last, part_id) =>
          '(_, bws, s) ← mount true fuel cb local s bws disk capacity start last part_id;
          Done (bws, s)
      end
  end.

(** ** [enter_uefi] *)

(** Addresses of the firmware's statics and functions the tables point to. *)
Record Statics := mkStatics {
  stdin : Z; stdout : Z; stdout_mode : Z; stdin_ex : Z; runtime_services : Z; boot_services : Z;
  configuration_table : Z; install_multiple : Z; uninstall_multiple : Z
}.
(** Addresses of its locals. *)
Record BootLocals := mkBootLocals {
  load_locals : Locals; disk_path : Z; image_path : Z; image_handle_cell : Z;
  exit_size_cell : Z; exit_data_cell : Z; lang_name : Z; lang_guid : Z; lang_data : Z
}.
Definition MAX_CONFIGURATION_TABLE : Z := 4.

(** Offsets of [mode] in the text output protocol, of the table entries of the
    system table, and of two entries of the boot services. *)
Definition STDOUT_MODE : Z := 72.
Definition RUNTIME_SERVICES : Z := 88.
Definition BOOT_SERVICES : Z := 96.
Definition NUMBER_OF_TABLE_ENTRIES : Z := 104.
Definition CONFIGURATION_TABLE : Z := 112.
Definition INSTALL_MULTIPLE : Z := 328.
Definition UNINSTALL_MULTIPLE : Z := 336.

Definition fill_tables (sv : Statics) (m : memory) : memory :=
  let st := system_table in
  let m := store64 m (stdout sv + STDOUT_MODE) (stdout_mode sv) in
  let m := store64 m (st + CON_IN) (stdin sv) in
  let m := store64 m (st + CON_OUT) (stdout sv) in
  let m := store64 m (st + STD_ERR) (stdout sv) in
  let m := store64 m (st + RUNTIME_SERVICES) (runtime_services sv) in
  let m := store64 m (st + BOOT_SERVICES) (boot_services sv) in
  let m := store64 m (boot_services sv + INSTALL_MULTIPLE) (install_multiple sv) in
  let m := store64 m (boot_services sv + UNINSTALL_MULTIPLE) (uninstall_multiple sv) in
  let m := store64 m (st + NUMBER_OF_TABLE_ENTRIES) MAX_CONFIGURATION_TABLE in
  store64 m (st + CONFIGURATION_TABLE) (configuration_table sv).

(** The [FullMemoryMappedDevicePath] of an image in memory. *)
Definition memory_mapped_path (image size : Z) : list Z :=
  [1; 3; 24; 0] ++ le_split 4 (memory_type_u32 BootServicesCode) ++ le_split 8 image
  ++ le_split 8 (u64 (u64 (image + size) - 1)) ++ [0x7f; 0xff; 4; 0].

(** Up to the search for the disk: tables, memory, HOB list, console, variable. *)
Definition initialize (fuel : nat) (sv : Statics) (bl : BootLocals) (fw : Firmware) (hob : Z)
    : res (Z * Firmware) :=
  let fw := set_memory fw (fill_tables sv (mem fw)) in
  a ← Hob.initialize_memory fuel (mem fw) hob (allocator fw);
  '(new_hob, m, a) ← Hob.relocate_hob (mem fw) a hob;
  let m := store_bytes m (configuration_table sv) (Guid.as_bytes HOB_LIST_GUID) in
  let m := store64 m (configuration_table sv + 16) new_hob in
  fw ← initialize_console (set_memory (set_allocator fw a) m) (stdin_ex sv);
  fw ← initialize_variable fuel fw (lang_name bl) (lang_guid bl) (lang_data bl);
  Done (new_hob, fw).

(** The loader of the firmware volume is loaded and started. *)
Definition start_loader (fuel : nat) (bl : BootLocals) (run : Z -> Z -> System D -> res (Status.t * System D))
    (s : System D) (new_hob : Z) : res (System D) :=
  '(image, size) ← Fv.find_loader fuel fuel (system_memory s) new_hob;
  let s := write_memory s (fun m => store64 (store_bytes m (image_path bl) (memory_mapped_path image size))
                                      (image_handle_cell bl) 0) in
  '(status, s) ← load_image fuel (load_locals bl) s 0 (image_path bl) image size (image_handle_cell bl);
  if Status.eqb status Status.SUCCESS then
    let s := write_memory s (fun m => store64 (store64 m (exit_size_cell bl) 0) (exit_data_cell bl) 0) in
    '(_, s) ← Image.start_image handle_table firmware set_firmware run s
                (load64 (system_memory s) (image_handle_cell bl)) (exit_size_cell bl) (exit_data_cell bl);
    Done s
  else Done s.

(** What [enter_uefi] does before it loops for ever; [probe] is the disk the PCI
    search found, with the capacity the driver reports. *)
Definition enter_uefi (fuel : nat) (cb : EfiBlock.Callbacks) (sv : Statics) (bl : BootLocals)
    (run : Z -> Z -> System D -> res (Status.t * System D)) (s : System D) (bws : EfiBlock.BlockWrappers)
    (probe : option (D * Z)) (hob : Z) : res (System D) :=
  '(new_hob, fw) ← initialize fuel sv bl (firmware s) hob;
  let s := set_firmware s fw in
  match probe with
  | None => Done s
  | Some (disk, capacity) =>
      match Part.find_efi_partition disk with
      | Err _ => Done s
      | Ok (start, last, part_id) =>
          '(_, _, s) ← mount false fuel cb (disk_path bl) s bws disk capacity start last part_id;
          start_loader fuel bl run s new_hob
      end
  end.
End Boot.
End Boot.
