(* ===== verification/BootProps.v ===== *)
(** * Booting: theorems

    The start of [enter_uefi] as a whole: the tables are filled in, the allocator
    gets the memory map of the HOB list, the list is moved to memory of its own
    and published, the consoles are installed and the first variable is set, and
    none of these steps disturbs what another has put into memory. *)

From S2P Require Import Prelude REfi Mem Variables HandleDb Events Alloc MemMap MapSafety AllocRepr AllocRefine AllocSafety AllocRoom DevicePath Fat PeProps EfiFile FileProps FileInfo Hob HobProps Services ServicesProps ServiceTable EfiBlock BlockProps Image ImageProps Boot.
Import Hob Services Boot.

(** ** HOB lists that can be moved *)

(** The bytes of a record the firmware looks at. *)
Definition record_size (r : Record_) : Z :=
  match r with Resource _ _ _ | Allocated _ _ _ => 48 | Volume _ _ => 24 | Other => 4 end.

(** The list lies between [h] and [stop]. *)
Fixpoint list_in (m : memory) (h : Z) (l : list Record_) (stop : Z) : Prop :=
  match l with
  | [] => type_ m h = HOB_TYPE_END_OF_HOB_LIST /\ h + 2 <= stop
  | r :: l => record_at m h r /\ record_size r <= hob_length m h /\ h + hob_length m h <= stop /\
      list_in m (h + hob_length m h) l stop
  end.

(** A list with its hand-off table in front, which says where the list ends. *)
Definition handoff_list (m : memory) (h : Z) (l : list Record_) (stop : Z) : Prop :=
  record_at m h Other /\ 56 <= hob_length m h /\ h + hob_length m h <= stop /\
  efi_end_of_hob_list m h = stop /\ list_in m (h + hob_length m h) l stop.

Lemma list_in_bound m l : forall h stop, list_in m h l stop -> h <= stop.
Proof. destruct l as [|r l]; cbn; intros h stop H; [lia|]. destruct H as (_ & H1 & H2 & _). destruct r; cbn in H1; lia. Qed.

Lemma list_in_at m l : forall h stop, 0 <= h -> list_in m h l stop -> stop < 2 ^ 64 -> list_at m h l.
Proof.
  induction l as [|r l IH]; intros h stop H0 Hl Hs; cbn [list_in list_at] in *; [by destruct Hl|].
  destruct Hl as (Hr & Hsz & He & Hl). split; [done|]. unfold next.
  assert (0 <= record_size r) by (destruct r; cbn; lia).
  rewrite (wrap_small 64 (h + hob_length m h)) by lia. apply (IH _ stop); [lia|done..].
Qed.

(** Equal bytes, equal list; [d] is the distance it was moved. *)
Lemma load_move n m m' a d : (forall x, a <= x < a + Z.of_nat n -> load8 m' (x + d) = load8 m x) ->
  load n m' (a + d) = load n m a.
Proof.
  intros H. unfold load. f_equal. revert a H. induction n as [|n IH]; intros a H; cbn [load_bytes]; [done|].
  rewrite H by lia. f_equal. replace (a + d + 1) with (a + 1 + d) by lia. apply IH. intros x Hx. apply H. lia.
Qed.

Lemma record_at_move m m' d h r : (forall x, h <= x < h + record_size r -> load8 m' (x + d) = load8 m x) ->
  record_at m h r -> record_at m' (h + d) r.
Proof.
  intros H. assert (L : forall n o, 0 <= o -> o + Z.of_nat n <= record_size r -> load n m' (h + d + o) = load n m (h + o)).
  { intros n o Ho Hn. replace (h + d + o) with (h + o + d) by lia. apply load_move. intros x Hx. apply H. lia. }
  assert (L0 : type_ m' (h + d) = type_ m h).
  { unfold type_. apply load_move. intros x Hx. apply H. destruct r; cbn in *; lia. }
  destruct r; cbn [record_at record_size] in *; rewrite L0;
    unfold resource_type, physical_start, resource_length, memory_type, memory_base_address, memory_length,
      fv_base_address, fv_length; rewrite ?L by lia; done.
Qed.

Lemma list_in_move m m' d l : forall h stop, (forall x, h <= x < stop -> load8 m' (x + d) = load8 m x) ->
  list_in m h l stop -> list_in m' (h + d) l (stop + d).
Proof.
  induction l as [|r l IH]; intros h stop H Hl; cbn [list_in] in *.
  { destruct Hl as [<- Hs]. split; [|lia]. apply load_move. intros x Hx. apply H. lia. }
  destruct Hl as (Hr & Hsz & Hstop & Hl). pose proof (list_in_bound _ _ _ _ Hl).
  assert (4 <= record_size r) by (destruct r; cbn; lia).
  assert (E : hob_length m' (h + d) = hob_length m h).
  { unfold hob_length. replace (h + d + 2) with (h + 2 + d) by lia. apply load_move. intros x Hx. apply H. lia. }
  rewrite E. replace (h + d + hob_length m h) with (h + hob_length m h + d) by lia.
  split_and!; [|lia|lia|apply IH; [|done]]; [eapply record_at_move; [|done]|]; intros x Hx; apply H; lia.
Qed.

Lemma handoff_at m h l stop : 0 <= h -> stop < 2 ^ 64 -> handoff_list m h l stop -> list_at m h (Other :: l).
Proof.
  intros H0 Hs (Hr & Hlen & Hle & _ & Hl). cbn [list_at]. split; [done|]. unfold next.
  rewrite (wrap_small 64 (h + hob_length m h)) by lia. apply (list_in_at _ _ _ stop); [lia|done..].
Qed.

(** The whole list moved, with the end in its hand-off table corrected. *)
Lemma handoff_move m m' d h l stop : (forall x, h <= x < stop -> ~ (h + 48 <= x < h + 56) -> load8 m' (x + d) = load8 m x) ->
  efi_end_of_hob_list m' (h + d) = stop + d -> handoff_list m h l stop -> handoff_list m' (h + d) l (stop + d).
Proof.
  intros H He (Hr & Hlen & Hle & _ & Hl).
  assert (E : hob_length m' (h + d) = hob_length m h).
  { unfold hob_length. replace (h + d + 2) with (h + 2 + d) by lia. apply load_move. intros x Hx. apply H; lia. }
  unfold handoff_list. rewrite E. replace (h + d + hob_length m h) with (h + hob_length m h + d) by lia.
  split_and!; [|lia|lia|done|].
  - eapply record_at_move; [|done]. cbn [record_size]. intros x Hx. apply H; lia.
  - eapply list_in_move; [|done]. intros x Hx. apply H; lia.
Qed.

(** ** Moving the list: [relocate_hob] *)

Lemma relocate_hob_outcome m a rs h l stop : mem_ok m -> 0 <= h -> stop < 2 ^ 63 -> handoff_list m h l stop -> holds a rs ->
  (forall x, h <= x < stop -> type_at rs x <> Some Map.CONVENTIONAL) ->
  (forall x, type_at rs x = Some Map.CONVENTIONAL -> x < 2 ^ 63) ->
  exists new_hob m' a' rs', relocate_hob m a h = Done (new_hob, m', a') /\ holds a' rs' /\ mem_ok m' /\
    (forall p k, spare rs p (S k) -> size_pages (stop - h) < p ->
       0x100000 < new_hob /\ spare rs' (p - size_pages (stop - h)) k) /\
    ((new_hob = 0 /\ m' = m /\ same_types rs rs') \/
     (fresh_as BootServicesData rs rs' new_hob (stop - h) /\
      handoff_list m' new_hob l (new_hob + (stop - h)) /\
      forall x, x < new_hob \/ new_hob + (stop - h) <= x -> load8 m' x = load8 m x)).
Proof.
  intros Hm H0 Hs Hl Ha Hused Hhigh. pose proof Hl as (_ & Hlen & Hle & Hend & _).
  unfold relocate_hob, get_hob_total_size. rewrite Hend. rewrite (wrap_small 64 (stop - h)) by lia.
  destruct (pages_outcome_as BootServicesData a rs (stop - h) Ha) as (a' & rs' & Ha' & Ho); [lia|].
  assert (Hroom : forall st w, Alloc.allocate_pages a AllocateAnyPages BootServicesData (size_pages (stop - h)) 0 = Done ((st, w), a') ->
    forall p k, spare rs p (S k) -> size_pages (stop - h) < p -> st = Status.SUCCESS /\ spare rs' (p - size_pages (stop - h)) k).
  { intros st w E p k Hr Hp. destruct (pages_room BootServicesData a rs (stop - h) st w a' p k Ha) as [-> Hr']; [lia|done..|]. auto. }
  fold (size_pages (stop - h)). destruct Ho as [(w & E & Hf)|(E & Hsame)]; rewrite E; specialize (Hroom _ _ E); rstep; status_step; rstep.
  - pose proof Hf as (Hw & Hpages & _).
    assert (w + (stop - h) - 1 < 2 ^ 63) by (apply Hhigh, Hpages; lia).
    assert (Hap : w + (stop - h) <= h \/ stop <= w).
    { destruct (decide (w + (stop - h) <= h)); [by left|]. right. destruct (decide (stop <= w)); [done|]. exfalso.
      apply (Hused (Z.max w h)); [lia|]. apply Hpages. lia. }
    rewrite (wrap_small 64 (w + (stop - h))) by lia. set (m' := store64 _ _ _). exists w, m', a', rs'. split; [done|]. split; [done|].
    split; [apply mem_ok_store, mem_ok_store_bytes, Hm|]. split; [intros p k Hr Hp; split; [lia|by apply Hroom]|]. right. split; [done|]. split.
    + pose proof (handoff_move m m' (w - h) h l stop) as Hmv. replace (h + (w - h)) with w in Hmv by lia.
      replace (stop + (w - h)) with (w + (stop - h)) in Hmv by lia. apply Hmv; [| |done].
      * intros x Hx Hno. unfold m'. rewrite load8_store_out by lia. unfold copy_bytes.
        replace (x + (w - h)) with (w + Z.of_nat (Z.to_nat (x - h))) by lia.
        apply load8_store_bytes_in; [by apply load_bytes_ok|]. rewrite lookup_load_bytes by lia. do 2 f_equal. lia.
      * unfold efi_end_of_hob_list, m'. rewrite load_store. by rewrite Z.mod_small by lia.
    + intros x Hx. unfold m'. rewrite load8_store_out, copy_bytes_out by lia. done.
  - exists 0, m, a', rs'. do 3 (split; [done|]). split; [|by left]. intros p k Hr Hp. by destruct (Hroom p k Hr Hp).
Qed.

(** ** The consoles: [initialize_console] *)

Lemma input_guids_differ : SIMPLE_TEXT_INPUT_GUID <> SIMPLE_TEXT_INPUT_EX_GUID.
Proof. by vm_compute. Qed.

(** A protocol on a new handle: it is found there, and everything else stays. *)
Lemma install_new_iface db g x : db_ok db ->
  (HandleDatabase.protocol_handle_count db < HandleDatabase.MAX_HANDLE_STRUCT)%nat ->
  let n := HandleDatabase.protocol_handle_count db in exists db',
  HandleDatabase.install_protocol db HandleDatabase.Null g x = Done ((Status.SUCCESS, HandleDatabase.Entry n), db') /\
  db_ok db' /\ HandleDatabase.protocol_handle_count db' = S n /\ iface db' n g = Some x /\
  (exists e, HandleDatabase.protocol_handle db' !! n = Some e /\ protocols e = [HandleDatabase.mkPS g x] /\
     HandleDatabase.protocol_count e = 1%nat) /\ ifaces_kept db db'.
Proof.
  intros Hdb Hc n. destruct (install_new db g x Hdb Hc) as (db' & E & Hok & Hc' & (e & He & Hp & Hn) & Hk).
  exists db'. split; [exact E|]. split; [exact Hok|]. split; [exact Hc'|].
  split; [eapply iface_entry; [lia|done..]|]. split; [by exists e|].
  intros k g' y Hy. assert (k < n)%nat by (unfold iface in Hy; destruct (decide _); [done|discriminate Hy]).
  by rewrite (proj2 (Hk k ltac:(lia))).
Qed.

Lemma ifaces_kept_trans db1 db2 db3 : ifaces_kept db1 db2 -> ifaces_kept db2 db3 -> ifaces_kept db1 db3.
Proof. intros H1 H2 k g x Hx. by apply H2, H1. Qed.

(** Two protocols, one after the other on the same new handle. *)
Lemma install_two_new db g1 x1 g2 x2 : db_ok db ->
  (HandleDatabase.protocol_handle_count db < HandleDatabase.MAX_HANDLE_STRUCT)%nat -> g1 <> g2 ->
  let n := HandleDatabase.protocol_handle_count db in exists db1 db2,
  HandleDatabase.install_protocol db HandleDatabase.Null g1 x1 = Done ((Status.SUCCESS, HandleDatabase.Entry n), db1) /\
  HandleDatabase.install_protocol db1 (HandleDatabase.Entry n) g2 x2 = Done ((Status.SUCCESS, HandleDatabase.Entry n), db2) /\
  db_ok db2 /\ HandleDatabase.protocol_handle_count db2 = S n /\ ifaces_kept db db2 /\
  iface db2 n g1 = Some x1 /\ iface db2 n g2 = Some x2.
Proof.
  intros Hdb Hc Hne n.
  destruct (install_new_iface db g1 x1 Hdb Hc) as (db1 & E1 & Hdb1 & Hc1 & Hi1 & (e & He & Hp & Hn) & Hk1).
  fold n in E1, Hc1, Hi1, He. destruct (install_more db1 n e g2 x2 Hdb1) as (db2 & E2 & Happ); [lia|done| | |].
  { rewrite Hn. unfold HandleDatabase.MAX_PROTOCOL_STRUCT. lia. }
  { rewrite Hp. cbn. by rewrite decide_False by congruence. }
  pose proof Happ as (Hdb2 & Hc2 & _).
  assert (Hi2 : forall k g, iface db2 k g = match iface db1 k g with Some x => Some x | None =>
    if decide (k = n /\ g = g2) then Some x2 else None end).
  { intros k g. apply (appended_iface db1 db2 n e _ k g Hdb1 ltac:(lia) He Happ). }
  exists db1, db2. split_and!; try assumption; [by rewrite Hc2|..].
  - intros k g x Hx. by rewrite Hi2, (Hk1 _ _ _ Hx).
  - by rewrite Hi2, Hi1.
  - assert (Hz : iface db1 n g2 = None).
    { unfold iface. rewrite decide_True by lia. rewrite He. cbn. unfold find_interface. rewrite Hp. cbn.
      by rewrite decide_False by congruence. }
    by rewrite Hi2, Hz, decide_True.
Qed.

(** The four protocols of the consoles on three new handles. *)
Lemma console_protocols db cin cex cout cerr : db_ok db ->
  (HandleDatabase.protocol_handle_count db + 3 <= HandleDatabase.MAX_HANDLE_STRUCT)%nat ->
  let n := HandleDatabase.protocol_handle_count db in
  exists db1 db2 db3 db4,
    HandleDatabase.install_protocol db HandleDatabase.Null SIMPLE_TEXT_INPUT_GUID cin
      = Done ((Status.SUCCESS, HandleDatabase.Entry n), db1) /\
    HandleDatabase.install_protocol db1 (HandleDatabase.Entry n) SIMPLE_TEXT_INPUT_EX_GUID cex
      = Done ((Status.SUCCESS, HandleDatabase.Entry n), db2) /\
    HandleDatabase.install_protocol db2 HandleDatabase.Null SIMPLE_TEXT_OUTPUT_GUID cout
      = Done ((Status.SUCCESS, HandleDatabase.Entry (S n)), db3) /\
    HandleDatabase.install_protocol db3 HandleDatabase.Null SIMPLE_TEXT_OUTPUT_GUID cerr
      = Done ((Status.SUCCESS, HandleDatabase.Entry (S (S n))), db4) /\
    db_ok db4 /\ HandleDatabase.protocol_handle_count db4 = (n + 3)%nat /\ ifaces_kept db db4 /\ iface db4 n SIMPLE_TEXT_INPUT_GUID = Some cin /\
    iface db4 n SIMPLE_TEXT_INPUT_EX_GUID = Some cex /\ iface db4 (S n) SIMPLE_TEXT_OUTPUT_GUID = Some cout /\
    iface db4 (S (S n)) SIMPLE_TEXT_OUTPUT_GUID = Some cerr.
Proof.
  intros Hdb Hc n.
  destruct (install_two_new db SIMPLE_TEXT_INPUT_GUID cin SIMPLE_TEXT_INPUT_EX_GUID cex Hdb)
    as (db1 & db2 & E1 & E2 & Hdb2 & Hc2 & Hk2 & Hi1 & Hi2); [lia|apply input_guids_differ|].
  destruct (install_new_iface db2 SIMPLE_TEXT_OUTPUT_GUID cout Hdb2) as (db3 & E3 & Hdb3 & Hc3 & Hi3 & _ & Hk3); [lia|].
  destruct (install_new_iface db3 SIMPLE_TEXT_OUTPUT_GUID cerr Hdb3) as (db4 & E4 & Hdb4 & Hc4 & Hi4 & _ & Hk4); [lia|].
  rewrite Hc2 in E3, Hc3, Hi3. rewrite Hc3 in E4, Hi4, Hc4.
  pose proof (ifaces_kept_trans _ _ _ Hk3 Hk4) as Hk24.
  exists db1, db2, db3, db4. split_and!; try assumption; auto; [lia|by eapply ifaces_kept_trans].
Qed.

Section Consoles.
Context (handle_table system_table : Z) (Htable : 0 < handle_table) (Hend : handle_table + HANDLE_SIZE * 32 < 2 ^ 64).
Local Abbreviation ptr i := (handle_ptr handle_table (HandleDatabase.Entry i)).

Lemma handle_at_entry m i : (i < HandleDatabase.MAX_HANDLE_STRUCT)%nat ->
  handle_at handle_table m (ptr i) = HandleDatabase.Entry i /\ 0 <= ptr i < 2 ^ 64.
Proof.
  unfold HandleDatabase.MAX_HANDLE_STRUCT, handle_at, handle_ptr, HANDLE_SIZE in *. intros Hi. split; [|lia].
  replace (handle_table + 784 * Z.of_nat i - handle_table) with (Z.of_nat i * 784) by lia.
  rewrite Z.mod_mul, Z.div_mul by lia. rewrite (proj2 (Z.eqb_neq _ _)), (proj2 (Z.leb_le _ _)), (proj2 (Z.ltb_lt _ _)) by lia.
  cbn [andb Z.eqb]. by rewrite Nat2Z.id.
Qed.

(** One step of the installation, on a cell whose handle is known. *)
Lemma install_cell_step fw cell g x h i db' : handle_at handle_table (mem fw) (load64 (mem fw) cell) = h ->
  HandleDatabase.install_protocol (handles fw) h g x = Done ((Status.SUCCESS, HandleDatabase.Entry i), db') ->
  install_cell handle_table fw cell g x = Done (Status.SUCCESS, set_memory (set_handles fw db') (store64 (mem fw) cell (ptr i))).
Proof. intros Eh E. unfold install_cell. rewrite Eh, E. rstep. by status_step. Qed.

Definition handle_cells : list Z := [CONSOLE_IN_HANDLE; CONSOLE_OUT_HANDLE; STANDARD_ERROR_HANDLE].
Lemma in_handle_cells c : c = 40 \/ c = 56 \/ c = 72 <-> c ∈ handle_cells.
Proof. unfold handle_cells. rewrite !elem_of_cons. pose proof (not_elem_of_nil c). naive_solver. Qed.

Lemma initialize_console_outcome fw con_in_ex : let n := HandleDatabase.protocol_handle_count (handles fw) in
  let m := mem fw in db_ok (handles fw) -> (n + 3 <= HandleDatabase.MAX_HANDLE_STRUCT)%nat -> mem_ok m ->
  (forall c, c ∈ handle_cells -> load64 m (system_table + c) = 0) ->
  exists db' m', initialize_console handle_table system_table fw con_in_ex = Done (set_memory (set_handles fw db') m') /\
    db_ok db' /\ HandleDatabase.protocol_handle_count db' = (n + 3)%nat /\ ifaces_kept (handles fw) db' /\ mem_ok m' /\
    iface db' n SIMPLE_TEXT_INPUT_GUID = Some (load64 m (system_table + CON_IN)) /\
    iface db' n SIMPLE_TEXT_INPUT_EX_GUID = Some con_in_ex /\
    iface db' (S n) SIMPLE_TEXT_OUTPUT_GUID = Some (load64 m (system_table + CON_OUT)) /\
    iface db' (S (S n)) SIMPLE_TEXT_OUTPUT_GUID = Some (load64 m (system_table + STD_ERR)) /\
    load64 m' (system_table + CONSOLE_IN_HANDLE) = ptr n /\
    load64 m' (system_table + CONSOLE_OUT_HANDLE) = ptr (S n) /\
    load64 m' (system_table + STANDARD_ERROR_HANDLE) = ptr (S (S n)) /\
    (forall x, (forall c, c ∈ handle_cells -> x < system_table + c \/ system_table + c + 8 <= x) -> load8 m' x = load8 m x).
Proof.
  intros n m Hdb Hn Hm Hz.
  destruct (console_protocols (handles fw) (load64 m (system_table + CON_IN)) con_in_ex (load64 m (system_table + CON_OUT))
    (load64 m (system_table + STD_ERR)) Hdb Hn) as (db1 & db2 & db3 & db4 & E1 & E2 & E3 & E4 & Hdb4 & Hc4 & Hk & Hi).
  pose proof (handle_at_entry ∅ n ltac:(lia)) as [_ R0]. pose proof (handle_at_entry ∅ (S n) ltac:(lia)) as [_ R1].
  pose proof (handle_at_entry ∅ (S (S n)) ltac:(lia)) as [_ R2].
  assert (Z1 : load64 m (system_table + CONSOLE_IN_HANDLE) = 0) by (apply Hz, in_handle_cells; unfold CONSOLE_IN_HANDLE, CONSOLE_OUT_HANDLE, STANDARD_ERROR_HANDLE; lia).
  assert (Z2 : load64 m (system_table + CONSOLE_OUT_HANDLE) = 0) by (apply Hz, in_handle_cells; unfold CONSOLE_IN_HANDLE, CONSOLE_OUT_HANDLE, STANDARD_ERROR_HANDLE; lia).
  assert (Z3 : load64 m (system_table + STANDARD_ERROR_HANDLE) = 0) by (apply Hz, in_handle_cells; unfold CONSOLE_IN_HANDLE, CONSOLE_OUT_HANDLE, STANDARD_ERROR_HANDLE; lia).
  unfold initialize_console, CONSOLE_IN_HANDLE, CONSOLE_OUT_HANDLE, STANDARD_ERROR_HANDLE, CON_IN, CON_OUT, STD_ERR in *.
  erewrite (install_cell_step fw _ _ _ HandleDatabase.Null n db1); [|fold m; by rewrite Z1|exact E1]. rstep. fold m.
  set (m1 := store64 m (system_table + 40) (ptr n)).
  assert (L1 : load64 m1 (system_table + 40) = ptr n) by (unfold m1; rewrite load_store; by apply Z.mod_small).
  erewrite (install_cell_step (set_memory _ m1) _ _ _ (HandleDatabase.Entry n) n db2);
    [|cbn [mem set_memory]; rewrite L1; apply handle_at_entry; lia|exact E2]. rstep.
  cbn [mem set_memory]. set (m2 := store64 m1 (system_table + 40) (ptr n)).
  assert (O2 : forall k x, x + Z.of_nat k <= system_table + 40 \/ system_table + 48 <= x -> load k m2 x = load k m x).
  { intros k x Hx. unfold m2, m1. by rewrite !load_store_out by lia. }
  rewrite (O2 8%nat (system_table + 64)) by lia.
  erewrite (install_cell_step (set_memory _ m2) _ _ _ HandleDatabase.Null (S n) db3);
    [|cbn [mem set_memory]; rewrite O2, Z2 by lia; done|exact E3]. rstep.
  cbn [mem set_memory]. set (m3 := store64 m2 (system_table + 56) (ptr (S n))).
  assert (O3 : forall k x, x + Z.of_nat k <= system_table + 40 \/ system_table + 64 <= x -> load k m3 x = load k m x).
  { intros k x Hx. unfold m3. rewrite load_store_out, O2 by lia. done. }
  rewrite (O3 8%nat (system_table + 80)) by lia.
  erewrite (install_cell_step (set_memory _ m3) _ _ _ HandleDatabase.Null (S (S n)) db4);
    [|cbn [mem set_memory]; rewrite O3, Z3 by lia; done|exact E4]. rstep.
  cbn [mem set_memory]. set (m4 := store64 m3 (system_table + 72) (ptr (S (S n)))).
  exists db4, m4. split; [done|]. destruct Hi as (Hi1 & Hi2 & Hi3 & Hi4). split_and!; try assumption.
  - unfold m4, m3, m2, m1. by do 4 apply mem_ok_store.
  - unfold m4, m3, m2. rewrite !load_store_out, load_store by lia. by apply Z.mod_small.
  - unfold m4, m3. rewrite load_store_out, load_store by lia. by apply Z.mod_small.
  - unfold m4. rewrite load_store. by apply Z.mod_small.
  - intros x Hx. pose proof (Hx 40 (proj1 (in_handle_cells 40) ltac:(lia))). pose proof (Hx 56 (proj1 (in_handle_cells 56) ltac:(lia))).
    pose proof (Hx 72 (proj1 (in_handle_cells 72) ltac:(lia))). unfold m4, m3, m2, m1. by rewrite !load8_store_out by lia.
Qed.
End Consoles.

(** ** The first variable: [initialize_variable] *)

Definition platform_lang_name : list Z := take 12 PLATFORM_LANG ++ replicate 20 0.
Definition global_guid : list Z := Guid.as_bytes VariableStore.GLOBAL_VARIABLE_GUID.

Lemma initialize_variable_outcome fuel fw nm gd dt : mem_ok (mem fw) -> store_ok (variables fw) ->
  VariableStore.variable_count (variables fw) < 64 -> (12 < fuel)%nat -> dt <> 0 ->
  apart nm 26 gd 16 -> apart nm 26 dt 3 -> apart gd 16 dt 3 ->
  exists vs' m' d, initialize_variable fuel fw nm gd dt = Done (set_variables (set_memory fw m') vs') /\
    mem_ok m' /\ store_ok vs' /\
    VariableStore.get_variable vs' platform_lang_name global_guid = Done (Status.SUCCESS, 7, 3, Some d) /\
    take 3 d = [0x65; 0x6e; 0x00] /\
    (forall n g, (n, g) <> (platform_lang_name, global_guid) ->
       VariableStore.get_variable vs' n g = VariableStore.get_variable (variables fw) n g) /\
    (forall x, x < nm \/ nm + 26 <= x -> x < gd \/ gd + 16 <= x -> x < dt \/ dt + 3 <= x -> load8 m' x = load8 (mem fw) x).
Proof.
  intros Hm Hs Hc Hf Hd H1 H2 H3. unfold initialize_variable, apart in *. fold global_guid.
  set (m1 := EfiFile.store_units (mem fw) nm PLATFORM_LANG). set (m2 := store_bytes m1 gd global_guid).
  set (m3 := store_bytes m2 dt _).
  assert (Lg : length global_guid = 16%nat) by reflexivity.
  assert (Hm1 : mem_ok m1) by (unfold m1, PLATFORM_LANG; cbn [EfiFile.store_units]; by repeat apply mem_ok_store).
  assert (Hm3 : mem_ok m3) by (by do 2 apply mem_ok_store_bytes).
  assert (O : forall x, x < gd \/ gd + 16 <= x -> x < dt \/ dt + 3 <= x -> load8 m3 x = load8 m1 x).
  { intros x Hx Hy. unfold m3, m2. rewrite !load8_store_bytes_out by (rewrite ?Lg; cbn [length]; lia). done. }
  assert (C : forall j u, PLATFORM_LANG !! j = Some u -> 0 <= u < 2 ^ 16 -> char8_at m3 nm j = Z.land u 0xff).
  { intros j u Hj Hu. unfold char8_at. f_equal. pose proof (lookup_lt_Some _ _ _ Hj) as Hlt. cbn [length PLATFORM_LANG] in Hlt.
    rewrite <- (load_store_units (mem fw) nm PLATFORM_LANG j u Hj Hu). apply load_ext. intros x Hx. apply O; lia. }
  assert (Hname : name_at m3 nm 12).
  { split; [|by rewrite (C 12%nat 0)]. intros j Hj. destruct (lookup_lt_is_Some_2 PLATFORM_LANG j) as [u Hu]; [cbn; lia|].
    assert (0 < u < 128).
    { do 12 (destruct j as [|j]; [cbn in Hu; injection Hu as <-; lia|]). lia. }
    rewrite (C j u Hu) by lia. change 0xff with (Z.ones 8). rewrite Z.land_ones, Z.mod_small by lia. lia. }
  assert (Hst : stored_name m3 nm 12 = platform_lang_name).
  { unfold stored_name. cbn [seq map Nat.sub]. by repeat (erewrite C; [|reflexivity|lia]). }
  pose proof (set_variable_call fuel (set_memory fw m3) nm gd 7 3 dt 12 Hname Hf ltac:(lia)) as Ecall.
  rewrite Ecall by lia. cbn [mem variables set_memory]. rewrite Hst, (proj2 (Z.eqb_neq _ _) Hd).
  assert (Hg : load_bytes m3 gd 16 = global_guid).
  { unfold m3. rewrite load_bytes_store_bytes_out by (cbn [length]; lia). unfold m2. rewrite <- Lg.
    by apply load_bytes_store_bytes, (bool_decide_eq_true_1 (Forall (fun b => 0 <= b < 256) _)). }
  rewrite Hg. set (d := load_bytes m3 dt 2048).
  destruct (set_get_item (variables fw) platform_lang_name global_guid 7 3 d Hs) as (vs' & E & G & Go);
    [unfold VariableStore.MAX_VARIABLE_DATA; lia|done|by left|].
  destruct (set_variable_spec (variables fw) platform_lang_name global_guid 7 3 (Some d) Hs) as (vs2 & E2 & Hs2 & _);
    [unfold VariableStore.MAX_VARIABLE_DATA; lia|].
  rewrite E in E2. injection E2 as <-. rewrite E. rstep. exists vs', m3, d. split_and!; try done.
  - subst d. change 2048%nat with (3 + 2045)%nat. rewrite load_bytes_app, take_app_length' by done.
    unfold m3. apply (load_bytes_store_bytes m2 dt [0x65; 0x6e; 0x00]). by apply (bool_decide_eq_true_1 (Forall (fun b => 0 <= b < 256) _)).
  - intros x Hx1 Hx2 Hx3. rewrite O by done. unfold m1. apply load8_store_units_out. cbn [length PLATFORM_LANG]. lia.
Qed.

(** ** The whole start *)

Section Start.
Context (handle_table system_table : Z) (sv : Statics) (bl : BootLocals).
Local Abbreviation ptr i := (handle_ptr handle_table (HandleDatabase.Entry i)).

(** The memory the start writes to, apart from the moved list, and the list it reads. *)
Definition areas (hob stop : Z) : list (Z * Z) :=
  [(system_table, 120); (stdout sv + STDOUT_MODE, 8); (boot_services sv + INSTALL_MULTIPLE, 16);
   (configuration_table sv, 24); (lang_name bl, 26); (lang_guid bl, 16); (lang_data bl, 3); (hob, stop - hob)].
Definition outside_areas (l : list (Z * Z)) (x : Z) : Prop := Forall (fun p => x < p.1 \/ p.1 + p.2 <= x) l.
Definition apart_areas : list (Z * Z) -> Prop := ForallOrdPairs (fun p q => apart p.1 p.2 q.1 q.2).

(** The system table as an application finds it, the console handles being [n] and
    the next two. *)
Record table_filled (m : memory) (n : nat) : Prop := {
  tf_in_handle : load64 m (system_table + CONSOLE_IN_HANDLE) = ptr n;
  tf_in : load64 m (system_table + CON_IN) = stdin sv;
  tf_out_handle : load64 m (system_table + CONSOLE_OUT_HANDLE) = ptr (S n);
  tf_out : load64 m (system_table + CON_OUT) = stdout sv;
  tf_err_handle : load64 m (system_table + STANDARD_ERROR_HANDLE) = ptr (S (S n));
  tf_err : load64 m (system_table + STD_ERR) = stdout sv;
  tf_runtime : load64 m (system_table + RUNTIME_SERVICES) = runtime_services sv;
  tf_boot : load64 m (system_table + BOOT_SERVICES) = boot_services sv;
  tf_entries : load64 m (system_table + NUMBER_OF_TABLE_ENTRIES) = 4;
  tf_configuration : load64 m (system_table + CONFIGURATION_TABLE) = configuration_table sv;
  tf_mode : load64 m (stdout sv + STDOUT_MODE) = stdout_mode sv;
  tf_install : load64 m (boot_services sv + INSTALL_MULTIPLE) = install_multiple sv;
  tf_uninstall : load64 m (boot_services sv + UNINSTALL_MULTIPLE) = uninstall_multiple sv
}.

(** The consoles' protocols are on their handles. *)
Record consoles_installed (db : HandleDatabase.t) (n : nat) : Prop := {
  ci_in : iface db n SIMPLE_TEXT_INPUT_GUID = Some (stdin sv);
  ci_in_ex : iface db n SIMPLE_TEXT_INPUT_EX_GUID = Some (stdin_ex sv);
  ci_out : iface db (S n) SIMPLE_TEXT_OUTPUT_GUID = Some (stdout sv);
  ci_err : iface db (S (S n)) SIMPLE_TEXT_OUTPUT_GUID = Some (stdout sv)
}.

Definition is_pointer (p : Z) : Prop := 0 <= p < 2 ^ 64.
Definition statics_ok : Prop :=
  Forall is_pointer [stdin sv; stdout sv; stdout_mode sv; runtime_services sv; boot_services sv; configuration_table sv;
    install_multiple sv; uninstall_multiple sv].
End Start.

(** Solves a separation goal from one of the separated areas. *)
Ltac by_area := first [lia | match goal with H : apart _ _ _ _ |- _ => solve [unfold apart in H; lia] end].
Lemma ordpairs_inv {A} (R : A -> A -> Prop) x l : ForallOrdPairs R (x :: l) -> Forall (R x) l /\ ForallOrdPairs R l.
Proof. by inversion 1. Qed.
Ltac split_areas H :=
  unfold apart_areas, areas in H;
  repeat match goal with
  | H : ForallOrdPairs _ (_ :: _) |- _ => apply ordpairs_inv in H as [? H]
  | H : Forall _ (_ :: _) |- _ => apply Forall_cons in H as [? H]
  end; cbn [fst snd] in *.

Ltac table_offsets :=
  unfold CONSOLE_IN_HANDLE, CONSOLE_OUT_HANDLE, STANDARD_ERROR_HANDLE, CON_IN, CON_OUT, STD_ERR, STDOUT_MODE,
    RUNTIME_SERVICES, BOOT_SERVICES, NUMBER_OF_TABLE_ENTRIES, CONFIGURATION_TABLE, INSTALL_MULTIPLE,
    UNINSTALL_MULTIPLE, MAX_CONFIGURATION_TABLE in *.
(** The value of a cell under later stores. *)
Ltac load_cell :=
  repeat rewrite load_store_out by lia; rewrite ?load_store;
  try (apply Z.mod_small; match goal with H : is_pointer _ |- _ => exact H end).

Lemma fill_tables_spec handle_table st sv m n :
  apart st 120 (stdout sv + 72) 8 -> apart st 120 (boot_services sv + 328) 16 ->
  apart (stdout sv + 72) 8 (boot_services sv + 328) 16 -> statics_ok sv ->
  let m' := fill_tables st sv m in
  (forall m2, (forall x, st + 48 <= x < st + 56 \/ st + 64 <= x < st + 72 \/ st + 80 <= x < st + 120 \/
       stdout sv + 72 <= x < stdout sv + 80 \/ boot_services sv + 328 <= x < boot_services sv + 344 -> load8 m2 x = load8 m' x) ->
     load64 m2 (st + CONSOLE_IN_HANDLE) = handle_ptr handle_table (HandleDatabase.Entry n) ->
     load64 m2 (st + CONSOLE_OUT_HANDLE) = handle_ptr handle_table (HandleDatabase.Entry (S n)) ->
     load64 m2 (st + STANDARD_ERROR_HANDLE) = handle_ptr handle_table (HandleDatabase.Entry (S (S n))) ->
     table_filled handle_table st sv m2 n) /\
  (forall c, c ∈ handle_cells -> load64 m' (st + c) = load64 m (st + c)) /\
  (forall x, x < st \/ st + 120 <= x -> x < stdout sv + 72 \/ stdout sv + 80 <= x ->
     x < boot_services sv + 328 \/ boot_services sv + 344 <= x -> load8 m' x = load8 m x) /\
  load64 m' (st + CON_IN) = stdin sv /\ load64 m' (st + CON_OUT) = stdout sv /\ load64 m' (st + STD_ERR) = stdout sv.
Proof.
  intros Ha1 Ha2 Ha3 Hs m'. unfold apart in *. unfold statics_ok in Hs. split_areas Hs. table_offsets. split_and!.
  - intros m2 Hx Hc1 Hc2 Hc3. constructor; try done; table_offsets; (erewrite load_ext; [|intros; apply Hx; lia]);
      unfold m', fill_tables; table_offsets; load_cell. done.
  - intros c Hc.
    apply in_handle_cells in Hc as [->|[->| ->]]; unfold m', fill_tables; table_offsets; load_cell; done.
  - intros x Hx1 Hx2 Hx3. unfold m', fill_tables. table_offsets. by rewrite !load8_store_out by lia.
  - unfold m', fill_tables; table_offsets; load_cell.
  - unfold m', fill_tables; table_offsets; load_cell.
  - unfold m', fill_tables; table_offsets; load_cell.
Qed.

Lemma handoff_frame m m' h l stop : (forall x, h <= x < stop -> load8 m' x = load8 m x) ->
  handoff_list m h l stop -> handoff_list m' h l stop.
Proof.
  intros H Hl. pose proof (handoff_move m m' 0 h l stop) as Hmv. rewrite !Z.add_0_r in Hmv. apply Hmv; [| |done].
  - intros x Hx _. rewrite Z.add_0_r. by apply H.
  - destruct Hl as (_ & Hlen & Hle & <- & _). apply load_ext. intros x Hx. apply H. lia.
Qed.

Lemma sound_list_other l : sound_list l -> sound_list (Other :: l).
Proof. intros [H1 H2 H3 H4 H5]. by constructor. Qed.

Lemma free_outside (P : Z -> option Z) a k x : (forall y, a <= y < a + k -> P y <> Some Map.CONVENTIONAL) ->
  P x = Some Map.CONVENTIONAL -> x < a \/ a + k <= x.
Proof. intros H Hx. destruct (decide (a <= x < a + k)) as [Hin|]; [by destruct (H x Hin)|lia]. Qed.

(** With room in the map the list describes, it is moved, and takes its own pages. *)
Definition list_room (l : list Record_) (rs : list Map.Region) (new_hob size : Z) : Prop :=
  forall p k, spare (listed_map l) p (S k) -> size_pages size < p -> 0x100000 < new_hob /\ spare rs (p - size_pages size) k.

(** The allocator filled and the list moved; [listed_type] is what the list says. *)
Lemma memory_and_list m fuel hob l stop : mem_ok m -> handoff_list m hob l stop -> 0 <= hob -> stop < 2 ^ 63 ->
  sound_list l -> (S (length l) < fuel)%nat ->
  (forall x, hob <= x < stop -> listed_type l x <> Some Map.CONVENTIONAL) ->
  (forall x, listed_type l x = Some Map.CONVENTIONAL -> x < 2 ^ 63) ->
  exists a new_hob m' a' rs, initialize_memory fuel m hob Alloc.new = Done a /\
    relocate_hob m a hob = Done (new_hob, m', a') /\ holds a' rs /\ mem_ok m' /\ is_pointer new_hob /\
    list_room l rs new_hob (stop - hob) /\
    (forall x, listed_type l x <> Some Map.CONVENTIONAL -> load8 m' x = load8 m x) /\
    (new_hob = 0 /\ (forall x, type_at rs x = listed_type l x) \/
     handoff_list m' new_hob l (new_hob + (stop - hob)) /\
     (forall x, new_hob <= x < new_hob + (stop - hob) ->
        listed_type l x = Some Map.CONVENTIONAL /\ type_at rs x = Some (memory_type_u32 BootServicesData)) /\
     (forall x, listed_type l x <> Some Map.CONVENTIONAL -> type_at rs x = listed_type l x)).
Proof.
  intros Hm Hl H0 Hstop Hsound Hf Hfree Hhigh. pose proof Hl as (_ & Hl1 & Hl2 & _).
  destruct (initialize_memory_types m hob (Other :: l) fuel) as (a & E & Ha & Hty);
    [by apply (handoff_at _ _ _ stop); [|lia|]|cbn [length]; lia|by apply sound_list_other|].
  change (listed_type (Other :: l)) with (listed_type l) in Hty. change (listed_map (Other :: l)) with (listed_map l) in Ha, Hty.
  destruct (relocate_hob_outcome m a (listed_map l) hob l stop Hm H0 Hstop Hl Ha)
    as (new_hob & m2 & a2 & rs2 & E2 & Ha2 & Hm2 & Hroom & Ho).
  { intros x Hx. rewrite Hty. by apply Hfree. }
  { intros x. rewrite Hty. apply Hhigh. }
  exists a, new_hob, m2, a2, rs2. do 4 (split; [done|]).
  destruct Ho as [(-> & -> & Hsame)|(Hfr & Hl' & Ho)].
  { split; [done|]. split; [done|]. split; [done|]. left. split; [done|]. intros x. by rewrite Hsame. }
  destruct Hfr as (Hw & Hnew & Hold). split; [|split; [done|split]].
  - assert (new_hob < 2 ^ 63) by (apply Hhigh; rewrite <- Hty; apply Hnew; lia). unfold is_pointer. lia.
  - intros x Hx. apply Ho. destruct (decide (new_hob <= x < new_hob + (stop - hob))) as [Hin|]; [|lia].
    exfalso. apply Hx. rewrite <- Hty. by apply Hnew.
  - right. split; [done|]. split; intros x Hx; rewrite <- ?Hty in *; auto.
Qed.

(** The consoles and the variable, one after the other. *)
Lemma console_and_variable handle_table st sv bl fuel fw : let n := HandleDatabase.protocol_handle_count (handles fw) in
  0 < handle_table -> handle_table + HANDLE_SIZE * 32 < 2 ^ 64 -> db_ok (handles fw) ->
  (n + 3 <= HandleDatabase.MAX_HANDLE_STRUCT)%nat -> store_ok (variables fw) ->
  VariableStore.variable_count (variables fw) < 64 -> mem_ok (mem fw) -> (12 < fuel)%nat -> lang_data bl <> 0 ->
  (forall c, c ∈ handle_cells -> load64 (mem fw) (st + c) = 0) ->
  load64 (mem fw) (st + CON_IN) = stdin sv -> load64 (mem fw) (st + CON_OUT) = stdout sv ->
  load64 (mem fw) (st + STD_ERR) = stdout sv ->
  apart st 120 (lang_name bl) 26 -> apart st 120 (lang_guid bl) 16 -> apart st 120 (lang_data bl) 3 ->
  apart (lang_name bl) 26 (lang_guid bl) 16 -> apart (lang_name bl) 26 (lang_data bl) 3 ->
  apart (lang_guid bl) 16 (lang_data bl) 3 ->
  exists fw1 fw' d, initialize_console handle_table st fw (stdin_ex sv) = Done fw1 /\
    initialize_variable fuel fw1 (lang_name bl) (lang_guid bl) (lang_data bl) = Done fw' /\
    allocator fw' = allocator fw /\ db_ok (handles fw') /\ HandleDatabase.protocol_handle_count (handles fw') = (n + 3)%nat /\
    store_ok (variables fw') /\ mem_ok (mem fw') /\
    consoles_installed sv (handles fw') n /\ ifaces_kept (handles fw) (handles fw') /\
    (load64 (mem fw') (st + CONSOLE_IN_HANDLE) = handle_ptr handle_table (HandleDatabase.Entry n) /\
     load64 (mem fw') (st + CONSOLE_OUT_HANDLE) = handle_ptr handle_table (HandleDatabase.Entry (S n)) /\
     load64 (mem fw') (st + STANDARD_ERROR_HANDLE) = handle_ptr handle_table (HandleDatabase.Entry (S (S n)))) /\
    VariableStore.get_variable (variables fw') platform_lang_name global_guid = Done (Status.SUCCESS, 7, 3, Some d) /\
    take 3 d = [0x65; 0x6e; 0x00] /\
    (forall x, (forall c, c ∈ handle_cells -> x < st + c \/ st + c + 8 <= x) ->
       x < lang_name bl \/ lang_name bl + 26 <= x -> x < lang_guid bl \/ lang_guid bl + 16 <= x ->
       x < lang_data bl \/ lang_data bl + 3 <= x -> load8 (mem fw') x = load8 (mem fw) x).
Proof.
  intros n Ht He Hdb Hn Hvs Hvc Hm Hf Hdt Hz Hin Hout Herr A1 A2 A3 A4 A5 A6.
  destruct (initialize_console_outcome handle_table st Ht He fw (stdin_ex sv) Hdb Hn Hm Hz)
    as (db & m4 & E & Hdb4 & Hc4 & Hk & Hm4 & I1 & I2 & I3 & I4 & C1 & C2 & C3 & O4).
  destruct (initialize_variable_outcome fuel (set_memory (set_handles fw db) m4) (lang_name bl) (lang_guid bl) (lang_data bl))
    as (vs & m5 & d & Ev & Hm5 & Hvs5 & G & Hd & _ & O5); [done..|].
  assert (K : forall c, c = 40 \/ c = 56 \/ c = 72 -> load64 m5 (st + c) = load64 m4 (st + c)).
  { intros c Hc. apply load_ext. intros x Hx. apply O5; by_area. }
  eexists _, _, d. split; [exact E|]. split; [exact Ev|].
  cbn [allocator handles variables mem set_variables set_memory set_handles]. rewrite Hin in I1. rewrite Hout in I3. rewrite Herr in I4.
  unfold CONSOLE_IN_HANDLE, CONSOLE_OUT_HANDLE, STANDARD_ERROR_HANDLE in *. rewrite !K by lia.
  split_and!; try assumption; [done|by constructor|].
  intros x Hx X1 X2 X3. rewrite O5 by done. by apply O4.
Qed.

(** The outcome with the memory that stays as it was and what is left of the room. *)
Lemma initialize_outcome handle_table system_table sv bl fuel fw hob l stop :
  let n := HandleDatabase.protocol_handle_count (handles fw) in
  0 < handle_table -> handle_table + HANDLE_SIZE * 32 < 2 ^ 64 ->
  allocator fw = Alloc.new -> db_ok (handles fw) -> (n + 3 <= HandleDatabase.MAX_HANDLE_STRUCT)%nat ->
  store_ok (variables fw) -> VariableStore.variable_count (variables fw) < 64 -> mem_ok (mem fw) ->
  handoff_list (mem fw) hob l stop -> 0 <= hob -> stop < 2 ^ 63 -> sound_list l ->
  (S (length l) < fuel)%nat -> (12 < fuel)%nat ->
  apart_areas (areas system_table sv bl hob stop) -> statics_ok sv -> lang_data bl <> 0 ->
  (forall c, c ∈ handle_cells -> load64 (mem fw) (system_table + c) = 0) ->
  (forall a k x, (a, k) ∈ areas system_table sv bl hob stop -> a <= x < a + k -> listed_type l x <> Some Map.CONVENTIONAL) ->
  (forall x, listed_type l x = Some Map.CONVENTIONAL -> x < 2 ^ 63) ->
  exists new_hob fw' rs d,
    initialize handle_table system_table fuel sv bl fw hob = Done (new_hob, fw') /\
    holds (allocator fw') rs /\ db_ok (handles fw') /\ store_ok (variables fw') /\ mem_ok (mem fw') /\
    (new_hob = 0 /\ (forall x, type_at rs x = listed_type l x) \/
     handoff_list (mem fw') new_hob l (new_hob + (stop - hob)) /\
     (forall x, new_hob <= x < new_hob + (stop - hob) ->
        listed_type l x = Some Map.CONVENTIONAL /\ type_at rs x = Some (memory_type_u32 BootServicesData)) /\
     (forall x, listed_type l x <> Some Map.CONVENTIONAL -> type_at rs x = listed_type l x)) /\
    load_bytes (mem fw') (configuration_table sv) 16 = Guid.as_bytes HOB_LIST_GUID /\
    load64 (mem fw') (configuration_table sv + 16) = new_hob /\
    table_filled handle_table system_table sv (mem fw') n /\
    consoles_installed sv (handles fw') n /\ ifaces_kept (handles fw) (handles fw') /\
    VariableStore.get_variable (variables fw') platform_lang_name global_guid = Done (Status.SUCCESS, 7, 3, Some d) /\
    take 3 d = [0x65; 0x6e; 0x00] /\
    HandleDatabase.protocol_handle_count (handles fw') = (n + 3)%nat /\ list_room l rs new_hob (stop - hob) /\
    forall x, listed_type l x <> Some Map.CONVENTIONAL -> outside_areas (areas system_table sv bl hob stop) x ->
      load8 (mem fw') x = load8 (mem fw) x.
Proof.
  intros n Ht He Hal Hdb Hn Hvs Hvc Hm Hl H0 Hstop Hsound Hf1 Hf2 Hap Hsv Hdt Hz Hfree Hhigh.
  pose proof Hap as Hap'. split_areas Hap'. unfold STDOUT_MODE, INSTALL_MULTIPLE in *.
  pose proof Hl as (_ & Hl1 & Hl2 & _).
  destruct (fill_tables_spec handle_table system_table sv (mem fw) n) as (Htab & Hcells & Hfill & Hin & Hout & Herr); [done..|].
  set (m1 := fill_tables system_table sv (mem fw)) in *.
  assert (Hm1 : mem_ok m1) by (unfold m1, fill_tables; by repeat apply mem_ok_store).
  assert (Hl' : handoff_list m1 hob l stop).
  { eapply handoff_frame; [|exact Hl]. intros x Hx. apply Hfill; by_area. }
  assert (Hareas : Forall (fun p => forall x, p.1 <= x < p.1 + p.2 -> listed_type l x <> Some Map.CONVENTIONAL)
    (areas system_table sv bl hob stop)) by (apply Forall_forall; intros [a0 k0] Hp x Hx; by apply (Hfree a0 k0)).
  unfold areas in Hareas. rewrite !Forall_cons in Hareas. destruct Hareas as (F1 & F2 & F3 & F4 & F5 & F6 & F7 & F8 & _).
  cbn [fst snd] in *. clear Hfree.
  destruct (memory_and_list m1 fuel hob l stop) as (a & new_hob & m2 & a2 & rs2 & E & E2 & Ha2 & Hm2 & Hptr & Hroom & K2 & Ho);
    [done..|intros x Hx; apply F8; lia|done|].
  unfold initialize. fold m1. cbn [mem allocator set_memory]. rewrite Hal, E. rstep. rewrite E2. rstep.
  set (m3 := store64 (store_bytes m2 (configuration_table sv) (Guid.as_bytes HOB_LIST_GUID)) (configuration_table sv + 16) new_hob).
  assert (Hm3 : mem_ok m3) by (by apply mem_ok_store, mem_ok_store_bytes).
  assert (K3 : forall x, x < configuration_table sv \/ configuration_table sv + 24 <= x -> load8 m3 x = load8 m2 x).
  { intros x Hx. unfold m3. rewrite load8_store_out by lia. apply load8_store_bytes_out. change (length _) with 16%nat. lia. }
  assert (Kst : forall k x, system_table <= x -> x + Z.of_nat k <= system_table + 120 -> load k m3 x = load k m1 x).
  { intros k x Hx1 Hx2. apply load_ext. intros y Hy. rewrite K3 by by_area. apply K2, F1. lia. }
  unfold STDOUT_MODE, INSTALL_MULTIPLE in *.
  destruct (console_and_variable handle_table system_table sv bl fuel (set_memory (set_allocator (set_memory fw m1) a2) m3))
    as (fw4 & fw5 & d & E4 & E5 & Hal5 & Hdb5 & Hc5 & Hvs5 & Hm5 & Hcons & Hk5 & Hcell5 & G & Hd & O5); try done.
  { intros c Hc. cbn [mem set_memory]. rewrite Kst by (apply in_handle_cells in Hc; lia). rewrite Hcells by done. by apply Hz. }
  { cbn [mem set_memory]. unfold CON_IN in *. by rewrite Kst by lia. }
  { cbn [mem set_memory]. unfold CON_OUT in *. by rewrite Kst by lia. }
  { cbn [mem set_memory]. unfold STD_ERR in *. by rewrite Kst by lia. }
  rewrite E4. rstep. rewrite E5. rstep. cbn [mem handles allocator set_memory set_allocator] in *.
  exists new_hob, fw5, rs2, d. rewrite Hal5. do 5 (split; [done|]).
  assert (Kin : forall x, x < system_table \/ system_table + 120 <= x -> x < lang_name bl \/ lang_name bl + 26 <= x ->
    x < lang_guid bl \/ lang_guid bl + 16 <= x -> x < lang_data bl \/ lang_data bl + 3 <= x ->
    load8 (mem fw5) x = load8 m3 x).
  { intros x X1 X2 X3 X4. apply O5; try done. intros c Hc. apply in_handle_cells in Hc. lia. }
  assert (Kct : forall x, configuration_table sv <= x < configuration_table sv + 24 -> load8 (mem fw5) x = load8 m3 x).
  { intros x Hx. apply Kin; by_area. }
  split_and!; try assumption.
  - destruct Ho as [Ho|(Hl2' & Hnew & Hold)]; [by left|right]. split; [|done].
    eapply handoff_frame; [|exact Hl2']. intros x Hx. pose proof (proj1 (Hnew x Hx)) as Hx'.
    pose proof (free_outside _ _ _ x F1 Hx'). pose proof (free_outside _ _ _ x F4 Hx').
    pose proof (free_outside _ _ _ x F5 Hx'). pose proof (free_outside _ _ _ x F6 Hx').
    pose proof (free_outside _ _ _ x F7 Hx'). rewrite Kin by done. by apply K3.
  - erewrite load_bytes_ext; [|intros x Hx; apply Kct; lia]. unfold m3, store.
    rewrite load_bytes_store_bytes_out by lia. apply (load_bytes_store_bytes m2 _ (Guid.as_bytes HOB_LIST_GUID)).
    by apply (bool_decide_eq_true_1 (Forall (fun b => 0 <= b < 256) _)).
  - erewrite load_ext; [|intros x Hx; apply Kct; lia]. unfold m3. rewrite load_store. by apply Z.mod_small.
  - destruct Hcell5 as (C1 & C2 & C3). apply Htab; [|done..]. intros x Hx.
    assert (Hfr : listed_type l x <> Some Map.CONVENTIONAL).
    { destruct Hx as [Hx|[Hx|[Hx|[Hx|Hx]]]]; [apply F1|apply F1|apply F1|apply F2|apply F3]; lia. }
    rewrite <- (K2 x Hfr). destruct Hx as [Hx|[Hx|[Hx|[Hx|Hx]]]];
      (rewrite O5; [apply K3; by_area|intros c Hc; apply in_handle_cells in Hc; by_area|by_area..]).
  - intros x Hx Hout'. unfold outside_areas, areas, STDOUT_MODE, INSTALL_MULTIPLE in Hout'. rewrite !Forall_cons in Hout'.
    cbn [fst snd] in Hout'. destruct Hout' as (O1 & O2 & O3 & O4 & O6 & O7 & O8 & _).
    rewrite Kin, K3, K2 by done. apply Hfill; lia.
Qed.

(** C21: The start of the firmware, from the entry of [enter_uefi] to the search for a
    disk, on a sound HOB list: it returns; the allocator holds the memory map the
    list describes, except that the pages of the moved list are taken from free
    memory; the moved list has the same records and its own end, and the
    configuration table points to it (to 0 when there was no memory); the system
    table's fields are filled in; the consoles' protocols are on three new
    handles, which the table names, and what was installed before stays; and the
    variable PlatformLang is "en". *)
Theorem initialize_correct handle_table system_table sv bl fuel fw hob l stop :
  let n := HandleDatabase.protocol_handle_count (handles fw) in
  0 < handle_table -> handle_table + HANDLE_SIZE * 32 < 2 ^ 64 ->
  allocator fw = Alloc.new -> db_ok (handles fw) -> (n + 3 <= HandleDatabase.MAX_HANDLE_STRUCT)%nat ->
  store_ok (variables fw) -> VariableStore.variable_count (variables fw) < 64 -> mem_ok (mem fw) ->
  handoff_list (mem fw) hob l stop -> 0 <= hob -> stop < 2 ^ 63 -> sound_list l ->
  (S (length l) < fuel)%nat -> (12 < fuel)%nat ->
  apart_areas (areas system_table sv bl hob stop) -> statics_ok sv -> lang_data bl <> 0 ->
  (forall c, c ∈ handle_cells -> load64 (mem fw) (system_table + c) = 0) ->
  (forall a k x, (a, k) ∈ areas system_table sv bl hob stop -> a <= x < a + k -> listed_type l x <> Some Map.CONVENTIONAL) ->
  (forall x, listed_type l x = Some Map.CONVENTIONAL -> x < 2 ^ 63) ->
  exists new_hob fw' rs d,
    initialize handle_table system_table fuel sv bl fw hob = Done (new_hob, fw') /\
    holds (allocator fw') rs /\ db_ok (handles fw') /\ store_ok (variables fw') /\ mem_ok (mem fw') /\
    (new_hob = 0 /\ (forall x, type_at rs x = listed_type l x) \/
     handoff_list (mem fw') new_hob l (new_hob + (stop - hob)) /\
     (forall x, new_hob <= x < new_hob + (stop - hob) ->
        listed_type l x = Some Map.CONVENTIONAL /\ type_at rs x = Some (memory_type_u32 BootServicesData)) /\
     (forall x, listed_type l x <> Some Map.CONVENTIONAL -> type_at rs x = listed_type l x)) /\
    load_bytes (mem fw') (configuration_table sv) 16 = Guid.as_bytes HOB_LIST_GUID /\
    load64 (mem fw') (configuration_table sv + 16) = new_hob /\
    table_filled handle_table system_table sv (mem fw') n /\
    consoles_installed sv (handles fw') n /\ ifaces_kept (handles fw) (handles fw') /\
    VariableStore.get_variable (variables fw') platform_lang_name global_guid = Done (Status.SUCCESS, 7, 3, Some d) /\
    take 3 d = [0x65; 0x6e; 0x00].
Proof.
  intros. edestruct (initialize_outcome handle_table system_table sv bl fuel fw hob l stop)
    as (new_hob & fw' & rs & d & E & Q1 & Q2 & Q3 & Q4 & Q5 & Q6 & Q7 & Q8 & Q9 & Q10 & Q11 & Q12 & _); [done..|].
  exists new_hob, fw', rs, d. done.
Qed.

(** One megabyte at 1 MiB with its first page in use, listed at 0x1000 behind a
    hand-off table. *)
Definition boot_hobs : memory :=
  let m := store64 (store16 (store16 ∅ 0x1000 1) 0x1002 56) 0x1030 0x10a0 in
  let m := store64 (store64 (store16 (store16 m 0x1038 3) 0x103a 48) 0x1058 0x100000) 0x1060 0x100000 in
  let m := store32 (store64 (store64 (store16 (store16 m 0x1068 2) 0x106a 48) 0x1080 0x100000) 0x1088 0x1000) 0x1090 4 in
  store16 m 0x1098 0xffff.
Definition boot_state : Firmware := mkFw boot_hobs Alloc.new HandleDatabase.new VariableStore.new EventInfo.new.
Definition demo_statics : Statics := mkStatics 0x3000 0x3100 0x3200 0x3300 0x3400 0x3500 0x3800 0x3900 0x3a00.
Definition demo_locals : BootLocals :=
  mkBootLocals (mkLocals 0x5000 0x5008 0x5010 0x5020 0x5100 0x5600) 0x5700 0x5800 0x5900 0x5a00 0x5a08 0x4000 0x4100 0x4200.

Lemma boot_hobs_listed : handoff_list boot_hobs 0x1000 demo_list 0x10a0.
Proof. vm_compute. repeat split; congruence. Qed.

Lemma demo_conventional x : listed_type demo_list x = Some Map.CONVENTIONAL -> 0x100000 <= x < 0x200000.
Proof.
  unfold listed_type, holder, covers, demo_list, r_end, Alloc.PAGE_SIZE. cbn -[Z.leb Z.ltb Z.div Z.add Z.mul].
  change (0x100000 / Alloc.PAGE_SIZE) with 256. change (0x1000 / Alloc.PAGE_SIZE) with 1.
  destruct (0x100000 <=? x) eqn:E1; cbn [andb]; [|done].
  destruct (x <? 0x100000 + 4096 * 1) eqn:E2; [done|]. destruct (x <? 0x100000 + 4096 * 256) eqn:E3; [lia|done].
Qed.

Lemma initialize_correct_witness : exists new_hob fw' rs d,
  initialize 0x700000 0x2000 20 demo_statics demo_locals boot_state 0x1000 = Done (new_hob, fw') /\
  holds (allocator fw') rs /\ load64 (mem fw') 0x3810 = new_hob /\
  table_filled 0x700000 0x2000 demo_statics (mem fw') 0 /\ consoles_installed demo_statics (handles fw') 0 /\
  VariableStore.get_variable (variables fw') platform_lang_name global_guid = Done (Status.SUCCESS, 7, 3, Some d).
Proof.
  destruct (initialize_correct 0x700000 0x2000 demo_statics demo_locals 20 boot_state 0x1000 demo_list 0x10a0)
    as (new_hob & fw' & rs & d & E & Ha & _ & _ & _ & _ & _ & Hct & Htab & Hcons & _ & G & _).
  - lia.
  - vm_compute. reflexivity.
  - reflexivity.
  - apply new_db_ok.
  - vm_compute. lia.
  - apply new_ok.
  - vm_compute. reflexivity.
  - unfold boot_state, boot_hobs. cbn [mem]. repeat apply mem_ok_store. apply map_Forall_empty.
  - apply boot_hobs_listed.
  - lia.
  - lia.
  - apply demo_list_sound.
  - cbn. lia.
  - lia.
  - unfold apart_areas, areas. repeat first [apply FOP_cons | apply FOP_nil | apply Forall_cons_2 | apply Forall_nil_2];
      unfold apart, STDOUT_MODE, INSTALL_MULTIPLE; cbn; lia.
  - unfold statics_ok. repeat first [apply Forall_cons_2 | apply Forall_nil_2]; unfold is_pointer; cbn; lia.
  - cbn. lia.
  - intros c Hc. apply in_handle_cells in Hc as [->|[->| ->]]; reflexivity.
  - intros a k x Hp Hx Hc. apply demo_conventional in Hc. unfold areas, STDOUT_MODE, INSTALL_MULTIPLE in Hp. rewrite !elem_of_cons in Hp.
    repeat destruct Hp as [[= -> ->]|Hp]; cbn in Hx; try lia. by apply not_elem_of_nil in Hp.
  - intros x Hx. apply demo_conventional in Hx. lia.
  - exists new_hob, fw', rs, d. auto 10.
Defined.
