(* ===== verification/BootMount.v ===== *)
(** * Booting: the EFI partition is mounted

    [mount], the part [initialize_fs] and [enter_uefi] share: block wrappers for the
    disk's partitions, an object for the file system, and its protocol on a handle
    with the partition's device path. *)

From S2P Require Import Prelude REfi Mem Part Fat FatDemo Alloc MemMap MapSafety AllocRepr AllocRefine AllocSafety AllocRoom HandleDb Variables Events DevicePath EfiFile FileProps FileSafety Services ServicesProps EfiBlock BlockProps Image ImageProps Boot BootProps.
Import Services Boot.

Lemma volume_guids_differ : SIMPLE_FILE_SYSTEM_GUID <> DevicePath.PROTOCOL_GUID.
Proof. by vm_compute. Qed.

(** The number of the EFI partition is that of a wrapper. *)
Lemma last_efi_bound parts k : last_efi parts k -> (k <= length parts)%nat.
Proof. intros [[-> _]|(pre & p & post & -> & -> & _)]; [lia|]. rewrite length_app. cbn. lia. Qed.

Section Mount.
Context {D : Type} `{SectorRead D} (L : EfiFile.Layout).
Hypothesis HL : layout_ok L.

(** [install_local] changes only the handles. *)
Lemma install_local_as fw h g x : db_ok (handles fw) -> valid_handle h -> exists st h' db,
  install_local fw h g x = Done (st, h', set_handles fw db) /\ db_ok db /\ valid_handle h' /\ ifaces_kept (handles fw) db.
Proof.
  intros Hdb Hv. destruct (install_local_outcome fw h g x Hdb Hv) as (st & h' & fw' & E & _ & _ & Hdb' & Hv' & Hk).
  unfold install_local in *. unbind E as [[st0 h0] db] eqn E0. rewrite E0. rstep. injection E as <- <- <-. eauto 10.
Qed.

(** Both protocols of the volume on the next handle. *)
Lemma volume_protocols fw x y : db_ok (handles fw) ->
  (HandleDatabase.protocol_handle_count (handles fw) < HandleDatabase.MAX_HANDLE_STRUCT)%nat ->
  let n := HandleDatabase.protocol_handle_count (handles fw) in exists db1 db2,
  install_local fw HandleDatabase.Null SIMPLE_FILE_SYSTEM_GUID x = Done (Status.SUCCESS, HandleDatabase.Entry n, set_handles fw db1) /\
  install_local (set_handles fw db1) (HandleDatabase.Entry n) DevicePath.PROTOCOL_GUID y
    = Done (Status.SUCCESS, HandleDatabase.Entry n, set_handles fw db2) /\
  db_ok db2 /\ HandleDatabase.protocol_handle_count db2 = S n /\ ifaces_kept (handles fw) db2 /\
  iface db2 n SIMPLE_FILE_SYSTEM_GUID = Some x /\ iface db2 n DevicePath.PROTOCOL_GUID = Some y.
Proof.
  intros Hdb Hc n. destruct (install_two_new (handles fw) SIMPLE_FILE_SYSTEM_GUID x DevicePath.PROTOCOL_GUID y Hdb Hc)
    as (db1 & db2 & E1 & E2 & Ho); [apply volume_guids_differ|]. exists db1, db2. unfold install_local.
  rewrite E1. rstep. status_step. cbn [handles set_handles]. fold n in E2. rewrite E2. rstep. status_step. naive_solver.
Qed.

(** The volume [fs] is the new object [w]; [db] are the handles the wrappers left, and
    [bw] is the wrapper of partition [id]. *)
Record volume_mounted (s : System D) (fs : Fat.Filesystem D) (cap : Z) (parts : list Part.PartitionEntry) (id : nat)
    (bws : EfiBlock.BlockWrappers) (db : HandleDatabase.t) (ok : bool) (s' : System D) (rs' : list Map.Region) (w bw : Z) : Prop := {
  vm_files : files_ok L (file_state s') rs';
  vm_new : volumes s !! w = None /\ volumes s' = <[w := fs]> (volumes s) /\ files s' = files s;
  vm_handles : db_ok (handles (firmware s')) /\ ifaces_kept (handles (firmware s)) (handles (firmware s'));
  vm_wrappers : described (system_memory s') rs' cap parts (EfiBlock.wrappers bws) /\ EfiBlock.wrappers bws !! id = Some bw;
  vm_installed : let i := HandleDatabase.protocol_handle_count db in
    (i < HandleDatabase.MAX_HANDLE_STRUCT)%nat -> ok = true /\
      iface (handles (firmware s')) i SIMPLE_FILE_SYSTEM_GUID = Some (w + EfiFile.fs_proto L) /\
      iface (handles (firmware s')) i DevicePath.PROTOCOL_GUID = Some (bw + EfiBlock.DISK_PATHS)
}.

(** What is left to do once the object is there: the two protocols. *)
Lemma install_volume (check : bool) (s : System D) (bws : EfiBlock.BlockWrappers) w bw :
  db_ok (handles (firmware s)) -> exists ok db,
    ('(status, handle, fw) ←
        install_local (firmware s) HandleDatabase.Null SIMPLE_FILE_SYSTEM_GUID (w + EfiFile.fs_proto L);
     let s := set_firmware s fw in
     if check && negb (Status.eqb status Status.SUCCESS) then Done (false, bws, s)
     else
       '(_, _, fw) ← install_local (firmware s) handle DevicePath.PROTOCOL_GUID (bw + EfiBlock.DISK_PATHS);
       Done (true, bws, set_firmware s fw))
    = Done (ok, bws, set_firmware s (set_handles (firmware s) db)) /\ db_ok db /\ ifaces_kept (handles (firmware s)) db /\
    let i := HandleDatabase.protocol_handle_count (handles (firmware s)) in
    ((i < HandleDatabase.MAX_HANDLE_STRUCT)%nat -> ok = true /\
       iface db i SIMPLE_FILE_SYSTEM_GUID = Some (w + EfiFile.fs_proto L) /\
       iface db i DevicePath.PROTOCOL_GUID = Some (bw + EfiBlock.DISK_PATHS)).
Proof.
  intros Hdb. destruct (decide (HandleDatabase.protocol_handle_count (handles (firmware s)) < HandleDatabase.MAX_HANDLE_STRUCT)%nat)
    as [Hc|Hc].
  - destruct (volume_protocols (firmware s) (w + EfiFile.fs_proto L) (bw + EfiBlock.DISK_PATHS) Hdb Hc)
      as (db1 & db2 & -> & E2 & Hdb2 & _ & Hk & H1 & H2). rstep. status_step. cbn [negb]. rewrite andb_false_r.
    cbn [firmware set_firmware]. rewrite E2. rstep. exists true, db2. done.
  - destruct (install_local_as (firmware s) HandleDatabase.Null SIMPLE_FILE_SYSTEM_GUID (w + EfiFile.fs_proto L) Hdb I)
      as (st & h & db1 & -> & Hdb1 & Hv & Hk1). rstep.
    destruct (check && _); [exists false, db1; done|].
    destruct (install_local_as (set_handles (firmware s) db1) h DevicePath.PROTOCOL_GUID (bw + EfiBlock.DISK_PATHS) Hdb1 Hv)
      as (st2 & h2 & db2 & E2 & Hdb2 & _ & Hk2). cbn [firmware set_firmware]. rewrite E2. rstep.
    exists true, db2. split; [done|]. split; [done|]. split; [by eapply ifaces_kept_trans|]. done.
Qed.

(** C22: [mount] of a disk whose file system [Fat.init] accepts: the partitions get their
    block wrappers; then either there is no memory for the volume's object, and the
    unwrap panics, or the volume is a new object in pages of its own, beside the
    ones there were, nothing installed before is lost, and when a handle is left
    the file-system protocol of that object and the device path of the last EFI
    partition are installed together on it. *)
Theorem mount_correct check fuel cb local (s : System D) rs bws disk cap start last part_id fs n parts :
  files_ok L (file_state s) rs -> db_ok (handles (firmware s)) -> length (EfiBlock.wrappers bws) = 16%nat ->
  Part.get_partitions disk (replicate 16 EfiBlock.no_entry) = Done (Ok n, parts) -> 0 <= n <= 15 ->
  0 <= local -> local + 10 < 2 ^ 64 -> (1 < fuel)%nat ->
  (forall x, local <= x < local + 10 -> type_at rs x <> LOADER_DATA /\ type_at rs x <> Some Map.CONVENTIONAL) ->
  Fat.init (Fat.new disk start last part_id) = Done (Ok tt, fs) ->
  exists id bws' fw1,
    EfiBlock.populate_block_wrappers fuel cb local (firmware s) bws disk cap = Done (Some id, bws', fw1) /\
    last_efi (take (Z.to_nat n) parts) id /\
    ((exists a, Calloc.malloc (allocator fw1) (EfiFile.fs_wrapper_size L) = Done (Err Status.OUT_OF_RESOURCES, a) /\
        mount L check fuel cb local s bws disk cap start last part_id = Panic) \/
     exists ok s' rs' w bw,
       mount L check fuel cb local s bws disk cap start last part_id = Done (ok, bws', s') /\
       volume_mounted s fs cap (take (Z.to_nat n) parts) id bws' (handles fw1) ok s' rs' w bw).
Proof.
  intros Hs Hdb Hlen Hp Hn Hl Hl' Hf Hloc Hi.
  destruct (populate_outcome disk fuel cb local (firmware s) rs bws cap n parts)
    as (id & bws' & fw1 & rs1 & E1 & Ha1 & Hdb1 & Hk1 & _ & Hd1 & Hid & Hkeep & Hlen1); [exact (fk_holds _ _ _ Hs)|done..|].
  exists id, bws', fw1. split; [exact E1|]. split; [exact Hid|]. unfold mount. rewrite Hi. rstep. rewrite E1. rstep.
  assert (Hidn : (id < 16)%nat).
  { apply last_efi_bound in Hid. rewrite length_take in Hid. lia. }
  destruct (lookup_lt_is_Some_2 (EfiBlock.wrappers bws') id) as [bw Hbw]; [lia|].
  cbn [unwrap]. rstep. unfold index. rewrite Hbw. cbn [unwrap]. rstep. set (s1 := set_firmware s fw1).
  assert (Hs1 : files_ok L (file_state s1) rs1).
  { apply (files_ok_memory L (EfiFile.set_allocator (file_state s) (allocator fw1)) rs1 (mem fw1)).
    eapply files_ok_types; [exact Hs|exact Ha1|]. intros x Hx. by eapply keeps_loader. }
  destruct (malloc_outcome (allocator fw1) rs1 (EfiFile.fs_wrapper_size L) Ha1 (HL KVolume))
    as (a2 & rs2 & Ha2 & [(w & E2 & Hfresh)|[E2 _]]).
  2:{ left. exists a2. split; [exact E2|]. unfold file_call, EfiFile.new. change (EfiFile.allocator (file_state s1)) with (allocator fw1).
      rewrite E2. by rstep. }
  right. destruct (new_fresh L HL (file_state s1) rs1 fs w a2 rs2) as (E3 & Hs2 & Hno); [exact Hs1|exact E2|exact Ha2|exact Hfresh|].
  unfold file_call. rewrite E3. rstep. cbn [Fat.unwrap_ok]. rstep.
  set (s2 := from_file_state s1 _). assert (Hh2 : handles (firmware s2) = handles fw1) by done.
  assert (Hd2 : described (system_memory s2) rs2 cap (take (Z.to_nat n) parts) (EfiBlock.wrappers bws')).
  { eapply described_keeps; [exact Hd1|]. split; [exact (proj2 (proj2 Hfresh))|done]. }
  destruct (install_volume check s2 bws' w bw Hdb1) as (ok & db & E4 & Hdb4 & Hk4 & Hi4).
  exists ok, (set_firmware s2 (set_handles (firmware s2) db)), rs2, w, bw. split; [exact E4|]. constructor.
  - exact Hs2.
  - split; [exact Hno|]. done.
  - split; [exact Hdb4|]. by eapply ifaces_kept_trans.
  - split; [exact Hd2|exact Hbw].
  - exact Hi4.
Qed.
End Mount.

(** The disk of [Part] with a boot sector in its EFI partition. *)
Definition efi_disk : Ramdisk :=
  <[2048 := boot_sector 1 1 1 0 0 0 70000 (le_split 4 547 ++ replicate 4 0 ++ le_split 4 2)]> Part.demo_disk.
Definition efi_fs : Fat.Filesystem Ramdisk :=
  match Fat.init (Fat.new efi_disk 2048 4095 3) with Done (_, fs) => fs | _ => empty_fs end.
Definition bare_system : System Ramdisk := mkSystem demo_firmware ∅ ∅.
Definition efi_callbacks : EfiBlock.Callbacks := EfiBlock.mkCallbacks 1 2 3 4 5.

Lemma mount_correct_witness : exists id bws' fw1,
  EfiBlock.populate_block_wrappers 2 efi_callbacks 0x900000 (firmware bare_system) (EfiBlock.mkWrappers (replicate 16 0) 0) efi_disk 10000
    = Done (Some id, bws', fw1) /\ id = 1%nat.
Proof.
  destruct (mount_correct demo_layout demo_layout_ok false 2 efi_callbacks 0x900000 bare_system demo_map
    (EfiBlock.mkWrappers (replicate 16 0) 0) efi_disk 10000 2048 4095 3 efi_fs 1
    (Part.mkEntry Part.EFI_TYPE (replicate 16 1) 2048 4095 :: replicate 15 EfiBlock.no_entry))
    as (id & bws' & fw1 & E & Hid & _).
  - apply demo_empty_ok.
  - apply new_db_ok.
  - reflexivity.
  - vm_compute. reflexivity.
  - lia.
  - lia.
  - lia.
  - lia.
  - intros x Hx. assert (Hno : forall t, type_at demo_map x <> Some t).
    { intros t Ht. destruct (type_at_demo x t Ht); lia. }
    split; apply Hno.
  - vm_compute. reflexivity.
  - exists id, bws', fw1. split; [exact E|]. destruct Hid as [[_ Hf]|(pre & p & post & Hp & -> & _)].
    + apply Forall_cons in Hf as [Hf _]. discriminate Hf.
    + destruct pre as [|q pre]; [reflexivity|]. destruct pre; discriminate Hp.
Defined.
