(* ===== verification/BootRoom.v ===== *)
(** * Booting: mounting with memory to spare

    The steps of [mount] when the map has room and handles are left: every
    allocation succeeds, every partition has its wrapper, and the memory that was in
    use is as it was, but for the local the disk's device path is built in. *)

From S2P Require Import Prelude REfi Mem Part Fat Alloc MemMap MapSafety AllocRepr AllocRefine AllocSafety AllocRoom HandleDb Variables Events DevicePath PeProps EfiFile FileProps FileSafety Services ServicesProps EfiBlock BlockProps Image ImageProps Boot BootProps BootMount.
Import Services Boot EfiBlock.

(** Used pages keep their type, and outside [a, a + n) their bytes. *)
Definition undisturbed (a n : Z) (m : memory) (rs : list Map.Region) (m' : memory) (rs' : list Map.Region) : Prop :=
  forall x, type_at rs x <> Some Map.CONVENTIONAL ->
    type_at rs' x = type_at rs x /\ (x < a \/ a + n <= x -> load8 m' x = load8 m x).

Lemma undisturbed_refl a n m rs : undisturbed a n m rs m rs.
Proof. done. Qed.
Lemma undisturbed_trans a n m1 rs1 m2 rs2 m3 rs3 :
  undisturbed a n m1 rs1 m2 rs2 -> undisturbed a n m2 rs2 m3 rs3 -> undisturbed a n m1 rs1 m3 rs3.
Proof.
  intros H1 H2 x Hx. destruct (H1 x Hx) as [T1 M1]. destruct (H2 x) as [T2 M2]; [by rewrite T1|].
  split; [by rewrite T2|]. intros Hr. by rewrite M2, M1.
Qed.
Lemma undisturbed_weaken a n m rs m' rs' : undisturbed 0 0 m rs m' rs' -> undisturbed a n m rs m' rs'.
Proof. intros H x Hx. destruct (H x Hx) as [T M]. split; [done|]. intros _. apply M. lia. Qed.
Lemma undisturbed_free a n m rs m' rs' x : undisturbed a n m rs m' rs' ->
  type_at rs' x = Some Map.CONVENTIONAL -> type_at rs x = Some Map.CONVENTIONAL.
Proof. intros H Hx. apply dec_stable. intros Hn. destruct (H x Hn) as [T _]. congruence. Qed.

(** What is written to fresh pages disturbs nothing. *)
Lemma fresh_undisturbed t rs rs' w size m m' : fresh_as t rs rs' w size ->
  (forall x, x < w \/ w + size <= x -> load8 m' x = load8 m x) -> undisturbed 0 0 m rs m' rs'.
Proof.
  intros (_ & Hnew & Hold) Hm x Hx. split; [by apply Hold|]. intros _. apply Hm.
  destruct (decide (w <= x < w + size)) as [Hin|]; [|lia]. by destruct Hx; apply Hnew.
Qed.

Lemma wrapper_undisturbed a n m rs m' rs' bw lb number p : wrapper_of m rs bw lb number p ->
  undisturbed a n m rs m' rs' -> (forall x, a <= x < a + n -> type_at rs x <> LOADER_DATA) ->
  wrapper_of m' rs' bw lb number p.
Proof.
  intros Hw Hu Ha. pose proof Hw as (Hb & Ho & _).
  (* Only the wrapper's own bytes matter. *)
  assert (Hx : forall x, bw <= x < bw + WRAPPER_SIZE -> type_at rs' x = LOADER_DATA /\ load8 m' x = load8 m x).
  { intros x Hx. pose proof (Ho x Hx) as Ht. destruct (Hu x) as [T M]; [rewrite Ht; apply loader_not_free|].
    split; [by rewrite T|]. apply M. destruct (decide (a <= x < a + n)) as [Hin|]; [|lia]. by destruct (Ha x Hin). }
  destruct Hw as (_ & _ & [H1 H2 H3 H4 H5]). split; [done|]. split; [intros x Hin; by apply Hx|].
  unfold BLOCK, MEDIA, PROTO, CONTROLLER_PATH, DISK_PATHS, START_LBA, WRAPPER_SIZE in *.
  constructor; unfold BLOCK, MEDIA, PROTO, CONTROLLER_PATH, DISK_PATHS, START_LBA, WRAPPER_SIZE in *;
    (etransitivity; [first [apply load_ext|apply load_bytes_ext]; intros x Hin; apply Hx; lia|done]).
Qed.

(** The wrapper of every partition. *)
Definition all_described (m : memory) (rs : list Map.Region) (cap : Z) (parts : list Part.PartitionEntry) (ws : list Z) : Prop :=
  forall j p, parts !! j = Some p -> exists bw, ws !! S j = Some bw /\ wrapper_of m rs bw (u64 (cap - 1)) (Z.of_nat j + 1) p.

Lemma all_described_undisturbed a n m rs m' rs' cap parts ws : all_described m rs cap parts ws ->
  undisturbed a n m rs m' rs' -> (forall x, a <= x < a + n -> type_at rs x <> LOADER_DATA) -> all_described m' rs' cap parts ws.
Proof. intros Hd Hu Ha j p Hj. destruct (Hd j p Hj) as (bw & Hb & Hw). exists bw. split; [done|]. by eapply wrapper_undisturbed. Qed.

Lemma store_wrapper_mem_ok cb m bw lb number start last uuid : mem_ok m ->
  mem_ok (store_wrapper cb m bw lb number start last uuid).
Proof.
  intros Hm. unfold store_wrapper, store_proto, store_media. repeat apply mem_ok_store_bytes.
  exact (mem_ok_store_bytes m bw [1] Hm).
Qed.

(** ** Wrappers *)

Lemma new_in_room cb fw rs cap number p q k : holds (allocator fw) rs -> part_ok p -> spare rs q (S k) -> 1 < q ->
  exists bw a' m' rs',
    new cb fw cap number (Part.first_lba p) (Part.last_lba p) (Part.guid p) = Done (bw, set_memory (set_allocator fw a') m') /\
    holds a' rs' /\ spare rs' (q - 1) k /\ undisturbed 0 0 (mem fw) rs m' rs' /\ (mem_ok (mem fw) -> mem_ok m') /\
    wrapper_of m' rs' bw (u64 (cap - 1)) number p.
Proof.
  intros Ha [[Hu Hb] Hf] Hr Hq. change 1 with (size_pages WRAPPER_SIZE) in Hq |- *.
  destruct (pages_in_room LoaderData (allocator fw) rs WRAPPER_SIZE q k Ha) as (w & a' & rs' & E & Ha' & Hfr & Hr');
    [unfold WRAPPER_SIZE; lia|done|done|].
  unfold new. fold (size_pages WRAPPER_SIZE). rewrite E. rstep. eexists w, a', _, rs'. split; [done|]. do 2 (split; [done|]).
  destruct (fresh_bound _ _ _ _ _ _ Ha Hfr) as [Hw0 Hw1]; [unfold WRAPPER_SIZE; lia|]. pose proof Hfr as (Hw & Hnew & _).
  split; [|split; [apply store_wrapper_mem_ok|]].
  - eapply fresh_undisturbed; [exact Hfr|]. intros x Hx. by apply store_wrapper_outside.
  - split; [done|]. split; [intros x Hx; by apply Hnew|]. apply store_wrapper_at; try done; [apply wrap_range; lia|lia].
Qed.

Lemma block_guids_differ : BLOCK_IO_GUID <> DevicePath.PROTOCOL_GUID.
Proof. by vm_compute. Qed.

(** Handles: one more, and nothing lost. *)
Definition handles_added (db db' : HandleDatabase.t) (n : nat) : Prop :=
  db_ok db' /\ ifaces_kept db db' /\
  HandleDatabase.protocol_handle_count db' = (HandleDatabase.protocol_handle_count db + n)%nat.
Lemma handles_added_trans db1 db2 db3 n k : handles_added db1 db2 n -> handles_added db2 db3 k -> handles_added db1 db3 (n + k).
Proof. intros (_ & K1 & C1) (H2 & K2 & C2). split; [done|]. split; [by eapply ifaces_kept_trans|]. lia. Qed.

(** Two protocols on one new handle. *)
Lemma install_pair fw g1 x1 g2 x2 : db_ok (handles fw) ->
  (HandleDatabase.protocol_handle_count (handles fw) < HandleDatabase.MAX_HANDLE_STRUCT)%nat -> g1 <> g2 ->
  let n := HandleDatabase.protocol_handle_count (handles fw) in exists db1 db2,
  install_local fw HandleDatabase.Null g1 x1 = Done (Status.SUCCESS, HandleDatabase.Entry n, set_handles fw db1) /\
  (forall fw1, handles fw1 = db1 -> install_local fw1 (HandleDatabase.Entry n) g2 x2
    = Done (Status.SUCCESS, HandleDatabase.Entry n, set_handles fw1 db2)) /\
  handles_added (handles fw) db2 1 /\ iface db2 n g1 = Some x1 /\ iface db2 n g2 = Some x2.
Proof.
  intros Hdb Hc Hne n. destruct (install_two_new (handles fw) g1 x1 g2 x2 Hdb Hc Hne)
    as (db1 & db2 & E1 & E2 & Hdb2 & Hc2 & Hk & H1 & H2). exists db1, db2. unfold install_local.
  rewrite E1. rstep. status_step. split; [done|]. split.
  { intros fw1 ->. fold n in E2. rewrite E2. rstep. by status_step. }
  split; [|done]. split; [done|]. split; [done|]. lia.
Qed.

Lemma install_wrapper_in_room fw bw path : db_ok (handles fw) ->
  (HandleDatabase.protocol_handle_count (handles fw) < HandleDatabase.MAX_HANDLE_STRUCT)%nat ->
  exists db, install_wrapper fw bw path = Done (set_handles fw db) /\ handles_added (handles fw) db 1.
Proof.
  intros Hdb Hc. destruct (install_pair fw BLOCK_IO_GUID (bw + PROTO) DevicePath.PROTOCOL_GUID path Hdb Hc)
    as (db1 & db2 & E1 & E2 & Hadd & _); [apply block_guids_differ|].
  exists db2. split; [|done]. unfold install_wrapper. rewrite E1. rstep. rewrite E2 by done. by rstep.
Qed.

Lemma parts_in_room cb cap todo parts fw rs ws last id q k :
  holds (allocator fw) rs -> db_ok (handles fw) -> mem_ok (mem fw) -> Forall part_ok todo ->
  length ws = 16%nat -> (length parts + length todo <= 15)%nat ->
  (HandleDatabase.protocol_handle_count (handles fw) + length todo <= HandleDatabase.MAX_HANDLE_STRUCT)%nat ->
  spare rs q (length todo + k) -> Z.of_nat (length todo) < q ->
  all_described (mem fw) rs cap parts ws -> last_efi parts id ->
  exists ws' last' id' a' m' db' rs',
    parts_loop cb cap todo (length parts) fw ws last (Some id)
      = Done (ws', last', Some id', set_memory (set_allocator (set_handles fw db') a') m') /\
    holds a' rs' /\ mem_ok m' /\ handles_added (handles fw) db' (length todo) /\ length ws' = 16%nat /\
    spare rs' (q - Z.of_nat (length todo)) k /\ undisturbed 0 0 (mem fw) rs m' rs' /\
    all_described m' rs' cap (parts ++ todo) ws' /\ last_efi (parts ++ todo) id'.
Proof.
  revert parts fw rs ws last id q.
  induction todo as [|p todo IH]; intros parts fw rs ws last id q Ha Hdb Hm Hok Hws Hlen Hn Hr Hq Hd Hid; cbn [parts_loop length] in *.
  { rewrite app_nil_r, Z.sub_0_r. exists ws, last, id, (allocator fw), (mem fw), (handles fw), rs. split; [by destruct fw|].
    do 2 (split; [done|]). split; [|done]. split; [done|]. split; [by intros i g x|lia]. }
  apply Forall_cons in Hok as [Hp Hok].
  destruct (new_in_room cb fw rs cap (Z.of_nat (length parts) + 1) p q (length todo + k) Ha Hp)
    as (bw & a1 & m1 & rs1 & -> & Ha1 & Hr1 & Hu1 & Hm1 & Hw1); [exact Hr|lia|]. rstep.
  rewrite update_lt by lia. rstep. set (fw1 := set_memory _ m1).
  destruct (install_wrapper_in_room fw1 bw (bw + DISK_PATHS)) as (db2 & -> & Hadd2); [done|cbn; lia|]. rstep.
  set (ws2 := <[(length parts + 1)%nat := bw]> ws).
  assert (Hd2 : all_described m1 rs1 cap (parts ++ [p]) ws2).
  { intros j p' Hj. destruct (decide (j = length parts)) as [->|Hne].
    - rewrite list_lookup_middle in Hj by done. injection Hj as <-. exists bw. split; [|done].
      unfold ws2. by rewrite Nat.add_1_r, list_lookup_insert_eq by lia.
    - rewrite lookup_app in Hj. destruct (parts !! j) as [q'|] eqn:Eq.
      + injection Hj as ->. destruct (Hd j p' Eq) as (b & Hb & Hw). exists b. split.
        * unfold ws2. by rewrite list_lookup_insert_ne by lia.
        * eapply wrapper_undisturbed; [exact Hw|exact Hu1|intros; lia].
      + apply lookup_ge_None in Eq. apply lookup_lt_Some in Hj. cbn in Hj. lia. }
  pose proof Hadd2 as (Hdb2 & _ & Hc2). change (handles fw1) with (handles fw) in *.
  destruct (IH (parts ++ [p]) (set_handles fw1 db2) rs1 ws2 (if last <? Part.last_lba p then Part.last_lba p else last)
    (if Part.is_efi_partition p then S (length parts) else id) (q - 1))
    as (ws' & last' & id' & a' & m' & db' & rs' & E & Ha' & Hm' & Hadd & Hl' & Hr' & Hu & Hd' & Hid'); try done;
    cbn [allocator handles mem set_handles fw1 set_memory set_allocator] in *.
  { by apply Hm1. } { unfold ws2. by rewrite length_insert. } { rewrite length_app. cbn. lia. } { lia. } { lia. }
  { by apply last_efi_snoc. }
  rewrite length_app in E. cbn [length] in E. rewrite Nat.add_1_r in E |- *.
  rewrite <- (app_assoc parts [p] todo) in Hd', Hid'.
  exists ws', last', id', a', m', db', rs'. split; [|split; [done|split; [done|split; [|split; [done|split; [|split; [|done]]]]]]].
  - destruct (Part.is_efi_partition p); exact E.
  - exact (handles_added_trans _ _ _ _ _ Hadd2 Hadd).
  - by replace (q - Z.of_nat (S (length todo))) with (q - 1 - Z.of_nat (length todo)) by lia.
  - by eapply undisturbed_trans.
Qed.

(** ** The whole disk, and the volume *)

Lemma dup_in_room fuel fw rs local q k : holds (allocator fw) rs -> mem_ok (mem fw) -> 0 <= local -> local + 10 < 2 ^ 64 ->
  (1 < fuel)%nat -> spare rs q (S k) -> 1 < q ->
  exists b a' m' rs',
    dup_device_path fuel (set_memory fw (store_bytes (mem fw) local (pci_node ++ end_node))) local
      = Done (b, set_memory (set_allocator fw a') m') /\
    holds a' rs' /\ mem_ok m' /\ spare rs' (q - 1) k /\ undisturbed local 10 (mem fw) rs m' rs'.
Proof.
  intros Ha Hm Hl Hw Hf Hr Hq. change 1 with (size_pages 10) in Hq |- *.
  destruct (pages_in_room BootServicesData (allocator fw) rs 10 q k Ha) as (b & a' & rs' & E & Ha' & Hfr & Hr'); [lia|done..|].
  unfold dup_device_path, DevicePath.dup_device_path. cbn [mem set_memory allocator].
  set (m1 := store_bytes (mem fw) local (pci_node ++ end_node)).
  pose proof (disk_path_at (mem fw) local Hl Hw) as Hp. fold m1 in Hp.
  unfold DevicePath.get_device_path_size. rewrite (size_loop_spec fuel m1 local _ _ 0 Hp) by (cbn; lia). rstep.
  change (0 + path_length [mkNode 1 1 6] + nsize (mkNode 127 255 4)) with 10.
  unfold pool_allocate, pool_pages. fold (size_pages 10). rewrite E. rstep. status_step.
  eexists b, a', _, rs'. split; [by destruct fw|]. split; [done|]. split; [by apply mem_ok_copy, mem_ok_store_bytes|]. split; [done|].
  apply (undisturbed_trans _ _ _ rs m1 rs).
  - intros x Hx. split; [done|]. intros Ho. by apply load8_store_bytes_out.
  - apply undisturbed_weaken. eapply fresh_undisturbed; [exact Hfr|]. intros x Hx. by apply copy_bytes_out.
Qed.

Section Populate.
Context {D : Type} `{SectorRead D} (disk : D) (fuel : nat) (cb : Callbacks) (local cap n : Z) (parts : list Part.PartitionEntry).
Hypothesis Hparts : Part.get_partitions disk (replicate 16 no_entry) = Done (Ok n, parts).
Hypothesis Hn : 0 <= n <= 15.
Hypothesis Hlocal : 0 <= local /\ local + 10 < 2 ^ 64.
Hypothesis Hfuel : (1 < fuel)%nat.
Local Abbreviation used := (take (Z.to_nat n) parts).

(** The partitions' wrappers, the whole disk's, and its device path. *)
Lemma populate_in_room fw rs bws q k : holds (allocator fw) rs -> db_ok (handles fw) -> mem_ok (mem fw) ->
  length (wrappers bws) = 16%nat ->
  (HandleDatabase.protocol_handle_count (handles fw) + Z.to_nat n < HandleDatabase.MAX_HANDLE_STRUCT)%nat ->
  spare rs q (Z.to_nat n + (2 + k)) -> n + 2 < q ->
  (forall x, local <= x < local + 10 -> type_at rs x <> LOADER_DATA /\ type_at rs x <> Some Map.CONVENTIONAL) ->
  exists id ws a' m' db' rs',
    populate_block_wrappers fuel cb local fw bws disk cap
      = Done (Some id, mkWrappers ws (Z.to_nat n + 1), set_memory (set_allocator (set_handles fw db') a') m') /\
    holds a' rs' /\ mem_ok m' /\ handles_added (handles fw) db' (Z.to_nat n + 1) /\ length ws = 16%nat /\
    spare rs' (q - (n + 2)) k /\ undisturbed local 10 (mem fw) rs m' rs' /\
    all_described m' rs' cap used ws /\ last_efi used id.
Proof using All.
  intros Ha Hdb Hm Hws Hc Hr Hq Hloc. unfold populate_block_wrappers. rewrite Hparts. rstep.
  destruct (get_partitions_ok _ _ _ _ (no_entries_ok 16) Hparts) as [Hok Hlen]. rewrite length_replicate in Hlen.
  assert (Hl : length used = Z.to_nat n) by (rewrite length_take; lia).
  rewrite (proj2 (Nat.leb_le (Z.to_nat n) 16)) by lia. cbn [assert_]. rstep.
  destruct (parts_in_room cb cap used [] fw rs (wrappers bws) 0 0 q (2 + k))
    as (ws1 & last1 & id & a1 & m1 & db1 & rs1 & E & Ha1 & Hm1 & Hadd1 & Hl1 & Hr1 & Hu1 & Hd1 & Hid);
    rewrite ?Hl; try done; [by apply Forall_take|cbn; lia|lia|lia|by left|]. cbn [length app] in E, Hd1, Hid. rewrite Hl in Hadd1, Hr1.
  rewrite E. rstep. set (fw1 := set_memory _ m1).
  destruct (new_in_room cb fw1 rs1 cap 0 (Part.mkEntry [] (replicate 16 0) 0 last1) (q - Z.of_nat (Z.to_nat n)) (1 + k))
    as (bw & a2 & m2 & rs2 & E2 & Ha2 & Hr2 & Hu2 & Hm2 & _); [done| |done|lia|].
  { constructor; [split; [done|repeat constructor; done]|cbn; lia]. }
  cbn [Part.first_lba Part.last_lba Part.guid] in E2. rewrite E2. rstep. rewrite update_lt by lia. rstep. set (fw2 := set_memory _ m2).
  pose proof Hadd1 as (Hdb1 & _ & Hc1).
  destruct (install_pair fw2 BLOCK_IO_GUID (bw + PROTO)) with (g2 := DevicePath.PROTOCOL_GUID) (x2 := 0) as (db3 & _ & E3 & _); [done| |apply block_guids_differ|].
  { change (handles fw2) with db1. lia. }
  rewrite E3. rstep.
  destruct (dup_in_room fuel (set_handles fw2 db3) rs2 local (q - Z.of_nat (Z.to_nat n) - 1) k) as (b & a4 & m4 & rs4 & E4 & Ha4 & Hm4 & Hr4 & Hu4);
    [done|by apply Hm2|apply Hlocal|apply Hlocal|done|done|lia|].
  rewrite E4. rstep.
  destruct (install_pair fw2 BLOCK_IO_GUID (bw + PROTO) DevicePath.PROTOCOL_GUID b) as (db3' & db5 & E3' & E5 & Hadd5 & _);
    [done|change (handles fw2) with db1; lia|apply block_guids_differ|].
  rewrite E3 in E3'. injection E3' as Edb. assert (db3 = db3') as <-; [exact Edb|]. rewrite E5 by done. rstep.
  exists id, (<[0%nat := bw]> ws1), a4, m4, db5, rs4. split; [done|]. split; [done|]. split; [done|].
  split; [exact (handles_added_trans _ _ _ _ _ Hadd1 Hadd5)|]. split; [by rewrite length_insert|].
  split; [by replace (q - (n + 2)) with (q - Z.of_nat (Z.to_nat n) - 1 - 1) by lia|].
  assert (Hu02 : undisturbed local 10 (mem fw) rs m2 rs2).
  { apply (undisturbed_trans _ _ _ _ m1 rs1); apply undisturbed_weaken; [exact Hu1|exact Hu2]. }
  split; [by eapply undisturbed_trans|]. split; [|done].
  intros j p Hj. destruct (Hd1 j p Hj) as (w & Hw & Hof). exists w. split; [by rewrite list_lookup_insert_ne by lia|].
  eapply wrapper_undisturbed; [|exact Hu4|].
  - eapply wrapper_undisturbed; [exact Hof|exact Hu2|intros; lia].
  - intros x Hx. destruct (Hu02 x) as [T _]; [by apply Hloc|]. rewrite T. by apply Hloc.
Qed.
End Populate.

Section Mount.
Context {D : Type} `{SectorRead D} (L : EfiFile.Layout) (HL : layout_ok L).
Context (disk : D) (fuel : nat) (cb : Callbacks) (local cap n : Z) (parts : list Part.PartitionEntry).
Hypothesis Hparts : Part.get_partitions disk (replicate 16 no_entry) = Done (Ok n, parts).
Hypothesis Hn : 0 <= n <= 15.
Hypothesis Hlocal : 0 <= local /\ local + 10 < 2 ^ 64.
Hypothesis Hfuel : (1 < fuel)%nat.
Local Abbreviation used := (take (Z.to_nat n) parts).

(** The pages the volume takes: a wrapper for each partition and the disk, the disk's
    path, and the file system's object. *)
Definition mount_pages : Z := n + 2 + size_pages (EfiFile.fs_wrapper_size L).

(** The volume of the last EFI partition, mounted: [w] is its object, [bw] the
    partition's wrapper. *)
Lemma mount_in_room check (s : System D) rs bws start last part_id fs q k :
  let fw := firmware s in let i := (HandleDatabase.protocol_handle_count (handles fw) + Z.to_nat n + 1)%nat in
  files_ok L (file_state s) rs -> db_ok (handles fw) -> mem_ok (mem fw) -> length (wrappers bws) = 16%nat ->
  (i < HandleDatabase.MAX_HANDLE_STRUCT)%nat -> Fat.init (Fat.new disk start last part_id) = Done (Ok tt, fs) ->
  spare rs q (Z.to_nat n + 3 + k) -> mount_pages < q ->
  (forall x, local <= x < local + 10 -> type_at rs x <> LOADER_DATA /\ type_at rs x <> Some Map.CONVENTIONAL) ->
  exists id bws' w bw a' m' db' rs',
    mount L check fuel cb local s bws disk cap start last part_id
      = Done (true, bws', mkSystem (set_memory (set_allocator (set_handles fw db') a') m') (<[w := fs]> (volumes s)) (files s)) /\
    holds a' rs' /\ mem_ok m' /\ handles_added (handles fw) db' (Z.to_nat n + 2) /\ spare rs' (q - mount_pages) k /\
    undisturbed local 10 (mem fw) rs m' rs' /\ all_described m' rs' cap used (wrappers bws') /\ last_efi used id /\
    wrappers bws' !! id = Some bw /\ volumes s !! w = None /\
    iface db' i SIMPLE_FILE_SYSTEM_GUID = Some (w + EfiFile.fs_proto L) /\
    iface db' i DevicePath.PROTOCOL_GUID = Some (bw + DISK_PATHS).
Proof using All.
  intros fw i Hs Hdb Hm Hws Hc Hi Hr Hq Hloc. unfold mount. rewrite Hi. rstep.
  pose proof (size_pages_nonneg (EfiFile.fs_wrapper_size L)) as Hpg. unfold mount_pages in *.
  destruct (populate_in_room disk fuel cb local cap n parts Hparts Hn Hlocal Hfuel fw rs bws q (1 + k))
    as (id & ws & a1 & m1 & db1 & rs1 & E1 & Ha1 & Hm1 & Hadd1 & Hl1 & Hr1 & Hu1 & Hd1 & Hid);
    [exact (fk_holds _ _ _ Hs)|done..|subst i; lia| |lia|done|].
  { by replace (Z.to_nat n + (2 + (1 + k)))%nat with (Z.to_nat n + 3 + k)%nat by lia. }
  fold fw. rewrite E1. rstep. cbn [unwrap wrappers]. rstep.
  destruct (lookup_lt_is_Some_2 ws id) as [bw Hbw].
  { apply last_efi_bound in Hid. rewrite length_take in Hid. lia. }
  unfold index. rewrite Hbw. cbn [unwrap]. rstep. set (s1 := set_firmware s _).
  assert (Hs1 : files_ok L (file_state s1) rs1).
  { apply (files_ok_memory L (EfiFile.set_allocator (file_state s) a1) rs1 m1).
    eapply files_ok_types; [exact Hs|exact Ha1|]. intros x Hx. destruct (Hu1 x) as [T _]; [rewrite Hx; apply loader_not_free|].
    by rewrite T. }
  destruct (malloc_in_room a1 rs1 (EfiFile.fs_wrapper_size L) (q - (n + 2)) k Ha1 (HL KVolume))
    as (w & a2 & rs2 & E2 & Ha2 & Hfr & Hr2); [exact Hr1|lia|].
  destruct (new_fresh L HL (file_state s1) rs1 fs w a2 rs2) as (E3 & _ & Hno); [exact Hs1|exact E2|exact Ha2|exact Hfr|].
  unfold file_call. rewrite E3. rstep. cbn [Fat.unwrap_ok]. rstep. set (s2 := from_file_state s1 _).
  pose proof Hadd1 as (Hdb1 & _ & Hc1).
  destruct (install_pair (firmware s2) SIMPLE_FILE_SYSTEM_GUID (w + EfiFile.fs_proto L) DevicePath.PROTOCOL_GUID (bw + DISK_PATHS))
    as (db3 & db4 & E4 & E5 & Hadd4 & Hi1 & Hi2); [exact Hdb1| |apply volume_guids_differ|].
  { change (handles (firmware s2)) with db1. subst i. lia. }
  change (handles (firmware s2)) with db1 in *. rewrite E4. rstep. status_step. cbn [negb]. rewrite andb_false_r.
  rewrite E5 by done. rstep. replace (HandleDatabase.protocol_handle_count db1) with i in Hi1, Hi2 by (subst i; lia).
  assert (Hu2 : undisturbed 0 0 m1 rs1 m1 rs2) by (by eapply fresh_undisturbed).
  exists id, (mkWrappers ws (Z.to_nat n + 1)), w, bw, a2, m1, db4, rs2. split; [done|]. split; [done|]. split; [done|].
  split; [replace (Z.to_nat n + 2)%nat with (Z.to_nat n + 1 + 1)%nat by lia; by eapply handles_added_trans|].
  split; [by replace (q - _) with (q - (n + 2) - size_pages (EfiFile.fs_wrapper_size L)) by lia|].
  split; [eapply undisturbed_trans; [exact Hu1|by apply undisturbed_weaken]|].
  split; [eapply all_described_undisturbed; [exact Hd1|exact Hu2|intros; lia]|]. done.
Qed.
End Mount.
