(* ===== verification/BootLoad.v ===== *)
(** * Booting: the loader is started

    [start_loader], the last part of [enter_uefi]: the application found in the
    firmware volume is loaded through the boot service [load_image] and started.
    The application's code is the parameter [run]. *)

From S2P Require Import Prelude REfi Mem Part Fat Alloc MemMap MapSafety AllocRepr AllocRefine AllocSafety AllocRoom HandleDb Variables Events DevicePath PeLoader PeReloc PeProps FatDemo EfiFile FileProps FileSafety Hob Services ServicesProps ServiceTable EfiBlock BlockProps Image ImageProps Boot BootProps.
Import Services Boot.

(** ** The device path of an image in memory *)

Definition mapped_node : Node := mkNode 1 3 24.
Definition end_node : Node := mkNode 0x7f 0xff 4.

Lemma memory_mapped_bytes image size : length (memory_mapped_path image size) = 28%nat /\ bytes_ok (memory_mapped_path image size).
Proof.
  unfold memory_mapped_path. rewrite !length_app, !length_le_split. split; [done|].
  repeat apply Forall_app_2; try apply le_split_ok; repeat apply Forall_cons_2; try apply Forall_nil_2; unfold is_byte; lia.
Qed.

Lemma memory_mapped_path_at m a image size : 0 <= a -> a + 28 < 2 ^ 64 ->
  path_at (store_bytes m a (memory_mapped_path image size)) a [mapped_node] end_node.
Proof.
  intros H0 H1. destruct (memory_mapped_bytes image size) as [Hl Hb].
  assert (L : forall i b, memory_mapped_path image size !! i = Some b ->
    load8 (store_bytes m a (memory_mapped_path image size)) (a + Z.of_nat i) = b)
    by (intros i b Hi; by apply load8_store_bytes_in).
  set (m' := store_bytes _ _ _) in *. clearbody m'.
  assert (L0 : load8 m' a = 1) by (rewrite <- (Z.add_0_r a); by apply (L 0%nat)).
  pose proof (L 1%nat 3 eq_refl) as L1. pose proof (L 2%nat 24 eq_refl) as L2. pose proof (L 3%nat 0 eq_refl) as L3.
  pose proof (L 24%nat 0x7f eq_refl) as L4. pose proof (L 25%nat 0xff eq_refl) as L5.
  pose proof (L 26%nat 4 eq_refl) as L6. pose proof (L 27%nat 0 eq_refl) as L7.
  cbn [path_at]. unfold node_at, DevicePath.get_device_path_node_type, DevicePath.get_device_path_node_sub_type, DevicePath.get_device_path_node_size,
    mapped_node, end_node. cbn [nsize ntype nsub].
  replace (a + 24 + 1) with (a + Z.of_nat 25) by lia. replace (a + 24 + 2) with (a + Z.of_nat 26) by lia.
  replace (a + 24 + 3) with (a + Z.of_nat 27) by lia. change (a + 24) with (a + Z.of_nat 24).
  change (a + 1) with (a + Z.of_nat 1). change (a + 2) with (a + Z.of_nat 2). change (a + 3) with (a + Z.of_nat 3).
  rewrite L0, L1, L2, L3, L4, L5, L6, L7. split_and!; try done; lia.
Qed.

(** ** The boot service on an image in memory *)

Section Load.
Context {D : Type} `{SectorRead D} (beyond : nat -> Z) (L : EfiFile.Layout).
Context (handle_table system_table unload : Z).
Context (Htable : 0 < handle_table) (Htable' : handle_table + HANDLE_SIZE * 32 < 2 ^ 64).
Context (Hsystem : 0 <= system_table < 2 ^ 64).
Local Abbreviation ptr i := (handle_ptr handle_table (HandleDatabase.Entry i)).

(** There is memory for an image. *)
Definition in_room (rs : list Map.Region) (ns : list Node) (e : Node) (isz : Z) : Prop :=
  exists p, spare rs p 2 /\ image_pages ns e isz < p.

(** The image is loaded and its handle stored, or there was no memory for it. *)
Lemma load_image_from_memory fuel loc (s : System D) rs parent dp src sz isz entry ns e cell :
  let fw := firmware s in let n := HandleDatabase.protocol_handle_count (handles fw) in
  holds (allocator fw) rs -> (forall x, type_at rs x = Some Map.CONVENTIONAL -> x < 2 ^ 63) ->
  db_ok (handles fw) -> (n + 2 <= HandleDatabase.MAX_HANDLE_STRUCT)%nat -> mem_ok (mem fw) ->
  path_at (mem fw) dp ns e -> (length ns < fuel)%nat -> path_length ns + nsize e <= 0x100000 ->
  loadable fuel (mem fw) src sz isz entry ->
  0 <= src < 2 ^ 64 -> 0 < sz < 2 ^ 64 -> 0 <= parent < 2 ^ 64 ->
  (forall x, src <= x < src + sz -> type_at rs x <> Some Map.CONVENTIONAL) ->
  (load32 (mem fw) 0 <> HandleDatabase.HANDLE_SIGNATURE \/ in_room rs ns e isz) -> cell <> 0 ->
  exists st fw', load_image beyond L handle_table system_table unload fuel loc s parent dp src sz cell
      = Done (st, set_firmware s fw') /\ ifaces_kept (handles fw) (handles fw') /\ db_ok (handles fw') /\
    ((st <> Status.SUCCESS /\ handles fw' = handles fw /\ forall p k, spare rs p (2 + k) -> p <= image_pages ns e isz) \/
     (st = Status.SUCCESS /\ exists rs' hnd base m1 m2 m3,
        holds (allocator fw') rs' /\ mem fw' = store64 m3 cell (ptr n) /\
        iface (handles fw') n Image.IMAGE_INFO_GUID = Some hnd /\
        iface (handles fw') n Image.LOADED_IMAGE_GUID = Some (hnd + Image.LOADED_IMAGE) /\
        load32 m3 hnd = Image.IMAGE_INFO_SIGNATURE /\ load64 m3 (hnd + Image.ENTRY_POINT) = base + entry /\
        agree src (src + sz) (mem fw) m1 /\
        PeLoader.peloader_load_image fuel m1 base isz src sz = Done (base + entry, m2) /\
        (forall x, base <= x < base + isz -> type_at rs x = Some Map.CONVENTIONAL /\ load8 m3 x = load8 m2 x) /\
        (forall x, hnd <= x < hnd + Image.IMAGE_INFO_SIZE -> type_at rs x = Some Map.CONVENTIONAL) /\
        (forall x, path_length ns + nsize e <= x -> type_at rs x <> Some Map.CONVENTIONAL -> load8 m3 x = load8 (mem fw) x) /\
        variables fw' = variables fw)).
Proof.
  intros fw n Ha Hlow Hdb Hn Hm Hp Hf Hl Hld Hs Hz Hpar Hsrc H0 Hcell. unfold load_image. fold fw.
  unfold HandleDatabase.locate_protocol. rewrite (locate_from_spec _ Hdb) by lia. rstep.
  destruct (match _ with Some _ => _ | None => _ end) as [st0 x0]. rewrite (proj2 (Z.eqb_neq sz 0)) by lia. rstep.
  destruct (load_image_outcome handle_table system_table unload Htable Htable' Hsystem fuel fw rs parent dp src sz isz entry ns e)
    as (st & h & fw' & rs' & E & Ha' & Hdb' & Hk & Ho); [done..|]. fold fw. rewrite E. rstep.
  destruct Ho as [(-> & -> & Hh & Hw & Hno)|(-> & -> & hnd & base & c & m1 & m2 & Hi1 & Hi2 & _ & _ & _ & Hia & Hag & E3 & Hx & Hinfo & Hkept & Hvar)].
  - destruct H0 as [H0|(p & Hr & Hpp)]; [|specialize (Hno p 0%nat Hr); lia].
    unfold HandleDatabase.handle_protocol. rstep. rewrite Hw, (proj2 (Z.eqb_neq (load32 (mem fw) 0) _)) by done. cbn [negb]. rstep. status_step.
    cbn [andb]. eexists _, _. split; [done|]. cbn [handles set_memory]. split; [done|]. split; [done|]. left. done.
  - pose proof (iface_bound _ _ _ _ Hdb' Hi2) as Hlt.
    rewrite (handle_protocol_spec _ Hdb') by (rewrite (db_len _ Hdb'); done).
    rewrite decide_True by (unfold iface in Hi2; destruct (decide _); [done|discriminate Hi2]).
    fold n in Hi2. fold n. rewrite Hi2. rstep. status_step. rewrite (proj2 (Z.eqb_neq _ _)) by done. cbn [andb negb].
    eexists _, _. split; [done|]. cbn [handles allocator mem set_memory]. split; [done|]. split; [done|]. right. split; [done|].
    exists rs', hnd, base, m1, m2, (mem fw'). split_and!; try done; apply Hia.
Qed.

(** The locals of [enter_uefi] the last part uses. *)
Definition locals (bl : BootLocals) : list (Z * Z) :=
  [(image_path bl, 28); (image_handle_cell bl, 8); (exit_size_cell bl, 8); (exit_data_cell bl, 8)].

(** They are separate memory, not free memory, away from the image's file. *)
Record locals_ok (rs : list Map.Region) (bl : BootLocals) (image size : Z) : Prop := {
  lo_apart : apart_areas (locals bl);
  lo_used : Forall (fun p => forall x, p.1 <= x < p.1 + p.2 -> type_at rs x <> Some Map.CONVENTIONAL) (locals bl);
  lo_image : Forall (fun p => apart p.1 p.2 image size) (locals bl);
  lo_range : Forall (fun p => 4 <= p.1 /\ p.1 + p.2 < 2 ^ 64) (locals bl)
}.

(** The pages asked for: the description of the image, and the image. *)
Definition loader_pages (isz : Z) : Z := image_pages [mapped_node] end_node isz.

(** With the memory the call leaves alone, and what a refusal says of the free memory. *)
Lemma start_loader_outcome fuel bl run (s : System D) rs new_hob image size isz entry :
  let fw := firmware s in let n := HandleDatabase.protocol_handle_count (handles fw) in
  holds (allocator fw) rs -> (forall x, type_at rs x = Some Map.CONVENTIONAL -> x < 2 ^ 63) ->
  db_ok (handles fw) -> (n + 2 <= HandleDatabase.MAX_HANDLE_STRUCT)%nat -> mem_ok (mem fw) ->
  Fv.find_loader fuel fuel (mem fw) new_hob = Done (image, size) -> (1 < fuel)%nat ->
  loadable fuel (mem fw) image size isz entry -> 0 <= image < 2 ^ 64 -> 0 < size < 2 ^ 64 ->
  (forall x, image <= x < image + size -> type_at rs x <> Some Map.CONVENTIONAL) ->
  locals_ok rs bl image size ->
  (load32 (mem fw) 0 <> HandleDatabase.HANDLE_SIGNATURE \/ in_room rs [mapped_node] end_node isz) ->
  let boot := start_loader beyond L handle_table system_table unload fuel bl run s new_hob in
  (exists s', boot = Done s' /\ handles (firmware s') = handles fw /\ volumes s' = volumes s /\ files s' = files s /\
     forall p k, spare rs p (2 + k) -> p <= loader_pages isz) \/
  (exists s1 rs1 hnd base m1 m2,
     boot = ('(_, s2) ← run (base + entry) (ptr n) s1;
             Done (write_memory s2 (fun m => store64 (store64 m (exit_size_cell bl) 0) (exit_data_cell bl) 0))) /\
     volumes s1 = volumes s /\ files s1 = files s /\
     holds (allocator (firmware s1)) rs1 /\ db_ok (handles (firmware s1)) /\
     ifaces_kept (handles fw) (handles (firmware s1)) /\
     iface (handles (firmware s1)) n Image.LOADED_IMAGE_GUID = Some (hnd + Image.LOADED_IMAGE) /\
     agree image (image + size) (mem fw) m1 /\
     PeLoader.peloader_load_image fuel m1 base isz image size = Done (base + entry, m2) /\
     (forall x, base <= x < base + isz ->
       type_at rs x = Some Map.CONVENTIONAL /\ load8 (system_memory s1) x = load8 m2 x) /\
     (forall x, 28 <= x -> type_at rs x <> Some Map.CONVENTIONAL -> outside_areas (locals bl) x ->
       load8 (system_memory s1) x = load8 (mem fw) x) /\
     variables (firmware s1) = variables fw).
Proof.
  intros fw n Ha Hlow Hdb Hn Hm Hfind Hfuel Hld Hi Hz Hsrc [Lap Lused Limg Lrange] H0 boot.
  unfold apart_areas, locals in *. rewrite !Forall_cons in Lused. destruct Lused as (U1 & U2 & U3 & U4 & _).
  rewrite !Forall_cons in Limg. destruct Limg as (I1 & I2 & I3 & I4 & _).
  rewrite !Forall_cons in Lrange. destruct Lrange as (R1 & R2 & R3 & R4 & _). split_areas Lap.
  subst boot. unfold start_loader. change (system_memory s) with (mem fw). rewrite Hfind. rstep.
  destruct (memory_mapped_bytes image size) as [Hlen Hbytes].
  set (s1 := write_memory s _). set (m1 := mem (firmware s1)).
  assert (Em1 : m1 = store64 (store_bytes (mem fw) (image_path bl) (memory_mapped_path image size)) (image_handle_cell bl) 0) by done.
  assert (Hx1 : forall x, x < image_path bl \/ image_path bl + 28 <= x -> x < image_handle_cell bl \/ image_handle_cell bl + 8 <= x ->
    load8 m1 x = load8 (mem fw) x).
  { intros x Hx Hy. rewrite Em1, load8_store_out by lia. apply load8_store_bytes_out. rewrite Hlen. lia. }
  assert (Hag : agree image (image + size) (mem fw) m1) by (intros x Hx; apply Hx1; by_area).
  destruct (load_image_from_memory fuel (load_locals bl) s1 rs 0 (image_path bl) image size isz entry [mapped_node] end_node
    (image_handle_cell bl)) as (st & fw' & E & Hk & Hdb' & Ho); try done; try lia.
  { fold m1. rewrite Em1. by apply mem_ok_store, mem_ok_store_bytes. }
  { fold m1. rewrite Em1. pose proof (memory_mapped_path_at (mem fw) (image_path bl) image size ltac:(lia) ltac:(lia)) as Hp.
    eapply path_at_move; [exact Hp|lia|apply (path_bound _ _ _ _ Hp)|]. cbn [path_length foldr nsize mapped_node end_node].
    intros i Hi'. apply load8_store_out. by_area. }
  { by eapply loadable_agree. }
  { destruct H0 as [H0|H0]; [left|by right]. fold m1. replace (load32 m1 0) with (load32 (mem fw) 0); [done|]. symmetry. apply load_ext. intros x Hx. apply Hx1; lia. }
  rewrite E. rstep. destruct Ho as [(Hst & Hh & Hno)|(-> & rs1 & hnd & base & m2 & m3 & m4 & Ho)].
  { left. destruct (Status.eqb st Status.SUCCESS) eqn:Es; [by apply status_eqb_spec in Es|]. eauto 10. }
  right. destruct Ho as (Ha1 & Em & Hi1 & Hi2 & Hsig & Hent & Hag2 & E3 & Hx & Hinfo & Hkept & Hvar). status_step.
  set (s2 := write_memory (set_firmware s1 fw') _). set (m5 := mem (firmware s2)).
  assert (Em5 : m5 = store64 (store64 (mem fw') (exit_size_cell bl) 0) (exit_data_cell bl) 0) by done.
  (* The image's structures are in memory that was free, the locals are not. *)
  assert (Hfree : forall x, type_at rs x = Some Map.CONVENTIONAL -> load8 m5 x = load8 m4 x).
  { intros x Hc. pose proof (free_outside (type_at rs) _ _ x U2 Hc). pose proof (free_outside (type_at rs) _ _ x U3 Hc).
    pose proof (free_outside (type_at rs) _ _ x U4 Hc). rewrite Em5, Em. by rewrite !load8_store_out by lia. }
  pose proof (handle_at_entry handle_table Htable Htable' m5 n ltac:(lia)) as [Hat Hptr].
  assert (Hcell : load64 m5 (image_handle_cell bl) = ptr n).
  { rewrite Em5, Em, !load_store_out, load_store by by_area. by apply Z.mod_small. }
  unfold Image.start_image. change (system_memory s2) with m5. rewrite Hcell. change (mem (firmware s2)) with m5. rewrite Hat.
  rewrite (start_image_runs handle_table firmware s2 n hnd run).
  2: exact Hdb'. 2: exact Hi1.
  2:{ change (mem (firmware s2)) with m5. etransitivity; [apply load_ext; intros x Hx'; apply Hfree, Hinfo; unfold Image.IMAGE_INFO_SIZE; lia|done]. }
  change (mem (firmware s2)) with m5. replace (load64 m5 (hnd + Image.ENTRY_POINT)) with (base + entry).
  2:{ rewrite <- Hent. symmetry. apply load_ext. intros x Hx'. apply Hfree, Hinfo. unfold Image.IMAGE_INFO_SIZE, Image.ENTRY_POINT in *. lia. }
  exists s2, rs1, hnd, base, m2, m3. split; [|split_and!; try done].
  - destruct (run (base + entry) (ptr n) s2) as [[st s3]| |]; rstep; try done.
    rewrite !(proj2 (Z.eqb_neq _ 0)) by lia. done.
  - by eapply agree_trans.
  - intros x Hx'. change (system_memory s2) with m5. destruct (Hx x Hx') as [Hc <-]. split; [done|]. by apply Hfree.
  - intros x Hlo Ht Ho. unfold outside_areas, locals in Ho. rewrite !Forall_cons in Ho. cbn [fst snd] in Ho.
    destruct Ho as (O1 & O2 & O3 & O4 & _). change (system_memory s2) with m5. rewrite Em5, Em, !load8_store_out by lia.
    rewrite (Hkept x Hlo Ht). by apply Hx1.
Qed.

End Load.

(** The image of [ImageProps] as the payload of a firmware volume, which a HOB list
    at 0xb1000 names. *)
Definition volume_memory : memory :=
  let m := store64 (store64 (store16 (store16 pic_memory 0xb1000 5) 0xb1002 24) 0xb1008 0x8fff90) 0xb1010 0x400 in
  let m := store16 m 0xb1018 0xffff in
  let m := store16 (store32 m 0x8fffb8 Fv.FVH_SIGNATURE) 0x8fffc0 0x48 in
  let m := store32 (store16 m 0x8fffea Fv.FV_FILETYPE_APPLICATION) 0x8fffec 0x1dc in
  store32 (store32 m 0x8ffff0 0x1900000c) 0x8ffffc 0x100001b8.
Example volume_found : Fv.find_loader 9 9 volume_memory 0xb1000 = Done (0x900000, 436).
Proof. vm_compute. reflexivity. Qed.

Definition volume_system : System Ramdisk :=
  mkSystem (mkFw volume_memory demo HandleDatabase.new VariableStore.new EventInfo.new) ∅ ∅.
Definition volume_locals : BootLocals :=
  mkBootLocals (mkLocals 0xb2000 0xb2008 0xb2010 0xb2020 0xb2100 0xb2600) 0xb2700 0xb2800 0xb2900 0xb2a00 0xb2a08 0xb2b00
    0xb2c00 0xb2d00.

Lemma volume_loadable fuel : (0 < fuel)%nat -> loadable fuel volume_memory 0x900000 436 2048 512.
Proof.
  intros Hf. eapply loadable_agree; [by apply pic_loadable|]. intros x Hx. unfold volume_memory.
  by rewrite !load8_store_out by lia.
Qed.

Lemma demo_free x : type_at demo_map x = Some Map.CONVENTIONAL -> x < 0xa0000 \/ 0x200000 <= x < 0x400000.
Proof. intros Hx. destruct (type_at_demo x _ Hx); lia. Qed.

