(* ===== verification/BootFile.v ===== *)
(** * Booting: an application read from the file system

    The boot service [load_image] with a device path instead of a buffer: the file the
    path names is opened through the file protocol, its size asked for, its bytes read
    to the pool, and the image in them loaded.  The theorems join those on the
    allocator, the FAT file system, the file protocol and the image loader. *)

From S2P Require Import Prelude REfi Mem Part EfiStr Fat FatDemo FatTable FatFile FatDir FileRead Alloc MemMap MapSafety AllocRepr AllocRefine AllocSafety AllocRoom HandleDb Variables Events DevicePath PeLoader PeReloc PeProps EfiFile FileProps FileSafety FileInfo Services ServicesProps ServiceTable EfiBlock BlockProps Image ImageProps Boot BootProps BootLoad.
Import Services Boot.

(** ** Memory stays memory *)

Lemma mem_ok_store_units m a us : mem_ok m -> mem_ok (EfiFile.store_units m a us).
Proof. revert m a. induction us as [|u us IH]; intros m a Hm; cbn [EfiFile.store_units]; [done|]. by apply IH, mem_ok_store. Qed.

Lemma info_init_mem_ok beyond m info de max_size r m' : mem_ok m ->
  EfiFile.info_init beyond m info de max_size = Done (r, m') -> mem_ok m'.
Proof.
  intros Hm E. unfold EfiFile.info_init in E. unbind E as ln eqn E1. unbind E as nm eqn E2.
  destruct (_ <? _); [by injection E as <- <-|]. unbind E as u eqn E3. injection E as <- <-.
  by repeat apply mem_ok_store; apply mem_ok_store_units.
Qed.

Section Files.
Context {D : Type} `{SectorRead D} (beyond : nat -> Z) (L : EfiFile.Layout).

Lemma get_info_mem_ok (s : EfiFile.State D) file guid cell info st s' : mem_ok (EfiFile.mem s) ->
  EfiFile.get_info beyond L s file guid cell info = Done (st, s') -> mem_ok (EfiFile.mem s').
Proof.
  intros Hm E. unfold EfiFile.get_info in E. unbind E as fw eqn E1.
  destruct (bool_decide _); [|by injection E as <- <-].
  destruct (_ <? _); [injection E as <- <-; by apply mem_ok_store|].
  unbind E as [r m] eqn E2. apply info_init_mem_ok in E2; [|done].
  destruct r; injection E as <- <-; by apply mem_ok_store.
Qed.

Lemma read_mem_ok (s : EfiFile.State D) fuel file size buf st s' : mem_ok (EfiFile.mem s) ->
  EfiFile.read beyond L fuel s file size buf = Done (st, s') -> mem_ok (EfiFile.mem s').
Proof.
  intros Hm E. unfold EfiFile.read in E. unbind E as fw eqn E1. unbind E as fs eqn E2.
  destruct (Fat.file_type _).
  - unfold EfiFile.read_regular in E. unbind E as f eqn E3. unbind E as [[r out] [? f']] eqn E4.
    destruct r; injection E as <- <-; by apply mem_ok_store, mem_ok_store_bytes.
  - unfold EfiFile.read_directory in E. unbind E as d eqn E3. unbind E as [r d'] eqn E4. destruct r as [de|e].
    + unbind E as [r m] eqn E5. apply info_init_mem_ok in E5; [|done].
      destruct r; injection E as <- <-; by apply mem_ok_store.
    + destruct e; injection E as <- <-; try done. by repeat apply mem_ok_store.
Qed.
End Files.

(** ** Opening files when there is room for their objects *)

Lemma string_at_ext m m' a us : string_at m a us ->
  (forall x, a <= x < a + 2 * (Z.of_nat (length us) + 1) -> load8 m' x = load8 m x) -> string_at m' a us.
Proof.
  intros [Hs Hz] Hx. split.
  - intros i u Hi. rewrite <- (Hs i u Hi). apply lookup_lt_Some in Hi. apply load_ext. intros y Hy. apply Hx. lia.
  - rewrite <- Hz. apply load_ext. intros y Hy. apply Hx. lia.
Qed.

Section Open.
Context {D : Type} `{SectorRead D} (beyond : nat -> Z) (L : EfiFile.Layout).
Context (HL : layout_ok L) (Hproto : 0 <= EfiFile.file_proto L < EfiFile.file_wrapper_size L).
Local Abbreviation object_pages := (size_pages (EfiFile.file_wrapper_size L)).
Local Abbreviation pointer w := (w + EfiFile.file_proto L).

(** The pointer to a new object, stored and taken back. *)
Lemma pointer_back a rs rs' w m cell : holds a rs -> fresh rs rs' w (EfiFile.file_wrapper_size L) ->
  load64 (store64 m cell (pointer w)) cell = pointer w /\
  EfiFile.container_of (pointer w) (EfiFile.file_proto L) = w.
Proof.
  intros Ha Hf. destruct (fresh_bound _ _ _ _ _ _ Ha Hf) as [H1 H2]; [lia|]. split.
  - rewrite load_store. apply Z.mod_small. change (2 ^ (8 * Z.of_nat 8)) with (2 ^ 64). lia.
  - unfold EfiFile.container_of. rewrite wrap_small by lia. lia.
Qed.

Lemma open_volume_in_room (s : EfiFile.State D) rs proto cell fs o p k : files_ok L s rs ->
  let self := EfiFile.container_of proto (EfiFile.fs_proto L) in
  EfiFile.volumes s !! self = Some fs -> Fat.root fs = Ok o -> spare rs p (S k) -> object_pages < p ->
  exists w a' rs',
    let s' := EfiFile.mkState (store64 (EfiFile.mem s) cell (pointer w)) a' (EfiFile.volumes s)
                (<[w := EfiFile.mkWrapper self o]> (EfiFile.files s)) in
    EfiFile.filesystem_open_volumn L s proto cell = Done (Status.SUCCESS, s') /\ files_ok L s' rs' /\
    fresh rs rs' w (EfiFile.file_wrapper_size L) /\ spare rs' (p - object_pages) k.
Proof.
  intros Hs self Hv Ho Hr Hp.
  destruct (create_file_in_room L HL s rs self o p k Hs) as (w & a' & rs' & E & Hs' & _ & Hf & Hr'); [by rewrite Hv|done..|].
  exists w, a', rs'. unfold EfiFile.filesystem_open_volumn. fold self. rewrite Hv. cbn [unwrap]. rstep.
  rewrite Ho, E. rstep. split; [done|]. split; [|done].
  exact (files_ok_memory L _ _ _ Hs').
Qed.

Lemma open_in_room (s : EfiFile.State D) rs fuel file_in cell path_in us fw fs o p k : files_ok L s rs ->
  EfiFile.files s !! EfiFile.container_of file_in (EfiFile.file_proto L) = Some fw ->
  EfiFile.volumes s !! EfiFile.fs_wrapper fw = Some fs ->
  string_at (EfiFile.mem s) path_in us -> Forall path_unit us -> (length us < fuel)%nat ->
  (length (utf8_all us) <= 256)%nat -> utf8_all us <> [0x2e; 0x2e] ->
  Fat.open beyond fuel fs (EfiFile.ofile fw) (utf8_all us) = Done (Ok o) -> spare rs p (S k) -> object_pages < p ->
  exists w a' rs',
    let s' := EfiFile.mkState (store64 (EfiFile.mem s) cell (pointer w)) a' (EfiFile.volumes s)
                (<[w := EfiFile.mkWrapper (EfiFile.fs_wrapper fw) o]> (EfiFile.files s)) in
    EfiFile.open beyond L fuel s file_in cell path_in = Done (Status.SUCCESS, s') /\ files_ok L s' rs' /\
    fresh rs rs' w (EfiFile.file_wrapper_size L) /\ spare rs' (p - object_pages) k.
Proof.
  intros Hs Hw Hv Hstr Hus Hfu Hlen Hdd Ho Hr Hp.
  destruct (create_file_in_room L HL s rs (EfiFile.fs_wrapper fw) o p k Hs) as (w & a' & rs' & E & Hs' & _ & Hf & Hr');
    [by rewrite Hv|done..|].
  exists w, a', rs'. rewrite (open_resolves beyond L s fuel file_in cell path_in us fw fs (Ok o)); try done;
    [|by rewrite decide_True by done..]. rewrite E. rstep. split; [done|]. split; [|done].
  exact (files_ok_memory L _ _ _ Hs').
Qed.
End Open.

(** ** Reading the file a path names *)

(** The locals of [load_image], and memory outside areas. *)
Definition file_locals (loc : Locals) : list (Z * Z) :=
  [(rootfile loc, 8); (desfile loc, 8); (info_id loc, 16); (buffer_size loc, 8); (buffer loc, INFO_BUFFER_SIZE);
   (size_cell loc, 8)].
Definition kept_outside (l : list (Z * Z)) (m m' : memory) : Prop :=
  forall x, outside_areas l x -> load8 m' x = load8 m x.
(** Areas in memory that is not free. *)
Definition areas_used (rs : list Map.Region) (l : list (Z * Z)) : Prop :=
  Forall (fun p => forall x, p.1 <= x < p.1 + p.2 -> type_at rs x <> Some Map.CONVENTIONAL) l.

Section Read.
Context {D : Type} `{SectorRead D} (beyond : nat -> Z) (L : EfiFile.Layout).
Context (HL : layout_ok L) (Hproto : 0 <= EfiFile.file_proto L < EfiFile.file_wrapper_size L).
Local Abbreviation object_pages := (size_pages (EfiFile.file_wrapper_size L)).

(** From the root of the volume the path [us] names the file of entry [e], with
    the sectors [datas]. *)
Record names_file (fuel : nat) (fs : Fat.Filesystem D) (us : list Z) (e : Fat.DirectoryEntry) (cs : list Z)
    (datas : list (list Z)) (nm : list Z) : Prop := {
  nf_units : Forall path_unit us;
  nf_fuel : (length us < fuel)%nat;
  nf_length : (length (utf8_all us) <= 256)%nat;
  nf_parent : utf8_all us <> [0x2e; 0x2e];
  nf_open : exists o, Fat.root fs = Ok o /\
    Fat.open beyond fuel fs o (utf8_all us) =
      Done (Ok (Fat.ofile_new e (Some (Fat.mkFile (Fat.cluster e) (Fat.cluster e) 0 (Fat.size e) 0)) None));
  nf_type : Fat.file_type e = Fat.File_;
  nf_data : file_on beyond fs (Fat.cluster e) (Fat.size e) cs datas;
  nf_sectors : (length datas < fuel)%nat;
  nf_name : entry_named beyond e nm
}.

Lemma file_start fs st sz cs datas : file_on beyond fs st sz cs datas -> file_at fs st sz cs (Fat.mkFile st st 0 sz 0) 0.
Proof. intros Hf. destruct (get_file_at beyond fs st sz cs datas Hf) as (f & [= <-] & Hat). done. Qed.

Lemma file_bytes_length fs st sz cs datas : file_on beyond fs st sz cs datas ->
  Z.of_nat (length (take (Z.to_nat sz) (concat datas))) = sz.
Proof.
  intros Hf. pose proof (File_reader _ _ _ _ _ _ Hf) as Hr. pose proof (reader_concat _ _ _ Hr) as [Hl _].
  pose proof (fo_len _ _ _ _ _ _ Hf). pose proof (fo_size _ _ _ _ _ _ Hf). rewrite length_take, Hl. lia.
Qed.

Lemma file_call_done {A} (s : System D) (f : EfiFile.State D -> res (A * EfiFile.State D)) a st :
  f (file_state s) = Done (a, st) -> file_call s f = Done (a, from_file_state s st).
Proof. intros E. unfold file_call. by rewrite E. Qed.

(** The volume's root and then the file are opened; the file's pointer is in its
    local. *)
Lemma open_named (s : System D) rs fuel root_cell file_cell proto path us fs e cs datas nm p k :
  names_file fuel fs us e cs datas nm -> files_ok L (file_state s) rs ->
  volumes s !! EfiFile.container_of proto (EfiFile.fs_proto L) = Some fs ->
  string_at (system_memory s) path us -> spare rs p (2 + k) -> 2 * object_pages < p ->
  apart root_cell 8 path (2 * (Z.of_nat (length us) + 1)) ->
  exists w s' rs' v,
    ('(_, s) ← file_call s (fun st => EfiFile.filesystem_open_volumn L st proto root_cell);
     file_call s (fun st => EfiFile.open beyond L fuel st (load64 (system_memory s) root_cell) file_cell path))
    = Done (Status.SUCCESS, s') /\
    files_ok L (file_state s') rs' /\ spare rs' (p - 2 * object_pages) k /\
    (forall x, type_at rs x <> Some Map.CONVENTIONAL -> type_at rs' x = type_at rs x) /\
    (forall x, type_at rs' x = Some Map.CONVENTIONAL -> type_at rs x = Some Map.CONVENTIONAL) /\
    EfiFile.container_of (w + EfiFile.file_proto L) (EfiFile.file_proto L) = w /\ 0 <= w + EfiFile.file_proto L < 2 ^ 64 /\
    files s' !! w = Some (EfiFile.mkWrapper (EfiFile.container_of proto (EfiFile.fs_proto L))
      (Fat.ofile_new e (Some (Fat.mkFile (Fat.cluster e) (Fat.cluster e) 0 (Fat.size e) 0)) None)) /\
    volumes s' = volumes s /\ handles (firmware s') = handles (firmware s) /\
    system_memory s' = store64 (store64 (system_memory s) root_cell v) file_cell (w + EfiFile.file_proto L).
Proof.
  intros [Hus Hfu Hlen Hdd (o & Ho & Eo) Hty Hon Hsec Hnm] Hs Hv Hstr Hr Hp Hap.
  assert (H0 : 0 <= object_pages) by (apply Z.div_pos; [apply wrap_range; lia|done]).
  destruct (open_volume_in_room L HL (file_state s) rs proto root_cell fs o p (S k)) as (w1 & a1 & rs1 & E1 & Hs1 & Hf1 & Hr1);
    [done..|lia|].
  destruct (pointer_back L Hproto _ _ _ _ (system_memory s) root_cell (fk_holds _ _ _ Hs) Hf1) as [Hp1 Hc1].
  rewrite (file_call_done s (fun st => EfiFile.filesystem_open_volumn L st proto root_cell) _ _ E1). rstep. set (s1 := from_file_state s _).
  change (system_memory s1) with (store64 (system_memory s) root_cell (w1 + EfiFile.file_proto L)). rewrite Hp1.
  edestruct (open_in_room beyond L HL (file_state s1) rs1 fuel (w1 + EfiFile.file_proto L) file_cell path us) with (p := p - object_pages) (k := k)
    as (w2 & a2 & rs2 & E2 & Hs2 & Hf2 & Hr2); try done.
  { rewrite Hc1. apply lookup_insert_eq. }
  { exact Hv. }
  { eapply string_at_ext; [exact Hstr|]. intros x Hx. apply load8_store_out. by_area. }
  { exact Eo. } { lia. }
  destruct (pointer_back L Hproto _ _ _ _ (system_memory s1) file_cell (fk_holds _ _ _ Hs1) Hf2) as [Hp2 Hc2].
  destruct (fresh_bound _ _ _ _ _ _ (fk_holds _ _ _ Hs1) Hf2) as [Hb1 Hb2]; [lia|].
  erewrite file_call_done by exact E2. eexists w2, _, rs2, _. split; [done|]. split; [exact Hs2|].
  split; [by replace (p - 2 * object_pages) with (p - object_pages - object_pages) by lia|].
  split_and!; try done; try lia.
  - intros x Hx. destruct Hf1 as (_ & _ & F1), Hf2 as (_ & _ & F2). rewrite F2; [by apply F1|]. by rewrite F1.
  - intros x Hx. destruct Hf1 as (_ & _ & F1), Hf2 as (_ & _ & F2). apply dec_stable. intros Hn.
    pose proof (F1 x Hn) as E. rewrite F2 in Hx by congruence. congruence.
  - apply lookup_insert_eq.
Qed.

(** The request for the file's information, laid out in the locals. *)
Definition info_request_at (loc : Locals) (m : memory) : memory :=
  store_bytes (store64 (fill_bytes m (buffer loc) (Z.to_nat INFO_BUFFER_SIZE) 0) (buffer_size loc) INFO_BUFFER_SIZE)
    (info_id loc) (Guid.as_bytes EfiFile.INFO_ID).

Lemma info_request_spec loc m : apart_areas (file_locals loc) -> let m' := info_request_at loc m in
  load_bytes m' (info_id loc) 16 = Guid.as_bytes EfiFile.INFO_ID /\ load64 m' (buffer_size loc) = INFO_BUFFER_SIZE /\
  kept_outside [(info_id loc, 16); (buffer_size loc, 8); (buffer loc, INFO_BUFFER_SIZE)] m m' /\ (mem_ok m -> mem_ok m').
Proof.
  intros Hap. unfold file_locals in Hap. split_areas Hap. unfold info_request_at. set (m1 := fill_bytes _ _ _ _).
  assert (Hm1 : forall x, x < buffer loc \/ buffer loc + INFO_BUFFER_SIZE <= x -> load8 m1 x = load8 m x).
  { intros x Hx. apply fill_bytes_out. rewrite Z2Nat.id by done. done. }
  split_and!.
  - apply (load_bytes_store_bytes _ _ (Guid.as_bytes EfiFile.INFO_ID)).
    by apply (bool_decide_eq_true_1 (Forall (fun b => 0 <= b < 256) _)).
  - etransitivity; [apply load_ext; intros x Hx; apply load8_store_bytes_out; change (length _) with 16%nat; by_area|].
    by rewrite load_store.
  - intros x Hx. unfold outside_areas in Hx. rewrite !Forall_cons in Hx. cbn [fst snd] in Hx. destruct Hx as (X1 & X2 & X3 & _).
    rewrite load8_store_bytes_out by (change (length _) with 16%nat; lia). rewrite load8_store_out by lia. by apply Hm1.
  - intros Hm. by apply mem_ok_store_bytes, mem_ok_store, mem_ok_fill.
Qed.

(** A file just opened is read whole. *)
Lemma read_whole (st : EfiFile.State D) rs fuel file cell src self fs us e cs datas nm :
  let sz := Fat.size e in
  names_file fuel fs us e cs datas nm -> files_ok L st rs -> mem_ok (EfiFile.mem st) ->
  EfiFile.files st !! EfiFile.container_of file (EfiFile.file_proto L) =
    Some (EfiFile.mkWrapper self (Fat.ofile_new e (Some (Fat.mkFile (Fat.cluster e) (Fat.cluster e) 0 sz 0)) None)) ->
  EfiFile.volumes st !! self = Some fs -> load64 (EfiFile.mem st) cell = sz -> 0 < sz -> apart cell 8 src sz ->
  exists st', EfiFile.read beyond L fuel st file cell src = Done (Status.SUCCESS, st') /\
    files_ok L st' rs /\ mem_ok (EfiFile.mem st') /\ EfiFile.volumes st' = EfiFile.volumes st /\
    load_bytes (EfiFile.mem st') src (Z.to_nat sz) = take (Z.to_nat sz) (concat datas) /\
    load64 (EfiFile.mem st') cell = sz /\ kept_outside [(src, sz); (cell, 8)] (EfiFile.mem st) (EfiFile.mem st').
Proof.
  intros sz Hnf Hs Hm Hw Hv Hcell Hsz Hap. destruct Hnf as [_ _ _ _ _ Hty Hon Hsec _].
  pose proof (file_bytes_length fs _ _ _ _ Hon) as Hblen. fold sz in Hblen. set (bytes := take (Z.to_nat sz) (concat datas)) in *.
  assert (Hbytes : take (Z.to_nat sz) (drop (512 * 0) bytes) = bytes) by (cbn [Nat.mul drop]; apply take_ge; lia).
  destruct (read_regular_spec beyond st fuel (EfiFile.container_of file (EfiFile.file_proto L)) cell src
    (EfiFile.mkWrapper self (Fat.ofile_new e (Some (Fat.mkFile (Fat.cluster e) (Fat.cluster e) 0 sz 0)) None)) fs
    (Fat.mkFile (Fat.cluster e) (Fat.cluster e) 0 sz 0) (Fat.cluster e) sz cs datas 0)
    as (st' & f' & E & B & N & K & _ & V & _ & _); [done|exact Hon|by eapply file_start|lia|lia|done|..].
  { rewrite Hcell. fold bytes. rewrite Hbytes. destruct Hap; [left|right]; lia. }
  rewrite Hcell in *. fold bytes in E, B, N, K. rewrite Hbytes in *.
  assert (E' : EfiFile.read beyond L fuel st file cell src = Done (Status.SUCCESS, st')).
  { unfold EfiFile.read. rewrite Hw. cbn [unwrap]. rstep. cbn [EfiFile.fs_wrapper]. rewrite Hv. cbn [unwrap]. rstep.
    cbn [EfiFile.ofile Fat.dir_ent Fat.ofile_new]. rewrite Hty, E. rewrite (proj2 (Nat.eqb_neq _ 0)) by lia. by rewrite andb_false_r. }
  exists st'. split; [done|]. split; [by eapply files_ok_read|]. split; [by eapply read_mem_ok|]. split; [done|].
  split; [by rewrite <- Hblen, Nat2Z.id|]. split; [lia|].
  intros x Hx. unfold outside_areas in Hx. rewrite !Forall_cons in Hx. cbn [fst snd] in Hx. apply K; lia.
Qed.

(** Its information is asked for. *)
Lemma size_named (s : System D) loc fuel file self fs us e cs datas nm :
  let s3 := write_memory s (info_request_at loc) in
  names_file fuel fs us e cs datas nm -> mem_ok (system_memory s) -> apart_areas (file_locals loc) ->
  files s !! EfiFile.container_of file (EfiFile.file_proto L) =
    Some (EfiFile.mkWrapper self (Fat.ofile_new e (Some (Fat.mkFile (Fat.cluster e) (Fat.cluster e) 0 (Fat.size e) 0)) None)) ->
  exists m5,
    file_call s3 (fun st => EfiFile.get_info beyond L st file (info_id loc) (buffer_size loc) (buffer loc)) =
      Done (Status.SUCCESS, from_file_state s3 (EfiFile.set_memory (file_state s3) m5)) /\
    load64 m5 (buffer loc + EfiFile.INFO_FILE_SIZE) = Fat.size e /\ mem_ok m5 /\
    kept_outside [(info_id loc, 16); (buffer_size loc, 8); (buffer loc, INFO_BUFFER_SIZE)] (system_memory s) m5.
Proof.
  intros s3 Hnf Hm Hap Hw. destruct Hnf as [_ _ _ _ _ Hty Hon Hsec Hnm].
  destruct (info_request_spec loc (system_memory s) Hap) as (Hid & Hcell & Hk3 & Hm3). specialize (Hm3 Hm).
  change (info_request_at loc (system_memory s)) with (system_memory s3) in *.
  pose proof (en_length _ _ _ Hnm) as Hl. change Fat.EFI_PATH_STRING_LENGTH with 260%nat in Hl.
  assert (Hinfo : info_size_of nm <= 600) by (unfold info_size_of, EfiFile.INFO_FILE_NAME; lia).
  unfold file_locals in Hap. split_areas Hap.
  edestruct (get_info_fills beyond L (file_state s3) file (info_id loc) (buffer_size loc) (buffer loc)) as (m5 & E5 & Hi5 & _ & K5).
  { exact Hw. } { exact Hnm. } { unfold INFO_BUFFER_SIZE in *. by_area. } { exact Hid. }
  { change (EfiFile.mem (file_state s3)) with (system_memory s3). rewrite Hcell. unfold INFO_BUFFER_SIZE. lia. }
  pose proof (get_info_mem_ok beyond L (file_state s3) _ _ _ _ _ _ Hm3 E5) as Hm5. cbn [EfiFile.mem EfiFile.set_memory] in Hm5.
  exists m5. rewrite (file_call_done s3 _ _ _ E5). split; [done|]. split; [|split; [done|]].
  - rewrite (ia_file_size _ _ _ _ Hi5). cbn [EfiFile.ofile Fat.dir_ent Fat.ofile_new]. unfold EfiFile.info_file_size. by rewrite Hty.
  - intros x Hx. rewrite <- Hk3 by done. unfold outside_areas in Hx. rewrite !Forall_cons in Hx. cbn [fst snd] in Hx.
    apply K5; unfold INFO_BUFFER_SIZE in *; lia.
Qed.

(** Opened, asked for its size, and read to fresh memory of the pool. *)
Lemma read_image_file_outcome (s : System D) rs fuel loc proto path us fs e cs datas nm p k :
  let sz := Fat.size e in
  names_file fuel fs us e cs datas nm -> files_ok L (file_state s) rs -> mem_ok (system_memory s) ->
  volumes s !! EfiFile.container_of proto (EfiFile.fs_proto L) = Some fs -> string_at (system_memory s) path us ->
  apart_areas (file_locals loc) ->
  Forall (fun q => apart q.1 q.2 path (2 * (Z.of_nat (length us) + 1))) (file_locals loc) ->
  areas_used rs (file_locals loc) -> 0 < sz -> spare rs p (3 + k) -> 2 * object_pages + size_pages sz < p ->
  exists src s' rs',
    read_image_file beyond L fuel loc s proto path = Done (Some (src, sz), s') /\
    files_ok L (file_state s') rs' /\ mem_ok (system_memory s') /\
    spare rs' (p - 2 * object_pages - size_pages sz) k /\
    volumes s' = volumes s /\ handles (firmware s') = handles (firmware s) /\
    load_bytes (system_memory s') src (Z.to_nat sz) = take (Z.to_nat sz) (concat datas) /\
    fresh_as BootServicesData rs rs' src sz /\
    kept_outside ((src, sz) :: file_locals loc) (system_memory s) (system_memory s').
Proof.
  intros sz Hnf Hs Hm Hv Hstr Hap Hpath Hused Hsz Hr Hp. pose proof Hap as Hap'. pose proof Hpath as Hpath'.
  unfold file_locals in Hap', Hpath', Hused. unfold areas_used in Hused. rewrite !Forall_cons in Hused.
  destruct Hused as (U1 & U2 & U3 & U4 & U5 & U6 & _). split_areas Hap'.
  unfold read_image_file. set (s0 := write_memory s _).
  set (m0 := system_memory s) in *.
  assert (Em0 : system_memory s0 = store64 (store64 m0 (rootfile loc) 0) (desfile loc) 0) by done.
  destruct (open_named s0 rs fuel (rootfile loc) (desfile loc) proto path us fs e cs datas nm p (S k))
    as (w & s2 & rs2 & v & E & Hs2 & Hr2 & T2 & C2 & Hc2 & Hw2 & Hf2 & Hv2 & Hh2 & Em2); try done.
  { by apply (files_ok_memory L (file_state s)). }
  { rewrite Em0. eapply string_at_ext; [exact Hstr|]. intros x Hx. rewrite !load8_store_out by by_area. done. }
  { pose proof (Z.div_pos (usize (usize (sz + Alloc.PAGE_SIZE) - 1)) Alloc.PAGE_SIZE).
    assert (0 <= size_pages sz) by (apply Z.div_pos; [apply wrap_range; lia|done]). lia. }
  unbind E as [st1 s1] eqn E1. rewrite E1. rstep. rewrite E. rstep.
  assert (Hm2 : mem_ok (system_memory s2)) by (rewrite Em2, Em0; by repeat apply mem_ok_store).
  set (file := w + EfiFile.file_proto L) in *.
  destruct (info_request_spec loc (system_memory s2) Hap) as (_ & _ & Hk3 & _).
  set (s3 := write_memory s2 _). change (info_request_at loc (system_memory s2)) with (system_memory s3) in *.
  assert (Hfile : load64 (system_memory s3) (desfile loc) = file).
  { etransitivity; [apply load_ext; intros x Hx; apply Hk3; repeat apply Forall_cons_2; try apply Forall_nil_2; cbn [fst snd]; by_area|].
    rewrite Em2, load_store. by apply Z.mod_small. }
  rewrite Hfile. destruct (size_named s2 loc fuel file (EfiFile.container_of proto (EfiFile.fs_proto L)) fs us e cs datas nm)
    as (m5 & E5 & Hsize & Hm5 & K5); [exact Hnf|exact Hm2|exact Hap|rewrite Hc2; exact Hf2|].
  change (write_memory s2 (info_request_at loc)) with s3 in E5. rewrite E5. rstep. set (s5 := from_file_state s3 _).
  change (system_memory s5) with m5. rewrite Hsize. fold sz. pose proof (nf_data _ _ _ _ _ _ _ Hnf) as Hon.
  pose proof (fo_size _ _ _ _ _ _ Hon) as Hszb. fold sz in Hszb.
  destruct (pages_in_room BootServicesData (EfiFile.allocator (file_state s2)) rs2 sz (p - 2 * object_pages) k (fk_holds _ _ _ Hs2))
    as (src & a6 & rs6 & E6 & Ha6 & Hf6 & Hr6); [lia|done|lia|].
  unfold pool_local, pool_allocate, pool_pages. fold (size_pages sz). change (allocator (firmware s5)) with (EfiFile.allocator (file_state s2)).
  rewrite E6. rstep. status_step. rstep. set (s7 := write_memory _ _). set (m7 := store64 m5 (size_cell loc) sz).
  assert (Hfresh : fresh_as BootServicesData rs rs6 src sz).
  { destruct Hf6 as (F1 & F2 & F3). split; [done|]. split.
    - intros x Hx. destruct (F2 x Hx) as [Hx1 Hx2]. split; [by apply C2|done].
    - intros x Hx. rewrite F3; rewrite T2 by done; done. }
  assert (Hs7 : files_ok L (file_state s7) rs6).
  { apply (files_ok_memory L (EfiFile.set_allocator (file_state s2) a6) rs6 m7). eapply files_ok_types; [exact Hs2|done|].
    intros x Hx. destruct Hf6 as (_ & _ & F3). rewrite F3; [done|]. rewrite Hx. apply loader_not_free. }
  assert (Hcell7 : load64 m7 (size_cell loc) = sz).
  { unfold m7. rewrite load_store. apply Z.mod_small. change (2 ^ (8 * Z.of_nat 8)) with (2 ^ 64). lia. }
  pose proof (fresh_apart _ _ _ _ _ (size_cell loc) 8 Hfresh Hsz ltac:(lia) U6) as Hapart.
  destruct (read_whole (file_state s7) rs6 fuel file (size_cell loc) src (EfiFile.container_of proto (EfiFile.fs_proto L)) fs us e cs datas nm)
    as (st8 & E8 & Hs8 & Hm8 & Hv8 & B8 & N8 & K8);
    [exact Hnf|exact Hs7|by apply (mem_ok_store 8 m5)|rewrite Hc2; exact Hf2| |exact Hcell7|exact Hsz|exact Hapart|].
  { change (volumes s2 !! EfiFile.container_of proto (EfiFile.fs_proto L) = Some fs). rewrite Hv2. exact Hv. }
  rewrite (file_call_done s7 _ _ _ E8). rstep.
  exists src, (from_file_state s7 st8), rs6. change (system_memory (from_file_state s7 st8)) with (EfiFile.mem st8).
  rewrite N8. split; [reflexivity|]. split; [by destruct st8|]. split; [exact Hm8|]. split; [exact Hr6|].
  split; [etransitivity; [exact Hv8|exact Hv2]|]. split; [exact Hh2|]. split; [exact B8|]. split; [exact Hfresh|].
  intros x Hx. unfold outside_areas, file_locals in Hx. rewrite !Forall_cons in Hx. cbn [fst snd] in Hx.
  destruct Hx as (X0 & X1 & X2 & X3 & X4 & X5 & X6 & _).
  rewrite K8 by (repeat apply Forall_cons_2; try apply Forall_nil_2; cbn [fst snd]; assumption).
  change (EfiFile.mem (file_state s7)) with m7. unfold m7. rewrite load8_store_out by lia.
  rewrite K5 by (repeat apply Forall_cons_2; try apply Forall_nil_2; cbn [fst snd]; assumption).
  rewrite Em2, Em0. by rewrite !load8_store_out by lia.
Qed.
End Read.

(** ** The boot service on a device path *)

(** Bytes that are a loadable image wherever they lie in memory. *)
Definition loadable_bytes (fuel : nat) (bytes : list Z) (isz entry : Z) : Prop :=
  forall m a, mem_ok m -> 0 < a -> a + Z.of_nat (length bytes) <= 2 ^ 62 -> load_bytes m a (length bytes) = bytes ->
    loadable fuel m a (Z.of_nat (length bytes)) isz entry.

Section Load.
Context {D : Type} `{SectorRead D} (beyond : nat -> Z) (L : EfiFile.Layout).
Context (HL : layout_ok L) (Hproto : 0 <= EfiFile.file_proto L < EfiFile.file_wrapper_size L).
Context (handle_table system_table unload : Z).
Context (Htable : 0 < handle_table) (Htable' : handle_table + HANDLE_SIZE * 32 < 2 ^ 64).
Context (Hsystem : 0 <= system_table < 2 ^ 64).
Local Abbreviation object_pages := (size_pages (EfiFile.file_wrapper_size L)).
Local Abbreviation ptr i := (handle_ptr handle_table (HandleDatabase.Entry i)).

(** Once the file is read, the service goes on as with a buffer. *)
Lemma load_image_reads fuel loc (s : System D) parent dp buf cell proto path src sz s1 :
  HandleDatabase.locate_protocol (handles (firmware s)) SIMPLE_FILE_SYSTEM_GUID = Done (Status.SUCCESS, proto) ->
  DevicePath.get_file_path_media_device_path fuel (system_memory s) dp = Done (Some path) ->
  read_image_file beyond L fuel loc s proto path = Done (Some (src, sz), s1) ->
  handles (firmware s1) = handles (firmware s) -> sz <> 0 ->
  load_image beyond L handle_table system_table unload fuel loc s parent dp buf 0 cell =
  load_image beyond L handle_table system_table unload fuel loc s1 parent dp src sz cell.
Proof.
  intros Hl Hn Hr Hh Hsz. unfold load_image. rewrite Hh, Hl. rstep. rewrite Z.eqb_refl, Hn. rstep. status_step.
  rewrite Hr. rstep. by rewrite (proj2 (Z.eqb_neq sz 0)).
Qed.

(** The device path, with the name in it, is memory in use, apart from the locals. *)
Record path_kept (rs : list Map.Region) (loc : Locals) (dp total path : Z) (us : list Z) : Prop := {
  pk_inside : dp <= path /\ path + 2 * (Z.of_nat (length us) + 1) <= dp + total;
  pk_apart : Forall (fun q => apart q.1 q.2 dp total) (file_locals loc);
  pk_used : forall x, dp <= x < dp + total -> type_at rs x <> Some Map.CONVENTIONAL
}.

End Load.

(** ** An application on a FAT32 volume *)

(** The image of [ImageProps] as bytes. *)
Definition pic_bytes : list Z := Eval vm_compute in load_bytes pic_memory 0x900000 436.

Lemma load_bytes_part m a i n k : (i + n <= k)%nat -> load_bytes m (a + Z.of_nat i) n = take n (drop i (load_bytes m a k)).
Proof.
  intros Hk. replace k with (i + (n + (k - i - n)))%nat by lia. rewrite !load_bytes_app.
  rewrite drop_app_length' by (by rewrite length_load_bytes). by rewrite take_app_length' by (by rewrite length_load_bytes).
Qed.

(** Fields of the image at [a], computed from its bytes. *)
Ltac fields a := repeat match goal with
  | H : load_bytes ?m a 436 = pic_bytes |- context [load ?k ?m ?x] =>
      let f := eval pattern a in x in
      match f with ?g _ =>
        let i := eval vm_compute in (Z.to_nat (g 0)) in
        let v := eval vm_compute in (le_combine (take k (drop i pic_bytes))) in
        replace (load k m x) with v by (unfold load; replace x with (a + Z.of_nat i) by lia;
          rewrite (load_bytes_part m a i k 436) by lia; rewrite H; vm_compute; reflexivity)
      end
  end.

Lemma pic_loadable_bytes fuel : (0 < fuel)%nat -> loadable_bytes fuel pic_bytes 2048 512.
Proof.
  intros Hf m a Hm Ha Hw Hb. change (Z.of_nat (length pic_bytes)) with 436 in *. change (length pic_bytes) with 436%nat in Hb.
  assert (E : PeLoader.address_of_entry_point m (a + 64) = 512) by (unfold PeLoader.address_of_entry_point; fields a; done).
  assert (Ho : PeLoader.size_of_optional_header m (a + 64) = 240) by (unfold PeLoader.size_of_optional_header; fields a; done).
  assert (Hh : header_size a m (a + 64) demo_sections = 408).
  { unfold header_size, PeLoader.OPTIONAL_HEADER_OFFSET, PeLoader.SECTION_HEADER_SIZE. rewrite Ho. cbn [length demo_sections]. lia. }
  rewrite <- E. apply (loadable_fixed fuel m a 436 (a + 64) demo_sections 2048); try done; try lia.
  - constructor; rewrite ?Ho; unfold PeLoader.e_lfanew, PeLoader.number_of_sections; fields a; try done.
    { unfold PeLoader.NT_HEADER_SIZE. lia. }
    unfold PeLoader.OPTIONAL_HEADER_OFFSET. cbn [sections_at demo_sections s_vs s_va s_rs s_rp].
    unfold PeLoader.virtual_size, PeLoader.virtual_address, PeLoader.size_of_raw_data, PeLoader.pointer_to_raw_data,
      PeLoader.SECTION_HEADER_SIZE. fields a. done.
  - apply Forall_cons_2; [|apply Forall_cons_2; [|done]]; by vm_compute.
  - rewrite Hh. cbn [ordered demo_sections s_va s_rs]. lia.
  - unfold PeLoader.peloader_get_image_info. unfold PeLoader.e_magic, PeLoader.e_lfanew. fields a.
    unfold PeLoader.DOS_HEADER_SIZE, PeLoader.NT_HEADER_SIZE. rewrite !wrap_small by (norm_pow; lia).
    rewrite !(proj2 (Z.ltb_ge _ _)) by lia.
    unfold PeLoader.signature, PeLoader.machine, PeLoader.magic, PeLoader.size_of_image. fields a. reflexivity.
  - unfold PeLoader.directory_size, PeLoader.IMAGE_DIRECTORY_ENTRY_BASERELOC. fields a. reflexivity.
Qed.

(** A volume whose root directory has one file, "APP", with the image. *)
Definition path_app : list Z := [0x41; 0x50; 0x50].
Definition app_disk : Ramdisk := Eval vm_compute in list_to_map
  [ (0, boot_sector 1 1 1 0 0 0 70000 (le_split 4 547 ++ replicate 4 0 ++ le_split 4 2));
    (1, pad (concat (map (le_split 4) [0x0ffffff8; 0x0fffffff; 0x0fffffff; 0x0fffffff; 0x0fffffff])));
    (548, pad (dir_record (path_app ++ replicate 8 32) 0x20 4 436)); (550, pad pic_bytes) ].
Definition app_fs : Fat.Filesystem Ramdisk := Eval vm_compute in default empty_fs (mounted app_disk).
Definition app_root : Fat.OFileDirectory :=
  match Fat.root app_fs with Ok o => o | Err _ => Fat.ofile_new (Fat.root_entry 0) None None end.
Definition app_entry : Fat.DirectoryEntry := Eval vm_compute in
  match Fat.open zeros 18 app_fs app_root path_app with Done (Ok f) => Fat.dir_ent f | _ => Fat.root_entry 0 end.

Lemma app_file_on : file_on zeros app_fs 4 436 [4] [pad pic_bytes].
Proof.
  constructor; [|done|lia|cbn [length]; lia]. constructor.
  - cbn. lia.
  - intros [|q] c c' Hc Hc'; [|destruct q; discriminate]. discriminate.
  - intros [|q] c Hc; [|destruct q; discriminate]. injection Hc as <-. vm_compute. reflexivity.
  - intros q so data Hso Hd. change (spc app_fs) with 1%nat in *.
    replace so with 0%nat in * by lia. rewrite Nat.mul_1_r, Nat.add_0_r in Hd.
    destruct q as [|q]; [|destruct q; discriminate]. injection Hd as <-. eexists. split; [reflexivity|vm_compute; reflexivity].
Qed.

Lemma app_named : names_file zeros 18 app_fs path_app app_entry [4] [pad pic_bytes] path_app.
Proof.
  constructor.
  - repeat apply Forall_cons_2; try apply Forall_nil_2; unfold path_unit; cbn; lia.
  - cbn. lia.
  - vm_compute. lia.
  - discriminate.
  - exists app_root. split; [reflexivity|]. vm_compute. reflexivity.
  - reflexivity.
  - apply app_file_on.
  - cbn. lia.
  - constructor; [eexists; split; vm_compute; reflexivity| | |vm_compute; split; [discriminate|reflexivity]..].
    + vm_compute. lia.
    + repeat apply Forall_cons_2; try apply Forall_nil_2; lia.
Qed.

(** The volume mounted, its protocol on a handle, and a device path with the name. *)
Definition app_db : HandleDatabase.t :=
  match HandleDatabase.install_protocol HandleDatabase.new HandleDatabase.Null SIMPLE_FILE_SYSTEM_GUID (0x200000 + 136) with
  | Done (_, db) => db
  | _ => HandleDatabase.new
  end.
Definition app_path : list Node := [mkNode 4 4 12].
Definition app_memory : memory :=
  store_bytes ∅ 0xa00000 [4; 4; 12; 0; 0x41; 0; 0x50; 0; 0x50; 0; 0; 0; 0x7f; 0xff; 4; 0].
Definition app_locals : Locals := mkLocals 0xb00000 0xb00008 0xb00010 0xb00020 0xb00100 0xb00800.
Definition app_system (a : Alloc.Allocator) : System Ramdisk :=
  mkSystem (mkFw app_memory a app_db VariableStore.new EventInfo.new) {[0x200000 := app_fs]} ∅.

Lemma app_db_ok : db_ok app_db.
Proof.
  unfold app_db. destruct (install_new HandleDatabase.new SIMPLE_FILE_SYSTEM_GUID (0x200000 + 136) new_db_ok)
    as (db' & -> & Hdb & _); [vm_compute; lia|done].
Qed.

Lemma app_system_ok a : holds a demo_pages -> files_ok demo_layout (file_state (app_system a)) demo_pages.
Proof.
  intros Ha. assert (Hob : forall k w, object (file_state (app_system a)) k w -> (k, w) = (KVolume, 0x200000)).
  { intros [] w; cbn; intros [x Hx]; [by rewrite lookup_empty in Hx|]. by apply lookup_singleton_Some in Hx as [<- _]. }
  constructor; [done|..].
  - intros k w x Hk Hx. apply demo_pages_loader. apply Hob in Hk as [= -> ->]. cbn in Hx. lia.
  - intros k w k' w' Hk Hk' Hne. by rewrite (Hob _ _ Hk), (Hob _ _ Hk') in Hne.
  - intros w fw Hw. cbn in Hw. by rewrite lookup_empty in Hw.
Qed.

Lemma demo_pages_low x t : type_at demo_pages x = Some t -> x < 0x400000.
Proof.
  intros Hx. unfold demo_pages in Hx. cbn [type_at] in Hx.
  repeat match type of Hx with (if ?b then _ else _) = _ => destruct b eqn:?H end; [..|done].
  all: unfold contains in *; cbn [Map.rstart] in *; unfold Map.rend, Alloc.PAGE_SIZE in *;
    cbn [Map.rstart Map.rpages] in *; bool_to_prop; lia.
Qed.

