(* ===== verification/BootEnd.v ===== *)
(** * Booting, from the entry of [enter_uefi] to the application

    The three parts of [enter_uefi] composed: with room in the memory map the HOB
    list describes, a disk with an EFI partition and a loadable image in a firmware
    volume, the firmware hands over to the image once, and what the image finds then
    is what each part promised, undisturbed by the parts after it. *)

From S2P Require Import Prelude REfi Mem Part Fat Alloc MemMap MapSafety AllocRepr AllocRefine AllocSafety AllocRoom HandleDb Variables Events DevicePath PeLoader PeReloc PeProps FatDemo EfiFile FileProps FileSafety Hob HobProps FvProps Services ServicesProps ServiceTable EfiBlock BlockProps Image ImageProps Boot BootProps BootMount BootRoom BootLoad.
Import Services Boot.

(** Bytes that agree where the table's cells are give the same table. *)
Lemma table_filled_frame ht st sv m m' n : (forall x, st <= x < st + 120 \/ stdout sv + STDOUT_MODE <= x < stdout sv + STDOUT_MODE + 8 \/
    boot_services sv + INSTALL_MULTIPLE <= x < boot_services sv + INSTALL_MULTIPLE + 16 -> load8 m' x = load8 m x) ->
  table_filled ht st sv m n -> table_filled ht st sv m' n.
Proof.
  intros H []. constructor; table_offsets; (etransitivity; [apply load_ext; intros x Hx; apply H; lia|done]).
Qed.

(** At the entry of the firmware no volume is mounted and no file open. *)
Lemma nothing_open {D} (L : EfiFile.Layout) (s : System D) rs : holds (allocator (firmware s)) rs -> volumes s = ∅ -> files s = ∅ ->
  files_ok L (file_state s) rs.
Proof.
  intros Ha Hv Hf. assert (Hob : forall k w, ~ object (file_state s) k w).
  { intros [] w; cbn; rewrite ?Hv, ?Hf, lookup_empty; by intros [? ?]. }
  constructor; [done|..].
  - intros k w x Hk. by destruct (Hob k w).
  - intros k w k' w' Hk. by destruct (Hob k w).
  - intros w fw Hw. cbn in Hw. by rewrite Hf, lookup_empty in Hw.
Qed.

Section End.
Context {D : Type} `{SectorRead D} (beyond : nat -> Z) (L : EfiFile.Layout) (HL : layout_ok L).
Context (handle_table system_table unload : Z).
Context (Htable : 0 < handle_table) (Htable' : handle_table + HANDLE_SIZE * 32 < 2 ^ 64).
Context (Hsystem : 0 <= system_table < 2 ^ 64).
Context (sv : Statics) (bl : BootLocals).
Local Abbreviation ptr i := (handle_ptr handle_table (HandleDatabase.Entry i)).

(** The statics and locals the firmware writes to, and the list it reads. *)
Definition boot_locals : list (Z * Z) := (disk_path bl, 10) :: locals bl.
Definition boot_areas (hob stop : Z) : list (Z * Z) := areas system_table sv bl hob stop ++ boot_locals.

(** The firmware and its memory at the entry: [l] is the HOB list at [hob]. *)
Record firmware_ready (s : System D) (hob stop : Z) (l : list Record_) : Prop := {
  fr_allocator : allocator (firmware s) = Alloc.new;
  fr_closed : volumes s = ∅ /\ files s = ∅;
  fr_handles : db_ok (handles (firmware s));
  fr_variables : store_ok (variables (firmware s)) /\ VariableStore.variable_count (variables (firmware s)) < 64;
  fr_memory : mem_ok (mem (firmware s));
  fr_list : handoff_list (mem (firmware s)) hob l stop /\ sound_list l /\ 0 <= hob /\ stop < 2 ^ 63;
  fr_apart : apart_areas (boot_areas hob stop);
  fr_range : Forall (fun p => 28 <= p.1 /\ p.1 + p.2 < 2 ^ 64) (boot_areas hob stop);
  fr_used : Forall (fun p => forall x, p.1 <= x < p.1 + p.2 ->
    listed_type l x <> Some Map.CONVENTIONAL /\ listed_type l x <> LOADER_DATA) (boot_areas hob stop);
  fr_high : forall x, listed_type l x = Some Map.CONVENTIONAL -> x < 2 ^ 63;
  fr_statics : statics_ok sv /\ lang_data bl <> 0;
  fr_cells : forall c, c ∈ handle_cells -> load64 (mem (firmware s)) (system_table + c) = 0
}.

(** The list's firmware volumes, in memory of their own, with a loadable image. *)
Record payload_ready (fuel : nat) (m : memory) (hob stop : Z) (l : list Record_) (vfiles : Z -> list FvProps.File_)
    (image size isz entry : Z) : Prop := {
  pr_volumes : forall base len, Volume base len ∈ l -> well_formed m fuel (vfiles base) base len /\ 50 <= len /\ 28 <= base /\
    (forall x, base <= x < base + len -> listed_type l x <> Some Map.CONVENTIONAL) /\
    Forall (fun p => apart p.1 p.2 base len) (boot_areas hob stop);
  pr_first : first_image m vfiles l = Some (image, size);
  pr_size : 0 < size;
  pr_loadable : loadable fuel m image size isz entry
}.

(** The disk: its [n] partitions, the first EFI partition among them, and the file
    system on it. *)
Record disk_ready (disk : D) (n : Z) (parts : list Part.PartitionEntry) (fs : Fat.Filesystem D) : Prop := {
  dr_parts : Part.get_partitions disk (replicate 16 EfiBlock.no_entry) = Done (Ok n, parts);
  dr_count : 0 <= n <= 15;
  dr_mounts : exists start last part_id, Part.find_efi_partition disk = Ok (start, last, part_id) /\
    Fat.init (Fat.new disk start last part_id) = Done (Ok tt, fs)
}.

(** What the application finds: the table, the consoles, the HOB list, the
    variable, and the EFI volume [w] with the wrapper [bw] of the last EFI partition. *)
Record handed_over (s s1 : System D) (hob stop : Z) (l : list Record_) (cap : Z) (fs : Fat.Filesystem D)
    (used : list Part.PartitionEntry) : Prop := {
  ho_table : table_filled handle_table system_table sv (system_memory s1)
    (HandleDatabase.protocol_handle_count (handles (firmware s)));
  ho_consoles : consoles_installed sv (handles (firmware s1)) (HandleDatabase.protocol_handle_count (handles (firmware s)));
  ho_handles : db_ok (handles (firmware s1)) /\ ifaces_kept (handles (firmware s)) (handles (firmware s1));
  ho_list : exists new_hob, load_bytes (system_memory s1) (configuration_table sv) 16 = Guid.as_bytes HOB_LIST_GUID /\
    load64 (system_memory s1) (configuration_table sv + 16) = new_hob /\
    handoff_list (system_memory s1) new_hob l (new_hob + (stop - hob));
  ho_variable : exists d, VariableStore.get_variable (variables (firmware s1)) platform_lang_name global_guid
    = Done (Status.SUCCESS, 7, 3, Some d) /\ take 3 d = [0x65; 0x6e; 0x00];
  ho_volume : exists w bw id i, volumes s1 = {[w := fs]} /\ files s1 = ∅ /\
    iface (handles (firmware s1)) i SIMPLE_FILE_SYSTEM_GUID = Some (w + EfiFile.fs_proto L) /\
    iface (handles (firmware s1)) i DevicePath.PROTOCOL_GUID = Some (bw + EfiBlock.DISK_PATHS) /\
    last_efi used id /\ forall j p, id = S j -> used !! j = Some p ->
      wrapper_at (system_memory s1) bw (u64 (cap - 1)) (Z.of_nat j + 1) (Part.first_lba p) (Part.last_lba p) (Part.guid p)
}.

(** ** Up to the loader *)

(** The system when the loader's turn has come, with all it may rely on: [rs] is the
    memory map then. *)
Record mounted (s s2 : System D) (hob stop : Z) (l : list Record_) (cap : Z) (fs : Fat.Filesystem D)
    (used : list Part.PartitionEntry) (rs : list Map.Region) (new_hob w bw : Z) (id i : nat) (d : list Z) : Prop := {
  mt_holds : holds (allocator (firmware s2)) rs;
  mt_memory : mem_ok (system_memory s2);
  mt_handles : handles_added (handles (firmware s)) (handles (firmware s2)) (length used + 5);
  mt_types : forall x, listed_type l x <> Some Map.CONVENTIONAL -> type_at rs x = listed_type l x;
  mt_kept : forall x, listed_type l x <> Some Map.CONVENTIONAL -> outside_areas (boot_areas hob stop) x ->
    load8 (system_memory s2) x = load8 (system_memory s) x;
  mt_table : table_filled handle_table system_table sv (system_memory s2)
    (HandleDatabase.protocol_handle_count (handles (firmware s)));
  mt_consoles : consoles_installed sv (handles (firmware s2)) (HandleDatabase.protocol_handle_count (handles (firmware s)));
  mt_guid : load_bytes (system_memory s2) (configuration_table sv) 16 = Guid.as_bytes HOB_LIST_GUID;
  mt_pointer : load64 (system_memory s2) (configuration_table sv + 16) = new_hob;
  mt_list : handoff_list (system_memory s2) new_hob l (new_hob + (stop - hob));
  mt_list_used : 0x100000 < new_hob /\ forall x, new_hob <= x < new_hob + (stop - hob) ->
    listed_type l x = Some Map.CONVENTIONAL /\ type_at rs x = Some (memory_type_u32 BootServicesData);
  mt_variable : VariableStore.get_variable (variables (firmware s2)) platform_lang_name global_guid
    = Done (Status.SUCCESS, 7, 3, Some d) /\ take 3 d = [0x65; 0x6e; 0x00];
  mt_volume : volumes s2 = {[w := fs]} /\ files s2 = ∅;
  mt_protocols : iface (handles (firmware s2)) i SIMPLE_FILE_SYSTEM_GUID = Some (w + EfiFile.fs_proto L) /\
    iface (handles (firmware s2)) i DevicePath.PROTOCOL_GUID = Some (bw + EfiBlock.DISK_PATHS);
  mt_partition : last_efi used id;
  mt_wrapper : forall j p, id = S j -> used !! j = Some p ->
    wrapper_of (system_memory s2) rs bw (u64 (cap - 1)) (Z.of_nat j + 1) p
}.

Lemma in_boot_areas hob stop P : Forall P (boot_areas hob stop) -> Forall P (areas system_table sv bl hob stop) /\
  P (disk_path bl, 10) /\ Forall P (locals bl).
Proof. intros Hf. apply Forall_app in Hf as [H1 Hf]. by apply Forall_cons in Hf as [H2 H3]. Qed.

Lemma apart_boot_areas hob stop : apart_areas (boot_areas hob stop) -> apart_areas (areas system_table sv bl hob stop) /\
  Forall (fun p => Forall (fun r => apart p.1 p.2 r.1 r.2) boot_locals) (areas system_table sv bl hob stop) /\
  apart_areas (locals bl) /\ Forall (fun r => apart (disk_path bl) 10 r.1 r.2) (locals bl).
Proof.
  unfold boot_areas. induction (areas system_table sv bl hob stop) as [|a al IH]; cbn [app]; intros Hap.
  - apply ordpairs_inv in Hap as [H1 H2]. split; [constructor|]. split; [constructor|done].
  - apply ordpairs_inv in Hap as [H1 H2]. apply Forall_app in H1 as [H1 H1']. destruct (IH H2) as (I1 & I2 & I3).
    split; [by constructor|]. split; [by constructor|done].
Qed.

Lemma mount_keeps_areas hob stop m rs m' rs' :
  apart_areas (boot_areas hob stop) -> BootRoom.undisturbed (disk_path bl) 10 m rs m' rs' ->
  Forall (fun p => forall x, p.1 <= x < p.1 + p.2 -> type_at rs x <> Some Map.CONVENTIONAL) (areas system_table sv bl hob stop) ->
  Forall (fun p => forall x, p.1 <= x < p.1 + p.2 -> load8 m' x = load8 m x) (areas system_table sv bl hob stop).
Proof.
  intros Hap Hu Hused. apply apart_boot_areas in Hap as (_ & Hap & _). rewrite Forall_forall in *. intros p Hp x Hx.
  apply Hu; [by apply (Hused p Hp)|]. specialize (Hap p Hp). unfold boot_locals in Hap. apply Forall_cons in Hap as [Hap _].
  cbn [fst snd] in Hap. unfold apart in Hap. lia.
Qed.

Lemma up_to_loader fuel cb run (s : System D) bws disk cap hob stop l n parts fs q :
  let n0 := HandleDatabase.protocol_handle_count (handles (firmware s)) in
  let used := take (Z.to_nat n) parts in
  firmware_ready s hob stop l -> disk_ready disk n parts fs -> (S (length l) < fuel)%nat -> (12 < fuel)%nat ->
  (n0 + Z.to_nat n + 5 <= HandleDatabase.MAX_HANDLE_STRUCT)%nat -> length (EfiBlock.wrappers bws) = 16%nat ->
  spare (listed_map l) q (Z.to_nat n + 6) -> size_pages (stop - hob) + mount_pages L n < q ->
  exists new_hob s2 rs w bw id i d,
    enter_uefi beyond L handle_table system_table unload fuel cb sv bl run s bws (Some (disk, cap)) hob
      = start_loader beyond L handle_table system_table unload fuel bl run s2 new_hob /\
    mounted s s2 hob stop l cap fs used rs new_hob w bw id i d /\
    spare rs (q - size_pages (stop - hob) - mount_pages L n) 2.
Proof using HL Htable Htable'.
  intros n0 used [Hal [Hv Hfl] Hdb [Hvs Hvc] Hm (Hl & Hsound & H0 & Hstop) Hap Hrange Hused Hhigh [Hsv Hdt] Hz]
    [Hparts Hn (start & last & pid & Hfind & Hinit)] Hf1 Hf2 Hc Hws Hr Hq.
  pose proof (apart_boot_areas _ _ Hap) as (Hap1 & Hap2 & _ & _).
  pose proof (in_boot_areas _ _ _ Hused) as (Hu1 & Hu2 & _). pose proof (in_boot_areas _ _ _ Hrange) as (_ & Hdp & _).
  cbn [fst snd] in Hu2, Hdp. pose proof (size_pages_nonneg (EfiFile.fs_wrapper_size L)). pose proof (size_pages_nonneg (stop - hob)).
  destruct (initialize_outcome handle_table system_table sv bl fuel (firmware s) hob l stop)
    as (new_hob & fw1 & rs1 & d & E & Ha1 & Hdb1 & Hvs1 & Hm1 & Ho & Hg1 & Hp1 & Htab1 & Hcons1 & Hk1 & Gd & Hd & Hc1 & Hroom & Hkeep1);
    try done; [lia|intros a k x Hp Hx; rewrite Forall_forall in Hu1; by apply (Hu1 (a, k) Hp)|].
  destruct (Hroom q (Z.to_nat n + 5)%nat) as [Hnew Hr1]; [by replace (S (Z.to_nat n + 5)) with (Z.to_nat n + 6)%nat by lia|unfold mount_pages in *; lia|].
  destruct Ho as [[-> _]|(Hl1 & Hnew1 & Hold1)]; [lia|]. set (s1 := set_firmware s fw1).
  destruct (mount_in_room L HL disk fuel cb (disk_path bl) cap n parts Hparts Hn ltac:(lia) ltac:(lia) false s1 rs1 bws start last pid fs
    (q - size_pages (stop - hob)) 2) as (id & bws' & w & bw & a2 & m2 & db2 & rs2 & E2 & Ha2 & Hm2 & Hadd2 & Hr2 & Hu & Hd2 & Hid & Hbw & _ & Hi1 & Hi2);
    try done; try (change (firmware s1) with fw1; lia).
  { apply nothing_open; [exact Ha1|exact Hv|exact Hfl]. }
  { by replace (Z.to_nat n + 3 + 2)%nat with (Z.to_nat n + 5)%nat by lia. }
  { intros x Hx. rewrite Hold1 by (by apply Hu2). split; by apply Hu2. }
  change (firmware s1) with fw1 in *. change (volumes s1) with (volumes s) in E2. change (files s1) with (files s) in E2.
  rewrite Hv, Hfl, insert_empty in E2.
  exists new_hob, (mkSystem (set_memory (set_allocator (set_handles fw1 db2) a2) m2) {[w := fs]} ∅), rs2, w, bw, id.
  eexists _, d. split.
  { unfold enter_uefi. rewrite E. rstep. rewrite Hfind. fold s1. rewrite E2. by rstep. }
  split; [|exact Hr2].
  assert (Hareas : Forall (fun p => forall x, p.1 <= x < p.1 + p.2 -> load8 m2 x = load8 (mem fw1) x) (areas system_table sv bl hob stop)).
  { eapply mount_keeps_areas; [exact Hap|exact Hu|]. eapply Forall_impl; [exact Hu1|]. intros p Hp x Hx.
    cbn beta in Hp. rewrite Hold1; by apply Hp. }
  unfold areas in Hareas. rewrite !Forall_cons in Hareas. cbn [fst snd] in Hareas. destruct Hareas as (A1 & A2 & A3 & A4 & _).
  destruct Hadd2 as (Hdb2 & Hk2 & Hc2).
  assert (Hlu : length used = Z.to_nat n).
  { destruct (get_partitions_ok _ _ _ _ (no_entries_ok 16) Hparts) as [_ Hlen]. rewrite length_replicate in Hlen.
    unfold used. rewrite length_take. lia. }
  constructor; unfold system_memory; cbn [firmware volumes files allocator handles mem variables set_memory set_allocator set_handles].
  - exact Ha2.
  - exact Hm2.
  - split; [done|]. split; [by eapply ifaces_kept_trans|]. rewrite Hlu. lia.
  - intros x Hx. destruct (Hu x) as [T _]; [by rewrite Hold1|]. by rewrite T, Hold1.
  - intros x Hx Hout. apply Forall_app in Hout as [O1 O2]. apply Forall_cons in O2 as [O2 _]. cbn [fst snd] in O2.
    rewrite <- (Hkeep1 x Hx O1). apply Hu; [by rewrite Hold1|lia].
  - eapply table_filled_frame; [|exact Htab1]. intros x [Hx|[Hx|Hx]]; [by apply A1|by apply A2|by apply A3].
  - destruct Hcons1. constructor; by apply Hk2.
  - rewrite <- Hg1. apply load_bytes_ext. intros x Hx. apply A4. lia.
  - rewrite <- Hp1 at 1. apply load_ext. intros x Hx. apply A4. lia.
  - eapply handoff_frame; [|exact Hl1]. intros x Hx. apply Hu; [by rewrite (proj2 (Hnew1 x Hx))|].
    destruct (decide (disk_path bl <= x < disk_path bl + 10)) as [Hin|]; [|lia]. by destruct (Hu2 x Hin) as [[] _]; apply Hnew1.
  - split; [done|]. intros x Hx. destruct (Hnew1 x Hx) as [T1 T2]. split; [done|]. destruct (Hu x) as [T _]; [by rewrite T2|]. by rewrite T.
  - done.
  - done.
  - split; [exact Hi1|exact Hi2].
  - exact Hid.
  - intros j p -> Hj. destruct (Hd2 j p Hj) as (bw' & Hbw' & Hof). rewrite Hbw in Hbw'. by injection Hbw' as <-.
Qed.

(** ** The payload, where the boot left it *)

Section Payload.
Context (s s2 : System D) (hob stop : Z) (l : list Record_) (cap : Z) (fs : Fat.Filesystem D) (used : list Part.PartitionEntry).
Context (rs : list Map.Region) (new_hob w bw : Z) (id i : nat) (d : list Z).
Context (fuel : nat) (vfiles : Z -> list FvProps.File_) (image size isz entry : Z).
Hypothesis Hs : firmware_ready s hob stop l.
Hypothesis Hm : mounted s s2 hob stop l cap fs used rs new_hob w bw id i d.
Hypothesis Hp : payload_ready fuel (mem (firmware s)) hob stop l vfiles image size isz entry.
Hypothesis Hfuel : (S (length l) < fuel)%nat.

(** The volumes' bytes are those of the entry. *)
Lemma volume_kept base len : Volume base len ∈ l -> forall x, base <= x < base + len ->
  load8 (system_memory s2) x = load8 (system_memory s) x.
Proof using All.
  intros Hin x Hx. destruct (pr_volumes _ _ _ _ _ _ _ _ _ _ Hp base len Hin) as (_ & _ & _ & Hused & Hap).
  apply (mt_kept _ _ _ _ _ _ _ _ _ _ _ _ _ _ _ Hm); [by apply Hused|]. eapply Forall_impl; [exact Hap|].
  intros p Hpa. unfold apart in Hpa. lia.
Qed.

Lemma payload_in_volume : exists base len, Volume base len ∈ l /\ 28 <= base < image /\ image + size <= base + len /\ base + len < 2 ^ 32.
Proof using All.
  destruct (first_image_in (mem (firmware s)) fuel vfiles l (image, size)) as (base & len & Hin & H1 & _ & H2);
    [apply (fr_memory _ _ _ _ Hs)| |apply (pr_first _ _ _ _ _ _ _ _ _ _ Hp)|].
  { intros base len Hin. by apply (pr_volumes _ _ _ _ _ _ _ _ _ _ Hp). }
  destruct (pr_volumes _ _ _ _ _ _ _ _ _ _ Hp base len Hin) as (((_ & _ & He & _) & _) & _ & H28 & _).
  exists base, len. cbn [fst snd] in *. norm_pow. split; [done|]. lia.
Qed.

Lemma payload_found : Fv.find_loader fuel fuel (system_memory s2) new_hob = Done (image, size).
Proof using All.
  destruct Hs as [_ _ _ _ Hm0 (Hl & _ & H0 & _) _ _ _ Hhigh _ _]. pose proof Hl as (_ & Hl1 & Hl2 & _).
  assert (Hv : forall base len, Volume base len ∈ l -> well_formed (system_memory s2) fuel (vfiles base) base len /\
    Fv.header_length (system_memory s2) base = Fv.header_length (mem (firmware s)) base).
  { intros base len Hin. destruct (pr_volumes _ _ _ _ _ _ _ _ _ _ Hp base len Hin) as (Hwf & H50 & _).
    apply well_formed_ext; [done|by apply volume_kept|done|done]. }
  destruct (mt_list_used _ _ _ _ _ _ _ _ _ _ _ _ _ _ _ Hm) as [Hnew Hnu].
  assert (new_hob + (stop - hob) - 1 < 2 ^ 63) by (apply Hhigh, Hnu; lia).
  unfold Fv.find_loader. rewrite (find_image_finds _ new_hob (Other :: l) fuel fuel vfiles).
  - cbn [first_image]. rewrite (first_image_ext (mem (firmware s))).
    + by rewrite (pr_first _ _ _ _ _ _ _ _ _ _ Hp).
    + intros base len Hin. by apply (Hv base len).
  - apply (mt_memory _ _ _ _ _ _ _ _ _ _ _ _ _ _ _ Hm).
  - cbn. lia.
  - apply (handoff_at _ _ _ (new_hob + (stop - hob))); [lia|lia|apply (mt_list _ _ _ _ _ _ _ _ _ _ _ _ _ _ _ Hm)].
  - intros base len Hin. apply elem_of_cons in Hin as [[=]|Hin]. by apply (Hv base len).
Qed.

Lemma payload_agrees : agree image (image + size) (mem (firmware s)) (system_memory s2).
Proof using All.
  destruct payload_in_volume as (base & len & Hin & H1 & H2 & _). intros x Hx. apply (volume_kept base len Hin). lia.
Qed.

Lemma payload_used x : image <= x < image + size -> type_at rs x <> Some Map.CONVENTIONAL.
Proof using All.
  intros Hx. destruct payload_in_volume as (base & len & Hin & H1 & H2 & _).
  destruct (pr_volumes _ _ _ _ _ _ _ _ _ _ Hp base len Hin) as (_ & _ & _ & Hused & _).
  assert (Hu : listed_type l x <> Some Map.CONVENTIONAL) by (apply Hused; lia).
  by rewrite (mt_types _ _ _ _ _ _ _ _ _ _ _ _ _ _ _ Hm).
Qed.

Lemma payload_locals : locals_ok rs bl image size.
Proof using All.
  destruct payload_in_volume as (base & len & Hin & H1 & H2 & _).
  destruct (pr_volumes _ _ _ _ _ _ _ _ _ _ Hp base len Hin) as (_ & _ & _ & _ & Hap).
  constructor.
  - apply (apart_boot_areas hob stop). apply (fr_apart _ _ _ _ Hs).
  - eapply Forall_impl; [apply (in_boot_areas hob stop _ (fr_used _ _ _ _ Hs))|]. intros p Hpu x Hx.
    destruct (Hpu x Hx) as [Hu _]. by rewrite (mt_types _ _ _ _ _ _ _ _ _ _ _ _ _ _ _ Hm).
  - eapply Forall_impl; [apply (in_boot_areas hob stop _ Hap)|]. intros p Hpa. unfold apart in *. lia.
  - eapply Forall_impl; [apply (in_boot_areas hob stop _ (fr_range _ _ _ _ Hs))|]. intros p Hpr. cbn beta in Hpr. lia.
Qed.

(** What was in use stays as the application finds it. *)
Lemma mounted_handed_over s1 : volumes s1 = volumes s2 -> files s1 = files s2 -> db_ok (handles (firmware s1)) ->
  ifaces_kept (handles (firmware s2)) (handles (firmware s1)) -> variables (firmware s1) = variables (firmware s2) ->
  (forall x, 28 <= x -> type_at rs x <> Some Map.CONVENTIONAL -> outside_areas (locals bl) x ->
     load8 (system_memory s1) x = load8 (system_memory s2) x) ->
  handed_over s s1 hob stop l cap fs used.
Proof using All.
  intros Ev Ef Hdb Hk Evar Hx. destruct Hs as [_ _ _ _ _ (Hl & _ & H0 & _) Hap Hrange Hused _ _ _]. destruct Hm.
  pose proof Hl as (_ & Hl1 & Hl2 & _).
  assert (Hareas : Forall (fun p => forall x, p.1 <= x < p.1 + p.2 -> load8 (system_memory s1) x = load8 (system_memory s2) x)
    (areas system_table sv bl hob stop)).
  { apply apart_boot_areas in Hap as (_ & Hap & _). apply Forall_forall. intros p Hpin x Hxp. unfold boot_areas in Hrange, Hused.
    rewrite !Forall_app in Hrange, Hused. destruct Hrange as [Hrange _], Hused as [Hused _]. rewrite Forall_forall in Hap, Hrange, Hused.
    apply Hx.
    - specialize (Hrange p Hpin). lia.
    - rewrite mt_types0; by apply (Hused p Hpin).
    - specialize (Hap p Hpin). apply Forall_cons in Hap as [_ Hap]. eapply Forall_impl; [exact Hap|]. intros r Hr. unfold apart in Hr. lia. }
  unfold areas in Hareas. rewrite !Forall_cons in Hareas. cbn [fst snd] in Hareas. destruct Hareas as (A1 & A2 & A3 & A4 & _).
  apply in_boot_areas in Hused as (_ & _ & Hlu).
  (* Memory allocated on the way is not the locals'. *)
  assert (Hnew : forall x t, 0x100000 < x -> type_at rs x = Some t -> t <> Map.CONVENTIONAL ->
    (listed_type l x = Some Map.CONVENTIONAL \/ Some t = LOADER_DATA) -> load8 (system_memory s1) x = load8 (system_memory s2) x).
  { intros x t Hlo Ht Hne Hor. apply Hx; [lia|congruence|]. eapply Forall_impl; [exact Hlu|]. intros p Hpu. cbn beta in Hpu.
    destruct (decide (p.1 <= x < p.1 + p.2)) as [Hin|]; [|lia]. destruct (Hpu x Hin) as [U1 U2]. rewrite mt_types0 in Ht by done.
    destruct Hor as [Hor|Hor]; [done|]. congruence. }
  destruct mt_list_used0 as [Hlo Hlist], mt_handles0 as (_ & Hk2 & _), mt_volume0 as [V1 V2], mt_protocols0 as [P1 P2].
  constructor.
  - eapply table_filled_frame; [|exact mt_table0]. intros x [Hxa|[Hxa|Hxa]]; [by apply A1|by apply A2|by apply A3].
  - destruct mt_consoles0. constructor; by apply Hk.
  - split; [done|]. by eapply ifaces_kept_trans.
  - exists new_hob. split; [rewrite <- mt_guid0; apply load_bytes_ext; intros x Hxa; apply A4; lia|].
    split; [rewrite <- mt_pointer0 at 1; apply load_ext; intros x Hxa; apply A4; lia|].
    eapply handoff_frame; [|exact mt_list0]. intros x Hxa. destruct (Hlist x Hxa) as [T1 T2].
    eapply Hnew; [lia|exact T2|by vm_compute|by left].
  - exists d. by rewrite Evar.
  - exists w, bw, id, i. rewrite Ev, Ef. split; [exact V1|]. split; [exact V2|]. split; [by apply Hk|]. split; [by apply Hk|].
    split; [done|]. intros j p Hid Hj. destruct (mt_wrapper0 j p Hid Hj) as (Hb & Hty & [W1 W2 W3 W4 W5]).
    assert (H8 : forall x, bw <= x < bw + EfiBlock.WRAPPER_SIZE -> load8 (system_memory s1) x = load8 (system_memory s2) x).
    { intros x Hxa. eapply Hnew; [lia|exact (Hty x Hxa)|by vm_compute|by right]. }
    unfold EfiBlock.MEDIA, EfiBlock.PROTO, EfiBlock.DISK_PATHS, EfiBlock.START_LBA, EfiBlock.WRAPPER_SIZE in *.
    constructor; unfold EfiBlock.MEDIA, EfiBlock.PROTO, EfiBlock.DISK_PATHS, EfiBlock.START_LBA in *;
      (etransitivity; [first [apply load_ext|apply load_bytes_ext]; intros x Hxa; apply H8; lia|done]).
Qed.
End Payload.

(** C1: The firmware boots: from a sound HOB list with room in the memory map it
    describes, a firmware volume with a loadable image, and a disk whose first EFI
    partition holds a FAT file system, [enter_uefi] comes to call the image, once, at
    the entry point where the PE loader put it, with a handle that has the
    loaded-image protocol; it fails at no step before.  What the application then
    finds is what each step left, undisturbed by those after it: the system table with
    the consoles, their protocols and the variable PlatformLang; the configuration
    table with the whole HOB list in pages of its own; the EFI volume, mounted, with
    its protocol and the device path of its partition on one handle; every protocol
    that was installed before. *)
Theorem boot_runs_application fuel cb run (s : System D) bws disk cap hob stop l vfiles image size isz entry n parts fs q :
  let n0 := HandleDatabase.protocol_handle_count (handles (firmware s)) in
  let i := (n0 + Z.to_nat n + 5)%nat in
  firmware_ready s hob stop l -> payload_ready fuel (mem (firmware s)) hob stop l vfiles image size isz entry ->
  disk_ready disk n parts fs -> (S (length l) < fuel)%nat -> (12 < fuel)%nat ->
  (i + 2 <= HandleDatabase.MAX_HANDLE_STRUCT)%nat -> length (EfiBlock.wrappers bws) = 16%nat ->
  spare (listed_map l) q (Z.to_nat n + 6) -> size_pages (stop - hob) + mount_pages L n + loader_pages isz < q ->
  exists s1 base hnd m1 m2,
    enter_uefi beyond L handle_table system_table unload fuel cb sv bl run s bws (Some (disk, cap)) hob
      = ('(_, s2) ← run (base + entry) (ptr i) s1;
         Done (write_memory s2 (fun m => store64 (store64 m (exit_size_cell bl) 0) (exit_data_cell bl) 0))) /\
    handed_over s s1 hob stop l cap fs (take (Z.to_nat n) parts) /\
    iface (handles (firmware s1)) i Image.LOADED_IMAGE_GUID = Some (hnd + Image.LOADED_IMAGE) /\
    agree image (image + size) (mem (firmware s)) m1 /\
    PeLoader.peloader_load_image fuel m1 base isz image size = Done (base + entry, m2) /\
    forall x, base <= x < base + isz -> load8 (system_memory s1) x = load8 m2 x.
Proof using HL Htable Htable' Hsystem.
  intros n0 i Hs Hp Hdisk Hf1 Hf2 Hc Hws Hr Hq.
  pose proof (image_pages_nonneg [mapped_node] end_node isz) as Hpg. fold (loader_pages isz) in Hpg.
  destruct (up_to_loader fuel cb run s bws disk cap hob stop l n parts fs q Hs Hdisk Hf1 Hf2)
    as (new_hob & s2 & rs & w & bw & id & k & d & E & Hm & Hr2); [lia|done|done|lia|].
  assert (Hfound := payload_found s s2 hob stop l cap fs _ rs new_hob w bw id k d fuel vfiles image size isz entry Hs Hm Hp Hf1).
  pose proof (payload_agrees s s2 hob stop l cap fs _ rs new_hob w bw id k d fuel vfiles image size isz entry Hs Hm Hp Hf1) as Hag.
  pose proof (payload_used s s2 hob stop l cap fs _ rs new_hob w bw id k d fuel vfiles image size isz entry Hs Hm Hp Hf1) as Hused.
  pose proof (payload_locals s s2 hob stop l cap fs _ rs new_hob w bw id k d fuel vfiles image size isz entry Hs Hm Hp Hf1) as Hloc.
  destruct (payload_in_volume s s2 hob stop l cap fs _ rs new_hob w bw id k d fuel vfiles image size isz entry Hs Hm Hp Hf1)
    as (vb & vl & _ & V1 & V2 & V3).
  pose proof (pr_size _ _ _ _ _ _ _ _ _ _ Hp) as Hsz. destruct (mt_handles _ _ _ _ _ _ _ _ _ _ _ _ _ _ _ Hm) as (Hdb2 & Hk2 & Hc2).
  assert (Hcount : HandleDatabase.protocol_handle_count (handles (firmware s2)) = i).
  { destruct (get_partitions_ok _ _ _ _ (no_entries_ok 16) (dr_parts _ _ _ _ Hdisk)) as [_ Hlen]. rewrite length_replicate in Hlen.
    pose proof (dr_count _ _ _ _ Hdisk). rewrite Hc2, length_take. subst i n0. lia. }
  destruct (start_loader_outcome beyond L handle_table system_table unload Htable Htable' Hsystem fuel bl run s2 rs new_hob image size isz entry)
    as [(s' & _ & _ & _ & _ & Hno)|(s1 & rs1 & hnd & base & m1 & m2 & E2 & Ev & Ef & _ & Hdb1 & Hk1 & Hi & Hag1 & E3 & Hx & Hkept & Hvar)];
    [apply (mt_holds _ _ _ _ _ _ _ _ _ _ _ _ _ _ _ Hm)| |exact Hdb2|rewrite Hcount; lia|apply (mt_memory _ _ _ _ _ _ _ _ _ _ _ _ _ _ _ Hm)
    |exact Hfound|lia| |lia|norm_pow; lia|exact Hused|exact Hloc| |specialize (Hno _ 0%nat Hr2); lia|].
  { intros x Hx. apply (fr_high _ _ _ _ Hs). apply dec_stable. intros Hn.
    rewrite (mt_types _ _ _ _ _ _ _ _ _ _ _ _ _ _ _ Hm) in Hx by done. done. }
  { eapply loadable_agree; [apply (pr_loadable _ _ _ _ _ _ _ _ _ _ Hp)|exact Hag]. }
  { right. eexists. split; [exact Hr2|]. fold (loader_pages isz). lia. }
  rewrite Hcount in E2, Hi. exists s1, base, hnd, m1, m2. split; [rewrite E; exact E2|].
  split; [by eapply mounted_handed_over|]. split; [exact Hi|]. split; [by eapply agree_trans|]. split; [exact E3|].
  intros x Hxb. by apply Hx.
Qed.
End End.

(** ** A machine that boots *)

(** One megabyte at 1 MiB, a firmware volume with the image of [ImageProps] at
    0x8fff90, and the list that names both at 0x1000. *)
Definition end_list : list Record_ := demo_list ++ [Volume 0x8fff90 0x228].
Definition end_memory : memory :=
  let m := store64 (store16 (store16 volume_memory 0x1000 1) 0x1002 56) 0x1030 0x10b8 in
  let m := store64 (store64 (store16 (store16 m 0x1038 3) 0x103a 48) 0x1058 0x100000) 0x1060 0x100000 in
  let m := store32 (store64 (store64 (store16 (store16 m 0x1068 2) 0x106a 48) 0x1080 0x100000) 0x1088 0x1000) 0x1090 4 in
  let m := store64 (store64 (store16 (store16 m 0x1098 5) 0x109a 24) 0x10a0 0x8fff90) 0x10a8 0x228 in
  store16 m 0x10b0 0xffff.
Definition end_files (base : Z) : list FvProps.File_ := [FvProps.mkFile 9 0x1dc [mkSection 0x19 12; mkSection 0x10 0x1b8]].
Definition end_system : System Ramdisk :=
  mkSystem (mkFw end_memory Alloc.new HandleDatabase.new VariableStore.new EventInfo.new) ∅ ∅.

Lemma end_memory_ok : mem_ok end_memory.
Proof. unfold end_memory, volume_memory. repeat apply mem_ok_store. apply pic_memory_ok. Qed.

Lemma end_listed : handoff_list end_memory 0x1000 end_list 0x10b8.
Proof. vm_compute. repeat split; congruence. Qed.

Lemma end_list_sound : sound_list end_list.
Proof. destruct demo_list_sound. by constructor. Qed.

Lemma end_conventional x : listed_type end_list x = Some Map.CONVENTIONAL -> 0x100000 <= x < 0x200000.
Proof. apply demo_conventional. Qed.

Lemma end_type x : listed_type end_list x <> LOADER_DATA.
Proof.
  unfold listed_type, holder, end_list, demo_list. cbn -[covers LOADER_DATA pages_of].
  destruct (covers _ x); [by vm_compute|]. destruct (covers _ x); by vm_compute.
Qed.

Lemma end_volume base len : Volume base len ∈ end_list -> base = 0x8fff90 /\ len = 0x228.
Proof. unfold end_list, demo_list. cbn [app]. rewrite !elem_of_cons. intros [[=]|[[=]|[[= -> ->]|Hin]]]; [done|by apply not_elem_of_nil in Hin]. Qed.

Lemma end_well_formed : well_formed end_memory 13 (end_files 0x8fff90) 0x8fff90 0x228.
Proof.
  unfold well_formed, volume_ok. split_and!; try (vm_compute; repeat split; congruence); try lia; [cbn; lia|].
  repeat apply Forall_cons_2; try apply Forall_nil_2. cbn. lia.
Qed.

Lemma end_ready : firmware_ready 0x2000 demo_statics demo_locals end_system 0x1000 0x10b8 end_list.
Proof.
  constructor.
  - reflexivity.
  - done.
  - apply new_db_ok.
  - split; [apply new_ok|vm_compute; reflexivity].
  - apply end_memory_ok.
  - split; [apply end_listed|]. split; [apply end_list_sound|lia].
  - unfold apart_areas, boot_areas, boot_locals, locals, areas. cbn [app].
    repeat first [apply FOP_cons | apply FOP_nil | apply Forall_cons_2 | apply Forall_nil_2];
      unfold apart, STDOUT_MODE, INSTALL_MULTIPLE; cbn; lia.
  - unfold boot_areas, boot_locals, locals, areas. cbn [app]. repeat first [apply Forall_cons_2 | apply Forall_nil_2]; unfold STDOUT_MODE, INSTALL_MULTIPLE; cbn; lia.
  - unfold boot_areas, boot_locals, locals, areas. cbn [app].
    repeat first [apply Forall_cons_2 | apply Forall_nil_2]; unfold STDOUT_MODE, INSTALL_MULTIPLE;
      cbn [fst snd stdout boot_services configuration_table lang_name lang_guid lang_data disk_path image_path image_handle_cell
        exit_size_cell exit_data_cell demo_statics demo_locals];
      intros x Hx; (split; [intros Hc; apply end_conventional in Hc; lia|apply end_type]).
  - intros x Hx. apply end_conventional in Hx. lia.
  - split; [|cbn; lia]. unfold statics_ok. repeat first [apply Forall_cons_2 | apply Forall_nil_2]; unfold is_pointer; cbn; lia.
  - intros c Hc. apply in_handle_cells in Hc as [->|[->| ->]]; vm_compute; reflexivity.
Qed.

Lemma end_payload : payload_ready 0x2000 demo_statics demo_locals 13 end_memory 0x1000 0x10b8 end_list end_files 0x900000 436 2048 512.
Proof.
  constructor.
  - intros base len Hin. apply end_volume in Hin as [-> ->]. split; [apply end_well_formed|]. split; [lia|]. split; [lia|]. split.
    + intros x Hx Hc. apply end_conventional in Hc. lia.
    + unfold boot_areas, boot_locals, locals, areas. cbn [app]. repeat first [apply Forall_cons_2 | apply Forall_nil_2];
        unfold apart, STDOUT_MODE, INSTALL_MULTIPLE; cbn; lia.
  - vm_compute. reflexivity.
  - lia.
  - eapply loadable_agree; [apply (volume_loadable 13); lia|]. intros x Hx. unfold end_memory. by rewrite !load8_store_out by lia.
Qed.

Definition end_parts : list Part.PartitionEntry :=
  Part.mkEntry Part.EFI_TYPE (replicate 16 1) 2048 4095 :: replicate 15 EfiBlock.no_entry.
Lemma end_disk : disk_ready BootMount.efi_disk 1 end_parts BootMount.efi_fs.
Proof.
  constructor; [vm_compute; reflexivity|lia|]. exists 2048, 4095. eexists. split; vm_compute; reflexivity.
Qed.

Lemma boot_runs_application_witness : exists s',
  enter_uefi zeros demo_layout 0x700000 0x2000 0x700f80 13 BootMount.efi_callbacks demo_statics demo_locals
    (fun _ _ s => Done (Status.SUCCESS, s)) end_system (EfiBlock.mkWrappers (replicate 16 0) 0) (Some (BootMount.efi_disk, 10000)) 0x1000
  = Done s'.
Proof.
  destruct (boot_runs_application zeros demo_layout demo_layout_ok 0x700000 0x2000 0x700f80 ltac:(lia) ltac:(vm_compute; reflexivity)
    ltac:(lia) demo_statics demo_locals 13 BootMount.efi_callbacks (fun _ _ s => Done (Status.SUCCESS, s)) end_system
    (EfiBlock.mkWrappers (replicate 16 0) 0) BootMount.efi_disk 10000 0x1000 0x10b8 end_list end_files 0x900000 436 2048 512 1
    end_parts BootMount.efi_fs 200) as (s1 & base & hnd & m1 & m2 & E & _).
  - apply end_ready.
  - apply end_payload.
  - apply end_disk.
  - cbn. lia.
  - lia.
  - apply Nat.leb_le. vm_compute. reflexivity.
  - reflexivity.
  - split; [|apply Nat.leb_le; vm_compute; reflexivity]. exists (Map.mkRegion 7 0x101000 255 8). split_and!.
    + change (listed_map end_list) with (listed_map demo_list). vm_compute. right. left.
    + reflexivity.
    + cbn. lia.
    + cbn. lia.
  - vm_compute. reflexivity.
  - eexists. rewrite E. reflexivity.
Defined.
