(* ===== verification/LayoutProps.v ===== *)
(** * Theorems on the layouts

    [field_write_read] holds of every declaration.  The rest shows that the offsets
    and sizes which the models of the components are written with are those of the
    declarations: an accessor reads the field it is named after, and a structure is
    stored as its literal says. *)

From stdpp Require Import strings.
From S2P Require Import Prelude REfi Mem Layout Structs FwStructs.
From S2P Require Import PeLoader Part DevicePath VirtioBlk EfiStr Fat BzImage PeFile Alloc EfiFile Hob Services EfiBlock BlockProps Image Boot.

#[local] Open Scope string_scope.
#[local] Open Scope Z_scope.

Lemma load_1 m a : load 1 m a = load8 m a.
Proof. unfold load. cbn [load_bytes le_combine]. lia. Qed.

(** The layout of the place is evaluated; what is left is an equation on
    memory. *)
Ltac layout :=
  unfold read_field, bytes_field;
  repeat match goal with
  | |- context [offset_of ?t ?p] =>
      let x := eval vm_compute in (offset_of t p) in change (offset_of t p) with x
  end;
  cbn [mbind option_bind]; rewrite ?Z.add_0_r;
  repeat match goal with
  | |- context [Z.to_nat (size ?u)] =>
      let x := eval vm_compute in (Z.to_nat (size u)) in change (Z.to_nat (size u)) with x
  end;
  rewrite ?load_1; reflexivity.

(** ** All declarations *)

(** Every structure and union, slices at the end being [n] long. *)
Definition declarations (n : Z) : list Ty :=
  [rbase.Boolean; rbase.Status; rbase.Guid;
    system.Time; system.TimeCapabilities; system.VariableAuthentication3CertId n;
    system.VariableAuthentication n; system.VariableAuthentication2 n; system.VariableAuthentication3;
    system.VariableAuthentication3Nonce n; system.CapsuleBlockDescriptorUnion;
    system.CapsuleBlockDescriptor; system.CapsuleHeader; system.CapsuleResultVariableHeader;
    system.CapsuleResultVariableFMP n; system.MemoryDescriptor; system.OpenProtocolInformationEntry;
    system.ConfigurationTable; system.PropertiesTable; system.MemoryAttributesTable n; system.TableHeader;
    system.RuntimeServices; system.BootServices; system.SystemTable; block_io.BlockIoMedia;
    block_io.Protocol; decompress.Protocol; device_path.Protocol; device_path.End; device_path.Hardware;
    device_path.Media; device_path.HardDriveDevicePathNode; device_path.HardDriveDevicePath;
    device_path.PciDevicePathNode; device_path.PciDevicePath; device_path_utilities.Protocol;
    disk_io.Protocol; disk_io2.DiskIo2Token; disk_io2.Protocol; driver_binding.Protocol; file.IoToken;
    file.Info; file.SystemInfo n; file.SystemVolumeLabel n; file.Protocol; graphics_output.PixelBitmask;
    graphics_output.ModeInformation; graphics_output.Mode; graphics_output.BltPixel;
    graphics_output.Protocol; hii_font.FontInfo n; hii_string.Protocol; loaded_image.Protocol;
    simple_file_system.Protocol; simple_text_input.InputKey; simple_text_input.Protocol;
    simple_text_input_ex.KeyState; simple_text_input_ex.KeyData; simple_text_input_ex.Protocol;
    simple_text_output.Mode; simple_text_output.Protocol; hob.Header; hob.HandoffInfoTable;
    hob.MemoryAllocationHeader; hob.MemoryAllocation; hob.ResourceDescription; hob.FirmwareVolume;
    hob.FirmwareVolume2; hob.FirmwareVolume3; hob.Cpu; fv.FirmwareVolumeHeader; fv.FvBlockMap;
    fv.FirmwareVolumeExtHeader; fv.FirmwareVolumeExtEntry; fv.FfsFileHeader; fv.FfsFileHeader2;
    fv.CommonSectionHeader; fv.CommonSectionHeader2; peloader.ImageDosHeader; peloader.ImageFileHeader;
    peloader.ImageDataDirectory; peloader.ImageOptionalHeader32; peloader.ImageOptionalHeader64;
    peloader.ImageNtHeader32; peloader.ImageNtHeader64; peloader.ImageSectionHeader;
    peloader.ImageRelocation; peloader.ImageBaseRelocation; pe.Section; bzimage.E820Entry; part.Header;
    part.PartitionEntry; fat.Header; fat.Fat32Header; fat.FatDirectory; fat.FatLongNameEntry;
    block.UsedElem; block.Desc; block.AvailRing; block.UsedRing; block.DriverState;
    block.BlockRequestHeader; block.BlockRequestFooter; alloc.MemoryDescriptor; efi_device_path.MemoryMaped;
    init.HardDriveDevicePathNode; init.HardDriveDevicePath; efi.HardDriveDevicePathNode;
    efi.HardDriveDevicePath; efi.PciDevicePathNode; efi.PciDevicePath; efi.FullMemoryMappedDevicePath;
    efi.HandleWrapper; efi_block.HardDiskDevicePathProtocol; efi_block.BlockIoMedia;
    efi_block.BlockIoProtocol; efi_block.ControllerDevicePathProtocol; efi_block.BlockDevicePath;
    efi_block.BlockWrapper; efi_file.FileInfo; image.LoadedImageProtocol; image.ImageInfo;
    handle_database.ProtocolStruct; handle_database.ProtocolHandle; handle_database.HandleDatabase;
    variable.VariableItem; variable.Variable_; efi_hii_font.FontInfo n; efi_hii_string.Protocol].

(** All of them are well formed. *)
Lemma declarations_wf n : 0 <= n -> Forall (fun t => wf t = true) (declarations n).
Proof.
  intros Hn. apply Z.leb_le in Hn. apply List.Forall_forall, (proj1 (List.forallb_forall wf _)).
  cbv -[Z.leb]. rewrite Hn. reflexivity.
Qed.

Lemma declaration_wf n t : 0 <= n -> t ∈ declarations n -> wf t = true.
Proof. intros Hn. revert t. apply Forall_forall. by apply declarations_wf. Qed.

(** Which declaration of the list a type is. *)
Ltac declared i := apply list_elem_of_lookup; exists i; reflexivity.

(** ** Places of a declaration *)

(** a scalar place reads back what was written to it, truncated to its width;
    the write leaves every other place of the object and every byte outside the
    object as they were. *)
Theorem field_write_read n t p m base v m' :
  0 <= n -> t ∈ declarations n -> write_field t p m base v = Some m' ->
  (exists o u, offset_of t p = Some (o, u) /\ read_field t p m' base = Some (v mod 2 ^ (8 * size u))) /\
  (no_union t = true -> forall q, diverge p q -> read_field t q m' base = read_field t q m base) /\
  (forall x, x < base \/ base + size t <= x -> load8 m' x = load8 m x).
Proof.
  intros Hn Ht H. pose proof (declaration_wf n t Hn Ht) as Hw.
  apply bind_Some in H as ([o u] & Hp & [= <-]).
  destruct (offset_inside _ _ _ _ Hw Hp) as (Hu & Ho & Hs). pose proof (size_nonneg _ Hu).
  split_and!.
  - exists o, u. split; [done|]. unfold read_field. rewrite Hp. cbn [mbind option_bind].
    by rewrite load_store, Z2Nat.id by done.
  - intros Hnu q Hd. unfold read_field. destruct (offset_of t q) as [[o' u']|] eqn:Hq; [|done].
    cbn [mbind option_bind]. f_equal. destruct (offset_inside _ _ _ _ Hw Hq) as (Hu' & ? & ?).
    pose proof (size_nonneg _ Hu'). apply load_store_out.
    destruct (offset_disjoint _ _ _ _ _ _ _ Hw Hnu Hd Hp Hq); lia.
  - intros x Hx. apply load8_store_out. lia.
Qed.

Lemma field_write_read_witness :
  exists m', write_field system.SystemTable (dot ["con_out"]) ∅ 0x1000 0x2000 = Some m' /\
             read_field system.SystemTable (dot ["con_in"]) m' 0x1000 = Some 0.
Proof.
  eexists. split; [vm_compute; reflexivity|].
  etrans; [refine (proj1 (proj2 (field_write_read 0 system.SystemTable (dot ["con_out"]) ∅ 0x1000 0x2000 _ _ _ _))
                     _ (dot ["con_in"]) _); [lia|declared 23%nat|vm_compute; reflexivity..|]|].
  - right. discriminate.
  - vm_compute. reflexivity.
Defined.

(** ** The accessors of the models *)

(** the accessors with which HOBs and firmware volumes are parsed read the
    fields of hob.rs and fv.rs they are named after, the three-byte sizes by their
    bytes, and the header sizes skipped are those of the declarations. *)
Theorem hob_fv_accessors m p :
  read_field hob.Header (dot ["type"]) m p = Some (Hob.type_ m p) /\
  read_field hob.Header (dot ["length"]) m p = Some (Hob.hob_length m p) /\
  read_field hob.HandoffInfoTable (dot ["efi_end_of_hob_list"]) m p = Some (Hob.efi_end_of_hob_list m p) /\
  read_field hob.MemoryAllocation (dot ["alloc_descriptor"; "memory_base_address"]) m p
    = Some (Hob.memory_base_address m p) /\
  read_field hob.MemoryAllocation (dot ["alloc_descriptor"; "memory_length"]) m p = Some (Hob.memory_length m p) /\
  read_field hob.MemoryAllocation (dot ["alloc_descriptor"; "memory_type"]) m p = Some (Hob.memory_type m p) /\
  read_field hob.ResourceDescription (dot ["resource_type"]) m p = Some (Hob.resource_type m p) /\
  read_field hob.ResourceDescription (dot ["physical_start"]) m p = Some (Hob.physical_start m p) /\
  read_field hob.ResourceDescription (dot ["resource_length"]) m p = Some (Hob.resource_length m p) /\
  read_field hob.FirmwareVolume (dot ["base_address"]) m p = Some (Hob.fv_base_address m p) /\
  read_field hob.FirmwareVolume (dot ["length"]) m p = Some (Hob.fv_length m p) /\
  read_field fv.FirmwareVolumeHeader (dot ["signature"]) m p = Some (Fv.signature m p) /\
  read_field fv.FirmwareVolumeHeader (dot ["header_length"]) m p = Some (Fv.header_length m p) /\
  read_field fv.FfsFileHeader (dot ["type"]) m p = Some (Fv.ffs_type m p) /\
  fst <$> offset_of fv.FfsFileHeader (dot ["size"]) = Some 20 /\
  Fv.ffs_size m p = Fv.size24 m (p + 20) /\
  size fv.FfsFileHeader = Fv.FFS_HEADER_SIZE /\
  read_field fv.CommonSectionHeader (dot ["type"]) m p = Some (Fv.section_type m p) /\
  size fv.CommonSectionHeader = Fv.SECTION_HEADER_SIZE.
Proof. split_and!; layout. Qed.

(** An element of the data directory, whatever its index. *)
Lemma directory_entry m p i f (o : Z) : 0 <= i < 16 ->
  step peloader.ImageDataDirectory (Field f) = Some (o, U32) ->
  read_field peloader.ImageNtHeader64
    (dot ["optional_header"; "data_directory"] ++ [Index i; Field f]) m p = Some (load32 m (p + (136 + o) + 8 * i)).
Proof.
  intros Hi Hf. unfold read_field. cbn [dot map app offset_of].
  repeat match goal with
  | |- context [step ?t (Field ?g)] =>
      lazymatch g with f => fail | _ => idtac end;
      let x := eval vm_compute in (step t (Field g)) in change (step t (Field g)) with x;
      cbn [mbind option_bind]
  end.
  cbn [step]. rewrite (proj2 (Z.leb_le _ _)), (proj2 (Z.ltb_lt _ _)) by lia. cbn [andb mbind option_bind].
  unfold peloader.ImageDataDirectory, U32 in Hf. cbn [step] in Hf. rewrite Hf. cbn [mbind option_bind]. f_equal. f_equal. vm_compute size. lia.
Qed.

(** the header fields the PE loader looks at are those of peloader.rs: the DOS
    header, the 64-bit NT header with its nested file and optional headers, the
    entries of the data directory by index, the section headers and the base
    relocation blocks; the sizes it steps by are theirs. *)
Theorem pe_accessors m p :
  read_field peloader.ImageDosHeader (dot ["e_magic"]) m p = Some (PeLoader.e_magic m p) /\
  read_field peloader.ImageDosHeader (dot ["e_lfanew"]) m p = Some (PeLoader.e_lfanew m p) /\
  size peloader.ImageDosHeader = PeLoader.DOS_HEADER_SIZE /\
  read_field peloader.ImageNtHeader64 (dot ["signature"]) m p = Some (PeLoader.signature m p) /\
  read_field peloader.ImageNtHeader64 (dot ["file_header"; "machine"]) m p = Some (PeLoader.machine m p) /\
  read_field peloader.ImageNtHeader64 (dot ["file_header"; "number_of_sections"]) m p
    = Some (PeLoader.number_of_sections m p) /\
  read_field peloader.ImageNtHeader64 (dot ["file_header"; "size_of_optional_header"]) m p
    = Some (PeLoader.size_of_optional_header m p) /\
  read_field peloader.ImageNtHeader64 (dot ["optional_header"; "magic"]) m p = Some (PeLoader.magic m p) /\
  read_field peloader.ImageNtHeader64 (dot ["optional_header"; "address_of_entry_point"]) m p
    = Some (PeLoader.address_of_entry_point m p) /\
  read_field peloader.ImageNtHeader64 (dot ["optional_header"; "image_base"]) m p
    = Some (PeLoader.image_base m p) /\
  read_field peloader.ImageNtHeader64 (dot ["optional_header"; "size_of_image"]) m p
    = Some (PeLoader.size_of_image m p) /\
  (forall i, 0 <= i < 16 ->
     let entry (f : string) := (dot ["optional_header"; "data_directory"] ++ [Index i; Field f])%list in
     read_field peloader.ImageNtHeader64 (entry "virtual_address") m p
       = Some (PeLoader.directory_address m p i) /\
     read_field peloader.ImageNtHeader64 (entry "size") m p = Some (PeLoader.directory_size m p i)) /\
  size peloader.ImageNtHeader64 = PeLoader.NT_HEADER_SIZE /\
  fst <$> offset_of peloader.ImageNtHeader64 (dot ["optional_header"]) = Some PeLoader.OPTIONAL_HEADER_OFFSET /\
  read_field peloader.ImageSectionHeader (dot ["virtual_size"]) m p = Some (PeLoader.virtual_size m p) /\
  read_field peloader.ImageSectionHeader (dot ["virtual_address"]) m p = Some (PeLoader.virtual_address m p) /\
  read_field peloader.ImageSectionHeader (dot ["size_of_raw_data"]) m p
    = Some (PeLoader.size_of_raw_data m p) /\
  read_field peloader.ImageSectionHeader (dot ["pointer_to_raw_data"]) m p
    = Some (PeLoader.pointer_to_raw_data m p) /\
  size peloader.ImageSectionHeader = PeLoader.SECTION_HEADER_SIZE /\
  read_field peloader.ImageBaseRelocation (dot ["virtual_address"]) m p
    = Some (PeLoader.rel_virtual_address m p) /\
  read_field peloader.ImageBaseRelocation (dot ["size_of_block"]) m p = Some (PeLoader.size_of_block m p) /\
  size peloader.ImageBaseRelocation = PeLoader.BASE_RELOCATION_SIZE.
Proof.
  split_and!; try layout.
  intros i Hi entry. split; subst entry; [apply (directory_entry m p i _ 0)|apply (directory_entry m p i _ 4)]; done.
Qed.

(** the records read from a sector are the packed structures of part.rs, fat.rs
    and pe.rs overlaid on its bytes: every field the file-system and partition code
    uses is the one the declaration places there, and the records of a sector are as
    far apart as the declarations are long. *)
Theorem sector_records data :
  let num t f := le_combine <$> bytes_field t (dot [f]) data in
  let raw t f := bytes_field t (dot [f]) data in
  let gpt := Part.header_of data in
  let part0 := Part.entry_of data 0 in
  let bpb := Fat.header_of data in
  let bpb32 := Fat.header32_of data in
  let dir := Fat.directory_of data in
  let sec := PeFile.section_of data in
  num part.Header "signature" = Some (Part.signature gpt) /\
  num part.Header "first_usable_lba" = Some (Part.first_usable_lba gpt) /\
  num part.Header "last_usable_lba" = Some (Part.last_usable_lba gpt) /\
  num part.Header "first_part_lba" = Some (Part.first_part_lba gpt) /\
  num part.Header "part_count" = Some (Part.part_count gpt) /\
  raw part.PartitionEntry "type_guid" = Some (Part.type_guid part0) /\
  raw part.PartitionEntry "guid" = Some (Part.guid part0) /\
  num part.PartitionEntry "first_lba" = Some (Part.first_lba part0) /\
  num part.PartitionEntry "last_lba" = Some (Part.last_lba part0) /\
  size part.PartitionEntry = Z.of_nat Part.ENTRY_SIZE /\
  num fat.Header "bytes_per_sector" = Some (Fat.h_bytes_per_sector bpb) /\
  num fat.Header "sectors_per_cluster" = Some (Fat.h_sectors_per_cluster bpb) /\
  num fat.Header "reserved_sectors" = Some (Fat.h_reserved_sectors bpb) /\
  num fat.Header "fat_count" = Some (Fat.h_fat_count bpb) /\
  num fat.Header "root_dir_count" = Some (Fat.h_root_dir_count bpb) /\
  num fat.Header "legacy_sectors" = Some (Fat.h_legacy_sectors bpb) /\
  num fat.Header "legacy_sectors_per_fat" = Some (Fat.h_legacy_sectors_per_fat bpb) /\
  num fat.Header "sectors" = Some (Fat.h_sectors bpb) /\
  num fat.Fat32Header "sectors_per_fat" = Some (Fat.h32_sectors_per_fat bpb32) /\
  num fat.Fat32Header "root_cluster" = Some (Fat.h32_root_cluster bpb32) /\
  raw fat.FatDirectory "name" = Some (Fat.d_name dir) /\
  num fat.FatDirectory "flags" = Some (Fat.d_flags dir) /\
  num fat.FatDirectory "cluster_high" = Some (Fat.d_cluster_high dir) /\
  num fat.FatDirectory "cluster_low" = Some (Fat.d_cluster_low dir) /\
  num fat.FatDirectory "size" = Some (Fat.d_size dir) /\
  size fat.FatDirectory = 32 /\ size fat.FatLongNameEntry = 32 /\
  raw pe.Section "name" = Some (PeFile.name sec) /\
  num pe.Section "virt_size" = Some (PeFile.virt_size sec) /\
  num pe.Section "virt_address" = Some (PeFile.virt_address sec) /\
  num pe.Section "raw_size" = Some (PeFile.raw_size sec) /\
  num pe.Section "raw_offset" = Some (PeFile.raw_offset sec) /\
  size pe.Section = Z.of_nat PeFile.SECTION_SIZE.
Proof. cbv zeta. split_and!; layout. Qed.

(** ** Structures as they are stored *)

Lemma write_fields_cons t f v vs m base o u :
  offset_of t (map Field f) = Some (o, u) ->
  write_fields t m base ((f, v) :: vs) = write_fields t (store (Z.to_nat (size u)) m (base + o) v) base vs.
Proof. intros H. cbn [write_fields]. unfold write_field. by rewrite H. Qed.

(** One field after the other. *)
Ltac store_fields :=
  repeat (erewrite write_fields_cons by (vm_compute; reflexivity));
  cbn [write_fields size]; rewrite ?Z.add_0_r;
  repeat match goal with
  | |- context [Z.to_nat (Zpos ?n)] =>
      let x := eval vm_compute in (Z.to_nat (Zpos n)) in change (Z.to_nat (Zpos n)) with x
  end.

Lemma store_1 m a v : store 1 m a v = store8 m a v.
Proof. unfold store. cbn [le_split store_bytes]. unfold store8. by rewrite wrap_wrap. Qed.

(** C31: the firmware's stores of whole structures are the structure literals of the
    source, every field written to the place its declaration gives: a descriptor of
    the memory map, the block media and the block protocol, the header of a virtio
    request, the protocol of a loaded image, and the device path of an image in
    memory. *)
Theorem structure_stores m a d last_block cb media r sector st unload parent path base size :
  write_fields alloc.MemoryDescriptor m a
    [(["type"], Alloc.type_ d); (["physical_start"], Alloc.physical_start d);
     (["virtual_start"], Alloc.virtual_start d); (["number_of_pages"], Alloc.number_of_pages d);
     (["attribute"], Alloc.attribute d)] = Some (Services.store_descriptor m a d) /\
  write_fields efi_block.BlockIoMedia m a
    [(["media_id"], 0); (["removable_media"], 0); (["media_present"], 1); (["logical_partition"], 0);
     (["read_only"], 1); (["write_caching"], 0); (["block_size"], 512); (["io_align"], 0);
     (["last_block"], last_block)] = Some (EfiBlock.store_media m a last_block) /\
  write_fields efi_block.BlockIoProtocol m a
    [(["revision"], 0x10000); (["media"], media); (["reset"], EfiBlock.reset_fn cb);
     (["read_blocks"], EfiBlock.read_fn cb); (["write_blocks"], EfiBlock.write_fn cb);
     (["flush_blocks"], EfiBlock.flush_fn cb)] = Some (EfiBlock.store_proto cb m a media) /\
  write_fields block.BlockRequestHeader m a
    [(["request"], VirtioBlock.request_u32 r); (["reserved"], 0); (["sector"], sector)]
    = Some (VirtioBlock.store_header m a r sector) /\
  write_fields image.LoadedImageProtocol m a
    [(["revision"], Image.LOADED_IMAGE_REVISION); (["parent_handle"], parent); (["system_table"], st);
     (["device_handle"], 0); (["file_path"], path); (["reserved"], 0); (["load_options_size"], 0);
     (["load_options"], 0); (["image_base"], base); (["image_size"], size);
     (["image_code_type"], memory_type_u32 LoaderCode);
     (["image_data_type"], memory_type_u32 BootServicesData); (["unload"], unload)]
    = Some (Image.store_loaded_image st unload m a parent path base size) /\
  (let path := Boot.memory_mapped_path base size in
   let node f := bytes_field efi.FullMemoryMappedDevicePath (dot ["memory_map"; f]) path in
   Z.of_nat (length path) = Layout.size efi.FullMemoryMappedDevicePath /\
   node "header" = Some [1; 3; Layout.size efi_device_path.MemoryMaped; 0] /\
   node "memory_type" = Some (le_split 4 (memory_type_u32 BootServicesCode)) /\
   node "start_address" = Some (le_split 8 base) /\
   node "end_address" = Some (le_split 8 (u64 (u64 (base + size) - 1)))).
Proof.
  cbv zeta. split_and!; try layout; store_fields; try reflexivity.
  unfold EfiBlock.store_media. cbn [store_bytes]. rewrite !store_1, <- !Z.add_assoc. reflexivity.
Qed.

(** the offsets and sizes with which the boot code, the image services, the
    block and file protocols and the handle table are written are those of the
    declarations of r-efi and of the firmware. *)
Theorem table_offsets :
  let at_ t f := fst <$> offset_of t (dot [f]) in
  (at_ system.SystemTable "console_in_handle" = Some Boot.CONSOLE_IN_HANDLE /\
   at_ system.SystemTable "con_in" = Some Boot.CON_IN /\
   at_ system.SystemTable "console_out_handle" = Some Boot.CONSOLE_OUT_HANDLE /\
   at_ system.SystemTable "con_out" = Some Boot.CON_OUT /\
   at_ system.SystemTable "standard_error_handle" = Some Boot.STANDARD_ERROR_HANDLE /\
   at_ system.SystemTable "std_err" = Some Boot.STD_ERR /\
   at_ system.SystemTable "runtime_services" = Some Boot.RUNTIME_SERVICES /\
   at_ system.SystemTable "boot_services" = Some Boot.BOOT_SERVICES /\
   at_ system.SystemTable "number_of_table_entries" = Some Boot.NUMBER_OF_TABLE_ENTRIES /\
   at_ system.SystemTable "configuration_table" = Some Boot.CONFIGURATION_TABLE /\
   at_ simple_text_output.Protocol "mode" = Some Boot.STDOUT_MODE /\
   at_ system.BootServices "install_multiple_protocol_interfaces" = Some Boot.INSTALL_MULTIPLE /\
   at_ system.BootServices "uninstall_multiple_protocol_interfaces" = Some Boot.UNINSTALL_MULTIPLE /\
   at_ system.ConfigurationTable "vendor_table" = Some 16 /\
   size file.Info + 1024 = Boot.INFO_BUFFER_SIZE) /\
  (at_ image.ImageInfo "source_buffer" = Some Image.SOURCE_BUFFER /\
   at_ image.ImageInfo "source_size" = Some Image.SOURCE_SIZE /\
   at_ image.ImageInfo "entry_point" = Some Image.ENTRY_POINT /\
   at_ image.ImageInfo "loaded_image" = Some Image.LOADED_IMAGE /\
   size image.ImageInfo = Image.IMAGE_INFO_SIZE) /\
  (at_ efi_block.BlockWrapper "hw" = Some 0 /\
   at_ efi_block.BlockWrapper "block" = Some EfiBlock.BLOCK /\
   at_ efi_block.BlockWrapper "media" = Some EfiBlock.MEDIA /\
   at_ efi_block.BlockWrapper "proto" = Some EfiBlock.PROTO /\
   at_ efi_block.BlockWrapper "controller_path" = Some EfiBlock.CONTROLLER_PATH /\
   at_ efi_block.BlockWrapper "disk_paths" = Some EfiBlock.DISK_PATHS /\
   at_ efi_block.BlockWrapper "start_lba" = Some EfiBlock.START_LBA /\
   size efi_block.BlockWrapper = EfiBlock.WRAPPER_SIZE) /\
  (at_ efi_file.FileInfo "file_size" = Some EfiFile.INFO_FILE_SIZE /\
   at_ efi_file.FileInfo "physical_size" = Some EfiFile.INFO_PHYSICAL_SIZE /\
   at_ efi_file.FileInfo "attribute" = Some EfiFile.INFO_ATTRIBUTE /\
   at_ efi_file.FileInfo "file_name" = Some EfiFile.INFO_FILE_NAME /\
   size efi_file.FileInfo = EfiFile.FILE_INFO_SIZE) /\
  (size alloc.MemoryDescriptor = Services.DESCRIPTOR_SIZE /\
   size handle_database.ProtocolHandle = Services.HANDLE_SIZE /\
   size block.BlockRequestHeader = VirtioBlock.HEADER_SIZE /\
   size block.BlockRequestFooter = VirtioBlock.FOOTER_SIZE /\
   size bzimage.E820Entry = BzImage.E820_SIZE).
Proof. vm_compute. split_and!; reflexivity. Qed.

(** every structure the firmware declares again, or lays over one of r-efi's,
    has the same field offsets and sizes as r-efi's: the memory descriptor, the
    block media and protocol, the loaded-image protocol, the hard-drive and PCI
    device path nodes; and its file information agrees with r-efi's up to the name,
    which is an array in the one and a pointer in the other. *)
Theorem firmware_copies_agree :
  shape alloc.MemoryDescriptor = shape system.MemoryDescriptor /\
  shape efi_block.BlockIoMedia = shape block_io.BlockIoMedia /\
  shape efi_block.BlockIoProtocol = shape block_io.Protocol /\
  shape image.LoadedImageProtocol = shape loaded_image.Protocol /\
  shape efi.HardDriveDevicePathNode = shape device_path.HardDriveDevicePathNode /\
  shape init.HardDriveDevicePathNode = shape device_path.HardDriveDevicePathNode /\
  shape efi_block.HardDiskDevicePathProtocol = shape device_path.HardDriveDevicePathNode /\
  shape efi.HardDriveDevicePath = shape device_path.HardDriveDevicePath /\
  shape init.HardDriveDevicePath = shape device_path.HardDriveDevicePath /\
  shape efi.PciDevicePathNode = shape device_path.PciDevicePathNode /\
  shape efi.PciDevicePath = shape device_path.PciDevicePath /\
  shape efi_hii_string.Protocol = shape hii_string.Protocol /\
  take 7 (shape efi_file.FileInfo) = take 7 (shape file.Info) /\
  fst <$> (shape efi_file.FileInfo) = fst <$> (shape file.Info).
Proof. vm_compute. split_and!; reflexivity. Qed.

(** ** The device path of a block wrapper *)

(** The controller node in front of the disk's path. *)
Lemma controller_node cb m bw lb number start last uuid : length uuid = 16%nat ->
  node_at (EfiBlock.store_wrapper cb m bw lb number start last uuid) (bw + EfiBlock.CONTROLLER_PATH) (mkNode 1 5 8).
Proof.
  intros Hu. set (m' := EfiBlock.store_wrapper _ _ _ _ _ _ _ _).
  assert (Hp : load_bytes m' (bw + EfiBlock.CONTROLLER_PATH) 8 = ([1; 5; 8; 0] ++ le_split 4 0)%list).
  { subst m'. unfold EfiBlock.store_wrapper.
    eapply (load_bytes_kept _ _ _ ([1; 5; 8; 0] ++ le_split 4 0)%list).
    { rewrite Forall_app. split; [by repeat constructor|apply le_split_ok]. }
    intros x Hx. cbn [length app le_split] in Hx.
    unfold EfiBlock.CONTROLLER_PATH, EfiBlock.DISK_PATHS, EfiBlock.START_LBA in *.
    rewrite load8_store_out, load8_store_bytes_out by lia. done. }
  pose proof (load8_of_bytes m' (bw + EfiBlock.CONTROLLER_PATH) ([1; 5; 8; 0] ++ le_split 4 0) ) as H8.
  specialize (fun i b => H8 i b Hp).
  pose proof (H8 0%nat _ eq_refl) as H0. rewrite Z.add_0_r in H0.
  by apply node_at_bytes; [|apply (H8 1%nat)|apply (H8 2%nat)|apply (H8 3%nat)|].
Qed.

(** C32: the device path of a block wrapper flows from one member into the next: from
    the controller path a walk meets a node for each declared structure, each as
    long as the structure is, up to the end node inside [disk_paths]; measured from
    either member the path is exactly the members that hold it; and the hard-disk
    node's fields hold the partition's number, first block, length and GUID. *)
Theorem device_path_flows cb m bw lb number start last uuid :
  length uuid = 16%nat -> bytes_ok uuid -> 0 <= start < 2 ^ 64 -> 0 <= lb < 2 ^ 64 ->
  0 <= bw -> bw + EfiBlock.WRAPPER_SIZE < 2 ^ 64 ->
  let m' := EfiBlock.store_wrapper cb m bw lb number start last uuid in
  let hard_disk f := bytes_field efi_block.BlockDevicePath (dot ["hard_disk"; f])
                       (load_bytes m' (bw + EfiBlock.DISK_PATHS) (Z.to_nat (size efi_block.BlockDevicePath))) in
  path_at m' (bw + EfiBlock.CONTROLLER_PATH)
    [mkNode 1 5 (size efi_block.ControllerDevicePathProtocol); mkNode 1 1 (size device_path.PciDevicePathNode);
     mkNode 4 1 (size efi_block.HardDiskDevicePathProtocol)] (mkNode 0x7f 0xff (size device_path.Protocol)) /\
  DevicePath.get_device_path_size 4 m' (bw + EfiBlock.CONTROLLER_PATH)
    = Done (size efi_block.ControllerDevicePathProtocol + size efi_block.BlockDevicePath) /\
  DevicePath.get_device_path_size 3 m' (bw + EfiBlock.DISK_PATHS) = Done (size efi_block.BlockDevicePath) /\
  hard_disk "partition_number" = Some (le_split 4 number) /\
  hard_disk "partition_start" = Some (le_split 8 start) /\
  hard_disk "partition_size" = Some (le_split 8 (u64 (u64 (last - start) + 1))) /\
  hard_disk "partition_signature" = Some uuid.
Proof.
  intros Hu Hub Hs Hlb Hbw Hend m' hard_disk.
  pose proof (store_wrapper_at cb m bw lb number start last uuid Hu Hub Hs Hlb Hbw Hend) as Hw.
  pose proof (wrapper_path _ _ _ _ _ _ _ Hw Hu Hbw Hend) as Hp.
  pose proof (controller_node cb m bw lb number start last uuid Hu) as Hc. fold m' in Hw, Hp, Hc.
  assert (Hpath : path_at m' (bw + EfiBlock.CONTROLLER_PATH) [mkNode 1 5 8; mkNode 1 1 6; mkNode 4 1 42]
                    (mkNode 0x7f 0xff 4)).
  { split; [exact Hc|]. split; [done|]. split; [unfold EfiBlock.CONTROLLER_PATH; lia|].
    cbn [nsize]. rewrite <- Z.add_assoc. exact Hp. }
  split; [exact Hpath|].
  split. { unfold DevicePath.get_device_path_size. rewrite (size_loop_spec _ _ _ _ _ _ Hpath); done || cbn; lia. }
  split. { unfold DevicePath.get_device_path_size. rewrite (size_loop_spec _ _ _ _ _ _ Hp); done || cbn; lia. }
  subst hard_disk. destruct Hw as [_ Hb _ _ _]. cbv beta.
  change (Z.to_nat (size efi_block.BlockDevicePath)) with 52%nat. rewrite Hb.
  do 16 (destruct uuid as [|? uuid]; [discriminate Hu|]). destruct uuid; [|discriminate Hu].
  split_and!; layout.
Qed.

Lemma device_path_flows_witness :
  DevicePath.get_device_path_size 4
    (EfiBlock.store_wrapper (EfiBlock.mkCallbacks 1 2 3 4 5) ∅ 0x1000 99 1 34 2081 (replicate 16 7))
    (0x1000 + EfiBlock.CONTROLLER_PATH)
  = Done (size efi_block.ControllerDevicePathProtocol + size efi_block.BlockDevicePath).
Proof.
  refine (proj1 (proj2 (device_path_flows (EfiBlock.mkCallbacks 1 2 3 4 5) ∅ 0x1000 99 1 34 2081 (replicate 16 7)
    _ _ _ _ _ _))); [done| |lia|lia|lia|unfold EfiBlock.WRAPPER_SIZE; lia].
  apply Forall_replicate. unfold is_byte. lia.
Defined.

(** ** Enumerations *)

(** The numbers the model gives to the enumerations of system.rs are the positions
    of the variants. *)
Lemma enum_discriminants :
  map Some [memory_type_u32 ReservedMemoryType; memory_type_u32 LoaderCode; memory_type_u32 LoaderData;
            memory_type_u32 BootServicesCode; memory_type_u32 BootServicesData;
            memory_type_u32 RuntimeServicesCode; memory_type_u32 RuntimeServicesData;
            memory_type_u32 ConventionalMemory; memory_type_u32 UnusableMemory;
            memory_type_u32 AcpiReclaimMemory; memory_type_u32 AcpiMemoryNvs; memory_type_u32 MemoryMappedIO;
            memory_type_u32 MemoryMappedIOPortSpace; memory_type_u32 PalCode; memory_type_u32 PersistentMemory]
  = map (discriminant system.MemoryType)
      ["ReservedMemoryType"; "LoaderCode"; "LoaderData"; "BootServicesCode"; "BootServicesData";
       "RuntimeServicesCode"; "RuntimeServicesData"; "ConventionalMemory"; "UnusableMemory"; "AcpiReclaimMemory";
       "AcpiMemoryNvs"; "MemoryMappedIO"; "MemoryMappedIOPortSpace"; "PalCode"; "PersistentMemory"].
Proof. vm_compute. reflexivity. Qed.

(** ** The unit test of base.rs *)

(** [type_size_and_alignment]: the types it compares, in order. *)
Definition same_layout (t u : Ty) : bool := (size t =? size u) && (align t =? align u).
Definition type_size_and_alignment : res unit :=
  _ ← assert_ (size rbase.Boolean =? 1); _ ← assert_ (align rbase.Boolean =? 1);
  _ ← assert_ (size rbase.Char8 =? 1); _ ← assert_ (align rbase.Char8 =? 1);
  _ ← assert_ (size rbase.Char16 =? 2); _ ← assert_ (align rbase.Char16 =? 2);
  _ ← assert_ (same_layout rbase.Char8 U8); _ ← assert_ (same_layout rbase.Char16 U16);
  _ ← assert_ (same_layout rbase.Status Usize);
  _ ← assert_ (same_layout rbase.Handle Usize); _ ← assert_ (same_layout rbase.Event Usize);
  _ ← assert_ (same_layout rbase.Handle (Ptr "()")); _ ← assert_ (same_layout rbase.Event (Ptr "()"));
  _ ← assert_ (same_layout rbase.Lba U64); _ ← assert_ (same_layout rbase.Tpl Usize);
  _ ← assert_ (same_layout rbase.PhysicalAddress U64); _ ← assert_ (same_layout rbase.VirtualAddress U64);
  _ ← assert_ (same_layout rbase.ImageEntryPoint (Fn [] None));
  _ ← assert_ (size rbase.Guid =? 16); _ ← assert_ (align rbase.Guid =? 8);
  Done tt.

Lemma type_size_and_alignment_passes : type_size_and_alignment = Done tt.
Proof. vm_compute. reflexivity. Qed.
