(* ===== verification/Dump.v ===== *)
(** * The dumpers (pi/hob_lib.rs, efi/device_path.rs, efi/peloader.rs, pci.rs)

    The functions that print structures to the log.  [dump_hob] and [print_bus]
    run on every boot and [pe_dumper] before every image is loaded, so that their
    loops must end for the boot to go on.  The texts are those of the format
    strings; fields are read where the declarations of [FwStructs] put them. *)

From stdpp Require Import strings.
From S2P Require Import Prelude REfi Mem Layout Structs FwStructs Console DevicePath VirtioPci Hob HobProps OsFmt.
Import OsFmt.

#[local] Open Scope string_scope.
#[local] Open Scope list_scope.
#[local] Open Scope Z_scope.

Module Dump.

(** ** Formatting *)

Definition str (s : string) : list Z := map (fun c => Z.of_N (Ascii.N_of_ascii c)) (String.list_ascii_of_string s).
Definition NL : list Z := [10].
Definition TAB : Z := 9.
Definition tabs (n : nat) : list Z := replicate n TAB.

(** [{:x}]: no leading zeros. *)
Definition hex_width (v : Z) : nat := S (Z.to_nat (Z.log2 v / 4)).
Definition lower_hex (v : Z) : list Z := hex (hex_width v) v.

(** [{}], and [{:?}] of a number. *)
Fixpoint dec_loop (fuel : nat) (v : Z) (tail : list Z) : list Z :=
  match fuel with
  | O => tail
  | S fuel =>
      let tail := (0x30 + v mod 10) :: tail in
      if v / 10 =? 0 then tail else dec_loop fuel (v / 10) tail
  end.
(** A 64-bit number has at most 20 digits. *)
Definition decimal (v : Z) : list Z := dec_loop 20 v [].

(** Several [log!] calls one after the other. *)
Definition logs (s : Logger.t) (texts : list (list Z)) : Logger.t := foldl log s texts.

(** A field of the structure at [a]. *)
Definition get (t : Ty) (m : memory) (a : Z) (path : list string) : Z := default 0 (read_field t (dot path) m a).

(** The last byte of a range, in 64 bits. *)
Definition last_byte (base len : Z) : Z := u64 (u64 (base + len) - 1).

(** ** pi/hob_lib.rs *)

Definition HOB_TYPE_HANDOFF : Z := 0x0001.
Definition HOB_TYPE_CPU : Z := 0x0006.

Definition dump_hob_header (m : memory) (h : Z) : list (list Z) :=
  [str "Hob:" ++ NL;
   str "  header.type            - 0x" ++ lower_hex (get hob.Header m h ["type"]) ++ NL;
   str "  header.length          - 0x" ++ lower_hex (get hob.Header m h ["length"]) ++ NL].

Definition dump_phit_hob (m : memory) (h : Z) : list (list Z) :=
  let phit := get hob.HandoffInfoTable m h in
  [str "PhitHob:" ++ NL;
   str "  version                - 0x" ++ lower_hex (phit ["version"]) ++ NL;
   str "  boot_mode              - 0x" ++ lower_hex (phit ["boot_mode"]) ++ NL;
   str "  efi_memory_top         - 0x" ++ hex 16 (phit ["efi_memory_top"]) ++ NL;
   str "  efi_memory_bottom      - 0x" ++ hex 16 (phit ["efi_memory_bottom"]) ++ NL;
   str "  efi_free_memory_top    - 0x" ++ hex 16 (phit ["efi_free_memory_top"]) ++ NL;
   str "  efi_free_memory_bottom - 0x" ++ hex 16 (phit ["efi_free_memory_bottom"]) ++ NL;
   str "  efi_end_of_hob_list    - 0x" ++ hex 16 (phit ["efi_end_of_hob_list"]) ++ NL].

(** The line of a resource, by the values printed. *)
Definition resource_line (ty start len attribute : Z) : list Z :=
  str "ResourceDescription 0x" ++ hex 8 ty ++ str " : 0x" ++ hex 16 start ++ str " - 0x"
  ++ hex 16 (last_byte start len) ++ str " (0x" ++ hex 8 attribute ++ str ")" ++ NL.
Definition dump_resource_hob (m : memory) (h : Z) : list (list Z) :=
  let resource := get hob.ResourceDescription m h in
  [resource_line (resource ["resource_type"]) (resource ["physical_start"]) (resource ["resource_length"])
     (resource ["resource_attribute"])].

Definition allocation_line (ty base len : Z) : list Z :=
  str "MemoryAllocation 0x" ++ hex 8 ty ++ str " : 0x" ++ hex 16 base ++ str " - 0x"
  ++ hex 16 (last_byte base len) ++ NL.
Definition dump_allocation_hob (m : memory) (h : Z) : list (list Z) :=
  let descriptor f := get hob.MemoryAllocation m h ["alloc_descriptor"; f] in
  [allocation_line (descriptor "memory_type") (descriptor "memory_base_address") (descriptor "memory_length")].

Definition volume_line (base len : Z) : list Z :=
  str "FirmwareVolume : 0x" ++ hex 16 base ++ str " - 0x" ++ hex 16 (last_byte base len) ++ NL.
Definition dump_fv_hob (m : memory) (h : Z) : list (list Z) :=
  [volume_line (get hob.FirmwareVolume m h ["base_address"]) (get hob.FirmwareVolume m h ["length"])].

Definition dump_cpu_hob (m : memory) (h : Z) : list (list Z) :=
  [str "Cpu : mem size " ++ decimal (get hob.Cpu m h ["size_of_memory_space"]) ++ str " , io size "
   ++ decimal (get hob.Cpu m h ["size_of_io_space"]) ++ NL].

Fixpoint dump_hob (fuel : nat) (m : memory) (h : Z) (s : Logger.t) : res Logger.t :=
  match fuel with
  | O => OutOfFuel
  | S fuel =>
      let ty := Hob.type_ m h in
      if ty =? HOB_TYPE_HANDOFF then dump_hob fuel m (Hob.next m h) (logs s (dump_phit_hob m h))
      else if ty =? Hob.HOB_TYPE_RESOURCE_DESCRIPTOR then
        dump_hob fuel m (Hob.next m h) (logs s (dump_resource_hob m h))
      else if ty =? Hob.HOB_TYPE_MEMORY_ALLOCATION then
        dump_hob fuel m (Hob.next m h) (logs s (dump_allocation_hob m h))
      else if ty =? Hob.HOB_TYPE_FV then dump_hob fuel m (Hob.next m h) (logs s (dump_fv_hob m h))
      else if ty =? HOB_TYPE_CPU then dump_hob fuel m (Hob.next m h) (logs s (dump_cpu_hob m h))
      else if ty =? Hob.HOB_TYPE_END_OF_HOB_LIST then Done s
      else dump_hob fuel m (Hob.next m h) (logs s (dump_hob_header m h))
  end.

(** ** efi/device_path.rs *)

(** [for i in 0 .. size]: the bytes of a node, eight to a line. *)
Definition dump_byte (m : memory) (dp i : Z) : list (list Z) :=
  (if i mod 8 =? 0 then [NL] else []) ++ [decimal (load8 m (usize (dp + i))) ++ str " "].
Definition dump_device_path (m : memory) (dp : Z) : list (list Z) :=
  let size := DevicePath.get_device_path_node_size m dp in
  [str "node_type: " ++ decimal (DevicePath.get_device_path_node_type m dp) ++ str " node_size: " ++ decimal size
   ++ str " node_data:"] ++ concat (map (dump_byte m dp) (seqZ 0 size)) ++ [NL].

Fixpoint print_device_path (fuel : nat) (m : memory) (dp : Z) (s : Logger.t) : res Logger.t :=
  match fuel with
  | O => OutOfFuel
  | S fuel =>
      let s := logs s (dump_device_path m dp) in
      if DevicePath.at_end m dp then Done s
      else print_device_path fuel m (DevicePath.get_next_device_path_node m dp) s
  end.

(** ** efi/peloader.rs *)

(** A value of the file or optional header, with the label behind it. *)
Definition value_line (v : Z) (label : string) : list Z :=
  NL ++ tabs 4 ++ lower_hex v ++ str " " ++ [TAB] ++ str label.

Definition pe_dumper_header (m : memory) (start : Z) : list (list Z) :=
  let e_lfanew := get peloader.ImageDosHeader m start ["e_lfanew"] in
  let nt := get peloader.ImageNtHeader64 m (usize (start + e_lfanew)) in
  [str "DOS Header" ++ NL;
   [TAB] ++ str " Magic Number:" ++ tabs 4 ++ lower_hex (get peloader.ImageDosHeader m start ["e_magic"]);
   [TAB] ++ str " PE header offset:" ++ tabs 4 ++ lower_hex e_lfanew;
   NL ++ str "PE Signature:" ++ NL ++ str " " ++ tabs 4 ++ str " " ++ lower_hex (nt ["signature"]);
   NL ++ str "File Type: ";
   NL ++ str "FILE HEADER VALUES";
   value_line (nt ["file_header"; "machine"]) " Machine ";
   value_line (nt ["file_header"; "number_of_sections"]) " NumberOfSections ";
   value_line (nt ["file_header"; "time_date_stamp"]) " TimeDateStamp ";
   value_line (nt ["file_header"; "pointer_to_symbol_table"]) " PointerToSymbolTable ";
   value_line (nt ["file_header"; "number_of_symbols"]) " NumberOfSymbols ";
   value_line (nt ["file_header"; "size_of_optional_header"]) " SizeOfOptionalHeader ";
   value_line (nt ["file_header"; "characteristics"]) " Characteristics ";
   NL ++ str "OPTIONAL HEADER VALUES";
   value_line (nt ["optional_header"; "magic"]) " Magic  ";
   value_line (nt ["optional_header"; "major_linker_version"]) " MajorLinkerVersion   ";
   value_line (nt ["optional_header"; "minor_linker_version"]) " MinorLinkerVersion   ";
   value_line (nt ["optional_header"; "size_of_code"]) " SizeOfCode   ";
   value_line (nt ["optional_header"; "size_of_initialized_data"]) " SizeOfInitializedData   ";
   value_line (nt ["optional_header"; "size_of_uninitialized_data"]) " SizeOfUninitializedData   ";
   value_line (nt ["optional_header"; "address_of_entry_point"]) " AddressOfEntryPoint   ";
   value_line (nt ["optional_header"; "base_of_code"]) " BaseOfCode    ";
   NL].
Definition pe_dumper (m : memory) (buffer : Z) (s : Logger.t) : Logger.t := logs s (pe_dumper_header m buffer).

(** ** pci.rs *)

Definition device_line (vendor_id device_id device : Z) : list Z :=
  str "Found PCI device vendor=" ++ lower_hex vendor_id ++ str " device=" ++ lower_hex device_id
  ++ str " in slot=" ++ decimal device ++ NL.

Section Bus.
Context {W : Type} `{Bus W}.

(** [for device in 0..MAX_DEVICES], [n] of them left. *)
Fixpoint print_from (n : nat) (device : Z) (s : Logger.t) (w : W) : res (Logger.t * W) :=
  match n with
  | O => Done (s, w)
  | S n =>
      '(vendor_id, device_id, w) ← Pci.get_device_details 0 device 0 w;
      if vendor_id =? Pci.INVALID_VENDOR_ID then print_from n (device + 1) s w
      else print_from n (device + 1) (log s (device_line vendor_id device_id device)) w
  end.
Definition print_bus (s : Logger.t) (w : W) : res (Logger.t * W) := print_from (Z.to_nat Pci.MAX_DEVICES) 0 s w.
End Bus.
End Dump.

Import Dump.

(** ** What the log shows *)

(** What the serial port sends for a text: a carriage return before each line feed. *)
Definition crlf (text : list Z) : list Z := concat (map (fun b => if b =? 0x0a then [0x0d; b] else [b]) text).

(** The logger prints what [log!] is given. *)
Definition verbose (s : Logger.t) : Prop :=
  Logger.LOG_LEVEL_VERBOSE <= Logger.level s /\ Z.land Logger.LOG_MASK_COMMON (Logger.mask s) <> 0.

Lemma write_string_spec text s : bytes_ok text ->
  Logger.write_string s text = Logger.mk (Logger.port s ++ crlf text) (Logger.level s) (Logger.mask s).
Proof.
  intros H. revert s. induction H as [|b text Hb Ht IH]; intros s; cbn [Logger.write_string].
  - unfold crlf. cbn. rewrite app_nil_r. by destruct s.
  - rewrite IH. unfold Logger.write_byte. cbn [Logger.port Logger.level Logger.mask].
    unfold is_byte in Hb. rewrite (wrap_small 8) by lia. unfold crlf. cbn [map concat]. by rewrite app_assoc.
Qed.

Lemma logs_spec texts s : verbose s -> Forall bytes_ok texts ->
  logs s texts = Logger.mk (Logger.port s ++ crlf (concat texts)) (Logger.level s) (Logger.mask s).
Proof.
  intros Hv H. revert s Hv. induction H as [|t texts Ht H IH]; intros s Hv.
  - unfold logs, crlf. cbn. rewrite app_nil_r. by destruct s.
  - unfold logs in *. cbn [foldl].
    assert (E : log s t = Logger.mk (Logger.port s ++ crlf t) (Logger.level s) (Logger.mask s)).
    { destruct Hv as [Hl Hm]. unfold log, Logger.log_ex_, Logger.get_level, Logger.get_mask, Logger.log_.
      rewrite (proj2 (Z.ltb_ge _ _)) by done. rewrite (proj2 (Z.eqb_neq _ _)) by done. by apply write_string_spec. }
    rewrite E, IH by done. cbn [Logger.port Logger.level Logger.mask concat].
    unfold crlf. by rewrite map_app, concat_app, app_assoc.
Qed.

Lemma logs_app s t1 t2 : logs (logs s t1) t2 = logs s (t1 ++ t2).
Proof. unfold logs. by rewrite foldl_app. Qed.

(** *** Printed numbers *)

Lemma hex_ok w v : bytes_ok (hex w v).
Proof.
  revert v. induction w as [|w IH]; intros v; cbn [hex]; [constructor|]. apply Forall_app. split; [done|].
  constructor; [|constructor]. unfold hex_digit, is_byte. pose proof (Z.mod_pos_bound v 16). case_match; lia.
Qed.

(** [{:x}] prints the whole number. *)
Lemma lower_hex_parses v : 0 <= v -> parse_hex (lower_hex v) = v.
Proof.
  intros Hv. unfold lower_hex. apply parse_hex_hex. split; [done|]. unfold hex_width.
  pose proof (Z.log2_nonneg v). rewrite Nat2Z.inj_succ, Z2Nat.id by (apply Z.div_pos; lia).
  destruct (Z.eq_dec v 0) as [->|]; [done|].
  eapply Z.lt_le_trans; [apply Z.log2_spec; lia|].
  change 16 with (2 ^ 4). rewrite <- Z.pow_mul_r by (try lia; apply Z.le_le_succ_r, Z.div_pos; lia).
  apply Z.pow_le_mono_r; [lia|]. pose proof (Z.div_mod (Z.log2 v) 4). pose proof (Z.mod_pos_bound (Z.log2 v) 4). lia.
Qed.

Definition parse_dec (cs : list Z) : Z := foldl (fun v c => 10 * v + (c - 0x30)) 0 cs.

Lemma dec_loop_parses fuel : forall v tail, 0 <= v < 10 ^ Z.of_nat fuel ->
  (exists ds, dec_loop fuel v tail = ds ++ tail /\ parse_dec ds = v).
Proof.
  induction fuel as [|fuel IH]; intros v tail Hv; cbn [dec_loop].
  - exists []. cbn in Hv. split; [done|]. cbn. lia.
  - rewrite Nat2Z.inj_succ, Z.pow_succ_r in Hv by lia.
    pose proof (Z.div_mod v 10). pose proof (Z.mod_pos_bound v 10).
    destruct (Z.eqb_spec (v / 10) 0) as [E|E].
    + exists [0x30 + v mod 10]. split; [done|]. unfold parse_dec. cbn [foldl]. lia.
    + destruct (IH (v / 10) ((0x30 + v mod 10) :: tail)) as (ds & -> & Hd).
      { split; [apply Z.div_pos; lia|apply Z.div_lt_upper_bound; lia]. }
      exists (ds ++ [0x30 + v mod 10]). rewrite <- app_assoc. split; [done|].
      unfold parse_dec in *. rewrite foldl_app, Hd. cbn [foldl]. lia.
Qed.

Lemma decimal_parses v : 0 <= v < 2 ^ 64 -> parse_dec (decimal v) = v.
Proof.
  intros Hv. destruct (dec_loop_parses 20 v []) as (ds & E & Hd); [norm_pow; lia|].
  unfold decimal. by rewrite E, app_nil_r.
Qed.

(** ** HOB lists *)

(** The lines of a record that [list_at] does not describe further. *)
Definition other_lines (m : memory) (h : Z) : list (list Z) :=
  if Hob.type_ m h =? HOB_TYPE_HANDOFF then dump_phit_hob m h
  else if Hob.type_ m h =? HOB_TYPE_CPU then dump_cpu_hob m h
  else dump_hob_header m h.
Definition record_lines (m : memory) (h : Z) (r : Record_) : list (list Z) :=
  match r with
  | Resource ty start len =>
      [resource_line ty start len (get hob.ResourceDescription m h ["resource_attribute"])]
  | Allocated t base len => [allocation_line (memory_type_u32 t) base len]
  | Volume base len => [volume_line base len]
  | Other => other_lines m h
  end.
Fixpoint list_lines (m : memory) (h : Z) (l : list Record_) : list (list Z) :=
  match l with
  | [] => []
  | r :: l => record_lines m h r ++ list_lines m (Hob.next m h) l
  end.

Lemma dump_record fuel m h r s : record_at m h r ->
  dump_hob (S fuel) m h s = dump_hob fuel m (Hob.next m h) (logs s (record_lines m h r)).
Proof.
  intros Hr. cbn [dump_hob]. destruct r as [ty start len|t base len|base len|]; cbn [record_at record_lines] in *.
  - destruct Hr as (-> & <- & <- & <-). done.
  - destruct Hr as (-> & Ht & <- & <-). rewrite <- Ht. done.
  - destruct Hr as (-> & <- & <-). done.
  - destruct Hr as (H1 & H2 & H3 & H4). unfold other_lines.
    repeat match goal with |- context [?a =? ?b] => destruct (Z.eqb_spec a b); try congruence end; done.
Qed.

Lemma dump_hob_spec l : forall fuel m h s, list_at m h l -> (length l < fuel)%nat ->
  dump_hob fuel m h s = Done (logs s (list_lines m h l)).
Proof.
  induction l as [|r l IH]; intros fuel m h s Hl Hf; (destruct fuel as [|fuel]; [cbn in Hf; lia|]).
  - cbn [list_at] in Hl. cbn [dump_hob]. by rewrite Hl.
  - destruct Hl as [Hr Hl]. rewrite (dump_record _ _ _ _ _ Hr), IH by (cbn in Hf; done || lia).
    by rewrite logs_app.
Qed.

(** *** Texts are bytes *)

Lemma str_ok s : bytes_ok (str s).
Proof.
  apply Forall_forall. intros b Hb. apply list_elem_of_In, in_map_iff in Hb as (c & <- & _).
  unfold is_byte. pose proof (Ascii.N_ascii_bounded c). lia.
Qed.
Lemma lower_hex_ok v : bytes_ok (lower_hex v).
Proof. apply hex_ok. Qed.
Lemma dec_loop_ok fuel : forall v tail, bytes_ok tail -> bytes_ok (dec_loop fuel v tail).
Proof.
  induction fuel as [|fuel IH]; intros v tail Ht; cbn [dec_loop]; [done|].
  assert (bytes_ok ((0x30 + v mod 10) :: tail)).
  { constructor; [|done]. unfold is_byte. pose proof (Z.mod_pos_bound v 10). lia. }
  case_match; auto.
Qed.
Lemma decimal_ok v : bytes_ok (decimal v).
Proof. apply dec_loop_ok. constructor. Qed.
Lemma NL_ok : bytes_ok NL.
Proof. repeat constructor; done. Qed.

Create HintDb text.
#[export] Hint Resolve str_ok hex_ok lower_hex_ok decimal_ok NL_ok Forall_app_2 Forall_nil_2 Forall_cons_2 : text.

Lemma list_lines_ok l : forall m h, Forall bytes_ok (list_lines m h l).
Proof.
  induction l as [|r l IH]; intros m h; cbn [list_lines]; [constructor|]. apply Forall_app_2; [|apply IH].
  destruct r; cbn [record_lines]; unfold resource_line, allocation_line, volume_line, other_lines,
    dump_phit_hob, dump_cpu_hob, dump_hob_header; repeat case_match; auto 30 with text.
Qed.

(** A printed field is found again by its position. *)
Lemma slice {A} (k n : nat) (pre mid post l : list A) : l = pre ++ mid ++ post -> length pre = k -> length mid = n ->
  take n (drop k l) = mid.
Proof. intros -> <- <-. by rewrite drop_app_length, take_app_length. Qed.

Lemma last_byte_range base len : 0 <= last_byte base len < 2 ^ 64.
Proof. apply wrap_range. lia. Qed.

Lemma resource_line_reads ty start len attribute :
  0 <= ty < 2 ^ 32 -> 0 <= start < 2 ^ 64 -> 0 <= attribute < 2 ^ 32 ->
  let line := resource_line ty start len attribute in
  parse_hex (take 8 (drop 22 line)) = ty /\ parse_hex (take 16 (drop 35 line)) = start /\
  parse_hex (take 16 (drop 56 line)) = last_byte start len /\ parse_hex (take 8 (drop 76 line)) = attribute.
Proof.
  intros Ht Hs Ha line. pose proof (last_byte_range start len).
  subst line. unfold resource_line. set (e := last_byte start len) in *.
  rewrite (slice 22 8 (str "ResourceDescription 0x") (hex 8 ty)
    (str " : 0x" ++ hex 16 start ++ str " - 0x" ++ hex 16 e ++ str " (0x" ++ hex 8 attribute ++ str ")" ++ NL))
    by (by rewrite ?length_hex).
  rewrite (slice 35 16 (str "ResourceDescription 0x" ++ hex 8 ty ++ str " : 0x") (hex 16 start)
    (str " - 0x" ++ hex 16 e ++ str " (0x" ++ hex 8 attribute ++ str ")" ++ NL))
    by (by rewrite ?length_app, ?length_hex, <- ?app_assoc).
  rewrite (slice 56 16 (str "ResourceDescription 0x" ++ hex 8 ty ++ str " : 0x" ++ hex 16 start ++ str " - 0x")
    (hex 16 e) (str " (0x" ++ hex 8 attribute ++ str ")" ++ NL))
    by (by rewrite ?length_app, ?length_hex, <- ?app_assoc).
  rewrite (slice 76 8 (str "ResourceDescription 0x" ++ hex 8 ty ++ str " : 0x" ++ hex 16 start ++ str " - 0x"
    ++ hex 16 e ++ str " (0x") (hex 8 attribute) (str ")" ++ NL))
    by (by rewrite ?length_app, ?length_hex, <- ?app_assoc).
  by rewrite !parse_hex_hex by (norm_pow; lia).
Qed.

Lemma logs_quiet s texts : ~ verbose s -> logs s texts = s.
Proof.
  intros Hq. induction texts as [|t texts IH] using rev_ind; [done|].
  unfold logs in *. rewrite foldl_app, IH. cbn [foldl]. unfold log, Logger.log_ex_, Logger.get_level, Logger.get_mask.
  destruct (Z.ltb_spec (Logger.level s) Logger.LOG_LEVEL_VERBOSE); [done|].
  destruct (Z.eqb_spec (Z.land Logger.LOG_MASK_COMMON (Logger.mask s)) 0); [done|]. by destruct Hq.
Qed.

(** [dump_hob] comes back on every HOB list that ends, having sent to the serial
    port the lines of each record once and in order (a memory resource, an
    allocation and a firmware volume with the values of the record); with the log
    turned down it sends nothing; and the type, first and last address and
    attributes of a resource can be read off its line. *)
Theorem dump_hob_correct m h l fuel s :
  list_at m h l -> (length l < fuel)%nat ->
  exists s', dump_hob fuel m h s = Done s' /\
    Logger.level s' = Logger.level s /\ Logger.mask s' = Logger.mask s /\
    (verbose s -> Logger.port s' = Logger.port s ++ crlf (concat (list_lines m h l))) /\
    (~ verbose s -> s' = s) /\
    (forall ty start len attribute, 0 <= ty < 2 ^ 32 -> 0 <= start < 2 ^ 64 -> 0 <= attribute < 2 ^ 32 ->
       let line := resource_line ty start len attribute in
       parse_hex (take 8 (drop 22 line)) = ty /\ parse_hex (take 16 (drop 35 line)) = start /\
       parse_hex (take 16 (drop 56 line)) = last_byte start len /\ parse_hex (take 8 (drop 76 line)) = attribute).
Proof.
  intros Hl Hf. exists (logs s (list_lines m h l)). split; [by apply dump_hob_spec|].
  assert (Hd : verbose s \/ ~ verbose s).
  { unfold verbose. destruct (Z.le_decidable Logger.LOG_LEVEL_VERBOSE (Logger.level s));
      destruct (Z.eq_dec (Z.land Logger.LOG_MASK_COMMON (Logger.mask s)) 0); tauto. }
  pose proof (fun Hv => logs_spec (list_lines m h l) s Hv (list_lines_ok l m h)) as Hs.
  pose proof (logs_quiet s (list_lines m h l)) as Hq.
  split_and!; [| | | |apply resource_line_reads].
  - destruct Hd as [Hd|Hd]; [by rewrite Hs|by rewrite Hq].
  - destruct Hd as [Hd|Hd]; [by rewrite Hs|by rewrite Hq].
  - intros Hv. by rewrite Hs.
  - done.
Qed.

Lemma dump_hob_correct_witness : exists s', dump_hob 3 demo_hobs 0x1000 Logger.new = Done s' /\
  Logger.port s' = crlf (concat (list_lines demo_hobs 0x1000 demo_list)).
Proof.
  destruct (dump_hob_correct demo_hobs 0x1000 demo_list 3 Logger.new demo_list_at ltac:(cbn; lia))
    as (s' & E & _ & _ & Hp & _).
  exists s'. split; [exact E|]. apply Hp. split; vm_compute; congruence.
Defined.

(** ** Device paths *)

Fixpoint path_lines (m : memory) (a : Z) (ns : list Node) : list (list Z) :=
  match ns with
  | [] => dump_device_path m a
  | n :: ns => dump_device_path m a ++ path_lines m (a + nsize n) ns
  end.

Lemma print_device_path_spec m e ns : forall fuel a s, path_at m a ns e -> (length ns < fuel)%nat ->
  print_device_path fuel m a s = Done (logs s (path_lines m a ns)).
Proof.
  induction ns as [|n ns IH]; intros fuel a s Hp Hf; (destruct fuel as [|fuel]; [cbn in Hf; lia|]);
    cbn [print_device_path path_lines path_at] in *.
  - destruct Hp as (Hn & He & _). by rewrite (node_at_end _ _ _ Hn), He.
  - destruct Hp as (Hn & He & Ha & Hp).
    rewrite (node_at_end _ _ _ Hn), He, (path_next _ _ _ _ _ Hn Hp Ha), IH by (try done; cbn in Hf; lia).
    by rewrite logs_app.
Qed.

(** The numbers of the bytes of a node are printed in order. *)
Definition printed_bytes (m : memory) (dp : Z) (size : nat) : list (list Z) :=
  map (fun i => decimal (load8 m (dp + Z.of_nat i)) ++ str " ") (seq 0 size).

Lemma node_bytes m dp (n : nat) : 0 <= dp -> dp + Z.of_nat n < 2 ^ 64 ->
  filter (fun t => t <> NL) (concat (map (dump_byte m dp) (seqZ 0 (Z.of_nat n)))) = printed_bytes m dp n.
Proof.
  intros Hd Hb. unfold printed_bytes, seqZ. rewrite Nat2Z.id, map_map.
  assert (H : Forall (fun i => (i < n)%nat) (seq 0 n)) by (apply Forall_forall; intros i Hi%elem_of_seq; lia).
  induction (seq 0 n) as [|i l IH]; [done|]. apply Forall_cons_1 in H as [Hi Hl].
  cbn [map concat]. rewrite filter_app, (IH Hl). f_equal. unfold dump_byte.
  rewrite Z.add_0_r, (wrap_small 64) by lia.
  assert (Ht : decimal (load8 m (dp + Z.of_nat i)) ++ str " " <> NL).
  { assert (Hsp : str " " = [32]) by reflexivity. rewrite Hsp. intros E%(f_equal last).
      rewrite last_snoc in E. discriminate. }
  destruct (Z.of_nat i mod 8 =? 0); cbn [app].
  - rewrite filter_cons_False by (intros H; by apply H). by rewrite filter_cons_True.
  - by rewrite filter_cons_True.
Qed.

(** [print_device_path] comes back on a well-formed device path, having printed each
    node up to and including the end node, in order; the dump of a node shows its type,
    its size and the value of each of its bytes. *)
Theorem print_device_path_correct m a ns e fuel s :
  path_at m a ns e -> (length ns < fuel)%nat ->
  print_device_path fuel m a s = Done (logs s (path_lines m a ns)) /\
  (forall dp n, node_at m dp n -> 0 <= dp -> dp + nsize n < 2 ^ 64 ->
     exists head body, dump_device_path m dp = head :: body ++ [NL] /\
       head = str "node_type: " ++ decimal (ntype n) ++ str " node_size: " ++ decimal (nsize n) ++ str " node_data:" /\
       filter (fun t => t <> NL) body = printed_bytes m dp (Z.to_nat (nsize n))).
Proof.
  intros Hp Hf. split; [by eapply print_device_path_spec|].
  intros dp n (Ht & _ & Hs & H4) Hd Hb. unfold dump_device_path. rewrite Ht, Hs.
  eexists _, _. split; [reflexivity|]. split; [reflexivity|].
  pose proof (node_bytes m dp (Z.to_nat (nsize n))) as H. rewrite Z2Nat.id in H by lia. by apply H.
Qed.

Lemma print_device_path_correct_witness : exists s',
  print_device_path 1 (store_bytes ∅ 0x1000 [0x7f; 0xff; 4; 0]) 0x1000 Logger.new = Done s'.
Proof.
  assert (Hp : path_at (store_bytes ∅ 0x1000 [0x7f; 0xff; 4; 0]) 0x1000 [] (mkNode 0x7f 0xff 4))
    by (vm_compute; repeat split; congruence).
  destruct (print_device_path_correct _ _ _ _ 1 Logger.new Hp ltac:(cbn; lia)) as [E _].
  eexists. exact E.
Defined.

(** ** The PCI bus *)

(** The lines for the devices from [device] on that answer with a vendor. *)
Definition bus_lines (cfg : Z -> Z -> Z) (devices : list Z) : list (list Z) :=
  concat (map (fun d => let vendor := u16 (cfg d 0) in
                        if vendor =? Pci.INVALID_VENDOR_ID then []
                        else [device_line vendor (u16 (Z.shiftr (cfg d 0) 16)) d]) devices).

Lemma print_from_spec {W} `{Bus W} cfg n : forall device s (w : W),
  (forall d, device <= d < device + Z.of_nat n -> config_space (W := W) 0 d 0 (cfg d)) ->
  exists w', print_from n device s w = Done (logs s (bus_lines cfg (seqZ device (Z.of_nat n))), w').
Proof.
  induction n as [|n IH]; intros device s w Hc; cbn [print_from].
  { exists w. done. }
  destruct (get_device_details_spec 0 device 0 (cfg device) (Hc device ltac:(lia)) w) as [w1 ->]. rstep.
  rewrite (seqZ_cons device (Z.of_nat (S n))) by lia.
  replace (Z.succ device) with (device + 1) by lia. replace (Z.pred (Z.of_nat (S n))) with (Z.of_nat n) by lia.
  unfold bus_lines. cbn [map concat]. fold (bus_lines cfg (seqZ (device + 1) (Z.of_nat n))).
  case_match.
  - apply IH. intros d Hd. apply Hc. lia.
  - destruct (IH (device + 1) (log s (device_line (u16 (cfg device 0)) (u16 (Z.shiftr (cfg device 0) 16)) device)) w1)
      as [w2 E]; [intros d Hd; apply Hc; lia|].
    exists w2. rewrite E. done.
Qed.

(** [print_bus] comes back and prints a line for each of the 32 devices of bus 0 whose
    first register holds a vendor, in order, with that register's two halves, and no
    other line. *)
Theorem print_bus_correct {W} `{Bus W} cfg s (w : W) :
  (forall d, 0 <= d < 32 -> config_space (W := W) 0 d 0 (cfg d)) ->
  exists w', print_bus s w = Done (logs s (bus_lines cfg (seqZ 0 32)), w').
Proof. intros Hc. apply (print_from_spec cfg 32). exact Hc. Qed.

(** A bus of empty slots. *)
#[local] Instance empty_bus : Bus unit := {|
  port_in w _ _ := (0xffffffff, w); port_out w _ _ _ := w; io_in w _ _ := (0, w); io_out w _ _ _ := w
|}.

Lemma print_bus_correct_witness : exists w', print_bus Logger.new tt = Done (Logger.new, w').
Proof.
  destruct (print_bus_correct (W := unit) (fun _ _ => 0xffffffff) Logger.new tt) as [w' E].
  - intros d Hd w offset Ho Hm. unfold Pci.pci_config_read_u32. rewrite Hm. unfold Pci.MAX_DEVICES.
    rewrite (proj2 (Z.ltb_lt d 32)) by lia. exists w. reflexivity.
  - exists w'. etrans; [exact E|]. vm_compute. reflexivity.
Defined.
